(* ===== verification/_CoqProject ===== *)
-Q . S2P
Prelude.v
Protocol.v
Shm.v
SharedMemory.v
Ring.v
Channel.v
Interleaving.v
RingRace.v
Gpio.v
App.v
ShmTransport.v
Cmdqu.v
Mailbox.v
CommMain.v
LinuxOs.v
LinuxSim.v
LinuxRtos.v
LinuxTime.v
LinuxRtosSpec.v
LinuxCall.v
LinuxLog.v
LinuxOpen.v
LinuxBatch.v
LinuxRemote.v
BoardInit.v
Strtoul.v
RtosCmd.v
Bench.v
BenchSpec.v
BenchWindow.v
BenchRun.v
ThreadBench.v
ThreadSim.v
ThreadPhase.v
ThreadWake.v
