(* ===== verification/Prelude.v ===== *)
(** * SG2002 inter-processor communication: a verification library

    The SG2002 runs Linux on a large core and FreeRTOS on a small one. The component
    [src/components/sg2002-ipc] lets Linux programs use the peripherals the small
    core drives. A request travels

      program -> linux/src/sg2002_rtos.c -> kernel driver -> shared-memory ring or
      mailbox -> comm_main.c -> sg2002_rtos_shm_transport.c -> sg2002_rtos_app.c ->
      gpio.c,

    and its answer travels back. This library models that path in C, except the
    kernel driver, and proves what each part promises to the next; then the programs
    of [tools/] that use it, and the code of U-Boot that prepares the boards. Paths
    below are relative to [src/components/sg2002-ipc], unless they start with [src/].

    ** The files

    - Prelude.v: machine words, byte buffers, the state monad [ST], automation, the
      lemmas all files share.
    - Protocol.v: [include/sg2002_rtos_protocol.h], command numbers and the packed
      GPIO and GET_INFO words, with their round trips.
    - Shm.v: [include/sg2002_rtos_shm.h], the shared objects, C structure layout as
      executable functions, and the static assertions of the header.
    - SharedMemory.v: no code of the repository. The region as one core sees it, a
      class with laws for loads, stores, invalidating and cleaning, and its two
      implementations: the write-back cache of the small core ([CachedMemory]) and
      the uncached mapping of Linux ([UncachedMemory]).
    - Ring.v: [core/sg2002_rtos_ring.c], the single-producer single-consumer ring.
    - Channel.v: the two ends of a ring on the two cores, as a step relation of whole
      operations with arbitrary cache evictions and refills between them.
      Interleaving.v: the same two ends access by access: the operations of Ring.v, run
      on a memory that records them, give the loads, stores, maintenance operations and
      fences that the machine interleaves with those of the other core and with the
      cache. RingRace.v: a program logic for such a machine (assertions kept by what
      the others do) and the proof that the ring is a queue in it.
    - Gpio.v: [ports/duo-sdk/.../driver/gpio], over a class of register interfaces.
    - App.v: [firmware/app/sg2002_rtos_app.c], execution of a command and framing of
      a message.
    - ShmTransport.v: [firmware/transport/sg2002_rtos_shm_transport.c], attachment
      to a generation, the drain loop, corruption.
    - Cmdqu.v: [ports/osdrv/include/rtos_cmdqu.h], the 8-byte mailbox command.
    - Mailbox.v: [firmware/transport/sg2002_rtos_mailbox.c], over a class of
      hardware that Linux may change between any two accesses.
    - CommMain.v: [ports/duo-sdk/.../comm_main.c], start-up, the interrupt, recovery
      and the command task, over classes for FreeRTOS and the vendor code.
    - LinuxOs.v: the system calls of the client library as a class ([Linux]), their
      documented behaviour ([LinuxLaws]) and their resource accounting
      ([LinuxResources]); LinuxSim.v is a concrete system with both.
    - LinuxRtos.v: [linux/src/sg2002_rtos.c], every function.
    - LinuxTime.v: deadlines and the wait for the kernel. LinuxRtosSpec.v: the
      retained responses as a queue, receiving. LinuxCall.v: synchronous calls.
      LinuxLog.v: whose response they return, on a system that records its messages.
      LinuxOpen.v: opening and closing. LinuxBatch.v: batches. LinuxRemote.v: the
      library's 32-bit operations, over the command queue and over shared memory,
      against App.v, ShmTransport.v and Gpio.v.
    - BoardInit.v: [src/configs/*/u-boot/cvi_board_init.c] of the three boards.
    - Strtoul.v: [strtoul] of the C library, which the tools parse numbers with.
      RtosCmd.v: [tools/rtos-cmd.c], every command, exit status and report.
    - Bench.v: [tools/rtos-bench.c], every function. BenchSpec.v: its messages and
      percentiles against App.v and the definition of a percentile. BenchWindow.v:
      the accounts of a windowed phase. BenchRun.v: its termination.
    - ThreadBench.v: [tools/rtos-thread-bench.c], every function, the workers as
      steps between those of the dispatcher. ThreadSim.v: a concrete system for it.
      ThreadPhase.v: the accounts of a phase, in every order of the steps.
      ThreadWake.v: the wake-up of the dispatcher, and the self-test of the tool.

    ** How state and operations correspond to the code

    Definitions keep the C names. A structure is a record; an enumeration is an
    inductive type with a [..._value] function; an unsigned integer is a [Z] with
    [u8], [u16], [u32] or [u64] written where the C type can wrap. A nullable
    pointer is an option. Out-parameters are results, and static variables are
    fields of the component's state. A buffer is a [list Z]; access outside it, and
    all other undefined behaviour, is [None], so a theorem that an operation returns
    [Some _] shows that there is none. Compiled-out branches (tracing, the fast
    image) are left out and named in the file's header.

    Outside code is a class: its operations are the arguments of the model, and the
    laws the theorems use are separate classes with an executable instance
    ([CachedMemory] in SharedMemory.v, [RegisterBank] in Gpio.v, [Board] in
    Mailbox.v, [Queues] in CommMain.v, [Sim] and [SimBoard] for Linux, [SimThreads]
    in ThreadSim.v for the tools), on which the witnesses are computed. The kernel and
    the firmware behind SEND_WAIT are [RemoteFirmware] (LinuxRemote.v), where a command
    may fail, or its reply come too late; [PromptFirmware] adds that replies come within
    the library's default timeout, for the theorems on the operations that use it.

    Loops: a loop bounded by the code is structural, or runs with the bound the code
    itself has (64 slots in [process_loop], 8 mailbox slots). The retry loops of the
    Linux library have no bound in the code and take a [fuel]; the theorems about
    them give a fuel that suffices and state that the operation returns: [2 * n + 2]
    turns, and at least 3, for [n] outstanding responses in
    [sg2002_rtos_message_call] (each turn either waits or takes one response, and a
    wait of less than 2^32 ms polls at most three times), one turn where the first
    attempt answers. A windowed phase of [n] requests ends with [4 * n + 3] turns, and
    at least 65, the most a window holds; the delay loop of U-Boot takes exactly 5000
    turns for a unit. The loops of the thread benchmark wait for other threads and end
    only if these run: its theorems hold for every fuel and every schedule, of what is
    true when a function returns, and the self-test is evaluated to its end.

    ** What the theorems show

    - The ring is a bounded FIFO of 64 messages for any state of the caches, counter
      wrap-around included; corrupted counters are detected; the channel makes progress
      between operations. With both cores in the middle of their operations, messages
      are still taken in order, once and unchanged, and full and empty are only
      reported when they are true; the machine that shows it runs exactly the operations
      of Ring.v.
    - The firmware drains requests in order, answers each with its own sequence
      number, stops at 64 or at a full response ring, reports corruption, and does
      nothing before Linux is ready.
    - Messages are answered as the framing says, inside the buffers; GPIO commands
      drive exactly the requested line.
    - The mailbox posts, takes and clears exactly the slots it should, with and
      without the lock; the interrupt, recovery and the task deliver every command
      to its queue once, its slot cleared, and answer it.
    - The Linux library returns to each caller the response to its own request, or
      times out when the clock shows that the time has passed, and keeps the others, in
      order, up to the 64 it can hold; opening leaks nothing on any path; 32-bit calls
      return what the firmware's handler answers, over either transport; GPIO,
      GET_INFO and PING reach the registers.
    - The command line performs the one operation it names, or says why not, and a
      number written in any base is read as it was meant.
    - The benchmark accepts exactly the answers the firmware gives, keeps one ticket
      for each request outstanding, ends, and reports nearest-rank percentiles. With
      threads, the counters of a phase are those of its workers in every interleaving,
      a phase that ends well did the work of every worker once, no wake-up of the
      dispatcher is lost, and no thread outlives its phase.
    - The boards configure the pads they list; the LicheeRV Nano pulses the reset line
      of its wireless module and lights its display; the delay loop ends, and has done
      all its divisions.

    ** Abstract specifications

    [spec_push] and [spec_pop] (Ring.v), the history of a [channel] (Channel.v) and of
    a [machine], with [honest] reports (RingRace.v), what the accesses to the mailbox
    [wrote] (Mailbox.v), the messages that pass to and from the kernel (LinuxLog.v),
    [spec_reply] and [framed] (App.v), [spec_drain] and [spec_serve]
    (ShmTransport.v), queues [delivered] to (CommMain.v), [spec_op] on the list of
    retained responses (LinuxRtosSpec.v), [request_bytes], [reply_bytes] and
    [nearest_rank] (BenchSpec.v), [spec_main] (RtosCmd.v), [accounted] tickets (BenchWindow.v) and [phase_ok]
    workers (ThreadPhase.v). The theorems relate the code to these.

    ** Not modelled

    - The kernel driver, which exists only as [ports/osdrv/patches] to a driver
      outside the repository: LinuxOs.v states what the library relies on.
    - Threads inside the client library: its mutexes are results of the system, and a
      call of the library is one step, also of the threads of ThreadBench.v. A condition
      variable may wake its waiter at any step, so a missing signal on one is not seen.
    - Memory ordering: in Interleaving.v the accesses of a core take effect in program
      order (the fences are accesses without effect) and an access is of a whole object.
      The Linux end of the ring is [core/sg2002_rtos_ring.c] on uncached memory; in the
      product it is the driver.
    - Signals do not interrupt [poll] in the systems of [LinuxLaws] and [BenchLaws]. The
      theorems over arbitrary systems (LinuxLog.v, LinuxOpen.v, BenchWindow.v,
      ThreadPhase.v) allow any error of any call.
    - The rates and means the benchmarks print, which are floating point; the text of
      what the tools print (the values are modelled).
    - [tests/], device trees, kernel configurations, scripts and vendor patches.

    ** Plan

    Next: the fallback of submitted batches and the full request ring; one theorem
    from the Linux call through the ring to [sg2002_rtos_shm_process], with the machine
    of Interleaving.v in place of the peer of LinuxOs.v; that a phase of the thread
    benchmark ends under a fair schedule. *)

From Stdlib Require Export ZArith Lia Bool ZifyBool Btauto.
From stdpp Require Export base numbers list gmap option strings.

Local Open Scope Z_scope.

(** ** Machine-width unsigned integers

    A C unsigned integer of width [w] is a [Z] in [0 .. 2^w - 1]; arithmetic
    that may leave the range is written with the explicit wrap-around. *)

Definition wrap (w z : Z) : Z := z mod 2 ^ w.

Definition in_range (w z : Z) : Prop := 0 <= z < 2 ^ w.

Abbreviation u8 := (wrap 8).
Abbreviation u16 := (wrap 16).
Abbreviation u32 := (wrap 32).
Abbreviation u64 := (wrap 64).
Abbreviation is_u8 := (in_range 8).
Abbreviation is_u16 := (in_range 16).
Abbreviation is_u32 := (in_range 32).
Abbreviation is_u64 := (in_range 64).

#[export] Instance in_range_dec w z : Decision (in_range w z).
Proof. unfold in_range. apply _. Defined.

(** Little-endian bytes of a word: what [memcpy] between a [uint32_t] and a
    byte array does on the RISC-V and Arm targets. *)
Fixpoint le_bytes (n : nat) (z : Z) : list Z :=
  match n with
  | O => []
  | S n => z mod 256 :: le_bytes n (z / 256)
  end.

Fixpoint le_value (bs : list Z) : Z :=
  match bs with
  | [] => 0
  | b :: bs => b + 256 * le_value bs
  end.

(** ** Byte buffers

    A buffer is a [list Z]; reading or writing outside it is undefined
    behaviour in C and is [None] here, so that a theorem that a function
    returns [Some _] is a memory-safety theorem. *)

Definition read_bytes (buf : list Z) (off n : nat) : option (list Z) :=
  if decide (off + n <= length buf)%nat
  then Some (take n (drop off buf)) else None.

Definition write_bytes (buf : list Z) (off : nat) (src : list Z) :
    option (list Z) :=
  if decide (off + length src <= length buf)%nat
  then Some (take off buf ++ src ++ drop (off + length src) buf) else None.

(** [memcpy(dst + doff, src + soff, n)]. *)
Definition memcpy (dst : list Z) (doff : nat) (src : list Z) (soff n : nat) :
    option (list Z) :=
  bs ← read_bytes src soff n; write_bytes dst doff bs.

Definition is_bytes (bs : list Z) : Prop := Forall is_u8 bs.

(** [array[i] = x]; [None] out of range. *)
Definition array_store {A} (array : list A) (i : Z) (x : A) : option (list A) :=
  if (0 <=? i) && (i <? Z.of_nat (length array))
  then Some (<[Z.to_nat i := x]> array) else None.

(** ** Stateful code

    A computation on a state [S] that may be undefined ([None]). The notations
    are stdpp's monad notations. *)
Definition ST (S A : Type) : Type := S -> option (A * S).

#[export] Instance st_ret S : MRet (ST S) := fun A a s => Some (a, s).
#[export] Instance st_bind S : MBind (ST S) := fun A B f m s =>
  match m s with
  | Some (a, s) => f a s
  | None => None
  end.

Definition gets {S A} (f : S -> A) : ST S A := fun s => Some (f s, s).
Definition modify {S} (f : S -> S) : ST S unit := fun s => Some (tt, f s).
Definition undefined {S A} : ST S A := fun _ => None.
Definition lift {S A} (o : option A) : ST S A :=
  match o with Some a => mret a | None => undefined end.

(** Running a computation on a component of the state. *)
Definition zoom {S T A} (get : S -> T) (set : T -> S -> S) (f : T -> A * T) : ST S A :=
  fun s => let '(a, t) := f (get s) in Some (a, set t s).

Fixpoint st_iter {S A} (f : A -> ST S unit) (l : list A) : ST S unit :=
  match l with
  | [] => mret tt
  | a :: l => f a;; st_iter f l
  end.

(** A computation that keeps an invariant of the state whatever it returns. *)
Definition preserves {S A} (invariant : S -> Prop) (m : ST S A) : Prop :=
  forall s a s', m s = Some (a, s') -> invariant s -> invariant s'.

(** ** Automation *)

(** Lemmas about ranges, byte buffers and shared memory are registered here. *)
Create HintDb sg2002.

(** [lia] also decides division and modulus by constants. *)
#[export] Ltac Zify.zify_post_hook ::=
  ZifyBool.elim_bool_cstr; Z.to_euclidean_division_equations.

(** Split the tests of the goal, and of the hypotheses, and solve the
    impossible combinations by arithmetic. *)
Ltac case_tests :=
  repeat match goal with
  | |- context [if ?b then _ else _] =>
      lazymatch type of b with
      | bool => destruct b eqn:?
      | _ => case_decide
      end; try lia
  end.

(** Run a stateful computation symbolically. *)
Ltac run_st :=
  unfold mbind, st_bind, mret, st_ret, gets, modify, lift, undefined, zoom in *;
  cbn beta iota.

(** Take a computation that returned apart, one step at a time. *)
Ltac step_inv E :=
  unfold mbind at 1, st_bind at 1 in E;
  lazymatch type of E with
  | match ?m with Some _ => _ | None => _ end = Some _ =>
      let F := fresh "Step" in destruct m as [[? ?]|] eqn:F; [|done]
  end;
  cbn beta iota in E.

(** [step_inv] with the result and the state named. *)
Ltac step_to E a s1 F :=
  unfold mbind at 1, st_bind at 1 in E;
  lazymatch type of E with
  | match ?m with Some _ => _ | None => _ end = Some _ =>
      destruct m as [[a s1]|] eqn:F; [|done]
  end;
  cbn beta iota in E.

Ltac word_unfold := unfold in_range, wrap in *.
Ltac word_lia := word_unfold; lia.

(** ** Generic lemmas *)

Lemma wrap_range w z : 0 <= w -> in_range w (wrap w z).
Proof. intros. unfold in_range, wrap. apply Z.mod_pos_bound. lia. Qed.

Lemma wrap_small w z : in_range w z -> wrap w z = z.
Proof. unfold in_range, wrap. intros. apply Z.mod_small. lia. Qed.

Lemma wrap_u8_range z : is_u8 (u8 z).
Proof. apply wrap_range. lia. Qed.

Lemma wrap_u32_range z : is_u32 (u32 z).
Proof. apply wrap_range. lia. Qed.

#[export] Hint Resolve wrap_u8_range wrap_u32_range : sg2002.

Lemma le_bytes_length n z : length (le_bytes n z) = n.
Proof. revert z. induction n; intros; simpl; auto. Qed.

Lemma le_bytes_range n z : is_bytes (le_bytes n z).
Proof.
  revert z. induction n; intros z; simpl; constructor.
  - apply (wrap_u8_range z).
  - apply IHn.
Qed.

Lemma le_value_bytes n z :
  0 <= z < 256 ^ Z.of_nat n -> le_value (le_bytes n z) = z.
Proof.
  revert z. induction n as [|n IH]; intros z Hz; simpl.
  - change (256 ^ Z.of_nat 0) with 1 in Hz. lia.
  - rewrite Nat2Z.inj_succ, Z.pow_succ_r in Hz by lia.
    rewrite IH by lia. lia.
Qed.

Lemma le_value_u32 z : is_u32 z -> le_value (le_bytes 4 z) = z.
Proof. intros Hz. apply le_value_bytes. exact Hz. Qed.

#[export] Hint Resolve le_bytes_length le_bytes_range : sg2002.

Lemma read_bytes_Some buf off n :
  (off + n <= length buf)%nat ->
  read_bytes buf off n = Some (take n (drop off buf)).
Proof. intros. unfold read_bytes. by case_decide. Qed.

Lemma write_bytes_Some buf off src :
  (off + length src <= length buf)%nat ->
  write_bytes buf off src =
    Some (take off buf ++ src ++ drop (off + length src) buf).
Proof. intros. unfold write_bytes. by case_decide. Qed.

Lemma write_bytes_length buf off src buf' :
  write_bytes buf off src = Some buf' -> length buf' = length buf.
Proof.
  unfold write_bytes. case_decide; [|done]. intros [= <-].
  rewrite !length_app, length_take, length_drop. lia.
Qed.

Lemma array_store_prefix {A} (prefix : list A) x rest c :
  array_store (prefix ++ x :: rest) (Z.of_nat (length prefix)) c =
    Some ((prefix ++ [c]) ++ rest).
Proof.
  unfold array_store. rewrite length_app. cbn [length].
  replace (_ && _) with true by lia.
  rewrite Nat2Z.id, <- app_assoc. f_equal.
  by rewrite <- (Nat.add_0_r (length prefix)), insert_app_r.
Qed.

(** Filters that agree on the elements of the list. *)
Lemma filter_ext_in {A} (P Q : A -> Prop) `{!forall x, Decision (P x)}
    `{!forall x, Decision (Q x)} (l : list A) :
  (forall x, x ∈ l -> P x <-> Q x) -> filter P l = filter Q l.
Proof.
  induction l as [|x l IH]; intros Hpq; [done|]. rewrite !filter_cons.
  rewrite IH by (intros y Hy; apply Hpq; by right).
  pose proof (Hpq x ltac:(by left)). by repeat case_decide; try tauto.
Qed.

(** ** Bit operations as arithmetic

    The rewrite base [word_arith] turns masks, shifts and disjoint [Z.lor] into
    division, modulus and addition, which [lia] decides. *)

Lemma land_mask n z : 0 <= n -> Z.land z (2 ^ n - 1) = z mod 2 ^ n.
Proof.
  intros. rewrite <- Z.land_ones by lia. f_equal.
  rewrite Z.ones_equiv. lia.
Qed.

Lemma land_0x1 z : Z.land z 1 = z mod 2.
Proof. exact (land_mask 1 z ltac:(lia)). Qed.
Lemma land_0x3f z : Z.land z 63 = z mod 64.
Proof. exact (land_mask 6 z ltac:(lia)). Qed.
Lemma land_0xff z : Z.land z 255 = z mod 256.
Proof. exact (land_mask 8 z ltac:(lia)). Qed.
Lemma land_0xffff z : Z.land z 65535 = z mod 65536.
Proof. exact (land_mask 16 z ltac:(lia)). Qed.

Lemma shiftl_mul n z : 0 <= n -> Z.shiftl z n = z * 2 ^ n.
Proof. intros. by apply Z.shiftl_mul_pow2. Qed.
Lemma shiftr_div n z : 0 <= n -> Z.shiftr z n = z / 2 ^ n.
Proof. intros. by apply Z.shiftr_div_pow2. Qed.

(** [Z.lor] of a word shifted left over a word that fits below it is a sum. *)
Lemma lor_shifted n a b :
  0 <= n -> in_range n b -> Z.lor (a * 2 ^ n) b = a * 2 ^ n + b.
Proof.
  unfold in_range. intros Hn Hb. rewrite <- Z.shiftl_mul_pow2 by lia.
  symmetry. apply Z.add_nocarry_lor.
  apply Z.bits_inj'. intros i Hi. rewrite Z.land_spec, Z.bits_0.
  destruct (decide (i < n)).
  - by rewrite Z.shiftl_spec_low by lia.
  - replace (Z.testbit b i) with false; [apply andb_false_r|].
    rewrite <- (Z.mod_small b (2 ^ n)) by lia.
    by rewrite Z.mod_pow2_bits_high by lia.
Qed.

Lemma lor_shifted_l n a b :
  0 <= n -> in_range n b -> Z.lor b (a * 2 ^ n) = b + a * 2 ^ n.
Proof. intros. rewrite Z.lor_comm, lor_shifted by done. lia. Qed.

(** Packing a field of [n] bits at bit [k] under a field at bit [n + k]. *)
Lemma lor_fields n k a b :
  0 <= n -> 0 <= k -> in_range n b ->
  Z.lor (a * 2 ^ (n + k)) (b * 2 ^ k) = (a * 2 ^ n + b) * 2 ^ k.
Proof.
  intros. rewrite Z.pow_add_r, Z.mul_assoc by lia.
  rewrite <- (lor_shifted n a b), <- !(Z.shiftl_mul_pow2 _ k) by done.
  symmetry. apply Z.shiftl_lor.
Qed.

Lemma preserves_bind {S A B} (invariant : S -> Prop) (m : ST S A) (f : A -> ST S B) :
  preserves invariant m -> (forall a, preserves invariant (f a)) ->
  preserves invariant (x ← m; f x).
Proof. intros Hm Hf s b s' E Hs. step_to E a s1 F. eapply Hf; [exact E|]. by eapply Hm. Qed.

Create Rewrite HintDb word_arith.
#[export] Hint Rewrite land_0x1 land_0x3f land_0xff land_0xffff : word_arith.
#[export] Hint Rewrite shiftl_mul shiftr_div using lia : word_arith.

Ltac word_arith := autorewrite with word_arith in *; word_lia.

Lemma lxor_range w a b : 0 <= w -> in_range w a -> in_range w b -> in_range w (Z.lxor a b).
Proof.
  unfold in_range. intros Hw Ha Hb.
  assert (H0 : 0 <= Z.lxor a b) by (apply Z.lxor_nonneg; lia). split; [done|].
  destruct (decide (Z.lxor a b = 0)) as [->|]; [lia|].
  apply Z.log2_lt_pow2; [lia|].
  eapply Z.le_lt_trans; [apply Z.log2_lxor; lia|].
  destruct (decide (a = 0)) as [->|], (decide (b = 0)) as [->|];
    rewrite ?Z.lxor_0_l, ?Z.lxor_0_r in *; try lia.
  - rewrite Z.max_r by apply Z.log2_nonneg. apply Z.log2_lt_pow2; lia.
  - rewrite Z.max_l by apply Z.log2_nonneg. apply Z.log2_lt_pow2; lia.
  - apply Z.max_lub_lt; apply Z.log2_lt_pow2; lia.
Qed.
