(* ===== verification/Protocol.v ===== *)
(** * Application protocol words: [include/sg2002_rtos_protocol.h]

    Command identifiers, the two packed 32-bit words of the protocol (the
    capability word of [GET_INFO] and the argument of the GPIO commands) and
    the reserved error replies, with the packing round trips. *)

From S2P Require Import Prelude.
Local Open Scope Z_scope.

Definition SG2002_RTOS_CMD_FIRST : Z := 0x60.
Definition SG2002_RTOS_CMD_LAST : Z := 0x7e.

(** [enum sg2002_rtos_command]; the enumerators follow [CMD_FIRST]. *)
Inductive sg2002_rtos_command :=
| SG2002_RTOS_CMD_PING
| SG2002_RTOS_CMD_GPIO_SET
| SG2002_RTOS_CMD_GPIO_GET
| SG2002_RTOS_CMD_GET_INFO
| SG2002_RTOS_CMD_ECHO.

Definition command_value (c : sg2002_rtos_command) : Z :=
  match c with
  | SG2002_RTOS_CMD_PING => SG2002_RTOS_CMD_FIRST
  | SG2002_RTOS_CMD_GPIO_SET => SG2002_RTOS_CMD_FIRST + 1
  | SG2002_RTOS_CMD_GPIO_GET => SG2002_RTOS_CMD_FIRST + 2
  | SG2002_RTOS_CMD_GET_INFO => SG2002_RTOS_CMD_FIRST + 3
  | SG2002_RTOS_CMD_ECHO => SG2002_RTOS_CMD_FIRST + 4
  end.

(** The [case] labels of a [switch] over a command byte. *)
Definition command_of (b : Z) : option sg2002_rtos_command :=
  if b =? command_value SG2002_RTOS_CMD_PING then Some SG2002_RTOS_CMD_PING
  else if b =? command_value SG2002_RTOS_CMD_GPIO_SET
  then Some SG2002_RTOS_CMD_GPIO_SET
  else if b =? command_value SG2002_RTOS_CMD_GPIO_GET
  then Some SG2002_RTOS_CMD_GPIO_GET
  else if b =? command_value SG2002_RTOS_CMD_GET_INFO
  then Some SG2002_RTOS_CMD_GET_INFO
  else if b =? command_value SG2002_RTOS_CMD_ECHO
  then Some SG2002_RTOS_CMD_ECHO
  else None.

Definition SG2002_RTOS_PING_XOR : Z := 0xa5a55a5a.

Definition SG2002_RTOS_VALUE_MESSAGE_SIZE : Z := 5.
Definition SG2002_RTOS_VALUE_MESSAGE_COMMAND_OFFSET : nat := 0.
Definition SG2002_RTOS_VALUE_MESSAGE_VALUE_OFFSET : nat := 1.

Definition SG2002_RTOS_PROTOCOL_MAJOR : Z := 1.
Definition SG2002_RTOS_PROTOCOL_MINOR : Z := 0.
Definition SG2002_RTOS_INFO_MAGIC : Z := 0xa5.
Definition SG2002_RTOS_CAP_GPIO : Z := Z.shiftl 1 0.
Definition SG2002_RTOS_CAP_ECHO : Z := Z.shiftl 1 1.
Definition SG2002_RTOS_CAPABILITIES : Z :=
  Z.lor SG2002_RTOS_CAP_GPIO SG2002_RTOS_CAP_ECHO.

Definition SG2002_RTOS_INFO_ENCODE (major minor capabilities : Z) : Z :=
  Z.lor (Z.lor (Z.lor (u32 (Z.shiftl (u32 SG2002_RTOS_INFO_MAGIC) 24))
                      (u32 (Z.shiftl (Z.land (u32 major) 0xff) 16)))
               (u32 (Z.shiftl (Z.land (u32 minor) 0xff) 8)))
        (Z.land (u32 capabilities) 0xff).
Definition SG2002_RTOS_INFO_VALUE : Z :=
  SG2002_RTOS_INFO_ENCODE SG2002_RTOS_PROTOCOL_MAJOR
    SG2002_RTOS_PROTOCOL_MINOR SG2002_RTOS_CAPABILITIES.
Definition SG2002_RTOS_INFO_IS_VALID (value : Z) : bool :=
  Z.land (Z.shiftr (u32 value) 24) 0xff =? SG2002_RTOS_INFO_MAGIC.
Definition SG2002_RTOS_INFO_MAJOR (value : Z) : Z :=
  Z.land (Z.shiftr (u32 value) 16) 0xff.
Definition SG2002_RTOS_INFO_MINOR (value : Z) : Z :=
  Z.land (Z.shiftr (u32 value) 8) 0xff.
Definition SG2002_RTOS_INFO_CAPABILITIES (value : Z) : Z :=
  Z.land (u32 value) 0xff.

Definition SG2002_RTOS_GPIO_PIN_SHIFT : Z := 16.
Definition SG2002_RTOS_GPIO_PIN_MASK : Z := 0xffff.
Definition SG2002_RTOS_GPIO_VALUE_MASK : Z := 0x1.
Definition SG2002_RTOS_GPIO_ENCODE (pin value : Z) : Z :=
  Z.lor (u32 (Z.shiftl (Z.land (u32 pin) SG2002_RTOS_GPIO_PIN_MASK)
                       SG2002_RTOS_GPIO_PIN_SHIFT))
        (Z.land (u32 value) SG2002_RTOS_GPIO_VALUE_MASK).
Definition SG2002_RTOS_GPIO_PIN (value : Z) : Z :=
  Z.land (Z.shiftr (u32 value) SG2002_RTOS_GPIO_PIN_SHIFT)
         SG2002_RTOS_GPIO_PIN_MASK.
Definition SG2002_RTOS_GPIO_VALUE (value : Z) : Z :=
  Z.land (u32 value) SG2002_RTOS_GPIO_VALUE_MASK.

Definition SG2002_RTOS_RESPONSE_INVALID_ARGUMENT : Z := 0xfffffffe.
Definition SG2002_RTOS_RESPONSE_UNSUPPORTED : Z := 0xffffffff.

(** ** Packing as arithmetic *)

Lemma INFO_ENCODE_arith major minor capabilities :
  SG2002_RTOS_INFO_ENCODE major minor capabilities =
    0xa5 * 2 ^ 24 + (major mod 256) * 2 ^ 16 + (minor mod 256) * 2 ^ 8 +
    capabilities mod 256.
Proof.
  unfold SG2002_RTOS_INFO_ENCODE, SG2002_RTOS_INFO_MAGIC.
  autorewrite with word_arith.
  rewrite (wrap_small 32 165), !(wrap_small 32 (_ * _)) by word_lia.
  change (165 * 2 ^ 24) with (165 * 2 ^ (8 + 16)).
  rewrite lor_fields by word_lia.
  change (2 ^ 16) with (2 ^ (8 + 8)). rewrite lor_fields by word_lia.
  rewrite lor_shifted by word_lia. word_lia.
Qed.

Lemma GPIO_ENCODE_arith pin value :
  SG2002_RTOS_GPIO_ENCODE pin value = (pin mod 65536) * 2 ^ 16 + value mod 2.
Proof.
  unfold SG2002_RTOS_GPIO_ENCODE, SG2002_RTOS_GPIO_PIN_MASK,
    SG2002_RTOS_GPIO_PIN_SHIFT, SG2002_RTOS_GPIO_VALUE_MASK.
  autorewrite with word_arith. rewrite (wrap_small 32 (_ * _)) by word_lia.
  rewrite lor_shifted by word_lia. word_lia.
Qed.

Lemma GPIO_VALUE_range value :
  SG2002_RTOS_GPIO_VALUE value = 0 \/ SG2002_RTOS_GPIO_VALUE value = 1.
Proof.
  unfold SG2002_RTOS_GPIO_VALUE, SG2002_RTOS_GPIO_VALUE_MASK. word_arith.
Qed.

Lemma gpio_word_fields pin value :
  is_u16 pin -> in_range 1 value ->
  SG2002_RTOS_GPIO_PIN (SG2002_RTOS_GPIO_ENCODE pin value) = pin /\
  SG2002_RTOS_GPIO_VALUE (SG2002_RTOS_GPIO_ENCODE pin value) = value.
Proof.
  intros Hp Hv. rewrite GPIO_ENCODE_arith.
  unfold SG2002_RTOS_GPIO_PIN, SG2002_RTOS_GPIO_PIN_MASK,
    SG2002_RTOS_GPIO_PIN_SHIFT, SG2002_RTOS_GPIO_VALUE,
    SG2002_RTOS_GPIO_VALUE_MASK.
  split; word_arith.
Qed.

(** The capability word unpacked: the accessors are byte selections. *)
Lemma info_word_fields major minor capabilities :
  is_u8 major -> is_u8 minor -> is_u8 capabilities ->
  let info := SG2002_RTOS_INFO_ENCODE major minor capabilities in
  is_u32 info /\ SG2002_RTOS_INFO_IS_VALID info = true /\
  SG2002_RTOS_INFO_MAJOR info = major /\ SG2002_RTOS_INFO_MINOR info = minor /\
  SG2002_RTOS_INFO_CAPABILITIES info = capabilities.
Proof.
  intros H1 H2 H3 info. unfold info. rewrite INFO_ENCODE_arith.
  unfold SG2002_RTOS_INFO_IS_VALID, SG2002_RTOS_INFO_MAJOR, SG2002_RTOS_INFO_MINOR,
    SG2002_RTOS_INFO_CAPABILITIES, SG2002_RTOS_INFO_MAGIC.
  split_and!; word_arith.
Qed.

(** ** Properties *)

(** The packed words round-trip: a pin and a level packed into a GPIO
    argument are recovered exactly, and a version and capability byte packed
    into a GET_INFO word are recovered exactly and the word is recognised as
    valid. *)
Theorem protocol_words_roundtrip pin value major minor capabilities :
  is_u16 pin -> in_range 1 value ->
  is_u8 major -> is_u8 minor -> is_u8 capabilities ->
  (SG2002_RTOS_GPIO_PIN (SG2002_RTOS_GPIO_ENCODE pin value) = pin /\
   SG2002_RTOS_GPIO_VALUE (SG2002_RTOS_GPIO_ENCODE pin value) = value) /\
  let info := SG2002_RTOS_INFO_ENCODE major minor capabilities in
  SG2002_RTOS_INFO_IS_VALID info = true /\
  SG2002_RTOS_INFO_MAJOR info = major /\ SG2002_RTOS_INFO_MINOR info = minor /\
  SG2002_RTOS_INFO_CAPABILITIES info = capabilities.
Proof.
  intros. split; [by apply gpio_word_fields|]. by apply info_word_fields.
Qed.

Lemma protocol_words_roundtrip_witness :
  (SG2002_RTOS_GPIO_PIN (SG2002_RTOS_GPIO_ENCODE 0xb0a 1) = 0xb0a /\
   SG2002_RTOS_GPIO_VALUE (SG2002_RTOS_GPIO_ENCODE 0xb0a 1) = 1) /\
  let info := SG2002_RTOS_INFO_ENCODE 1 0 3 in
  SG2002_RTOS_INFO_IS_VALID info = true /\
  SG2002_RTOS_INFO_MAJOR info = 1 /\ SG2002_RTOS_INFO_MINOR info = 0 /\
  SG2002_RTOS_INFO_CAPABILITIES info = 3.
Proof. apply (protocol_words_roundtrip 0xb0a 1 1 0 3); unfold in_range; lia. Defined.
