(* ===== verification/Shm.v ===== *)
(** * Shared-memory region: [include/sg2002_rtos_shm.h]

    The region constants, the records of the control page and of a slot, the C
    layout of the structures (sizes, alignments and offsets under the natural
    alignment rules of the RISC-V and Arm ABIs) and the placement of every
    object of the region on its own cache lines. *)

From S2P Require Import Prelude.
Local Open Scope Z_scope.

(** ** Constants *)

Definition SG2002_RTOS_SHM_MAGIC : Z := 0x53475251.
Definition SG2002_RTOS_SHM_ABI_VERSION : Z := 2.
Definition SG2002_RTOS_SHM_FEATURE_GENERATION : Z := Z.shiftl 1 0.
Definition SG2002_RTOS_SHM_FEATURES : Z := SG2002_RTOS_SHM_FEATURE_GENERATION.

Definition SG2002_RTOS_SHM_CACHE_LINE_SIZE : Z := 64.
Definition SG2002_RTOS_SHM_CONTROL_SIZE : Z := 0x1000.
Definition SG2002_RTOS_SHM_SLOT_SIZE : Z := 1024.
Definition SG2002_RTOS_SHM_SLOT_COUNT : Z := 64.
Definition SG2002_RTOS_SHM_SLOT_HEADER_SIZE : Z := 6.
Definition SG2002_RTOS_SHM_PAYLOAD_SIZE : Z :=
  SG2002_RTOS_SHM_SLOT_SIZE - SG2002_RTOS_SHM_SLOT_HEADER_SIZE.
Definition SG2002_RTOS_SHM_REQUEST_OFFSET : Z := SG2002_RTOS_SHM_CONTROL_SIZE.
Definition SG2002_RTOS_SHM_RING_SIZE : Z :=
  SG2002_RTOS_SHM_SLOT_SIZE * SG2002_RTOS_SHM_SLOT_COUNT.
Definition SG2002_RTOS_SHM_RESPONSE_OFFSET : Z :=
  SG2002_RTOS_SHM_REQUEST_OFFSET + SG2002_RTOS_SHM_RING_SIZE.
Definition SG2002_RTOS_SHM_REGION_SIZE : Z :=
  SG2002_RTOS_SHM_RESPONSE_OFFSET + SG2002_RTOS_SHM_RING_SIZE.

Definition SG2002_RTOS_SHM_DOORBELL_COMMAND : Z := 0x7f.

Definition SG2002_RTOS_SHM_STATE_OFFLINE : Z := 0.
Definition SG2002_RTOS_SHM_STATE_READY : Z := 1.
Definition SG2002_RTOS_SHM_STATE_ERROR : Z := 2.

(** ** Records *)

(** [struct sg2002_rtos_shm_slot]; the field [length] is [msg_length] here. *)
Record slot := Slot {
  sequence : Z;
  msg_length : Z;
  payload : list Z;
}.

(** [struct sg2002_rtos_shm_layout_line], without the reserved bytes, which no
    code reads or writes. *)
Record layout_line := LayoutLine {
  magic : Z;
  abi_version : Z;
  control_size : Z;
  region_size : Z;
  slot_size : Z;
  slot_count : Z;
  request_offset : Z;
  response_offset : Z;
  layout_generation : Z;
  features : Z;
}.

(** [struct sg2002_rtos_shm_peer_line]. *)
Record peer_line := PeerLine {
  state : Z;
  peer_generation : Z;
}.

(** [struct sg2002_rtos_shm_counter_line]: its only live field is [value]. *)
Record counter_line := CounterLine { value : Z }.

(** [struct sg2002_rtos_shm_info], what the kernel answers to [ACQUIRE]. *)
Record shm_info := ShmInfo {
  info_abi_version : Z;
  info_region_size : Z;
  info_control_size : Z;
  info_slot_size : Z;
  info_slot_count : Z;
  info_payload_size : Z;
  info_generation : Z;
  info_features : Z;
}.

(** A slot as the C type can hold it: field ranges and the array length. *)
Definition slot_wf (s : slot) : Prop :=
  is_u32 (sequence s) /\ is_u16 (msg_length s) /\ is_bytes (payload s) /\
  length (payload s) = Z.to_nat SG2002_RTOS_SHM_PAYLOAD_SIZE.

(** [memset(slot, 0, sizeof *slot)], also the contents of zeroed memory. *)
Definition zero_payload : list Z :=
  replicate (Z.to_nat SG2002_RTOS_SHM_PAYLOAD_SIZE) 0.
Definition zero_slot : slot := Slot 0 0 zero_payload.

(** ** C structure layout *)

Inductive ctype :=
| U8 | U16 | U32
| U64                                  (* [aligned(8)] on every target *)
| Arr (t : ctype) (n : Z)
| Struct (fields : list ctype).

Fixpoint alignof (t : ctype) : Z :=
  match t with
  | U8 => 1 | U16 => 2 | U32 => 4 | U64 => 8
  | Arr t _ => alignof t
  | Struct ts => fold_right (fun t a => Z.max (alignof t) a) 1 ts
  end.

Definition align_up (a off : Z) : Z := (off + a - 1) / a * a.

Fixpoint sizeof (t : ctype) : Z :=
  match t with
  | U8 => 1 | U16 => 2 | U32 => 4 | U64 => 8
  | Arr t n => sizeof t * n
  | Struct ts =>
      align_up (alignof (Struct ts))
        (fold_left (fun off t => align_up (alignof t) off + sizeof t) ts 0)
  end.

(** Offset of field [i] of a structure. *)
Definition offsetof (ts : list ctype) (i : nat) : Z :=
  let off := fold_left (fun off t => align_up (alignof t) off + sizeof t)
               (take i ts) 0 in
  match ts !! i with
  | Some t => align_up (alignof t) off
  | None => off
  end.

Definition slot_fields : list ctype :=
  [U32; U16; Arr U8 SG2002_RTOS_SHM_PAYLOAD_SIZE].
Definition layout_line_fields : list ctype :=
  [U32; U16; U16; U32; U16; U16; U32; U32; U32; U32; Arr U8 32].
Definition peer_line_fields : list ctype := [U32; U32; Arr U8 56].
Definition counter_line_fields : list ctype := [U32; Arr U8 60].
Definition control_fields : list ctype :=
  [Struct layout_line_fields; Struct peer_line_fields; Struct peer_line_fields;
   Struct counter_line_fields; Struct counter_line_fields;
   Struct counter_line_fields; Struct counter_line_fields;
   Arr U8 (SG2002_RTOS_SHM_CONTROL_SIZE - SG2002_RTOS_SHM_CACHE_LINE_SIZE * 7)].
Definition transfer_fields : list ctype := [U32; Struct slot_fields].
Definition batch_fields : list ctype :=
  [U64; U32; U32; U16; U16; U32; Arr U32 2].

(** The [_Static_assert]s of the header, in order. *)
Definition static_asserts : list bool :=
  [ sizeof (Struct slot_fields) =? SG2002_RTOS_SHM_SLOT_SIZE;
    offsetof slot_fields 2 =? SG2002_RTOS_SHM_SLOT_HEADER_SIZE;
    sizeof (Struct transfer_fields) =? 1028;
    sizeof (Struct batch_fields) =? 32;
    (offsetof batch_fields 0 =? 0) && (offsetof batch_fields 1 =? 8) &&
    (offsetof batch_fields 2 =? 12) && (offsetof batch_fields 3 =? 16) &&
    (offsetof batch_fields 4 =? 18) && (offsetof batch_fields 5 =? 20) &&
    (offsetof batch_fields 6 =? 24);
    Z.land SG2002_RTOS_SHM_SLOT_COUNT (SG2002_RTOS_SHM_SLOT_COUNT - 1) =? 0;
    sizeof (Struct layout_line_fields) =? SG2002_RTOS_SHM_CACHE_LINE_SIZE;
    sizeof (Struct peer_line_fields) =? SG2002_RTOS_SHM_CACHE_LINE_SIZE;
    sizeof (Struct counter_line_fields) =? SG2002_RTOS_SHM_CACHE_LINE_SIZE;
    sizeof (Struct control_fields) =? SG2002_RTOS_SHM_CONTROL_SIZE ].

(** ** Objects of the region *)

(** The objects of the region: the seven lines of the control page, in field
    order, and the slots of the two rings. *)
Inductive object :=
| Layout
| LinuxPeer
| RtosPeer
| RequestProducer
| RequestConsumer
| ResponseProducer
| ResponseConsumer
| RequestSlot (i : Z)
| ResponseSlot (i : Z).

Definition object_valid (o : object) : Prop :=
  match o with
  | RequestSlot i | ResponseSlot i => 0 <= i < SG2002_RTOS_SHM_SLOT_COUNT
  | _ => True
  end.

Definition object_offset (o : object) : Z :=
  match o with
  | Layout => offsetof control_fields 0
  | LinuxPeer => offsetof control_fields 1
  | RtosPeer => offsetof control_fields 2
  | RequestProducer => offsetof control_fields 3
  | RequestConsumer => offsetof control_fields 4
  | ResponseProducer => offsetof control_fields 5
  | ResponseConsumer => offsetof control_fields 6
  | RequestSlot i =>
      SG2002_RTOS_SHM_REQUEST_OFFSET + sizeof (Struct slot_fields) * i
  | ResponseSlot i =>
      SG2002_RTOS_SHM_RESPONSE_OFFSET + sizeof (Struct slot_fields) * i
  end.

Definition object_size (o : object) : Z :=
  match o with
  | RequestSlot _ | ResponseSlot _ => SG2002_RTOS_SHM_SLOT_SIZE
  | _ => SG2002_RTOS_SHM_CACHE_LINE_SIZE
  end.

Lemma object_offset_values :
  object_offset Layout = 0 /\ object_offset LinuxPeer = 64 /\
  object_offset RtosPeer = 128 /\ object_offset RequestProducer = 192 /\
  object_offset RequestConsumer = 256 /\ object_offset ResponseProducer = 320 /\
  object_offset ResponseConsumer = 384 /\
  (forall i, object_offset (RequestSlot i) = 4096 + 1024 * i) /\
  (forall i, object_offset (ResponseSlot i) = 69632 + 1024 * i).
Proof. repeat split. Qed.

(** Every object lies on whole lines inside the region. *)
Lemma object_in_region o :
  object_valid o ->
  object_offset o mod SG2002_RTOS_SHM_CACHE_LINE_SIZE = 0 /\
  object_size o mod SG2002_RTOS_SHM_CACHE_LINE_SIZE = 0 /\
  0 <= object_offset o /\
  object_offset o + object_size o <= SG2002_RTOS_SHM_REGION_SIZE.
Proof.
  destruct object_offset_values as (E1 & E2 & E3 & E4 & E5 & E6 & E7 & E8 & E9).
  unfold object_valid, SG2002_RTOS_SHM_SLOT_COUNT.
  change SG2002_RTOS_SHM_REGION_SIZE with 135168.
  unfold object_size, SG2002_RTOS_SHM_CACHE_LINE_SIZE, SG2002_RTOS_SHM_SLOT_SIZE.
  destruct o; rewrite ?E1, ?E2, ?E3, ?E4, ?E5, ?E6, ?E7, ?E8, ?E9; lia.
Qed.

Lemma objects_disjoint o1 o2 :
  object_valid o1 -> object_valid o2 -> o1 <> o2 ->
  object_offset o1 + object_size o1 <= object_offset o2 \/
  object_offset o2 + object_size o2 <= object_offset o1.
Proof.
  destruct object_offset_values as (E1 & E2 & E3 & E4 & E5 & E6 & E7 & E8 & E9).
  unfold object_valid, SG2002_RTOS_SHM_SLOT_COUNT.
  unfold object_size, SG2002_RTOS_SHM_CACHE_LINE_SIZE, SG2002_RTOS_SHM_SLOT_SIZE.
  destruct o1, o2; rewrite ?E1, ?E2, ?E3, ?E4, ?E5, ?E6, ?E7, ?E8, ?E9;
    intros H1 H2 Hne; try lia; try by destruct Hne.
  - assert (i <> i0) by congruence. lia.
  - assert (i <> i0) by congruence. lia.
Qed.

Lemma zero_slot_wf : slot_wf zero_slot.
Proof.
  unfold slot_wf, zero_slot, zero_payload, is_bytes.
  cbn [sequence msg_length payload].
  split_and!; [word_lia|word_lia| |by rewrite length_replicate].
  apply Forall_replicate. word_lia.
Qed.
#[export] Hint Resolve zero_slot_wf : sg2002.

(** ** Properties *)

(** Every [_Static_assert] of the header holds of the structure layouts. *)
Example static_asserts_hold : Forall (eq true) static_asserts.
Proof. repeat constructor. Qed.

(** The objects of the region never share a cache line: each is aligned on
    a line, occupies whole lines inside the region, and two distinct objects
    occupy disjoint byte ranges. Cache maintenance of one object therefore
    never touches another. *)
Theorem objects_own_their_lines o1 o2 :
  object_valid o1 -> object_valid o2 ->
  object_offset o1 mod SG2002_RTOS_SHM_CACHE_LINE_SIZE = 0 /\
  object_size o1 mod SG2002_RTOS_SHM_CACHE_LINE_SIZE = 0 /\
  0 <= object_offset o1 /\
  object_offset o1 + object_size o1 <= SG2002_RTOS_SHM_REGION_SIZE /\
  (o1 <> o2 ->
   object_offset o1 + object_size o1 <= object_offset o2 \/
   object_offset o2 + object_size o2 <= object_offset o1).
Proof.
  intros H1 H2. destruct (object_in_region o1 H1) as (? & ? & ? & ?).
  eauto 10 using objects_disjoint.
Qed.

Lemma objects_own_their_lines_witness :
  object_offset (RequestSlot 63) mod 64 = 0 /\
  object_size (RequestSlot 63) mod 64 = 0 /\
  0 <= object_offset (RequestSlot 63) /\
  object_offset (RequestSlot 63) + object_size (RequestSlot 63) <= 135168 /\
  (RequestSlot 63 <> ResponseSlot 0 ->
   object_offset (RequestSlot 63) + object_size (RequestSlot 63)
     <= object_offset (ResponseSlot 0) \/
   object_offset (ResponseSlot 0) + object_size (ResponseSlot 0)
     <= object_offset (RequestSlot 63)).
Proof.
  apply (objects_own_their_lines (RequestSlot 63) (ResponseSlot 0));
    cbv; split; congruence.
Defined.
