(* ===== verification/SharedMemory.v ===== *)
(** * Shared memory as one core sees it

    The region is main memory shared by two cores. The C906L reaches it
    through a write-back cache that is not coherent with the Linux side, so its
    code invalidates before reading and cleans after writing; Linux maps the
    region uncached. The two accessors and the two maintenance primitives
    ([inv_dcache_range], [clean_dcache_range]) are vendor code and hardware,
    hence an interface here: the class [SharedMemory] has the operations, the
    class [SharedMemoryLaws] their documented effect on three observations of
    each object: what the core's next load returns ([cpu]), what main memory
    holds ([dram], which is what the other core sees) and whether the core owes
    main memory a write ([dirty]).

    [CachedMemory] (a write-back cache with stale lines and dirty lines) and
    [UncachedMemory] implement the interface. *)

From S2P Require Import Prelude Shm.
Local Open Scope Z_scope.

(** ** Typed objects *)

Inductive kind := KLayout | KPeer | KCounter | KSlot.

#[export] Instance kind_eq_dec : EqDecision kind.
Proof. solve_decision. Defined.

#[export] Instance kind_countable : Countable kind.
Proof.
  refine (inj_countable'
    (fun k => match k with
       KLayout => 0%nat | KPeer => 1%nat | KCounter => 2%nat | KSlot => 3%nat end)
    (fun n => match n with
       0%nat => KLayout | 1%nat => KPeer | 2%nat => KCounter | _ => KSlot end) _).
  by intros [].
Defined.

(** The C type of an object, and its size in bytes. *)
Definition val (k : kind) : Type :=
  match k with
  | KLayout => layout_line
  | KPeer => peer_line
  | KCounter => counter_line
  | KSlot => slot
  end.

Definition size_of (k : kind) : Z :=
  match k with
  | KLayout => sizeof (Struct layout_line_fields)
  | KPeer => sizeof (Struct peer_line_fields)
  | KCounter => sizeof (Struct counter_line_fields)
  | KSlot => sizeof (Struct slot_fields)
  end.

(** What is known of one object at one address. *)
Record observation (V : Type) := Obs { cpu : V; dram : V; dirty : bool }.
Arguments Obs {V}. Arguments cpu {V}. Arguments dram {V}. Arguments dirty {V}.

(** The object of kind [k] at [a] lies inside, or off, the range [[b, b+n)]. *)
Definition inside (k : kind) (a b n : Z) : Prop :=
  b <= a /\ a + size_of k <= b + n.
Definition off_range (k : kind) (a b n : Z) : Prop :=
  a + size_of k <= b \/ b + n <= a.

(** ** The interface *)

Class SharedMemory (M : Type) := {
  (** a [volatile] load or a [memcpy] out of the object *)
  load : forall k, M -> Z -> val k * M;
  (** a store of (some fields of) the object *)
  store : forall k, M -> Z -> (val k -> val k) -> M;
  inv_dcache_range : M -> Z -> Z -> M;
  clean_dcache_range : M -> Z -> Z -> M;
  (** [fence rw, rw] / [__sync_synchronize] *)
  fence : M -> M;
  obs : forall k, M -> Z -> observation (val k);
}.

Class SharedMemoryLaws (M : Type) `{SharedMemory M} := {
  load_value k m a : (load k m a).1 = cpu (obs k m a);
  load_obs k m a k' a' : obs k' (load k m a).2 a' = obs k' m a';
  store_cpu k m a f : cpu (obs k (store k m a f) a) = f (cpu (obs k m a));
  store_through k m a f :
    dirty (obs k (store k m a f) a) = false ->
    dram (obs k (store k m a f) a) = f (cpu (obs k m a));
  store_frame k m a f k' a' :
    off_range k' a' a (size_of k) -> obs k' (store k m a f) a' = obs k' m a';
  clean_inside k m a b n :
    inside k a b n ->
    obs k (clean_dcache_range m b n) a =
      Obs (cpu (obs k m a))
          (if dirty (obs k m a) then cpu (obs k m a) else dram (obs k m a))
          false;
  clean_frame k m a b n :
    off_range k a b n -> obs k (clean_dcache_range m b n) a = obs k m a;
  inv_inside k m a b n :
    inside k a b n -> dirty (obs k m a) = false ->
    obs k (inv_dcache_range m b n) a =
      Obs (dram (obs k m a)) (dram (obs k m a)) false;
  inv_frame k m a b n :
    off_range k a b n -> obs k (inv_dcache_range m b n) a = obs k m a;
  fence_obs k m a : obs k (fence m) a = obs k m a;
}.

(** Two memories a program cannot tell apart. *)
Definition same_obs `{SharedMemory M} (m m' : M) : Prop :=
  forall k a, obs k m a = obs k m' a.

#[export] Instance same_obs_equivalence `{SharedMemory M} :
  Equivalence (@same_obs M _).
Proof.
  split.
  - by intros m k a.
  - intros m m' E k a. by rewrite E.
  - intros m m' m'' E E' k a. by rewrite E.
Qed.

#[export] Instance obs_proper `{SharedMemory M} k :
  Proper (same_obs ==> eq ==> eq) (obs (M:=M) k).
Proof. intros m m' E a a' ->. apply E. Qed.

Lemma load_same `{SharedMemoryLaws M} k m a : same_obs (load k m a).2 m.
Proof. intros k' a'. apply load_obs. Qed.

(** An object as the other core left it: nothing of it is owed. *)
Definition settled `{SharedMemory M} (k : kind) (m : M) (a : Z) : Prop :=
  dirty (obs k m a) = false.

#[export] Instance settled_proper `{SharedMemory M} k :
  Proper (same_obs ==> eq ==> iff) (settled (M:=M) k).
Proof. intros m m' E a a' ->. unfold settled. by rewrite E. Qed.

Lemma size_of_positive k : 0 < size_of k.
Proof. by destruct k. Qed.

Lemma inside_self k a : inside k a a (size_of k).
Proof. unfold inside. lia. Qed.

(** A store followed by a clean of the whole object is in main memory. *)
Lemma store_clean `{SharedMemoryLaws M} k m a f b n :
  inside k a b n ->
  obs k (clean_dcache_range (store k m a f) b n) a =
    Obs (f (cpu (obs k m a))) (f (cpu (obs k m a))) false.
Proof.
  intros Hin. rewrite clean_inside, store_cpu by done. f_equal.
  destruct (dirty _) eqn:E; [done|]. by apply store_through.
Qed.

#[export] Hint Resolve size_of_positive inside_self : sg2002.
#[export] Hint Extern 1 (off_range _ _ _ _) => unfold off_range; lia : sg2002.

(** ** Untyped cells, for the two implementations *)

Inductive cell :=
| LayoutCell (l : layout_line) | PeerCell (p : peer_line)
| CounterCell (c : counter_line) | SlotCell (s : slot).

Definition to_cell (k : kind) : val k -> cell :=
  match k with
  | KLayout => LayoutCell | KPeer => PeerCell
  | KCounter => CounterCell | KSlot => SlotCell
  end.

(** Zeroed memory, when nothing was stored yet. *)
Definition zero_val (k : kind) : val k :=
  match k with
  | KLayout => LayoutLine 0 0 0 0 0 0 0 0 0 0
  | KPeer => PeerLine 0 0
  | KCounter => CounterLine 0
  | KSlot => zero_slot
  end.

Definition of_cell (k : kind) (c : option cell) : val k :=
  match k, c with
  | KLayout, Some (LayoutCell l) => l
  | KPeer, Some (PeerCell p) => p
  | KCounter, Some (CounterCell c) => c
  | KSlot, Some (SlotCell s) => s
  | k, _ => zero_val k
  end.

Lemma of_to_cell k v : of_cell k (Some (to_cell k v)) = v.
Proof. by destruct k. Qed.

(** Does a range operation on [[b, b+n)] touch the object? *)
Definition touches (b n : Z) (key : kind * Z) : bool :=
  (key.2 <? b + n) && (b <? key.2 + size_of key.1).

Lemma touches_inside k a b n : inside k a b n -> touches b n (k, a) = true.
Proof. pose proof (size_of_positive k). unfold inside, touches. simpl. lia. Qed.

Lemma touches_off k a b n : off_range k a b n -> touches b n (k, a) = false.
Proof. unfold off_range, touches. simpl. lia. Qed.

Lemma off_range_ne k a k' a' : off_range k' a' a (size_of k) -> (k, a) <> (k', a').
Proof. pose proof (size_of_positive k). unfold off_range. intros ? [= -> ->]. lia. Qed.

(** ** The C906L view: a write-back cache over main memory

    A line may be cached and stale (the other core wrote main memory since the
    fill), or cached and dirty. Loads fill the cache; stores only dirty it;
    invalidation drops lines, dirty or not; cleaning writes dirty lines back. *)

Module CachedMemory.

Record t := Make {
  main : gmap (kind * Z) cell;
  cache : gmap (kind * Z) (cell * bool);
}.

Definition main_val (k : kind) (m : t) (a : Z) : val k :=
  of_cell k (main m !! (k, a)).

Definition cpu_val (k : kind) (m : t) (a : Z) : val k :=
  match cache m !! (k, a) with
  | Some (c, _) => of_cell k (Some c)
  | None => main_val k m a
  end.

Definition load (k : kind) (m : t) (a : Z) : val k * t :=
  match cache m !! (k, a) with
  | Some (c, _) => (of_cell k (Some c), m)
  | None =>
      let v := main_val k m a in
      (v, Make (main m) (<[(k, a) := (to_cell k v, false)]> (cache m)))
  end.

Definition store (k : kind) (m : t) (a : Z) (f : val k -> val k) : t :=
  Make (main m) (<[(k, a) := (to_cell k (f (cpu_val k m a)), true)]> (cache m)).

Definition inv_dcache_range (m : t) (b n : Z) : t :=
  Make (main m)
    (map_imap (fun key e => if touches b n key then None else Some e) (cache m)).

Definition clean_dcache_range (m : t) (b n : Z) : t :=
  Make
    (map_imap (fun key '(c, d) => if touches b n key && d then Some c else None)
       (cache m) ∪ main m)
    (map_imap
       (fun key '(c, d) => Some (c, if touches b n key then false else d))
       (cache m)).

Definition obs (k : kind) (m : t) (a : Z) : observation (val k) :=
  Obs (cpu_val k m a) (main_val k m a)
      (match cache m !! (k, a) with Some (_, d) => d | None => false end).

(** What the hardware does on its own between two instructions: fill a line
    speculatively, or evict one (writing it back when dirty). *)
Definition prefetch (k : kind) (m : t) (a : Z) : t := (load k m a).2.
Definition evict (m : t) (b : Z) : t :=
  Make
    (map_imap (fun key '(c, d) => if (key.2 =? b) && d then Some c else None)
       (cache m) ∪ main m)
    (map_imap (fun key e => if key.2 =? b then None else Some e) (cache m)).

Inductive hw_step : t -> t -> Prop :=
| hw_prefetch k m a : hw_step m (prefetch k m a)
| hw_evict m b : hw_step m (evict m b).

#[global] Instance shared_memory : SharedMemory t := {|
  SharedMemory.load := load;
  SharedMemory.store := store;
  SharedMemory.inv_dcache_range := inv_dcache_range;
  SharedMemory.clean_dcache_range := clean_dcache_range;
  SharedMemory.fence := fun m => m;
  SharedMemory.obs := obs;
|}.

Lemma obs_load k m a k' a' : obs k' (load k m a).2 a' = obs k' m a'.
Proof.
  unfold load. destruct (cache m !! (k, a)) as [[c d]|] eqn:E; [done|].
  unfold obs, cpu_val, main_val; cbn [main cache snd].
  destruct (decide ((k, a) = (k', a'))) as [[= <- <-]|Hne].
  - rewrite lookup_insert_eq, E, of_to_cell. done.
  - by rewrite lookup_insert_ne.
Qed.

Lemma obs_store_ne k m a f k' a' :
  (k, a) <> (k', a') -> obs k' (store k m a f) a' = obs k' m a'.
Proof.
  intros Hne. unfold obs, store, cpu_val, main_val; cbn [main cache].
  by rewrite lookup_insert_ne.
Qed.

Lemma obs_store_eq k m a f :
  obs k (store k m a f) a =
    Obs (f (cpu_val k m a)) (main_val k m a) true.
Proof.
  unfold obs, cpu_val at 1, main_val at 1; cbn [store main cache].
  rewrite lookup_insert_eq, of_to_cell. done.
Qed.

Lemma obs_clean k m a b n :
  obs k (clean_dcache_range m b n) a =
    if touches b n (k, a)
    then Obs (cpu_val k m a)
             (if dirty (obs k m a) then cpu_val k m a else main_val k m a) false
    else obs k m a.
Proof.
  unfold obs, cpu_val, main_val, clean_dcache_range; cbn [main cache dirty].
  rewrite lookup_union, !map_lookup_imap.
  by destruct (cache m !! (k, a)) as [[c [|]]|], (touches b n (k, a)),
    (main m !! (k, a)).
Qed.

Lemma obs_inv k m a b n :
  obs k (inv_dcache_range m b n) a =
    if touches b n (k, a) then Obs (main_val k m a) (main_val k m a) false
    else obs k m a.
Proof.
  unfold obs, cpu_val, main_val, inv_dcache_range; cbn [main cache].
  rewrite map_lookup_imap.
  destruct (touches b n (k, a)) eqn:E, (cache m !! (k, a)) as [[c d]|]; simpl;
    by rewrite ?E.
Qed.

#[global] Instance laws : SharedMemoryLaws t.
Proof.
  split; cbn [SharedMemory.load SharedMemory.store SharedMemory.inv_dcache_range
    SharedMemory.clean_dcache_range SharedMemory.fence SharedMemory.obs
    shared_memory].
  - intros k m a. unfold load, obs, cpu_val; simpl.
    by destruct (cache m !! (k, a)) as [[c d]|].
  - intros. apply obs_load.
  - intros. by rewrite obs_store_eq.
  - intros k m a f. by rewrite obs_store_eq.
  - intros k m a f k' a' Hoff. apply obs_store_ne. by apply off_range_ne.
  - intros. by rewrite obs_clean, touches_inside by done.
  - intros. by rewrite obs_clean, touches_off by done.
  - intros k m a b n Hin Hd. by rewrite obs_inv, touches_inside by done.
  - intros. by rewrite obs_inv, touches_off by done.
  - done.
Qed.

(** Hardware steps never change main memory nor owe it anything, as long as
    nothing is owed. *)
Lemma hw_step_settled m m' k a :
  hw_step m m' -> dirty (obs k m a) = false ->
  dirty (obs k m' a) = false /\ dram (obs k m' a) = dram (obs k m a).
Proof.
  intros [k' m0 a'|m0 b] Hd.
  - unfold prefetch. by rewrite obs_load.
  - unfold obs, evict, main_val in *; cbn [main cache dirty dram] in *.
    rewrite lookup_union, !map_lookup_imap.
    destruct (cache m0 !! (k, a)) as [[c d]|], (main m0 !! (k, a));
      cbn in *; subst; rewrite ?andb_false_r; by destruct (a =? b).
Qed.

(** When every cached line is clean, nothing is owed. *)
Lemma clean_cache_settled m k a :
  map_Forall (fun _ e => e.2 = false) (cache m) -> settled k m a.
Proof.
  intros Hc. unfold settled; cbn. destruct (cache m !! (k, a)) as [[c d]|] eqn:E;
    [|done]. exact (Hc _ _ E).
Qed.

End CachedMemory.

(** ** The Linux view: an uncached mapping

    Loads and stores go to main memory; the maintenance primitives do
    nothing. *)

Module UncachedMemory.

Definition t : Type := gmap (kind * Z) cell.

Definition read (k : kind) (m : t) (a : Z) : val k := of_cell k (m !! (k, a)).

Definition obs (k : kind) (m : t) (a : Z) : observation (val k) :=
  Obs (read k m a) (read k m a) false.

#[global] Instance shared_memory : SharedMemory t := {|
  SharedMemory.load := fun k m a => (read k m a, m);
  SharedMemory.store := fun k m a f => <[(k, a) := to_cell k (f (read k m a))]> m;
  SharedMemory.inv_dcache_range := fun m _ _ => m;
  SharedMemory.clean_dcache_range := fun m _ _ => m;
  SharedMemory.fence := fun m => m;
  SharedMemory.obs := obs;
|}.

Lemma read_store_eq k (m : t) a v : read k (<[(k, a) := to_cell k v]> m) a = v.
Proof. unfold read, t in *. by rewrite lookup_insert_eq, of_to_cell. Qed.

#[global] Instance laws : SharedMemoryLaws t.
Proof.
  split; cbn [SharedMemory.load SharedMemory.store SharedMemory.inv_dcache_range
    SharedMemory.clean_dcache_range SharedMemory.fence SharedMemory.obs
    shared_memory]; try done.
  - intros k m a f. unfold obs; simpl. apply read_store_eq.
  - intros k m a f _. unfold obs; simpl. apply read_store_eq.
  - intros k m a f k' a' Hoff. unfold obs, read, t in *.
    rewrite lookup_insert_ne; [done|]. by apply off_range_ne.
Qed.

End UncachedMemory.
