(* ===== verification/Ring.v ===== *)
(** * Single-producer single-consumer slot ring: [core/sg2002_rtos_ring.c]

    Two free-running 32-bit counters on their own cache lines and 64 slots.
    The operations are written over the [SharedMemory] interface; the cache
    maintenance goes through the ring's [cache_ops] pointers, as in the code.
    The theorems refine them to a bounded FIFO of messages. *)

From S2P Require Import Prelude Shm SharedMemory.
Local Open Scope Z_scope.

(** ** Data: [include/sg2002_rtos_ring.h] *)

Inductive ring_result :=
| RING_OK | RING_EMPTY | RING_FULL | RING_CORRUPT | RING_INVALID.

#[export] Instance ring_result_eq_dec : EqDecision ring_result.
Proof. solve_decision. Defined.

Definition ring_result_value (r : ring_result) : Z :=
  match r with
  | RING_OK => 0 | RING_EMPTY => 1 | RING_FULL => 2
  | RING_CORRUPT => 3 | RING_INVALID => 4
  end.

(** [struct sg2002_rtos_ring_cache_ops]: nullable function pointers; the
    [context] argument is part of the closure. *)
Record ring_cache_ops (M : Type) := RingCacheOps {
  ops_sync_for_cpu : option (M -> Z -> Z -> M);
  ops_sync_for_device : option (M -> Z -> Z -> M);
  ops_memory_barrier : option (M -> M);
}.
Arguments RingCacheOps {M}.
Arguments ops_sync_for_cpu {M}.
Arguments ops_sync_for_device {M}.
Arguments ops_memory_barrier {M}.

(** [struct sg2002_rtos_ring]: addresses in the region, [0] is [NULL]. *)
Record ring (M : Type) := Ring {
  producer : Z;
  consumer : Z;
  slots : Z;
  cache_ops : option (ring_cache_ops M);
}.
Arguments Ring {M}.
Arguments producer {M}.
Arguments consumer {M}.
Arguments slots {M}.
Arguments cache_ops {M}.

Definition NULL : Z := 0.

(** ** Operations *)

Section Operations.
Context {M : Type} `{SharedMemory M}.
Implicit Types (r : ring M) (m : M).

Definition sync_for_cpu r m (address size : Z) : M :=
  match cache_ops r with
  | Some ops =>
      match ops_sync_for_cpu ops with
      | Some f => f m address size
      | None => m
      end
  | None => m
  end.

Definition sync_for_device r m (address size : Z) : M :=
  match cache_ops r with
  | Some ops =>
      match ops_sync_for_device ops with
      | Some f => f m address size
      | None => m
      end
  | None => m
  end.

Definition memory_barrier r m : M :=
  match cache_ops r with
  | Some ops =>
      match ops_memory_barrier ops with
      | Some f => f m
      | None => m
      end
  | None => m
  end.

(** The out-parameters [producer], [consumer], [occupancy] are locals of the
    callers, hence never [NULL]; they are returned, and are [0] (never read)
    when the call is [RING_INVALID]. *)
Definition read_occupancy (ring : option (ring M)) m :
    ring_result * (Z * Z * Z) * M :=
  match ring with
  | None => (RING_INVALID, (0, 0, 0), m)
  | Some r =>
      if (producer r =? NULL) || (consumer r =? NULL) || (slots r =? NULL)
      then (RING_INVALID, (0, 0, 0), m)
      else
        let m := sync_for_cpu r m (producer r) (size_of KCounter) in
        let m := sync_for_cpu r m (consumer r) (size_of KCounter) in
        let m := memory_barrier r m in
        let '(line, m) := load KCounter m (producer r) in
        let p := value line in
        let '(line, m) := load KCounter m (consumer r) in
        let c := value line in
        let occupancy := u32 (p - c) in
        if SG2002_RTOS_SHM_SLOT_COUNT <? occupancy
        then (RING_CORRUPT, (p, c, occupancy), m)
        else (RING_OK, (p, c, occupancy), m)
  end.

Definition sg2002_rtos_ring_init (ring : option (ring M)) (producer consumer slots : Z)
    (cache_ops : option (ring_cache_ops M)) : option (Ring.ring M) :=
  match ring with
  | None => None
  | Some _ => Some (Ring producer consumer slots cache_ops)
  end.

Definition sg2002_rtos_ring_can_push (ring : option (ring M)) m : Z * M :=
  let '(result, (_, _, occupancy), m) := read_occupancy ring m in
  if decide (result = RING_OK)
  then (Z.b2z (occupancy <? SG2002_RTOS_SHM_SLOT_COUNT), m)
  else (- ring_result_value result, m).

(** [ring->slots + (counter & (SLOT_COUNT - 1))]. *)
Definition slot_address r (counter : Z) : Z :=
  slots r + SG2002_RTOS_SHM_SLOT_SIZE *
    Z.land counter (SG2002_RTOS_SHM_SLOT_COUNT - 1).

Definition sg2002_rtos_ring_try_push (ring : option (ring M))
    (message : option slot) m : ring_result * M :=
  match message with
  | None => (RING_INVALID, m)
  | Some message =>
      if SG2002_RTOS_SHM_PAYLOAD_SIZE <? msg_length message
      then (RING_INVALID, m)
      else
        let '(result, (p, c, occupancy), m) := read_occupancy ring m in
        match ring, result with
        | Some r, RING_OK =>
            if occupancy =? SG2002_RTOS_SHM_SLOT_COUNT then (RING_FULL, m)
            else
              let a := slot_address r p in
              let m := store KSlot m a (fun _ => message) in
              let m := sync_for_device r m a (size_of KSlot) in
              let m := memory_barrier r m in
              let m := store KCounter m (producer r)
                         (fun _ => CounterLine (u32 (p + 1))) in
              let m := sync_for_device r m (producer r) (size_of KCounter) in
              let m := memory_barrier r m in
              (RING_OK, m)
        | _, _ => (result, m)
        end
  end.

(** [message] is the caller's buffer, [None] for [NULL]; its contents after the
    call are returned. *)
Definition sg2002_rtos_ring_try_pop (ring : option (ring M))
    (message : option slot) m : ring_result * option slot * M :=
  match message with
  | None => (RING_INVALID, None, m)
  | Some message =>
      let '(result, (p, c, occupancy), m) := read_occupancy ring m in
      match ring, result with
      | Some r, RING_OK =>
          if occupancy =? 0 then (RING_EMPTY, Some message, m)
          else
            let a := slot_address r c in
            let m := sync_for_cpu r m a (size_of KSlot) in
            let m := memory_barrier r m in
            let '(message, m) := load KSlot m a in
            let m := memory_barrier r m in
            let m := store KCounter m (consumer r)
                       (fun _ => CounterLine (u32 (c + 1))) in
            let m := sync_for_device r m (consumer r) (size_of KCounter) in
            let m := memory_barrier r m in
            if SG2002_RTOS_SHM_PAYLOAD_SIZE <? msg_length message
            then (RING_CORRUPT, Some message, m)
            else (RING_OK, Some message, m)
      | _, _ => (result, Some message, m)
      end
  end.

(** ** Abstract specification: a bounded FIFO *)

Definition spec_push (q : list slot) (message : slot) : ring_result * list slot :=
  if SG2002_RTOS_SHM_PAYLOAD_SIZE <? msg_length message then (RING_INVALID, q)
  else if Z.of_nat (length q) =? SG2002_RTOS_SHM_SLOT_COUNT then (RING_FULL, q)
  else (RING_OK, q ++ [message]).

(** The popped slot, if any, lands in [buffer]. *)
Definition spec_pop (q : list slot) (buffer : slot) :
    ring_result * slot * list slot :=
  match q with
  | [] => (RING_EMPTY, buffer, [])
  | s :: q =>
      (if SG2002_RTOS_SHM_PAYLOAD_SIZE <? msg_length s
       then RING_CORRUPT else RING_OK, s, q)
  end.

(** ** Representation *)

(** The ring's three areas are mapped and disjoint. *)
Record ring_placed r : Prop := {
  placed_producer : producer r <> NULL;
  placed_consumer : consumer r <> NULL;
  placed_slots : slots r <> NULL;
  placed_counters : off_range KCounter (producer r) (consumer r) (size_of KCounter);
  placed_producer_slots :
    off_range KCounter (producer r) (slots r) SG2002_RTOS_SHM_RING_SIZE;
  placed_consumer_slots :
    off_range KCounter (consumer r) (slots r) SG2002_RTOS_SHM_RING_SIZE;
}.

(** The objects of the ring, and those that are elsewhere. *)
Inductive ring_object r : forall k : kind, Z -> Prop :=
| ring_object_producer : ring_object r KCounter (producer r)
| ring_object_consumer : ring_object r KCounter (consumer r)
| ring_object_slot i : ring_object r KSlot (slot_address r i).

Definition off_ring r (k : kind) (a : Z) : Prop :=
  off_range k a (producer r) (size_of KCounter) /\
  off_range k a (consumer r) (size_of KCounter) /\
  off_range k a (slots r) SG2002_RTOS_SHM_RING_SIZE.

(** Main memory holds counters [p] and [c] and the messages [q] between them,
    and this core owes no write to any object of the ring. Nothing is said of
    what the core has cached: it may be stale. *)
Record ring_state r m (p c : Z) (q : list slot) : Prop := {
  state_settled k a : ring_object r k a -> settled k m a;
  state_producer : dram (obs KCounter m (producer r)) = CounterLine p;
  state_consumer : dram (obs KCounter m (consumer r)) = CounterLine c;
  state_p_range : is_u32 p;
  state_c_range : is_u32 c;
  state_occupancy : u32 (p - c) = Z.of_nat (length q);
  state_bound : Z.of_nat (length q) <= SG2002_RTOS_SHM_SLOT_COUNT;
  state_slots i (s : slot) :
    q !! i = Some s ->
    dram (obs KSlot m (slot_address r (c + Z.of_nat i))) = s;
}.

(** What an operation on [r] leaves alone. *)
Definition unchanged_off r m m' : Prop :=
  forall k a, off_ring r k a -> obs k m' a = obs k m a.

(** A step that only reads the ring: it may change what is cached, not what is
    in main memory. *)
Definition reads_ring r m m' : Prop :=
  unchanged_off r m m' /\
  forall k a, ring_object r k a -> settled k m a ->
    settled k m' a /\ dram (obs k m' a) = dram (obs k m a) /\
    (cpu (obs k m a) = dram (obs k m a) -> cpu (obs k m' a) = dram (obs k m' a)).

End Operations.

(** ** The contract of a ring's cache operations

    What a ring needs of its [cache_ops] on the memory it runs on. The firmware
    discharges it by cache maintenance ([maintained_ring]); a coherent mapping
    with no operations at all satisfies it too ([coherent_ring]). *)

Class RingMaintenance {M : Type} `{SharedMemory M} (r : ring M) := {
  cpu_sync_inside k m a b n :
    inside k a b n -> settled k m a ->
    obs k (sync_for_cpu r m b n) a =
      Obs (dram (obs k m a)) (dram (obs k m a)) false;
  cpu_sync_frame k m a b n :
    off_range k a b n -> obs k (sync_for_cpu r m b n) a = obs k m a;
  device_sync_store k m a f :
    obs k (sync_for_device r (store k m a f) a (size_of k)) a =
      Obs (f (cpu (obs k m a))) (f (cpu (obs k m a))) false;
  device_sync_frame k m a b n :
    off_range k a b n -> obs k (sync_for_device r m b n) a = obs k m a;
  barrier_obs k m a : obs k (memory_barrier r m) a = obs k m a;
}.

Definition maintenance_ops {M : Type} `{SharedMemory M} : ring_cache_ops M :=
  RingCacheOps (Some inv_dcache_range) (Some clean_dcache_range) (Some fence).

Lemma maintained_ring `{SharedMemoryLaws M} (r : ring M) :
  cache_ops r = Some maintenance_ops -> RingMaintenance r.
Proof.
  intros E.
  split; intros; unfold sync_for_cpu, sync_for_device, memory_barrier; rewrite E;
    cbn [maintenance_ops ops_sync_for_cpu ops_sync_for_device ops_memory_barrier].
  - by apply inv_inside.
  - by apply inv_frame.
  - apply store_clean. apply inside_self.
  - by apply clean_frame.
  - apply fence_obs.
Qed.

Lemma coherent_ring `{SharedMemoryLaws M} (r : ring M) :
  (forall k m a, obs k m a = Obs (dram (obs k m a)) (dram (obs k m a)) false) ->
  cache_ops r = None -> RingMaintenance r.
Proof.
  intros Hcoh E.
  split; intros; unfold sync_for_cpu, sync_for_device, memory_barrier; rewrite E;
    try done.
  rewrite Hcoh.
  assert (Hd : dirty (obs k (store k m a f) a) = false) by by rewrite Hcoh.
  by rewrite (store_through _ _ _ _ Hd).
Qed.

(** ** Lemmas *)

Section Theory.
Context {M : Type} `{SharedMemoryLaws M}.
Context (r : ring M) `{!RingMaintenance r} (placed : ring_placed r).
Implicit Types (m : M) (q : list slot).

Lemma slot_address_arith i : slot_address r i = slots r + 1024 * (i mod 64).
Proof.
  unfold slot_address, SG2002_RTOS_SHM_SLOT_SIZE, SG2002_RTOS_SHM_SLOT_COUNT.
  by rewrite <- land_0x3f.
Qed.

(** Two distinct objects of the ring do not overlap. *)
Lemma objects_apart k a k' a' :
  ring_object r k a -> ring_object r k' a' ->
  (k, a) = (k', a') \/ off_range k' a' a (size_of k).
Proof.
  destruct placed as [_ _ _ H1 H2 H3]. unfold off_range in *.
  change SG2002_RTOS_SHM_RING_SIZE with 65536 in *.
  change (size_of KCounter) with 64 in *. change (size_of KSlot) with 1024 in *.
  destruct 1 as [| |i], 1 as [| |j]; rewrite ?slot_address_arith;
    change (size_of KCounter) with 64; change (size_of KSlot) with 1024;
    try (by left); try (right; lia).
  destruct (decide (i mod 64 = j mod 64)) as [->|]; [by left|right; lia].
Qed.

Lemma off_ring_apart k a k' a' :
  ring_object r k a -> off_ring r k' a' -> off_range k' a' a (size_of k).
Proof.
  intros Ho (H1 & H2 & H3). unfold off_range in *.
  change SG2002_RTOS_SHM_RING_SIZE with 65536 in *.
  destruct Ho as [| |i]; rewrite ?slot_address_arith; auto.
  change (size_of KSlot) with 1024. lia.
Qed.

Lemma reads_ring_trans m1 m2 m3 :
  reads_ring r m1 m2 -> reads_ring r m2 m3 -> reads_ring r m1 m3.
Proof.
  intros [Hu1 Hr1] [Hu2 Hr2]. split.
  - intros k a Ho. by rewrite Hu2, Hu1.
  - intros k a Ho Hs. destruct (Hr1 k a Ho Hs) as (Hs' & Hd & Hf).
    destruct (Hr2 k a Ho Hs') as (? & Hd' & Hf'). rewrite Hd', Hd in *.
    split_and!; auto.
Qed.

Lemma same_obs_reads m m' : same_obs m' m -> reads_ring r m m'.
Proof.
  intros E. split.
  - intros k a _. apply E.
  - intros k a _ Hs. unfold settled in *. by rewrite E.
Qed.

Lemma sync_for_cpu_reads k m a :
  ring_object r k a -> reads_ring r m (sync_for_cpu r m a (size_of k)).
Proof.
  intros Ho. split.
  - intros k' a' Hoff. by apply cpu_sync_frame, off_ring_apart.
  - intros k' a' Ho' Hs. destruct (objects_apart k a k' a' Ho Ho') as [[= <- <-]|].
    + unfold settled. rewrite cpu_sync_inside by (done || apply inside_self). done.
    + unfold settled. by rewrite cpu_sync_frame.
Qed.

Lemma sync_for_cpu_fresh k m a :
  settled k m a ->
  cpu (obs k (sync_for_cpu r m a (size_of k)) a) =
  dram (obs k (sync_for_cpu r m a (size_of k)) a).
Proof. intros Hs. by rewrite cpu_sync_inside by (done || apply inside_self). Qed.

Lemma memory_barrier_reads m : reads_ring r m (memory_barrier r m).
Proof. apply same_obs_reads. intros k a. apply barrier_obs. Qed.

Lemma load_reads k m a : reads_ring r m (load k m a).2.
Proof. apply same_obs_reads, load_same. Qed.

Lemma reads_ring_state m m' p c q :
  reads_ring r m m' -> ring_state r m p c q -> ring_state r m' p c q.
Proof.
  intros [_ Hr] [Hs Hp Hc ? ? ? ? Hq].
  assert (Hd : forall k a, ring_object r k a -> dram (obs k m' a) = dram (obs k m a))
    by (intros k a Ho; by apply Hr, Hs).
  split; try done.
  - intros k a Ho. by apply Hr, Hs.
  - rewrite Hd by constructor. done.
  - rewrite Hd by constructor. done.
  - intros i s Hi. rewrite Hd by constructor. by apply Hq.
Qed.

(** Store, then clean, then fence, of one object of the ring. *)
Definition published k m a v m' : Prop :=
  obs k m' a = Obs v v false /\ unchanged_off r m m' /\
  forall k' a', ring_object r k' a' -> (k, a) <> (k', a') ->
    obs k' m' a' = obs k' m a'.

Lemma publish k m a v :
  ring_object r k a ->
  published k m a v
    (memory_barrier r (sync_for_device r (store k m a (fun _ => v)) a (size_of k))).
Proof.
  intros Ho. split_and!.
  - by rewrite barrier_obs, device_sync_store.
  - intros k' a' Hoff. pose proof (off_ring_apart _ _ _ _ Ho Hoff).
    rewrite barrier_obs, device_sync_frame, store_frame; done.
  - intros k' a' Ho' Hne. destruct (objects_apart _ _ _ _ Ho Ho') as [|]; [done|].
    rewrite barrier_obs, device_sync_frame, store_frame; done.
Qed.

Lemma counter_addresses_ne : producer r <> consumer r.
Proof.
  destruct placed as [_ _ _ H1 _ _]. unfold off_range in H1.
  change (size_of KCounter) with 64 in H1. lia.
Qed.

(** *** Reading the counters *)

(** On a ring owed nothing, the counters read are those of main memory, however
    stale the cache was. *)
Lemma read_occupancy_spec m p c :
  settled KCounter m (producer r) -> settled KCounter m (consumer r) ->
  dram (obs KCounter m (producer r)) = CounterLine p ->
  dram (obs KCounter m (consumer r)) = CounterLine c ->
  exists m',
    read_occupancy (Some r) m =
      (if SG2002_RTOS_SHM_SLOT_COUNT <? u32 (p - c) then RING_CORRUPT else RING_OK,
       (p, c, u32 (p - c)), m') /\
    reads_ring r m m'.
Proof.
  intros Hsp Hsc Hp Hc. destruct placed as [Np Nc Ns _ _ _].
  unfold read_occupancy. apply Z.eqb_neq in Np as ->, Nc as ->, Ns as ->.
  cbn [orb].
  set (m1 := sync_for_cpu r m (producer r) _).
  set (m2 := sync_for_cpu r m1 (consumer r) _).
  set (m3 := memory_barrier r m2).
  assert (R1 : reads_ring r m m1) by apply sync_for_cpu_reads, ring_object_producer.
  assert (R2 : reads_ring r m1 m2) by apply sync_for_cpu_reads, ring_object_consumer.
  assert (R3 : reads_ring r m2 m3) by apply memory_barrier_reads.
  destruct (proj2 R1 _ _ (ring_object_producer r) Hsp) as (Hsp1 & Hp1 & _).
  destruct (proj2 R1 _ _ (ring_object_consumer r) Hsc) as (Hsc1 & Hc1 & _).
  pose proof (sync_for_cpu_fresh KCounter m _ Hsp) as Fp. fold m1 in Fp.
  pose proof (sync_for_cpu_fresh KCounter m1 _ Hsc1) as Fc. fold m2 in Fc.
  pose proof (reads_ring_trans _ _ _ R2 R3) as R23.
  destruct (proj2 R23 _ _ (ring_object_producer r) Hsp1) as (_ & Hp3 & Fp3).
  destruct (proj2 R2 _ _ (ring_object_consumer r) Hsc1) as (Hsc2 & Hc2 & _).
  destruct (proj2 R3 _ _ (ring_object_consumer r) Hsc2) as (_ & Hc3 & Fc3).
  pose proof (load_value KCounter m3 (producer r)) as V1.
  pose proof (load_obs KCounter m3 (producer r)) as O1.
  pose proof (load_reads KCounter m3 (producer r)) as R4.
  destruct (load KCounter m3 (producer r)) as [line1 m4]; cbn [fst snd] in *.
  pose proof (load_value KCounter m4 (consumer r)) as V2.
  pose proof (load_reads KCounter m4 (consumer r)) as R5.
  destruct (load KCounter m4 (consumer r)) as [line2 m5]; cbn [fst snd] in *.
  rewrite O1, Fc3, Hc3, Hc2, Hc1, Hc in V2 by done.
  rewrite Fp3, Hp3, Hp1, Hp in V1 by done. subst line1 line2. cbn [value].
  exists m5. split; [by destruct (_ <? _)|].
  eauto using reads_ring_trans.
Qed.

Lemma read_occupancy_state m p c q :
  ring_state r m p c q ->
  exists m',
    read_occupancy (Some r) m = (RING_OK, (p, c, Z.of_nat (length q)), m') /\
    reads_ring r m m' /\ ring_state r m' p c q.
Proof.
  intros Hst. pose proof Hst as [Hs Hp Hc _ _ Hocc Hbound _].
  destruct (read_occupancy_spec m p c) as (m' & E & R);
    [apply Hs; constructor | apply Hs; constructor | done | done |].
  rewrite Hocc in E. replace (_ <? _) with false in E by lia.
  eauto using reads_ring_state.
Qed.

(** *** Writing *)

Lemma published_settled k m a v m' :
  published k m a v m' ->
  forall k' a', ring_object r k' a' -> settled k' m a' -> settled k' m' a'.
Proof.
  intros (Hv & _ & Hne) k' a' Ho Hs. unfold settled.
  destruct (decide ((k, a) = (k', a'))) as [[= <- <-]|]; [by rewrite Hv|].
  by rewrite Hne.
Qed.

Lemma slot_address_inj i j :
  slot_address r i = slot_address r j -> i mod 64 = j mod 64.
Proof. rewrite !slot_address_arith. lia. Qed.

Lemma slot_address_mod i j :
  i mod 64 = j mod 64 -> slot_address r i = slot_address r j.
Proof. rewrite !slot_address_arith. congruence. Qed.

(** Filling the slot at [p], then moving the producer counter past it, appends
    the message. *)
Lemma push_state m m1 m2 p c q (s : slot) :
  ring_state r m p c q ->
  Z.of_nat (length q) < SG2002_RTOS_SHM_SLOT_COUNT ->
  published KSlot m (slot_address r p) s m1 ->
  published KCounter m1 (producer r) (CounterLine (u32 (p + 1))) m2 ->
  ring_state r m2 (u32 (p + 1)) c (q ++ [s]).
Proof.
  intros [Hs Hp Hc Rp Rc Hocc Hb Hq] Hlt P1 P2.
  unfold SG2002_RTOS_SHM_SLOT_COUNT in *.
  pose proof P1 as (V1 & _ & N1). pose proof P2 as (V2 & _ & N2).
  split.
  - intros k a Ho. eapply published_settled; eauto using published_settled.
  - by rewrite V2.
  - rewrite N2, N1 by (constructor || intros [= E]; by apply counter_addresses_ne).
    done.
  - apply wrap_u32_range.
  - done.
  - rewrite length_app. simpl. word_lia.
  - rewrite length_app. unfold SG2002_RTOS_SHM_SLOT_COUNT. simpl. lia.
  - assert (Hmod : p mod 64 = (c + Z.of_nat (length q)) mod 64) by word_lia.
    intros i s' Hi. rewrite N2 by (constructor || done).
    apply lookup_snoc_Some in Hi as [[Hi Hs']|[-> ->]].
    + rewrite N1; [by apply Hq|constructor|].
      intros [= E]. apply slot_address_inj in E. lia.
    + rewrite (slot_address_mod _ p) by done. by rewrite V1.
Qed.

(** Moving the consumer counter past the oldest message removes it. *)
Lemma pop_state m m1 p c (s : slot) q :
  ring_state r m p c (s :: q) ->
  published KCounter m (consumer r) (CounterLine (u32 (c + 1))) m1 ->
  ring_state r m1 p (u32 (c + 1)) q.
Proof.
  intros [Hs Hp Hc Rp Rc Hocc Hb Hq] P1. pose proof P1 as (V1 & _ & N1).
  unfold SG2002_RTOS_SHM_SLOT_COUNT in *. simpl in Hocc, Hb.
  split.
  - eauto using published_settled.
  - rewrite N1 by (constructor || intros [= E]; by apply counter_addresses_ne).
    done.
  - by rewrite V1.
  - done.
  - apply wrap_u32_range.
  - word_lia.
  - unfold SG2002_RTOS_SHM_SLOT_COUNT. lia.
  - intros i s' Hi. rewrite N1 by (constructor || done).
    rewrite (slot_address_mod _ (c + Z.of_nat (S i))) by word_lia.
    by apply Hq.
Qed.

Lemma published_off k m a v m' : published k m a v m' -> unchanged_off r m m'.
Proof. by intros (_ & ? & _). Qed.

Lemma unchanged_off_trans m1 m2 m3 :
  unchanged_off r m1 m2 -> unchanged_off r m2 m3 -> unchanged_off r m1 m3.
Proof. intros H1 H2 k a Ho. by rewrite H2, H1. Qed.

(** *** The operations refine the bounded FIFO *)

Lemma try_push_refines m p c q message :
  ring_state r m p c q ->
  exists p' m',
    sg2002_rtos_ring_try_push (Some r) (Some message) m =
      ((spec_push q message).1, m') /\
    ring_state r m' p' c (spec_push q message).2 /\
    unchanged_off r m m'.
Proof.
  intros Hst. unfold sg2002_rtos_ring_try_push, spec_push.
  destruct (_ <? msg_length message); [exists p, m; by split_and!|].
  destruct (read_occupancy_state m p c q Hst) as (m1 & -> & [U1 _] & Hst1).
  destruct (_ =? _) eqn:Efull; [exists p, m1; by split_and!|].
  pose proof (publish KSlot m1 (slot_address r p) message
                ltac:(constructor)) as P1.
  set (m2 := memory_barrier r (sync_for_device r (store KSlot m1 _ _) _ _)) in *.
  pose proof (publish KCounter m2 (producer r) (CounterLine (u32 (p + 1)))
                ltac:(constructor)) as P2.
  eexists _, _. split_and!; [done| |].
  - eapply push_state; [exact Hst1| |exact P1|exact P2].
    destruct Hst1. lia.
  - eapply unchanged_off_trans; [exact U1|].
    eapply unchanged_off_trans; eapply published_off; eassumption.
Qed.

Lemma try_pop_refines m p c q buffer :
  ring_state r m p c q ->
  exists c' m',
    sg2002_rtos_ring_try_pop (Some r) (Some buffer) m =
      ((spec_pop q buffer).1.1, Some (spec_pop q buffer).1.2, m') /\
    ring_state r m' p c' (spec_pop q buffer).2 /\
    unchanged_off r m m'.
Proof.
  intros Hst. unfold sg2002_rtos_ring_try_pop.
  destruct (read_occupancy_state m p c q Hst) as (m1 & -> & [U1 _] & Hst1).
  destruct q as [|s q]; [exists c, m1; by split_and!|].
  replace (Z.of_nat (length (s :: q)) =? 0) with false by (cbn [length]; lia).
  set (a := slot_address r c).
  assert (Ha : ring_object r KSlot a) by constructor.
  pose proof (sync_for_cpu_reads KSlot m1 a Ha) as R2.
  pose proof (sync_for_cpu_fresh KSlot m1 a (state_settled _ _ _ _ _ Hst1 _ _ Ha)) as F2.
  set (m2 := sync_for_cpu r m1 a _) in *.
  pose proof (reads_ring_state _ _ _ _ _ R2 Hst1) as Hst2.
  set (m3 := memory_barrier r m2).
  pose proof (memory_barrier_reads m2) as R3. fold m3 in R3.
  pose proof (reads_ring_state _ _ _ _ _ R3 Hst2) as Hst3.
  pose proof (load_value KSlot m3 a) as V4.
  pose proof (load_reads KSlot m3 a) as R4.
  destruct (load KSlot m3 a) as [s' m4]; cbn [fst snd] in *.
  assert (s' = s) as ->.
  { rewrite V4. destruct (proj2 R3 _ _ Ha (state_settled _ _ _ _ _ Hst2 _ _ Ha))
      as (_ & _ & F3).
    rewrite F3 by done.
    replace a with (slot_address r (c + Z.of_nat 0)) by (unfold a; f_equal; lia).
    by apply (state_slots _ _ _ _ _ Hst3). }
  set (m5 := memory_barrier r m4).
  pose proof (memory_barrier_reads m4) as R5. fold m5 in R5.
  pose proof (reads_ring_trans _ _ _ R4 R5) as R45.
  pose proof (reads_ring_state _ _ _ _ _ R45 Hst3) as Hst5.
  pose proof (publish KCounter m5 (consumer r) (CounterLine (u32 (c + 1)))
                ltac:(constructor)) as P.
  cbn [spec_pop fst snd].
  exists (u32 (c + 1)). eexists. split_and!; [by destruct (_ <? _)| |].
  - eapply pop_state; [exact Hst5|exact P].
  - eapply unchanged_off_trans; [exact U1|].
    eapply unchanged_off_trans; [|eapply published_off; exact P].
    apply (reads_ring_trans m1 m3 m5); eauto using reads_ring_trans.
Qed.

(** *** A corrupt ring *)

Lemma corrupt_reads m p c :
  settled KCounter m (producer r) -> settled KCounter m (consumer r) ->
  dram (obs KCounter m (producer r)) = CounterLine p ->
  dram (obs KCounter m (consumer r)) = CounterLine c ->
  SG2002_RTOS_SHM_SLOT_COUNT < u32 (p - c) ->
  exists m', read_occupancy (Some r) m = (RING_CORRUPT, (p, c, u32 (p - c)), m') /\
    reads_ring r m m'.
Proof.
  intros Hsp Hsc Hp Hc Hbig.
  destruct (read_occupancy_spec m p c Hsp Hsc Hp Hc) as (m' & E & R).
  replace (_ <? _) with true in E by lia. eauto.
Qed.

(** *** Properties of the operations *)

(** C2: on a ring whose main memory holds the queue [q] (whatever this core has
    cached), [try_push] and [try_pop] return what the bounded FIFO of 64
    messages returns, on every branch (too long, full, empty, delivered,
    delivered but malformed), leave main memory holding the FIFO's next queue
    with nothing left unpublished in the cache, and touch nothing outside the
    ring. *)
Theorem ring_refines_fifo m p c q message buffer :
  ring_state r m p c q ->
  (exists p' m',
     sg2002_rtos_ring_try_push (Some r) (Some message) m =
       ((spec_push q message).1, m') /\
     ring_state r m' p' c (spec_push q message).2 /\ unchanged_off r m m') /\
  (exists c' m',
     sg2002_rtos_ring_try_pop (Some r) (Some buffer) m =
       ((spec_pop q buffer).1.1, Some (spec_pop q buffer).1.2, m') /\
     ring_state r m' p c' (spec_pop q buffer).2 /\ unchanged_off r m m').
Proof.
  intros Hst. split.
  - by eapply try_push_refines.
  - by eapply try_pop_refines.
Qed.

(** C30: when the counters in main memory are more than 64 apart, every
    operation reports corruption ([can_push] as the negative code) and stores
    nothing: main memory and the caller's buffer are as they were. *)
Theorem ring_corruption_detected m p c message buffer :
  settled KCounter m (producer r) -> settled KCounter m (consumer r) ->
  dram (obs KCounter m (producer r)) = CounterLine p ->
  dram (obs KCounter m (consumer r)) = CounterLine c ->
  SG2002_RTOS_SHM_SLOT_COUNT < u32 (p - c) ->
  msg_length message <= SG2002_RTOS_SHM_PAYLOAD_SIZE ->
  exists m', reads_ring r m m' /\
    sg2002_rtos_ring_try_push (Some r) (Some message) m = (RING_CORRUPT, m') /\
    sg2002_rtos_ring_try_pop (Some r) (Some buffer) m =
      (RING_CORRUPT, Some buffer, m') /\
    sg2002_rtos_ring_can_push (Some r) m = (-3, m').
Proof.
  intros Hsp Hsc Hp Hc Hbig Hlen.
  destruct (corrupt_reads m p c Hsp Hsc Hp Hc Hbig) as (m' & E & R).
  exists m'. split; [done|].
  unfold sg2002_rtos_ring_try_push, sg2002_rtos_ring_try_pop,
    sg2002_rtos_ring_can_push.
  rewrite E. by replace (_ <? msg_length message) with false by lia.
Qed.

Lemma can_push_state m p c q :
  ring_state r m p c q ->
  exists m',
    sg2002_rtos_ring_can_push (Some r) m =
      (Z.b2z (Z.of_nat (length q) <? SG2002_RTOS_SHM_SLOT_COUNT), m') /\
    ring_state r m' p c q /\ unchanged_off r m m'.
Proof.
  intros Hst. destruct (read_occupancy_state m p c q Hst) as (m' & E & [U _] & Hst').
  exists m'. unfold sg2002_rtos_ring_can_push. rewrite E. by rewrite decide_True.
Qed.

End Theory.

(** ** A concrete ring, with a stale cache *)

Definition demo_message : slot := Slot 7 5 (replicate 1018 0x5a).

Definition demo_ring : ring CachedMemory.t :=
  Ring 192 256 4096 (Some maintenance_ops).

(** Main memory holds one message; the core still caches the producer counter
    from before it was published. *)
Definition demo_memory : CachedMemory.t :=
  CachedMemory.Make
    {[ (KCounter, 192) := CounterCell (CounterLine 1);
       (KSlot, 4096) := SlotCell demo_message ]}
    {[ (KCounter, 192) := (CounterCell (CounterLine 0), false) ]}.

(** Counters that cannot be: the consumer is ahead of the producer. *)
Definition demo_corrupt_memory : CachedMemory.t :=
  CachedMemory.Make
    {[ (KCounter, 256) := CounterCell (CounterLine 1) ]} ∅.

#[export] Instance demo_ring_maintenance : RingMaintenance demo_ring.
Proof. by apply maintained_ring. Qed.

Lemma demo_ring_placed : ring_placed demo_ring.
Proof. split; cbv; (discriminate || intuition congruence). Qed.

Lemma demo_state : ring_state demo_ring demo_memory 1 0 [demo_message].
Proof.
  split.
  - intros k a _. apply CachedMemory.clean_cache_settled.
    by apply map_Forall_singleton.
  - reflexivity.
  - reflexivity.
  - word_lia.
  - word_lia.
  - reflexivity.
  - cbv; congruence.
  - intros [|i] s Hi; [by injection Hi as <-|done].
Qed.

(** The invalidation is what makes the message visible: the same ring without
    cache operations does not see it. *)
Example stale_without_maintenance :
  (sg2002_rtos_ring_try_pop (Some demo_ring) (Some zero_slot) demo_memory).1 =
    (RING_OK, Some demo_message) /\
  (sg2002_rtos_ring_try_pop
     (Some (Ring 192 256 4096 None)) (Some zero_slot) demo_memory).1 =
    (RING_EMPTY, Some zero_slot).
Proof. by vm_compute. Qed.

Lemma ring_refines_fifo_witness :
  (exists p' m',
     sg2002_rtos_ring_try_push (Some demo_ring) (Some demo_message) demo_memory =
       (RING_OK, m') /\
     ring_state demo_ring m' p' 0 [demo_message; demo_message] /\
     unchanged_off demo_ring demo_memory m') /\
  (exists c' m',
     sg2002_rtos_ring_try_pop (Some demo_ring) (Some zero_slot) demo_memory =
       (RING_OK, Some demo_message, m') /\
     ring_state demo_ring m' 1 c' [] /\ unchanged_off demo_ring demo_memory m').
Proof.
  exact (ring_refines_fifo demo_ring demo_ring_placed demo_memory 1 0
           [demo_message] demo_message zero_slot demo_state).
Defined.

Lemma ring_corruption_detected_witness :
  exists m', reads_ring demo_ring demo_corrupt_memory m' /\
    sg2002_rtos_ring_try_push (Some demo_ring) (Some demo_message)
      demo_corrupt_memory = (RING_CORRUPT, m') /\
    sg2002_rtos_ring_try_pop (Some demo_ring) (Some zero_slot)
      demo_corrupt_memory = (RING_CORRUPT, Some zero_slot, m') /\
    sg2002_rtos_ring_can_push (Some demo_ring) demo_corrupt_memory = (-3, m').
Proof.
  apply (ring_corruption_detected demo_ring demo_ring_placed
           demo_corrupt_memory 0 1 demo_message zero_slot);
    (reflexivity || (vm_compute; congruence)).
Defined.
