(* ===== verification/Channel.v ===== *)
(** * One ring between two cores

    The request and response rings are shared by the C906L, which runs
    [core/sg2002_rtos_ring.c] over its cache with the maintenance operations of
    [firmware/transport/sg2002_rtos_shm_transport.c], and Linux, which reaches
    the same main memory uncached. This file composes the two views: whole operations
    of either core and spontaneous cache activity (speculative fills,
    evictions) in any order, with the history of the messages that went in and
    out. A step is a whole operation here; Interleaving.v has the single accesses. *)

From S2P Require Import Prelude Shm SharedMemory Ring.
Local Open Scope Z_scope.

(** The same ring as each core holds it. The Linux end is [core/sg2002_rtos_ring.c]
    without cache operations, as the tests run it on the host; in the product it is the
    driver of [ports/osdrv/patches/0002], which makes the same accesses in the same
    order ([readl] of both counters, the slot, a barrier, the counter). *)
Definition rtos_ring (producer consumer slots : Z) : ring CachedMemory.t :=
  Ring producer consumer slots (Some maintenance_ops).
Definition linux_ring (producer consumer slots : Z) : ring UncachedMemory.t :=
  Ring producer consumer slots None.

(** Linux's stores reach main memory; the C906L cache does not see them. *)
Definition on_main (m : CachedMemory.t) (main : UncachedMemory.t) :
    CachedMemory.t :=
  CachedMemory.Make main (CachedMemory.cache m).

#[export] Instance rtos_ring_maintenance p c s :
  RingMaintenance (rtos_ring p c s).
Proof. by apply maintained_ring. Qed.

#[export] Instance linux_ring_maintenance p c s :
  RingMaintenance (linux_ring p c s).
Proof. by apply coherent_ring. Qed.

Section Channel.
Context (producer consumer slots : Z).
Local Abbreviation rr := (rtos_ring producer consumer slots).
Local Abbreviation lr := (linux_ring producer consumer slots).

(** A channel: the memory and the messages accepted and delivered so far. *)
Record channel := Channel {
  mem : CachedMemory.t;
  sent : list slot;
  delivered : list slot;
}.

Definition log_push (res : ring_result) (s : slot) (sent : list slot) : list slot :=
  if decide (res = RING_OK) then sent ++ [s] else sent.

Definition log_pop (res : ring_result) (s : option slot) (delivered : list slot) :
    list slot :=
  match res, s with
  | RING_OK, Some s => delivered ++ [s]
  | _, _ => delivered
  end.

Inductive channel_step : channel -> channel -> Prop :=
| linux_push m sent delivered message res main :
    sg2002_rtos_ring_try_push (Some lr) (Some message) (CachedMemory.main m) =
      (res, main) ->
    channel_step (Channel m sent delivered)
      (Channel (on_main m main) (log_push res message sent) delivered)
| linux_pop m sent delivered buffer res message main :
    sg2002_rtos_ring_try_pop (Some lr) (Some buffer) (CachedMemory.main m) =
      (res, message, main) ->
    channel_step (Channel m sent delivered)
      (Channel (on_main m main) sent (log_pop res message delivered))
| rtos_push m sent delivered message res m' :
    sg2002_rtos_ring_try_push (Some rr) (Some message) m = (res, m') ->
    channel_step (Channel m sent delivered)
      (Channel m' (log_push res message sent) delivered)
| rtos_pop m sent delivered buffer res message m' :
    sg2002_rtos_ring_try_pop (Some rr) (Some buffer) m = (res, message, m') ->
    channel_step (Channel m sent delivered)
      (Channel m' sent (log_pop res message delivered))
| cache_activity m sent delivered m' :
    CachedMemory.hw_step m m' ->
    channel_step (Channel m sent delivered) (Channel m' sent delivered).

Definition channel_init (ch : channel) : Prop :=
  (exists p, ring_state rr (mem ch) p p []) /\ sent ch = [] /\ delivered ch = [].

Inductive reachable : channel -> Prop :=
| reachable_init ch : channel_init ch -> reachable ch
| reachable_step ch ch' : reachable ch -> channel_step ch ch' -> reachable ch'.

(** The invariant: main memory holds exactly the messages sent and not yet
    delivered, in order, each short enough to be delivered. *)
Definition channel_inv (ch : channel) : Prop :=
  exists p c q,
    ring_state rr (mem ch) p c q /\ sent ch = delivered ch ++ q /\
    Forall (fun s => msg_length s <= SG2002_RTOS_SHM_PAYLOAD_SIZE) q.

(** ** The two views agree on main memory *)

Lemma linux_view m p c q :
  ring_state rr m p c q -> ring_state lr (CachedMemory.main m) p c q.
Proof. intros [_ Hp Hc ? ? ? ? Hq]. by split. Qed.

Lemma rtos_view m main p c q p' c' q' :
  ring_state rr m p c q -> ring_state lr main p' c' q' ->
  ring_state rr (on_main m main) p' c' q'.
Proof.
  intros [Hs _ _ _ _ _ _ _] [_ Hp Hc ? ? ? ? Hq]. by split.
Qed.

Lemma hw_step_view m m' p c q :
  CachedMemory.hw_step m m' -> ring_state rr m p c q -> ring_state rr m' p c q.
Proof.
  intros Hstep [Hs Hp Hc ? ? ? ? Hq].
  assert (Hk : forall k a, ring_object rr k a ->
    settled k m' a /\ dram (obs k m' a) = dram (obs k m a)).
  { intros k a Ho. eapply CachedMemory.hw_step_settled; [done|]. by apply Hs. }
  split; try done.
  - intros k a Ho. by apply Hk.
  - rewrite (proj2 (Hk _ _ (ring_object_producer rr))). done.
  - rewrite (proj2 (Hk _ _ (ring_object_consumer rr))). done.
  - intros i s Hi. rewrite (proj2 (Hk _ _ (ring_object_slot rr _))). by apply Hq.
Qed.

(** ** The invariant is inductive *)

Lemma spec_push_log q s sent delivered :
  sent = delivered ++ q ->
  Forall (fun s => msg_length s <= SG2002_RTOS_SHM_PAYLOAD_SIZE) q ->
  log_push (spec_push q s).1 s sent = delivered ++ (spec_push q s).2 /\
  Forall (fun s => msg_length s <= SG2002_RTOS_SHM_PAYLOAD_SIZE) (spec_push q s).2.
Proof.
  intros -> Hq. unfold spec_push, log_push.
  destruct (_ <? msg_length s) eqn:?; [done|].
  destruct (_ =? _); [done|]. cbn [fst snd].
  rewrite decide_True by done. split; [by rewrite app_assoc|].
  apply Forall_app_2; [done|]. constructor; [lia|done].
Qed.

Lemma spec_pop_log q buffer sent delivered :
  sent = delivered ++ q ->
  Forall (fun s => msg_length s <= SG2002_RTOS_SHM_PAYLOAD_SIZE) q ->
  sent = log_pop (spec_pop q buffer).1.1 (Some (spec_pop q buffer).1.2) delivered
           ++ (spec_pop q buffer).2 /\
  Forall (fun s => msg_length s <= SG2002_RTOS_SHM_PAYLOAD_SIZE)
    (spec_pop q buffer).2.
Proof.
  intros -> Hq. destruct q as [|s q]; [done|].
  apply Forall_cons_1 in Hq as [Hs Hq]. cbn [spec_pop fst snd].
  replace (_ <? msg_length s) with false by lia.
  cbn [log_pop fst snd]. split; [by rewrite <- app_assoc|done].
Qed.

Lemma channel_inv_step (placed : ring_placed lr) ch ch' :
  channel_step ch ch' -> channel_inv ch -> channel_inv ch'.
Proof.
  assert (placed' : ring_placed rr) by (destruct placed; by split).
  intros Hstep (p & c & q & Hst & Hlog & Hq). unfold channel_inv.
  destruct Hstep as [m s d msg res main E|m s d buf res msg main E
                    |m s d msg res m' E|m s d buf res msg m' E|m s d m' E];
    cbn [mem sent delivered] in *.
  - destruct (try_push_refines lr placed _ _ _ _ msg (linux_view _ _ _ _ Hst))
      as (p' & main' & E' & Hst' & _). rewrite E' in E. injection E as <- <-.
    destruct (spec_push_log q msg s d Hlog Hq).
    exists p', c; eexists; split_and!; [by eapply rtos_view|done|done].
  - destruct (try_pop_refines lr placed _ _ _ _ buf (linux_view _ _ _ _ Hst))
      as (c' & main' & E' & Hst' & _). rewrite E' in E. injection E as <- <- <-.
    destruct (spec_pop_log q buf s d Hlog Hq).
    exists p, c'; eexists; split_and!; [by eapply rtos_view|done|done].
  - destruct (try_push_refines rr placed' _ _ _ _ msg Hst)
      as (p' & m1 & E' & Hst' & _). rewrite E' in E. injection E as <- <-.
    destruct (spec_push_log q msg s d Hlog Hq). eauto 10.
  - destruct (try_pop_refines rr placed' _ _ _ _ buf Hst)
      as (c' & m1 & E' & Hst' & _). rewrite E' in E. injection E as <- <- <-.
    destruct (spec_pop_log q buf s d Hlog Hq). eauto 10.
  - eauto 10 using hw_step_view.
Qed.

Lemma reachable_inv (placed : ring_placed lr) ch : reachable ch -> channel_inv ch.
Proof.
  induction 1 as [ch ([p Hst] & Hs & Hd)|ch ch' _ IH Hstep].
  - exists p, p, []. rewrite Hs, Hd. eauto.
  - by eapply channel_inv_step.
Qed.

(** ** Properties *)

(** C23: the channel never blocks wrongly: in every state reachable by whole operations,
    when a message is outstanding either core's pop delivers exactly the oldest one,
    when none is it reports empty, and when fewer than 64 are outstanding either
    core's push of a message that fits is accepted. *)
Theorem channel_progress ch message buffer :
  ring_placed lr -> reachable ch ->
  msg_length message <= SG2002_RTOS_SHM_PAYLOAD_SIZE ->
  let outstanding := drop (length (delivered ch)) (sent ch) in
  let expected :=
    match outstanding with
    | [] => (RING_EMPTY, Some buffer)
    | s :: _ => (RING_OK, Some s)
    end in
  (sg2002_rtos_ring_try_pop (Some rr) (Some buffer) (mem ch)).1 = expected /\
  (sg2002_rtos_ring_try_pop (Some lr) (Some buffer)
     (CachedMemory.main (mem ch))).1 = expected /\
  (Z.of_nat (length outstanding) < SG2002_RTOS_SHM_SLOT_COUNT ->
   (sg2002_rtos_ring_try_push (Some rr) (Some message) (mem ch)).1 = RING_OK /\
   (sg2002_rtos_ring_try_push (Some lr) (Some message)
      (CachedMemory.main (mem ch))).1 = RING_OK).
Proof.
  intros placed Hr Hlen outstanding.
  assert (placed' : ring_placed rr) by (destruct placed; by split).
  destruct (reachable_inv placed ch Hr) as (p & c & q & Hst & Hlog & Hq).
  assert (outstanding = q) as ->
    by (unfold outstanding; by rewrite Hlog, drop_app_length).
  assert (Hpop : spec_pop q buffer =
    match q with [] => (RING_EMPTY, buffer, []) | s :: q => (RING_OK, s, q) end).
  { destruct q as [|s q]; [done|]. apply Forall_cons_1 in Hq as [Hs _].
    cbn [spec_pop]. by replace (_ <? msg_length s) with false by lia. }
  pose proof (linux_view _ _ _ _ Hst) as Hst'.
  destruct (try_pop_refines rr placed' _ _ _ _ buffer Hst) as (? & ? & E1 & _).
  destruct (try_pop_refines lr placed _ _ _ _ buffer Hst') as (? & ? & E2 & _).
  destruct (try_push_refines rr placed' _ _ _ _ message Hst) as (? & ? & E3 & _).
  destruct (try_push_refines lr placed _ _ _ _ message Hst') as (? & ? & E4 & _).
  rewrite E1, E2, E3, E4, Hpop. split_and!; [by destruct q..|].
  intros Hlt. cbn [fst]. unfold spec_push.
  replace (_ <? msg_length message) with false by lia.
  by replace (_ =? _) with false by lia.
Qed.

End Channel.

(** ** A concrete run: Linux sends, the firmware receives *)

Definition demo_start : channel := Channel (CachedMemory.Make ∅ ∅) [] [].

Definition demo_end : channel :=
  Channel
    (sg2002_rtos_ring_try_pop (Some (rtos_ring 192 256 4096)) (Some zero_slot)
       (on_main (CachedMemory.Make ∅ ∅)
          (sg2002_rtos_ring_try_push (Some (linux_ring 192 256 4096))
             (Some demo_message) ∅).2)).2
    [demo_message] [demo_message].

Lemma demo_placed : ring_placed (linux_ring 192 256 4096).
Proof. split; cbv; (discriminate || intuition congruence). Qed.

Lemma demo_start_reachable : reachable 192 256 4096 demo_start.
Proof.
  apply reachable_init. split; [|done]. exists 0. by split.
Qed.

Lemma demo_reachable : reachable 192 256 4096 demo_end.
Proof.
  eapply reachable_step; [eapply reachable_step; [exact demo_start_reachable|]|].
  - eapply (linux_push _ _ _ (CachedMemory.Make ∅ ∅) [] [] demo_message RING_OK).
    vm_compute. reflexivity.
  - eapply (rtos_pop _ _ _ _ [demo_message] [] zero_slot RING_OK (Some demo_message)).
    vm_compute. reflexivity.
Qed.

Lemma channel_progress_witness :
  (sg2002_rtos_ring_try_push (Some (rtos_ring 192 256 4096)) (Some demo_message)
     (mem demo_end)).1 = RING_OK.
Proof.
  destruct (channel_progress 192 256 4096 demo_end demo_message zero_slot
              demo_placed demo_reachable) as (_ & _ & H).
  - vm_compute. congruence.
  - apply H. vm_compute. congruence.
Defined.
