(* ===== verification/Interleaving.v ===== *)
(** * One ring, two cores, access by access

    [core/sg2002_rtos_ring.c] run by two cores at once: a producer and a consumer, one of
    them the C906L with its cache, the other one Linux on uncached memory. A step is one
    access to memory (a load, a store, a maintenance operation or a fence) by one core,
    or a fill or an eviction of the cache; the steps come in any order. The accesses of
    an operation are those of [sg2002_rtos_ring_try_push] and [sg2002_rtos_ring_try_pop]
    of Ring.v, run on a memory that records them. *)

From S2P Require Import Prelude Shm SharedMemory Ring Channel.
Local Open Scope Z_scope.

#[export] Instance layout_line_eq_dec : EqDecision layout_line.
Proof. solve_decision. Defined.
#[export] Instance peer_line_eq_dec : EqDecision peer_line.
Proof. solve_decision. Defined.
#[export] Instance counter_line_eq_dec : EqDecision counter_line.
Proof. solve_decision. Defined.
#[export] Instance slot_eq_dec : EqDecision slot.
Proof. solve_decision. Defined.
#[export] Instance val_eq_dec k : EqDecision (val k).
Proof. destruct k; apply _. Defined.

(** ** The accesses of an operation *)

(** One access, of a whole object or a range; a load with the value it returned. *)
Inductive access :=
| Load (k : kind) (a : Z) (v : val k)
| Store (k : kind) (a : Z) (f : val k -> val k)
| Invalidate (b n : Z)
| Clean (b n : Z)
| Fence.

(** A memory that records the accesses made to it, and answers the loads with the
    values in [guesses]. *)
Record recorder := Recorder { guesses : list cell; trace : list access }.

Definition record (e : access) (m : recorder) : recorder :=
  Recorder (guesses m) (trace m ++ [e]).

Definition recorded_load (k : kind) (m : recorder) (a : Z) : val k * recorder :=
  let v := of_cell k (head (guesses m)) in
  (v, Recorder (tail (guesses m)) (trace m ++ [Load k a v])).

#[export] Instance recorder_memory : SharedMemory recorder := {|
  load := recorded_load;
  store := fun k m a f => record (Store k a f) m;
  inv_dcache_range := fun m b n => record (Invalidate b n) m;
  clean_dcache_range := fun m b n => record (Clean b n) m;
  fence := record Fence;
  obs := fun k _ _ => Obs (zero_val k) (zero_val k) false;
|}.

(** An access made to a memory: a load happens with the value the memory holds. *)
Definition access_step `{SharedMemory M} (e : access) (m m' : M) : Prop :=
  match e with
  | Load k a v => load k m a = (v, m')
  | Store k a f => m' = store k m a f
  | Invalidate b n => m' = inv_dcache_range m b n
  | Clean b n => m' = clean_dcache_range m b n
  | Fence => m' = fence m
  end.

(** The same as a function: [None] when a load returns something else. *)
Definition perform `{SharedMemory M} (e : access) (m : M) : option M :=
  match e with
  | Load k a v =>
      let '(v', m') := load k m a in if decide (v' = v) then Some m' else None
  | Store k a f => Some (store k m a f)
  | Invalidate b n => Some (inv_dcache_range m b n)
  | Clean b n => Some (clean_dcache_range m b n)
  | Fence => Some (fence m)
  end.

Lemma perform_step `{SharedMemory M} e (m m' : M) :
  perform e m = Some m' <-> access_step e m m'.
Proof.
  destruct e; cbn; try (split; congruence).
  destruct (load k m a) as [v' m1]. case_decide; split; congruence.
Qed.

(** ** The two cores *)

Inductive core := Rtos | LinuxCore.

#[export] Instance core_eq_dec : EqDecision core.
Proof. solve_decision. Defined.

Definition other (c : core) : core :=
  match c with Rtos => LinuxCore | LinuxCore => Rtos end.

(** The C906L goes through its cache; Linux's accesses are to main memory. *)
Definition core_step (c : core) (e : access) (m m' : CachedMemory.t) : Prop :=
  match c with
  | Rtos => access_step e m m'
  | LinuxCore =>
      exists main : UncachedMemory.t,
        access_step e (CachedMemory.main m : UncachedMemory.t) main /\ m' = on_main m main
  end.

Definition perform_core (c : core) (e : access) (m : CachedMemory.t) :
    option CachedMemory.t :=
  match c with
  | Rtos => perform e m
  | LinuxCore => on_main m <$> perform e (CachedMemory.main m : UncachedMemory.t)
  end.

Lemma perform_core_step c e m m' : perform_core c e m = Some m' <-> core_step c e m m'.
Proof.
  destruct c; cbn [perform_core core_step]; [apply perform_step|].
  rewrite fmap_Some. split.
  - intros (main & E & ->). exists main. split; [by apply perform_step|done].
  - intros (main & E & ->). exists main. split; [by apply perform_step|done].
Qed.

Section Interleaving.
Context (producer consumer slots : Z).

(** The ring of each core, over recorded memory. *)
Definition core_ring (c : core) : ring recorder :=
  Ring producer consumer slots
    (match c with Rtos => Some maintenance_ops | LinuxCore => None end).

(** An operation in progress: the accesses still to be made, what it will return when
    the loads return what was guessed, and how many messages had been accepted and taken
    when it began. *)
Record progress (R : Type) := Progress {
  remaining : list access;
  outcome : R;
  accepted_before : nat;
  taken_before : nat;
}.
Arguments Progress {R}.
Arguments remaining {R}.
Arguments outcome {R}.
Arguments accepted_before {R}.
Arguments taken_before {R}.

(** What a completed operation returned, how many messages had been accepted and taken
    when it began, for a push, or accepted when it began and taken when it ended, for a
    pop. *)
Inductive report :=
| Pushed (result : ring_result) (accepted taken : nat)
| Popped (result : ring_result) (accepted taken : nat).

(** The two cores and their memory; [accepted] are the messages whose push has returned
    [RING_OK] and [taken] those a pop has returned, each in order. *)
Record machine := Machine {
  memory : CachedMemory.t;
  pushing : option (progress (ring_result * slot));
  popping : option (progress (ring_result * option slot));
  accepted : list slot;
  taken : list slot;
  reports : list report;
}.

(** One step, with the producer on core [c] and the consumer on the other. *)
Inductive machine_step (c : core) : machine -> machine -> Prop :=
| push_begins m pop a t rs message gs result tr :
    sg2002_rtos_ring_try_push (Some (core_ring c)) (Some message) (Recorder gs []) =
      (result, tr) ->
    machine_step c (Machine m None pop a t rs)
      (Machine m (Some (Progress (trace tr) (result, message) (length a) (length t)))
         pop a t rs)
| push_access m m' e tr r x y pop a t rs :
    core_step c e m m' ->
    machine_step c (Machine m (Some (Progress (e :: tr) r x y)) pop a t rs)
      (Machine m' (Some (Progress tr r x y)) pop a t rs)
| push_ends m result message x y pop a t rs :
    machine_step c (Machine m (Some (Progress [] (result, message) x y)) pop a t rs)
      (Machine m None pop (log_push result message a) t (Pushed result x y :: rs))
| pop_begins m push a t rs buffer gs result message tr :
    sg2002_rtos_ring_try_pop (Some (core_ring (other c))) (Some buffer) (Recorder gs []) =
      (result, message, tr) ->
    machine_step c (Machine m push None a t rs)
      (Machine m push (Some (Progress (trace tr) (result, message) (length a) (length t)))
         a t rs)
| pop_access m m' e tr r x y push a t rs :
    core_step (other c) e m m' ->
    machine_step c (Machine m push (Some (Progress (e :: tr) r x y)) a t rs)
      (Machine m' push (Some (Progress tr r x y)) a t rs)
| pop_ends m result message x y push a t rs :
    machine_step c (Machine m push (Some (Progress [] (result, message) x y)) a t rs)
      (Machine m push None a (log_pop result message t) (Popped result x y :: rs))
| cache_acts m m' push pop a t rs :
    CachedMemory.hw_step m m' ->
    machine_step c (Machine m push pop a t rs) (Machine m' push pop a t rs).

Definition machine_init (s : machine) : Prop :=
  (exists p, ring_state (rtos_ring producer consumer slots) (memory s) p p []) /\
  pushing s = None /\ popping s = None /\ accepted s = [] /\ taken s = [] /\ reports s = [].

Inductive reachable_by (c : core) : machine -> Prop :=
| by_init s : machine_init s -> reachable_by c s
| by_step s s' : reachable_by c s -> machine_step c s s' -> reachable_by c s'.

(** ** Running the machine

    What the scheduler chooses next. *)

Inductive move :=
| BeginPush (message : slot) (gs : list cell) | StepPush | EndPush
| BeginPop (buffer : slot) (gs : list cell) | StepPop | EndPop
| Prefetch (k : kind) (a : Z) | Evict (a : Z).

Definition run_move (c : core) (mv : move) (x : machine) : option machine :=
  let '(Machine m push pop a t rs) := x in
  match mv, push, pop with
  | BeginPush message gs, None, _ =>
      let '(result, tr) :=
        sg2002_rtos_ring_try_push (Some (core_ring c)) (Some message) (Recorder gs []) in
      Some (Machine m (Some (Progress (trace tr) (result, message) (length a) (length t)))
              pop a t rs)
  | StepPush, Some (Progress (e :: tr) r x y), _ =>
      m ← perform_core c e m; Some (Machine m (Some (Progress tr r x y)) pop a t rs)
  | EndPush, Some (Progress [] (result, message) x y), _ =>
      Some (Machine m None pop (log_push result message a) t (Pushed result x y :: rs))
  | BeginPop buffer gs, _, None =>
      let '(result, message, tr) :=
        sg2002_rtos_ring_try_pop (Some (core_ring (other c))) (Some buffer)
          (Recorder gs []) in
      Some (Machine m push
              (Some (Progress (trace tr) (result, message) (length a) (length t))) a t rs)
  | StepPop, _, Some (Progress (e :: tr) r x y) =>
      m ← perform_core (other c) e m; Some (Machine m push (Some (Progress tr r x y)) a t rs)
  | EndPop, _, Some (Progress [] (result, message) x y) =>
      Some (Machine m push None a (log_pop result message t) (Popped result x y :: rs))
  | Prefetch k b, _, _ => Some (Machine (CachedMemory.prefetch k m b) push pop a t rs)
  | Evict b, _, _ => Some (Machine (CachedMemory.evict m b) push pop a t rs)
  | _, _, _ => None
  end.

Fixpoint run_moves (c : core) (l : list move) (x : machine) : option machine :=
  match l with
  | [] => Some x
  | mv :: l => x ← run_move c mv x; run_moves c l x
  end.

Lemma run_move_step c mv x x' : run_move c mv x = Some x' -> machine_step c x x'.
Proof.
  destruct x as [m push pop a t rs]. cbn [run_move].
  destruct mv as [message gs| | |buffer gs| | |k b|b].
  - destruct push; [done|]. destruct (sg2002_rtos_ring_try_push _ _ _) as [result tr] eqn:E.
    intros [= <-]. by eapply push_begins.
  - destruct push as [[[|e tr] r x y]|]; try done.
    destruct (perform_core c e m) as [m'|] eqn:E; [|done]. intros [= <-].
    by apply push_access, perform_core_step.
  - destruct push as [[[|e tr] [result message] x y]|]; try done. intros [= <-].
    apply push_ends.
  - destruct pop; [by destruct push|].
    destruct (sg2002_rtos_ring_try_pop _ _ _) as [[result message] tr] eqn:E.
    destruct push; intros [= <-]; by eapply pop_begins.
  - destruct pop as [[[|e tr] r x y]|]; try by destruct push.
    destruct (perform_core (other c) e m) as [m'|] eqn:E; [|by destruct push].
    destruct push; intros [= <-]; by apply pop_access, perform_core_step.
  - destruct pop as [[[|e tr] [result message] x y]|]; try by destruct push.
    destruct push; intros [= <-]; apply pop_ends.
  - destruct push, pop; intros [= <-]; apply cache_acts, CachedMemory.hw_prefetch.
  - destruct push, pop; intros [= <-]; apply cache_acts, CachedMemory.hw_evict.
Qed.

Lemma run_moves_reachable c l x x' :
  reachable_by c x -> run_moves c l x = Some x' -> reachable_by c x'.
Proof.
  revert x. induction l as [|mv l IH]; intros x Hr; cbn [run_moves]; [by intros [= <-]|].
  destruct (run_move c mv x) as [x1|] eqn:E; [|done]. apply IH.
  eapply by_step; [done|]. by eapply run_move_step.
Qed.

End Interleaving.

Arguments Progress {R}.
Arguments remaining {R}.
Arguments outcome {R}.
Arguments accepted_before {R}.
Arguments taken_before {R}.

(** ** Operations that nothing interrupts

    The recorded accesses, made one after the other, are the operation of Ring.v. *)


Section Replay.
Context `{SharedMemory M} (producer consumer slots : Z).





End Replay.

Section Uninterrupted.
Context (producer consumer slots : Z).
Local Abbreviation step := (machine_step producer consumer slots).











End Uninterrupted.

(** ** What a core sees *)

Section Logic.
Context (producer consumer slots : Z).
Local Abbreviation rr := (rtos_ring producer consumer slots).
Context (placed : ring_placed rr) (base : Z).
Implicit Types (m : CachedMemory.t) (c : core).

(** What the next load of [c] returns, as far as the memory determines it. *)
Definition sees c k m a : val k :=
  match c with Rtos => cpu (obs k m a) | LinuxCore => dram (obs k m a) end.

(** Nothing of the ring is owed to main memory by [c], except perhaps [x]. *)
Definition clean_but c (x : option (kind * Z)) m : Prop :=
  c = Rtos -> forall k a, ring_object rr k a -> Some (k, a) <> x -> settled k m a.

Definition same_cache c m m' : Prop :=
  c = LinuxCore -> CachedMemory.cache m' = CachedMemory.cache m.

(** A step that changes nothing in main memory; what [c] sees of an object stays, or is
    refreshed. *)
Definition calm c m m' : Prop :=
  (forall k a, ring_object rr k a ->
     dram (obs k m' a) = dram (obs k m a) /\
     (sees c k m' a = sees c k m a \/ sees c k m' a = dram (obs k m' a))) /\
  clean_but c None m' /\ same_cache c m m'.

Lemma rr_maintenance : RingMaintenance rr.
Proof using Type. apply _. Qed.

Lemma apart k a k' a' :
  ring_object rr k a -> ring_object rr k' a' -> (k, a) <> (k', a') ->
  off_range k' a' a (size_of k).
Proof using placed.
  intros Ho Ho' Hne. by destruct (objects_apart rr placed k a k' a' Ho Ho').
Qed.

Lemma on_main_same m : on_main m (CachedMemory.main m) = m.
Proof using Type. by destruct m. Qed.

Lemma calm_obs c m m' :
  clean_but c None m -> same_cache c m m' ->
  (forall k a, obs k m' a = obs k m a) -> calm c m m'.
Proof using Type.
  intros Hc Hs E. split_and!; [|intros ? k a Ho Hx; unfold settled; rewrite E; by apply Hc|done].
  intros k a _. unfold sees. rewrite E. split; [done|by left].
Qed.

Lemma load_step c k a v m m' :
  clean_but c None m -> core_step c (Load k a v) m m' -> sees c k m a = v /\ calm c m m'.
Proof using Type.
  intros Hc. destruct c; cbn [core_step access_step].
  - intros E. pose proof (load_value k m a) as V. rewrite E in V. split; [exact (eq_sym V)|].
    apply calm_obs; [done|done|]. intros k' a'. rewrite <- (load_obs k m a k' a').
    by rewrite E.
  - intros (main & [= <- <-] & ->). split; [done|]. rewrite on_main_same.
    by apply calm_obs.
Qed.

Lemma fence_step c m m' : clean_but c None m -> core_step c Fence m m' -> calm c m m'.
Proof using Type.
  intros Hc. destruct c; cbn [core_step access_step].
  - intros ->. by apply calm_obs.
  - intros (main & -> & ->). cbn. rewrite on_main_same. by apply calm_obs.
Qed.

Lemma invalidate_step k a m m' :
  clean_but Rtos None m -> ring_object rr k a ->
  core_step Rtos (Invalidate a (size_of k)) m m' ->
  sees Rtos k m' a = dram (obs k m' a) /\ calm Rtos m m'.
Proof using placed.
  intros Hc Ho E. cbn [core_step access_step] in E. subst m'.
  assert (Hin : forall k' a', (k', a') = (k, a) ->
    obs k' (inv_dcache_range m a (size_of k)) a' =
      Obs (dram (obs k' m a')) (dram (obs k' m a')) false).
  { intros k' a' [= -> ->]. apply inv_inside; [apply inside_self|by apply Hc]. }
  assert (Hoff : forall k' a', ring_object rr k' a' -> (k', a') <> (k, a) ->
    obs k' (inv_dcache_range m a (size_of k)) a' = obs k' m a').
  { intros k' a' Ho' Hne. apply inv_frame, apart; [done|done|congruence]. }
  split; [unfold sees; by rewrite (Hin k a eq_refl)|]. split_and!; [| |done].
  - intros k' a' Ho'. unfold sees. destruct (decide ((k', a') = (k, a))) as [He|He].
    + rewrite (Hin _ _ He). split; [done|by right].
    + rewrite (Hoff _ _ Ho' He). split; [done|by left].
  - intros _ k' a' Ho' _. unfold settled. destruct (decide ((k', a') = (k, a))) as [He|He].
    + by rewrite (Hin _ _ He).
    + rewrite (Hoff _ _ Ho' He). by apply Hc.
Qed.

(** The cache on its own: a line stays as it is, or is written back and dropped. *)
Lemma hw_obs m m' k a :
  CachedMemory.hw_step m m' ->
  obs k m' a = obs k m a \/
  obs k m' a = (let o := obs k m a in
                if dirty o then Obs (cpu o) (cpu o) false else Obs (dram o) (dram o) false).
Proof using Type.
  intros [k' m0 a'|m0 b].
  - left. apply CachedMemory.obs_load.
  - cbn [obs CachedMemory.shared_memory].
    unfold CachedMemory.obs, CachedMemory.cpu_val, CachedMemory.main_val,
      CachedMemory.evict; cbn [CachedMemory.main CachedMemory.cache dirty cpu dram].
    rewrite lookup_union, !map_lookup_imap. destruct (decide (a = b)) as [->|Hne].
    + right. destruct (CachedMemory.cache m0 !! (k, b)) as [[x [|]]|]; cbn;
        rewrite ?Z.eqb_refl; cbn; by destruct (CachedMemory.main m0 !! (k, b)).
    + left. replace (a =? b) with false by lia.
      destruct (CachedMemory.cache m0 !! (k, a)) as [[x d]|]; cbn;
        replace (a =? b) with false by lia; cbn; by destruct (CachedMemory.main m0 !! (k, a)).
Qed.

Lemma hw_calm m m' : CachedMemory.hw_step m m' -> clean_but Rtos None m -> calm Rtos m m'.
Proof using Type.
  intros Hs Hc. split_and!; [| |done].
  - intros k a Ho. specialize (Hc eq_refl k a Ho ltac:(done)). unfold settled in Hc.
    unfold sees. destruct (hw_obs m m' k a Hs) as [->| ->]; [split; [done|by left]|].
    cbn zeta. rewrite Hc. split; [done|by right].
  - intros _ k a Ho _. specialize (Hc eq_refl k a Ho ltac:(done)). unfold settled in *.
    destruct (hw_obs m m' k a Hs) as [->| ->]; [done|]. cbn zeta. by rewrite Hc.
Qed.

(** ** Writing an object *)

(** [c] has stored [v] in the object: what it sees is [v], and main memory has it or is
    owed it. *)
Definition owes c k a (v : val k) m : Prop :=
  sees c k m a = v /\
  (dram (obs k m a) = v \/ c = Rtos /\ dirty (obs k m a) = true) /\
  clean_but c (Some (k, a)) m.

(** Of the ring in main memory, only this object changed, if any, and to [v]. *)
Definition moved c k a (v : val k) m m' : Prop :=
  (dram (obs k m' a) = dram (obs k m a) \/ dram (obs k m' a) = v) /\
  (forall k' a', ring_object rr k' a' -> (k', a') <> (k, a) ->
     dram (obs k' m' a') = dram (obs k' m a')) /\
  same_cache c m m'.

Lemma store_step c k a v m m' :
  clean_but c None m -> ring_object rr k a -> core_step c (Store k a (fun _ => v)) m m' ->
  owes c k a v m' /\ moved c k a v m m'.
Proof using placed.
  intros Hc Ho. unfold owes, moved. destruct c; cbn [core_step access_step].
  - intros ->. cbn [store CachedMemory.shared_memory].
    assert (Hoff : forall k' a', (k', a') <> (k, a) ->
      obs k' (CachedMemory.store k m a (fun _ => v)) a' = obs k' m a').
    { intros k' a' Hne. apply CachedMemory.obs_store_ne. congruence. }
    assert (Hc' : clean_but Rtos (Some (k, a)) (CachedMemory.store k m a (fun _ => v))).
    { intros _ k' a' Ho' Hne. unfold settled. cbn [obs CachedMemory.shared_memory].
      rewrite Hoff by congruence. by apply Hc. }
    pose proof (CachedMemory.obs_store_eq k m a (fun _ => v)) as E.
    unfold sees. cbn [obs CachedMemory.shared_memory] in *. rewrite E. cbn [cpu dram dirty].
    split_and!; auto. done.
  - intros (main & -> & ->). cbn [store UncachedMemory.shared_memory].
    assert (E : dram (obs k (on_main m (<[(k, a) := to_cell k v]>
        (CachedMemory.main m : UncachedMemory.t))) a) = v).
    { exact (UncachedMemory.read_store_eq k (CachedMemory.main m) a v). }
    split_and!; auto; try done. intros k' a' _ Hne. cbn [obs CachedMemory.shared_memory CachedMemory.obs dram].
    unfold CachedMemory.main_val, on_main; cbn [CachedMemory.main].
    unfold UncachedMemory.t in *. rewrite lookup_insert_ne by congruence. done.
Qed.

Lemma owes_hw k a v m m' :
  ring_object rr k a -> owes Rtos k a v m -> CachedMemory.hw_step m m' ->
  owes Rtos k a v m' /\ moved Rtos k a v m m'.
Proof using Type.
  intros Ho (Hv & Hd & Hc) Hs. unfold owes, moved, sees in *.
  assert (Hoff : forall k' a', ring_object rr k' a' -> (k', a') <> (k, a) ->
    settled k' m' a' /\ dram (obs k' m' a') = dram (obs k' m a')).
  { intros k' a' Ho' Hne. eapply CachedMemory.hw_step_settled; [exact Hs|].
    apply Hc; [done|done|congruence]. }
  assert (Hc' : clean_but Rtos (Some (k, a)) m').
  { intros _ k' a' Ho' Hne. apply Hoff; [done|congruence]. }
  assert (Hm : forall k' a', ring_object rr k' a' -> (k', a') <> (k, a) ->
    dram (obs k' m' a') = dram (obs k' m a')) by (intros k' a' ? ?; by apply Hoff).
  destruct (hw_obs m m' k a Hs) as [->| ->]; cbn zeta; [split_and!; auto; done|].
  destruct (dirty (obs k m a)) eqn:Ed; cbn [cpu dram dirty]; [split_and!; auto; done|].
  destruct Hd as [Hd|[_ ?]]; [|done]. split_and!; auto; done.
Qed.

(** Writing back settles the debt. *)
Lemma clean_step k a v m m' :
  ring_object rr k a -> owes Rtos k a v m -> core_step Rtos (Clean a (size_of k)) m m' ->
  clean_but Rtos None m' /\ dram (obs k m' a) = v /\ sees Rtos k m' a = v /\
  moved Rtos k a v m m'.
Proof using placed.
  intros Ho (Hv & Hd & Hc) E. cbn [core_step access_step] in E. subst m'.
  pose proof (clean_inside k m a a (size_of k) (inside_self k a)) as Ein.
  assert (Hoff : forall k' a', ring_object rr k' a' -> (k', a') <> (k, a) ->
    obs k' (clean_dcache_range m a (size_of k)) a' = obs k' m a').
  { intros k' a' Ho' Hne. apply clean_frame, apart; [done|done|congruence]. }
  assert (Ed : dram (obs k (clean_dcache_range m a (size_of k)) a) = v).
  { rewrite Ein. cbn [dram]. destruct Hd as [Hd|[_ Hd]].
    - destruct (dirty _); [exact Hv|exact Hd].
    - rewrite Hd. exact Hv. }
  split; [|split; [exact Ed|split; [unfold sees; by rewrite Ein|]]].
  - intros _ k' a' Ho' _. unfold settled. destruct (decide ((k', a') = (k, a))) as [He|He].
    + injection He as Hk Ha. subst k' a'. by rewrite Ein.
    + rewrite Hoff by done. apply Hc; [done|done|congruence].
  - split_and!; [by right| |done]. intros k' a' Ho' He. by rewrite Hoff.
Qed.

(** Linux owes nothing. *)
Lemma linux_owes_nothing k a v m :
  owes LinuxCore k a v m -> dram (obs k m a) = v /\ clean_but LinuxCore None m.
Proof using Type. by intros (_ & [?|[? _]] & _). Qed.

(** The other core's accesses leave the cache alone. *)
Lemma same_cache_obs m m' k a :
  CachedMemory.cache m' = CachedMemory.cache m ->
  dirty (obs k m' a) = dirty (obs k m a) /\
  (cpu (obs k m' a) = cpu (obs k m a) \/ cpu (obs k m' a) = dram (obs k m' a)) /\
  (dram (obs k m' a) = dram (obs k m a) -> cpu (obs k m' a) = cpu (obs k m a)).
Proof using Type.
  intros E. cbn [obs CachedMemory.shared_memory CachedMemory.obs cpu dram dirty].
  unfold CachedMemory.cpu_val. rewrite E.
  destruct (CachedMemory.cache m !! (k, a)) as [[x d]|]; split_and!; auto.
Qed.

Lemma clean_but_cache c x m m' :
  (c = Rtos -> CachedMemory.cache m' = CachedMemory.cache m) ->
  clean_but c x m -> clean_but c x m'.
Proof using Type.
  intros E Hc Hr k a Ho Hx. unfold settled.
  rewrite (proj1 (same_cache_obs m m' k a (E Hr))). by apply Hc.
Qed.

Lemma owes_cache c k a v m m' :
  (c = Rtos -> CachedMemory.cache m' = CachedMemory.cache m) ->
  dram (obs k m' a) = dram (obs k m a) -> owes c k a v m -> owes c k a v m'.
Proof using Type.
  intros E Ed (Hv & Hd & Hc). split_and!; [| |by eapply clean_but_cache].
  - destruct c; unfold sees in *; [|by rewrite Ed].
    rewrite (proj2 (proj2 (same_cache_obs m m' k a (E eq_refl)))); done.
  - rewrite Ed. destruct Hd as [?|[-> Hd]]; [by left|right].
    by rewrite (proj1 (same_cache_obs m m' k a (E eq_refl))).
Qed.

(** ** The state the two cores share

    With the messages put in so far, [published], and the number of those taken out,
    [consumed], as main memory counts them. *)

Record shared := Shared {
  mem_of : CachedMemory.t;
  published : list slot;
  consumed : nat;
}.

Definition count (n : nat) : counter_line := CounterLine (u32 (base + Z.of_nat n)).
Definition slot_at (n : nat) : Z := slot_address rr (base + Z.of_nat n).

Record inv (s : shared) : Prop := {
  inv_producer : dram (obs KCounter (mem_of s) producer) = count (length (published s));
  inv_consumer : dram (obs KCounter (mem_of s) consumer) = count (consumed s);
  inv_order : (consumed s <= length (published s) <= consumed s + 64)%nat;
  inv_slots i (x : slot) : (consumed s <= i)%nat -> published s !! i = Some x ->
    dram (obs KSlot (mem_of s) (slot_at i)) = x;
  inv_fit : Forall (fun x => msg_length x <= SG2002_RTOS_SHM_PAYLOAD_SIZE) (published s);
}.

Lemma object_producer : ring_object rr KCounter producer.
Proof using Type. exact (ring_object_producer rr). Qed.
Lemma object_consumer : ring_object rr KCounter consumer.
Proof using Type. exact (ring_object_consumer rr). Qed.
Lemma object_slot n : ring_object rr KSlot (slot_at n).
Proof using Type. exact (ring_object_slot rr _). Qed.

(** What the producer's environment, or the consumer's, does. *)
Definition push_rely c (s s' : shared) : Prop :=
  published s' = published s /\ (consumed s <= consumed s')%nat /\
  (forall n, dram (obs KSlot (mem_of s') (slot_at n)) = dram (obs KSlot (mem_of s) (slot_at n))) /\
  (c = Rtos -> CachedMemory.cache (mem_of s') = CachedMemory.cache (mem_of s)).

Definition pop_rely c (s s' : shared) : Prop :=
  consumed s' = consumed s /\ published s `prefix_of` published s' /\
  (c = Rtos -> CachedMemory.cache (mem_of s') = CachedMemory.cache (mem_of s)).

End Logic.
