(* ===== verification/RingRace.v ===== *)
(** * The ring is a queue, whatever the interleaving

    A small program logic for the accesses of one core while the other core and the
    cache go on: an assertion before each access, kept by what the others do. With it
    the operations of Ring.v are shown to hand messages over in order between two cores
    that run access by access (Interleaving.v). *)

From S2P Require Import Prelude Shm SharedMemory Ring Channel Interleaving.
Local Open Scope Z_scope.

(** What a report may say. A push finds the ring full only when all of 64 messages were
    there when it began; a pop finds it empty only when all that was accepted before it
    began had been taken; and neither sees a corrupt ring. *)
Definition honest (r : report) : Prop :=
  match r with
  | Pushed (RING_OK | RING_INVALID) _ _ => True
  | Pushed RING_FULL accepted taken => (taken + 64 <= accepted)%nat
  | Pushed (RING_EMPTY | RING_CORRUPT) _ _ => False
  | Popped RING_OK _ _ => True
  | Popped RING_EMPTY accepted taken => (accepted <= taken)%nat
  | Popped (RING_FULL | RING_CORRUPT | RING_INVALID) _ _ => False
  end.

(** ** A program logic for accesses *)

Section Program.
Context (producer consumer slots : Z).
Local Abbreviation rr := (rtos_ring producer consumer slots).
Context (placed : ring_placed rr) (base : Z).
Local Abbreviation inv := (inv producer consumer slots base).
Local Abbreviation core_step := (core_step).

(** One side of the ring: its core, what the other side may do, what it lets the other
    side rely on, and what its assertions say of the messages. *)
Section Side.
Context (c : core) (guar rely : shared -> shared -> Prop) (side : shared -> Prop).
Implicit Types (A Q : shared -> Prop) (s : shared).

Record fit A : Prop := {
  fit_rely s s' : inv s -> inv s' -> rely s s' -> A s -> A s';
  fit_hw s m' : c = Rtos -> inv s -> A s -> CachedMemory.hw_step (mem_of s) m' ->
    exists s', mem_of s' = m' /\ guar s s' /\ inv s' /\ A s';
  fit_side s : A s -> side s;
}.

Definition advances A (e : access) A' : Prop :=
  forall s m', inv s -> A s -> core_step c e (mem_of s) m' ->
    exists s', mem_of s' = m' /\ guar s s' /\ inv s' /\ A' s'.

(** From [A], the accesses of the trace lead to [Q], with an assertion that fits
    between any two of them. *)
Fixpoint runs A (tr : list access) Q : Prop :=
  match tr with
  | [] => forall s, inv s -> A s -> Q s
  | e :: tr => exists A', fit A' /\ advances A e A' /\ runs A' tr Q
  end.

Lemma runs_weaken A B tr Q :
  (forall s, inv s -> A s -> B s) -> runs B tr Q -> runs A tr Q.
Proof using Type.
  intros Hab. destruct tr as [|e tr]; cbn [runs]; [eauto|].
  intros (A' & Hf & Ha & Hr). exists A'. split_and!; [done| |done].
  intros s m' Hi HA. apply Ha; auto.
Qed.

(** *** Accesses that read *)

Definition at_memory s m' : shared := Shared m' (published s) (consumed s).

Context (idle : shared -> Prop) (drift : shared -> shared -> Prop).

(** Between its accesses a core that owes nothing is [idle]; what it knows may
    [drift]. *)
Record idling : Prop := {
  idle_calm s m' : inv s -> idle s -> calm producer consumer slots c (mem_of s) m' ->
    inv (at_memory s m') /\ idle (at_memory s m') /\ drift s (at_memory s m') /\
    guar s (at_memory s m');
  idle_rely s s' : inv s -> inv s' -> rely s s' -> idle s -> idle s' /\ drift s s';
  idle_clean s : idle s -> clean_but producer consumer slots c None (mem_of s);
  idle_side s : idle s -> side s;
}.
Context (idles : idling).

Definition durable A : Prop :=
  forall s s', inv s -> inv s' -> drift s s' -> idle s -> A s -> A s'.

Lemma fit_idle A : durable A -> fit (fun s => idle s /\ A s).
Proof using idles.
  intros Hd. split.
  - intros s s' Hi Hi' Hr [Hs HA]. destruct (idle_rely idles s s' Hi Hi' Hr Hs) as [Hs' Hw].
    split; [done|]. by eapply (Hd s s').
  - intros s m' Ec Hi [Hs HA] Hh. apply (hw_calm producer consumer slots) in Hh;
      rewrite <- Ec in *; [|by apply (idle_clean idles)].
    destruct (idle_calm idles s m' Hi Hs Hh) as (Hi' & Hs' & Hw & Hg).
    exists (at_memory s m'). split_and!; try done. by eapply (Hd s).
  - intros s [Hs _]. by apply (idle_side idles).
Qed.

(** A calm access after which [B] is known. *)
Lemma runs_calm A B e tr Q :
  durable A -> durable B ->
  (forall s m', idle s -> core_step c e (mem_of s) m' ->
     calm producer consumer slots c (mem_of s) m') ->
  (forall s m', inv s -> idle s -> A s -> core_step c e (mem_of s) m' ->
     inv (at_memory s m') -> idle (at_memory s m') -> A (at_memory s m') ->
     B (at_memory s m')) ->
  runs (fun s => idle s /\ B s) tr Q -> runs (fun s => idle s /\ A s) (e :: tr) Q.
Proof using idles.
  intros HA HB Hcalm Hab Hr. exists (fun s => idle s /\ B s).
  split_and!; [by apply fit_idle| |done]. intros s m' Hi [Hs Ha] Hstep.
  destruct (idle_calm idles s m' Hi Hs (Hcalm s m' Hs Hstep)) as (Hi' & Hs' & Hw & Hg).
  exists (at_memory s m'). split_and!; try done. apply (Hab s); try done.
  by eapply (HA s).
Qed.

Lemma runs_load A B k a v tr Q :
  durable A -> durable B ->
  (forall s, inv s -> idle s -> A s -> sees c k (mem_of s) a = v -> B s) ->
  runs (fun s => idle s /\ B s) tr Q -> runs (fun s => idle s /\ A s) (Load k a v :: tr) Q.
Proof using idles.
  intros HA HB Hab. apply runs_calm; [done|done| |].
  - intros s m' Hs Hstep. eapply load_step; [|exact Hstep]. by apply (idle_clean idles).
  - intros s m' Hi Hs Ha Hstep Hi' Hs' Ha'.
    destruct (load_step producer consumer slots c k a v (mem_of s) m'
      (idle_clean idles s Hs) Hstep) as [Hv Hcalm].
    destruct (idle_calm idles s m' Hi Hs Hcalm) as (_ & _ & Hw & _).
    eapply (HB s); [done|done|done|done|]. by apply Hab.
Qed.

Definition barrier : list access := match c with Rtos => [Fence] | LinuxCore => [] end.
Definition sync (k : kind) (a : Z) : list access :=
  match c with Rtos => [Invalidate a (size_of k)] | LinuxCore => [] end.
Definition write_back (k : kind) (a : Z) : list access :=
  match c with Rtos => [Clean a (size_of k)] | LinuxCore => [] end.

Lemma runs_write_back A B k a tr Q :
  fit B ->
  (c = Rtos -> advances A (Clean a (size_of k)) B) ->
  (c = LinuxCore -> forall s, inv s -> A s -> B s) ->
  runs B tr Q -> runs A (write_back k a ++ tr) Q.
Proof using Type.
  intros Hf Hr Hl H. unfold write_back. destruct c eqn:Ec; cbn [app].
  - exists B. split_and!; [done|by apply Hr|done].
  - eapply runs_weaken; [by apply Hl|done].
Qed.

Lemma runs_barrier A tr Q :
  durable A -> runs (fun s => idle s /\ A s) tr Q ->
  runs (fun s => idle s /\ A s) (barrier ++ tr) Q.
Proof using idles.
  intros HA Hr. unfold barrier. destruct c eqn:Ec; [|done]. cbn [app].
  eapply (runs_calm A A); try done. intros s m' Hs Hstep. eapply fence_step; [|exact Hstep].
  by apply (idle_clean idles).
Qed.

(** After the synchronisation what the core sees of the object is what main memory
    held, or has received since. *)
Lemma runs_sync A B k a tr Q :
  ring_object rr k a -> durable A -> durable B ->
  (forall s, inv s -> idle s -> A s ->
     sees c k (mem_of s) a = dram (obs k (mem_of s) a) -> B s) ->
  runs (fun s => idle s /\ B s) tr Q -> runs (fun s => idle s /\ A s) (sync k a ++ tr) Q.
Proof using idles placed.
  intros Ho HA HB Hab Hr. unfold sync. destruct c eqn:Ec; cbn [app].
  - assert (Hstep : forall s m', idle s ->
      core_step c (Invalidate a (size_of k)) (mem_of s) m' ->
      sees c k m' a = dram (obs k m' a) /\ calm producer consumer slots c (mem_of s) m').
    { intros s m' Hs. pose proof (idle_clean idles s Hs) as Hc. rewrite Ec in *.
      by apply (invalidate_step producer consumer slots placed). }
    eapply (runs_calm A B); try done; [intros s m' Hs H'; by apply Hstep|].
    intros s m' Hi Hs Ha H' Hi' Hs' Ha'. apply Hab; try done.
    pose proof (proj1 (Hstep s m' Hs H')) as E. by rewrite Ec in E.
  - eapply runs_weaken; [|exact Hr]. intros s Hi [Hs Ha]. split; [done|].
    by apply Hab.
Qed.

End Side.

(** ** The counters and the slots *)

Local Abbreviation count := (count base).
Local Abbreviation slot_at := (slot_at producer consumer slots base).

Lemma count_value n : value (count n) = u32 (base + Z.of_nat n).
Proof using Type. done. Qed.

Lemma count_difference p n :
  (n <= p <= n + 64)%nat -> u32 (value (count p) - value (count n)) = Z.of_nat p - Z.of_nat n.
Proof using Type. intros Hn. rewrite !count_value. clear placed. word_lia. Qed.

Lemma count_next n : CounterLine (u32 (value (count n) + 1)) = count (S n).
Proof using Type. unfold count. cbn [value]. f_equal. clear placed. word_lia. Qed.

Lemma count_next_ne n : count n <> count (S n).
Proof using Type. intros E. injection E as E. clear placed. word_lia. Qed.

Lemma slot_at_count n : slot_address rr (value (count n)) = slot_at n.
Proof using Type.
  rewrite count_value. apply slot_address_mod. clear placed. word_lia.
Qed.

Lemma slot_at_ne i j : (i < j < i + 64)%nat -> slot_at i <> slot_at j.
Proof using Type. intros Hij E. apply slot_address_inj in E. clear placed. lia. Qed.

(** Main memory as it was. *)
Lemma inv_same s m' :
  inv s ->
  (forall k a, ring_object rr k a -> dram (obs k m' a) = dram (obs k (mem_of s) a)) ->
  inv (at_memory s m').
Proof using Type.
  intros [Hp Hc Ho Hs Hf] E. split; cbn [at_memory mem_of published consumed]; try done.
  - by rewrite (E _ _ (object_producer producer consumer slots)).
  - by rewrite (E _ _ (object_consumer producer consumer slots)).
  - intros i x Hi Hx. rewrite (E _ _ (object_slot producer consumer slots base i)). by apply Hs.
Qed.

Lemma same_cache_rely c m m' :
  same_cache c m m' -> other c = Rtos ->
  CachedMemory.cache m' = CachedMemory.cache m.
Proof using Type. intros Hs Hc. apply Hs. by destruct c. Qed.

Lemma sees_rely c m m' k a :
  (c = Rtos -> CachedMemory.cache m' = CachedMemory.cache m) ->
  sees c k m' a = sees c k m a \/ sees c k m' a = dram (obs k m' a).
Proof using Type.
  intros E. destruct c; [|by right]. unfold sees.
  by destruct (same_cache_obs m m' k a (E eq_refl)) as (_ & ? & _).
Qed.

(** ** The producer *)

Section Push.
Context (c : core) (acc : list slot) (before : nat) (message : slot).
Context (fits : msg_length message <= SG2002_RTOS_SHM_PAYLOAD_SIZE).
Implicit Types (s : shared).

(** The messages published are those accepted, and perhaps the one being pushed. *)
Definition push_side s : Prop :=
  acc `prefix_of` published s /\ published s `prefix_of` acc ++ [message].

Definition push_idle (l : list slot) s : Prop :=
  published s = l /\ (before <= consumed s)%nat /\
  clean_but producer consumer slots c None (mem_of s).

Definition push_drift s s' : Prop :=
  published s' = published s /\ (consumed s <= consumed s')%nat /\
  (forall n, dram (obs KSlot (mem_of s') (slot_at n)) = dram (obs KSlot (mem_of s) (slot_at n))) /\
  forall k a, ring_object rr k a ->
    sees c k (mem_of s') a = sees c k (mem_of s) a \/
    sees c k (mem_of s') a = dram (obs k (mem_of s') a).

Local Abbreviation guar := (pop_rely (other c)).
Local Abbreviation rely := (push_rely producer consumer slots base c).
Local Abbreviation runs := (runs c guar rely push_side).
Local Abbreviation fit := (fit c guar rely push_side).

Lemma push_idling l :
  acc `prefix_of` l -> l `prefix_of` acc ++ [message] ->
  idling c guar rely push_side (push_idle l) push_drift.
Proof using Type.
  intros Hl1 Hl2. split.
  - intros s m' Hi (Hp & Hb & Hc) (Hobs & Hc' & Hs). split; [|split; [|split]].
    + apply inv_same; [done|]. intros k a Ho. by apply Hobs.
    + by split_and!.
    + split; [done|]. split; [done|]. split; [intros n; apply Hobs, object_slot|].
      intros k a Ho. by apply Hobs.
    + split; [done|]. split; [done|]. by apply same_cache_rely.
  - intros s s' _ _ (Ep & Ec & Es & Ecache) (Hp & Hb & Hc). split.
    + split; [by rewrite Ep|]. split; [lia|by eapply clean_but_cache].
    + split; [done|]. split; [done|]. split; [done|]. intros k a _. by apply sees_rely.
  - by intros s (_ & _ & ?).
  - intros s (E & _). unfold push_side. by rewrite E.
Qed.

Definition own s : Prop :=
  sees c KCounter (mem_of s) producer = count (length acc).

(** A value of the consumer counter, not older than the operation. *)
Definition recent s (vc : counter_line) : Prop :=
  exists n, vc = count n /\ (before <= n <= consumed s)%nat /\ (length acc <= n + 64)%nat.

Definition fresh s : Prop := own s /\ recent s (sees c KCounter (mem_of s) consumer).

Lemma recent_later s s' vc :
  (consumed s <= consumed s')%nat -> recent s vc -> recent s' vc.
Proof using Type. intros Hc (n & -> & ? & ?). exists n. split; [done|]. lia. Qed.

Lemma recent_now s :
  inv s -> push_idle acc s -> recent s (dram (obs KCounter (mem_of s) consumer)).
Proof using Type.
  intros Hi (Hp & Hb & _). exists (consumed s). rewrite (inv_consumer _ _ _ _ _ Hi).
  pose proof (inv_order _ _ _ _ _ Hi) as Ho. rewrite Hp in Ho. split; [done|lia].
Qed.

Local Abbreviation durable := (durable (push_idle acc) push_drift).

Lemma durable_own : durable own.
Proof using Type.
  intros s s' Hi Hi' (Ep & _ & _ & Hs) (Hp & _) Ho. unfold own in *.
  destruct (Hs KCounter producer) as [-> | ->]; [apply object_producer|done|].
  by rewrite (inv_producer _ _ _ _ _ Hi'), Ep, Hp.
Qed.

Lemma durable_fresh : durable fresh.
Proof using Type.
  intros s s' Hi Hi' Hd Hidle [Ho Hr]. pose proof (durable_own s s' Hi Hi' Hd Hidle Ho).
  destruct Hd as (Ep & Ec & _ & Hs). split; [done|].
  destruct (Hs KCounter consumer) as [-> | ->]; [apply object_consumer|by eapply recent_later|].
  rewrite (inv_consumer _ _ _ _ _ Hi'). destruct Hr as (n & _ & ? & ?). exists (consumed s').
  split; [done|]. lia.
Qed.

(** The counters as read: there is room when they are less than 64 apart. *)
Definition read (vp vc : counter_line) s : Prop :=
  vp = count (length acc) /\ recent s vc.

Lemma durable_read vp vc : durable (read vp vc).
Proof using Type.
  intros s s' _ _ (_ & Ec & _) _ [? ?]. split; [done|by eapply recent_later].
Qed.

Definition room s : Prop := (length acc < consumed s + 64)%nat.

Lemma read_occupied vp vc s :
  inv s -> push_idle acc s -> read vp vc s ->
  exists n, u32 (value vp - value vc) = Z.of_nat (length acc) - Z.of_nat n /\
    (before <= n <= consumed s)%nat /\ (n <= length acc <= n + 64)%nat.
Proof using Type.
  intros Hi (Hp & _) (-> & n & -> & Hn & Hl). exists n.
  pose proof (inv_order _ _ _ _ _ Hi) as Ho. rewrite Hp in Ho.
  split; [apply count_difference|]; lia.
Qed.

(** *** Filling the slot *)

Definition filled (vp : counter_line) s : Prop :=
  vp = count (length acc) /\ published s = acc /\ (before <= consumed s)%nat /\ room s /\
  owes producer consumer slots c KSlot (slot_at (length acc)) message (mem_of s).

(** The slot to be filled holds no message that is still to be taken. *)
Lemma filling s m' :
  inv s -> published s = acc -> room s ->
  moved producer consumer slots c KSlot (slot_at (length acc)) message (mem_of s) m' ->
  inv (at_memory s m') /\ guar s (at_memory s m').
Proof using Type.
  intros Hi Hp Hr (_ & Hm & Hs). split; [|split; [done|]; split; [done|by apply same_cache_rely]].
  destruct Hi as [Ip Ic Io Is If].
  split; cbn [at_memory mem_of published consumed]; try done.
  - rewrite Hm; [done|apply object_producer|done].
  - rewrite Hm; [done|apply object_consumer|done].
  - intros i x Hi Hx. rewrite Hm; [by apply Is|apply object_slot|].
    intros [= E]. apply lookup_lt_Some in Hx. rewrite Hp in Hx. unfold room in Hr.
    apply (slot_at_ne i (length acc)); [lia|done].
Qed.

Lemma fit_filled vp : fit (filled vp).
Proof using Type.
  split.
  - intros s s' _ _ (Ep & Ec & Es & Ecache) (Hvp & Hp & Hb & Hr & Ho).
    unfold filled, room in *. split_and!; [done|by rewrite Ep|lia|lia|]. by eapply owes_cache.
  - intros s m' Ec Hi (Hvp & Hp & Hb & Hr & Ho) Hh. rewrite Ec in Ho.
    destruct (owes_hw producer consumer slots KSlot _ _ _ _ (object_slot _ _ _ _ _) Ho Hh)
      as [Ho' Hm]. rewrite <- Ec in *.
    destruct (filling s m' Hi Hp Hr Hm) as [Hi' Hg]. exists (at_memory s m').
    by split_and!.
  - intros s (_ & E & _). unfold push_side. rewrite E. split; [done|by apply prefix_app_r].
Qed.

Lemma fill vp vc :
  advances c guar (fun s => push_idle acc s /\ read vp vc s /\ room s)
    (Store KSlot (slot_address rr (value vp)) (fun _ => message)) (filled vp).
Proof using placed.
  intros s m' Hi ((Hp & Hb & Hc) & [-> _] & Hr) Hstep. rewrite slot_at_count in Hstep.
  destruct (store_step producer consumer slots placed c KSlot _ message _ _ Hc
    (object_slot _ _ _ _ _) Hstep) as [Ho Hm].
  destruct (filling s m' Hi Hp Hr Hm) as [Hi' Hg]. exists (at_memory s m'). by split_and!.
Qed.

(** The message is in main memory, and the counter not yet. *)
Definition ready s : Prop :=
  room s /\ dram (obs KSlot (mem_of s) (slot_at (length acc))) = message.

Lemma durable_ready vp : durable (fun s => vp = count (length acc) /\ ready s).
Proof using Type.
  intros s s' _ _ (_ & Ec & Es & _) _ [Hv [Hr Hm]]. unfold ready, room in *.
  rewrite Es. split; [done|]. split; [lia|done].
Qed.

Lemma push_idling_before :
  idling c guar rely push_side (push_idle acc) push_drift.
Proof using Type. apply push_idling; [done|by apply prefix_app_r]. Qed.

Lemma runs_filled vp tr Q :
  runs (fun s => push_idle acc s /\ (vp = count (length acc) /\ ready s)) tr Q ->
  runs (filled vp) (write_back c KSlot (slot_address rr (value vp)) ++ tr) Q.
Proof using placed.
  apply runs_write_back.
  - exact (fit_idle _ _ _ _ _ _ push_idling_before _ (durable_ready vp)).
  - intros Ec s m' Hi (Hvp & Hp & Hb & Hroom & Ho) Hstep.
    rewrite Hvp, slot_at_count, Ec in Hstep. rewrite Ec in Ho.
    destruct (clean_step producer consumer slots placed KSlot _ _ _ _
      (object_slot _ _ _ _ _) Ho Hstep) as (Hc & Hd & _ & Hm).
    rewrite <- Ec in Hc, Hm. destruct (filling s m' Hi Hp Hroom Hm) as [Hi' Hg].
    exists (at_memory s m'). by split_and!.
  - intros Ec s Hi (Hvp & Hp & Hb & Hroom & Ho). rewrite Ec in Ho.
    apply linux_owes_nothing in Ho as [Hd Hc]. rewrite <- Ec in Hc. by split_and!.
Qed.

(** *** Publishing *)

Definition ready_or_published s : Prop :=
  (before <= consumed s)%nat /\
  (published s = acc /\ ready s \/ published s = acc ++ [message]).

Definition announced s : Prop :=
  ready_or_published s /\
  owes producer consumer slots c KCounter producer (count (S (length acc))) (mem_of s).

(** Main memory has the new counter at some moment, and from then on the message is
    published. *)
Lemma announcing s m' :
  inv s -> ready_or_published s ->
  moved producer consumer slots c KCounter producer (count (S (length acc))) (mem_of s) m' ->
  exists s', mem_of s' = m' /\ guar s s' /\ inv s' /\ ready_or_published s'.
Proof using placed fits.
  intros Hi [Hb Hp] (Hd & Hm & Hs). pose proof Hi as [Ip Ic Io Is If].
  assert (Hcon : dram (obs KCounter m' consumer) = count (consumed s)).
  { rewrite Hm; [done|apply object_consumer|].
    intros [= E]. by apply (counter_addresses_ne rr placed). }
  assert (Hslot : forall n, dram (obs KSlot m' (slot_at n)) =
      dram (obs KSlot (mem_of s) (slot_at n))).
  { intros n. apply Hm; [apply object_slot|done]. }
  assert (Hg : forall l, published s `prefix_of` l -> guar s (Shared m' l (consumed s))).
  { intros l Hl. split; [done|]. split; [done|]. by apply same_cache_rely. }
  assert (Hold : dram (obs KCounter m' producer) = count (length (published s)) ->
    inv (at_memory s m') /\ ready_or_published (at_memory s m')).
  { intros Ed. split; [split; cbn [at_memory mem_of published consumed]; try done|].
    - intros i x Hi' Hx. rewrite Hslot. by apply Is.
    - split; [done|]. destruct Hp as [[Hp [Hr Hx]]|Hp]; [left|by right].
      split; [done|]. split; [done|]. by rewrite <- Hx, <- Hslot. }
  destruct Hd as [Hd|Hd].
  { exists (at_memory s m'). destruct Hold as [? ?]; [by rewrite Hd|].
    split_and!; try done. by apply Hg. }
  destruct Hp as [[Hp [Hr Hx]]|Hp].
  - exists (Shared m' (acc ++ [message]) (consumed s)). rewrite Hp in *. unfold room in Hr.
    split; [done|]. split; [apply Hg; by apply prefix_app_r|].
    split; [split; cbn [mem_of published consumed]; try done|split; [done|by right]].
    + by rewrite length_app, Nat.add_1_r.
    + rewrite length_app. cbn [length]. lia.
    + intros i x Hi' Hix. rewrite Hslot. apply lookup_snoc_Some in Hix as [[_ Hix]|[-> <-]];
        [by apply Is|done].
    + apply Forall_app. by split; [|apply Forall_singleton].
  - exists (at_memory s m'). destruct Hold as [? ?].
    { rewrite Hd, Hp, length_app. by rewrite Nat.add_1_r. }
    split_and!; try done. by apply Hg.
Qed.

Lemma fit_announced : fit announced.
Proof using placed fits.
  split.
  - intros s s' Hi Hi' (Ep & Ec & Es & Ecache) ((Hb & Hp) & Ho). split.
    + split; [lia|]. rewrite Ep. destruct Hp as [[Hp [Hr Hx]]|Hp]; [left|by right].
      split; [done|]. unfold ready, room in *. rewrite Es. split; [lia|done].
    + eapply owes_cache; [exact Ecache| |exact Ho].
      by rewrite (inv_producer _ _ _ _ _ Hi), (inv_producer _ _ _ _ _ Hi'), Ep.
  - intros s m' Ec Hi (Hp & Ho) Hh. rewrite Ec in Ho.
    destruct (owes_hw producer consumer slots KCounter _ _ _ _ (object_producer _ _ _) Ho Hh)
      as [Ho' Hm]. rewrite <- Ec in Ho', Hm.
    destruct (announcing s m' Hi Hp Hm) as (s' & <- & Hg & Hi' & Hp'). exists s'.
    by split_and!.
  - intros s ((_ & Hp) & _). unfold push_side.
    destruct Hp as [[-> _]| ->]; split; try done; by apply prefix_app_r.
Qed.

Lemma announce vp :
  advances c guar (fun s => push_idle acc s /\ (vp = count (length acc) /\ ready s))
    (Store KCounter producer (fun _ => CounterLine (u32 (value vp + 1)))) announced.
Proof using placed fits.
  intros s m' Hi ((Hp & Hb & Hc) & -> & Hr) Hstep. rewrite count_next in Hstep.
  destruct (store_step producer consumer slots placed c KCounter _ _ _ _ Hc
    (object_producer _ _ _) Hstep) as [Ho Hm].
  destruct (announcing s m' Hi) as (s' & <- & Hg & Hi' & Hp'); [by split; [|left]|done|].
  exists s'. by split_and!.
Qed.

(** The counter is in main memory. *)
Lemma runs_announced tr Q :
  runs (fun s => push_idle (acc ++ [message]) s /\ True) tr Q ->
  runs announced (write_back c KCounter producer ++ tr) Q.
Proof using placed fits.
  assert (Hdone : forall s, inv s -> ready_or_published s ->
    dram (obs KCounter (mem_of s) producer) = count (S (length acc)) ->
    clean_but producer consumer slots c None (mem_of s) ->
    push_idle (acc ++ [message]) s /\ True).
  { intros s Hi (Hb & Hp) Hd Hc. split; [|done]. split; [|by split].
    destruct Hp as [[Hp _]|Hp]; [|done]. exfalso.
    apply (count_next_ne (length acc)). by rewrite <- Hd, (inv_producer _ _ _ _ _ Hi), Hp. }
  apply runs_write_back.
  - apply (fit_idle _ _ _ _ (push_idle (acc ++ [message])) push_drift); [|done].
    apply push_idling; [by apply prefix_app_r|done].
  - intros Ec s m' Hi (Hp & Ho) Hstep. rewrite Ec in Ho, Hstep.
    destruct (clean_step producer consumer slots placed KCounter _ _ _ _
      (object_producer _ _ _) Ho Hstep) as (Hc & Hd & _ & Hm).
    rewrite <- Ec in Hc, Hm. destruct (announcing s m' Hi Hp Hm) as (s' & <- & Hg & Hi' & Hp').
    exists s'. split_and!; try done. all: by apply Hdone.
  - intros Ec s Hi (Hp & Ho). rewrite Ec in Ho. apply linux_owes_nothing in Ho as [Hd Hc].
    rewrite <- Ec in Hc. by apply Hdone.
Qed.

(** *** The operation *)

Definition counts_trace (vp vc : counter_line) : list access :=
  sync c KCounter producer ++ sync c KCounter consumer ++ barrier c ++
  [Load KCounter producer vp; Load KCounter consumer vc].

Definition push_trace (vp vc : counter_line) : list access :=
  counts_trace vp vc ++
  let a := slot_address rr (value vp) in
  if u32 (value vp - value vc) <? 64 then
    Store KSlot a (fun _ => message) :: write_back c KSlot a ++ barrier c ++
    Store KCounter producer (fun _ => CounterLine (u32 (value vp + 1))) ::
    write_back c KCounter producer ++ barrier c
  else [].

Definition push_result (vp vc : counter_line) : ring_result :=
  let occupancy := u32 (value vp - value vc) in
  if occupancy <? 64 then RING_OK else if occupancy =? 64 then RING_FULL else RING_CORRUPT.

Lemma push_recorded gs : exists vp vc gs',
  sg2002_rtos_ring_try_push (Some (core_ring producer consumer slots c)) (Some message)
    (Recorder gs []) = (push_result vp vc, Recorder gs' (push_trace vp vc)).
Proof using placed fits.
  exists (of_cell KCounter (head gs)), (of_cell KCounter (head (tail gs))), (tail (tail gs)).
  unfold sg2002_rtos_ring_try_push, push_result, push_trace, counts_trace.
  replace (_ <? msg_length message) with false by lia. unfold read_occupancy.
  destruct placed as [Np Nc Ns _ _ _].
  apply Z.eqb_neq in Np, Nc, Ns. cbn in Np, Nc, Ns. change SG2002_RTOS_SHM_SLOT_COUNT with 64.
  destruct c; cbn; rewrite Np, Nc, Ns; cbn;
    destruct (u32 _ <? 64) eqn:E1;
    destruct (64 <? u32 _) eqn:E2; try (exfalso; clear placed; lia);
    try done; destruct (u32 _ =? 64) eqn:E3; try (exfalso; clear placed; lia); done.
Qed.

Definition push_done (result : ring_result) s : Prop :=
  push_idle (log_push result message acc) s /\
  honest (Pushed result (length acc) before).

Lemma runs_counts vp vc tr Q :
  runs (fun s => push_idle acc s /\ read vp vc s) tr Q ->
  runs (fun s => push_idle acc s /\ True) (counts_trace vp vc ++ tr) Q.
Proof using placed.
  intros Hr. unfold counts_trace. rewrite <- !app_assoc. pose proof push_idling_before as Hid.
  eapply (runs_sync _ _ _ _ _ _ Hid (fun _ => True) own); try done;
    [apply object_producer|apply durable_own| |].
  { intros s Hi (Hp & _) _ E. unfold own. rewrite E, (inv_producer _ _ _ _ _ Hi). by rewrite Hp. }
  eapply (runs_sync _ _ _ _ _ _ Hid own fresh); try done;
    [apply object_consumer|apply durable_own|apply durable_fresh| |].
  { intros s Hi Hs Ho E. split; [done|]. rewrite E. by apply recent_now. }
  apply (runs_barrier _ _ _ _ _ _ Hid); [apply durable_fresh|].
  pose (knows s := fresh s /\ vp = count (length acc)).
  assert (Hk : durable knows).
  { intros s s' Hi Hi' Hd Hs [Hf Hv]. split; [exact (durable_fresh s s' Hi Hi' Hd Hs Hf)|done]. }
  apply (runs_load _ _ _ _ _ _ Hid fresh knows); [apply durable_fresh|done| |].
  { intros s Hi Hs [Ho Hf] Hv. split; [by split|]. rewrite <- Hv. exact Ho. }
  apply (runs_load _ _ _ _ _ _ Hid knows (read vp vc)); [done|apply durable_read| |done].
  intros s Hi Hs [[_ Hf] Hv] Hc. split; [done|]. rewrite <- Hc. exact Hf.
Qed.

Lemma runs_push vp vc :
  runs (fun s => push_idle acc s /\ True) (push_trace vp vc) (push_done (push_result vp vc)).
Proof using placed fits.
  unfold push_trace. apply runs_counts. unfold push_result, push_done.
  destruct (u32 (value vp - value vc) <? 64) eqn:E.
  - eexists (filled vp). split_and!; [apply fit_filled| |].
    { intros s m' Hi (Hs & Hr) Hstep. apply (fill vp vc s); [done| |done].
      split; [done|]. split; [done|].
      destruct (read_occupied _ _ _ Hi Hs Hr) as (n & En & ? & ?). unfold room.
      clear placed. lia. }
    apply runs_filled.
    apply (runs_barrier _ _ _ _ _ _ push_idling_before); [apply durable_ready|].
    exists announced. split_and!; [apply fit_announced|apply announce|].
    apply runs_announced. rewrite <- (app_nil_r (barrier c)).
    apply (runs_barrier _ _ _ _ (push_idle (acc ++ [message])) push_drift);
      [apply push_idling; [by apply prefix_app_r|done]|done|].
    intros s Hi [Hs _]. by split.
  - intros s Hi (Hs & Hr). destruct (read_occupied _ _ _ Hi Hs Hr) as (n & En & ? & ?).
    assert (u32 (value vp - value vc) = 64) as -> by (clear placed; lia).
    split; [done|]. cbn. clear placed. lia.
Qed.

(** All that a producer does between two of its accesses keeps the ring a queue. *)
Lemma push_spec gs result tr :
  sg2002_rtos_ring_try_push (Some (core_ring producer consumer slots c)) (Some message)
    (Recorder gs []) = (result, tr) ->
  runs (fun s => push_idle acc s /\ True) (trace tr) (push_done result).
Proof using placed fits.
  intros E. destruct (push_recorded gs) as (vp & vc & gs' & E').
  rewrite E in E'. injection E' as -> ->. apply runs_push.
Qed.

End Push.

Lemma push_too_long c acc before message gs result tr :
  SG2002_RTOS_SHM_PAYLOAD_SIZE < msg_length message ->
  sg2002_rtos_ring_try_push (Some (core_ring producer consumer slots c)) (Some message)
    (Recorder gs []) = (result, tr) ->
  trace tr = [] /\ log_push result message acc = acc /\
  honest (Pushed result (length acc) before).
Proof using Type.
  intros Hl E. unfold sg2002_rtos_ring_try_push in E.
  replace (_ <? msg_length message) with true in E by lia. by injection E as <- <-.
Qed.

(** ** The consumer *)

Section Pop.
Context (c : core) (l : list slot) (before : nat).
Implicit Types (s : shared).

(** What was taken is the beginning of what was published, and perhaps one message
    more is being taken. *)
Definition pop_side s : Prop :=
  l `prefix_of` published s /\ (length l <= consumed s <= length l + 1)%nat.

Definition pop_idle (t : list slot) s : Prop :=
  consumed s = length t /\ t `prefix_of` published s /\ (before <= length (published s))%nat /\
  clean_but producer consumer slots c None (mem_of s).

Definition pop_drift s s' : Prop :=
  consumed s' = consumed s /\ published s `prefix_of` published s' /\
  forall k a, ring_object rr k a ->
    sees c k (mem_of s') a = sees c k (mem_of s) a \/
    sees c k (mem_of s') a = dram (obs k (mem_of s') a).

Local Abbreviation guar := (push_rely producer consumer slots base (other c)).
Local Abbreviation rely := (pop_rely c).
Local Abbreviation runs := (runs c guar rely pop_side).
Local Abbreviation fit := (fit c guar rely pop_side).

Lemma pop_idling t :
  l `prefix_of` t -> (length t <= length l + 1)%nat ->
  idling c guar rely pop_side (pop_idle t) pop_drift.
Proof using Type.
  intros Hl1 Hl2. pose proof (prefix_length _ _ Hl1) as Hl3. split.
  - intros s m' Hi (Hp & Ht & Hb & Hc) (Hobs & Hc' & Hs). split; [|split; [|split]].
    + apply inv_same; [done|]. intros k a Ho. by apply Hobs.
    + by split_and!.
    + split; [done|]. split; [done|]. intros k a Ho. by apply Hobs.
    + split; [done|]. split; [done|]. split; [intros n; apply Hobs, object_slot|].
      by apply same_cache_rely.
  - intros s s' _ _ (Ec & Ep & Ecache) (Hp & Ht & Hb & Hc).
    pose proof (prefix_length _ _ Ep). split.
    + split; [by rewrite Ec|]. split; [by etrans|]. split; [lia|by eapply clean_but_cache].
    + split; [done|]. split; [done|]. intros k a _. by apply sees_rely.
  - by intros s (_ & _ & _ & ?).
  - intros s (E & Ht & _). split; [by etrans|lia].
Qed.

Lemma pop_idling_before : idling c guar rely pop_side (pop_idle l) pop_drift.
Proof using Type. apply pop_idling; [done|lia]. Qed.

Local Abbreviation durable := (durable (pop_idle l) pop_drift).

(** A value of the producer counter, not older than the operation. *)
Definition reached s (vp : counter_line) : Prop :=
  exists n, vp = count n /\ (before <= n <= length (published s))%nat /\ (length l <= n)%nat.

Lemma reached_now s :
  inv s -> pop_idle l s -> reached s (dram (obs KCounter (mem_of s) producer)).
Proof using Type.
  intros Hi (Hp & Ht & Hb & _). exists (length (published s)).
  rewrite (inv_producer _ _ _ _ _ Hi). pose proof (prefix_length _ _ Ht). split; [done|lia].
Qed.

Definition counter_fresh s : Prop := reached s (sees c KCounter (mem_of s) producer).

Lemma durable_counter_fresh : durable counter_fresh.
Proof using Type.
  intros s s' Hi Hi' (Ec & Ep & Hs) (Hp & Ht & _) Hr. pose proof (prefix_length _ _ Ep).
  unfold counter_fresh. destruct Hr as (n & En & ? & ?).
  destruct (Hs KCounter producer) as [-> | ->]; [apply object_producer| |].
  - exists n. split; [done|lia].
  - exists (length (published s')). split; [apply Hi'|lia].
Qed.

Definition both_fresh s : Prop :=
  counter_fresh s /\ sees c KCounter (mem_of s) consumer = count (length l).

Lemma durable_both_fresh : durable both_fresh.
Proof using Type.
  intros s s' Hi Hi' Hd Hs [Hf Ho]. split; [by apply (durable_counter_fresh s s')|].
  destruct Hd as (Ec & Ep & Hse), Hs as (Hp & _).
  destruct (Hse KCounter consumer) as [-> | ->]; [apply object_consumer|done|].
  by rewrite (inv_consumer _ _ _ _ _ Hi'), Ec, Hp.
Qed.

Definition counted (vp vc : counter_line) s : Prop :=
  reached s vp /\ vc = count (length l).

Lemma durable_counted vp vc : durable (counted vp vc).
Proof using Type.
  intros s s' _ _ (_ & Ep & _) _ [(n & -> & ? & ?) ?]. pose proof (prefix_length _ _ Ep).
  split; [|done]. exists n. split; [done|lia].
Qed.

Lemma counted_occupied vp vc s :
  inv s -> pop_idle l s -> counted vp vc s ->
  exists n, u32 (value vp - value vc) = Z.of_nat n - Z.of_nat (length l) /\
    (before <= n <= length (published s))%nat /\ (length l <= n <= length l + 64)%nat.
Proof using Type.
  intros Hi (Hp & Ht & _) [(n & -> & Hn & Hl) ->]. exists n.
  pose proof (inv_order _ _ _ _ _ Hi) as Ho. rewrite Hp in Ho.
  split; [apply count_difference|]; lia.
Qed.

Lemma runs_pop_counts vp vc tr Q :
  runs (fun s => pop_idle l s /\ counted vp vc s) tr Q ->
  runs (fun s => pop_idle l s /\ True) (counts_trace c vp vc ++ tr) Q.
Proof using placed.
  intros Hr. unfold counts_trace. rewrite <- !app_assoc. pose proof pop_idling_before as Hid.
  eapply (runs_sync _ _ _ _ _ _ Hid (fun _ => True) counter_fresh); try done;
    [apply object_producer|apply durable_counter_fresh| |].
  { intros s Hi Hs _ E. unfold counter_fresh. rewrite E. by apply reached_now. }
  eapply (runs_sync _ _ _ _ _ _ Hid counter_fresh both_fresh); try done;
    [apply object_consumer|apply durable_counter_fresh|apply durable_both_fresh| |].
  { intros s Hi (Hp & _) Ho E. split; [done|].
    by rewrite E, (inv_consumer _ _ _ _ _ Hi), Hp. }
  apply (runs_barrier _ _ _ _ _ _ Hid); [apply durable_both_fresh|].
  pose (knows s := both_fresh s /\ reached s vp).
  assert (Hk : durable knows).
  { intros s s' Hi Hi' Hd Hs [Hf Hv]. split; [exact (durable_both_fresh s s' Hi Hi' Hd Hs Hf)|].
    destruct (durable_counted vp (count (length l)) s s' Hi Hi' Hd Hs) as [? _]; [by split|done]. }
  apply (runs_load _ _ _ _ _ _ Hid both_fresh knows); [apply durable_both_fresh|done| |].
  { intros s Hi Hs [Ho Hf] Hv. split; [by split|]. rewrite <- Hv. exact Ho. }
  apply (runs_load _ _ _ _ _ _ Hid knows (counted vp vc)); [done|apply durable_counted| |done].
  intros s Hi Hs [[_ Hf] Hv] Hc. split; [done|]. rewrite <- Hc. exact Hf.
Qed.

(** *** Reading the slot *)

Definition next_is (v : slot) s : Prop := published s !! length l = Some v.

(** The oldest message is there, and the core sees it as main memory has it. *)
Definition slot_fresh (vc : counter_line) s : Prop :=
  vc = count (length l) /\
  exists x, next_is x s /\ sees c KSlot (mem_of s) (slot_address rr (value vc)) = x.

Definition available (vc : counter_line) s : Prop :=
  vc = count (length l) /\ exists x, next_is x s.

Lemma next_is_later v s s' :
  published s `prefix_of` published s' -> next_is v s -> next_is v s'.
Proof using Type. intros Hp Hv. by eapply prefix_lookup_Some. Qed.

Lemma durable_available vc : durable (available vc).
Proof using Type.
  intros s s' _ _ (_ & Ep & _) _ [-> [x Hx]]. split; [done|]. exists x.
  by eapply next_is_later.
Qed.

Lemma next_in_memory vc v s :
  inv s -> pop_idle l s -> vc = count (length l) -> next_is v s ->
  dram (obs KSlot (mem_of s) (slot_address rr (value vc))) = v.
Proof using Type.
  intros Hi (Hp & _) -> Hx. rewrite slot_at_count.
  apply (inv_slots _ _ _ _ _ Hi); [by rewrite Hp|done].
Qed.

Lemma durable_slot_fresh vc : durable (slot_fresh vc).
Proof using Type.
  intros s s' Hi Hi' (Ec & Ep & Hs) (Hp & _) (-> & x & Hx & Hv). split; [done|]. exists x.
  pose proof (next_is_later x s s' Ep Hx) as Hx'. split; [done|].
  destruct (Hs KSlot (slot_address rr (value (count (length l))))) as [-> | ->];
    [apply (ring_object_slot rr)|done|].
  rewrite slot_at_count. apply (inv_slots _ _ _ _ _ Hi'); [by rewrite Ec, Hp|done].
Qed.

Definition loaded (vc : counter_line) (v : slot) s : Prop :=
  vc = count (length l) /\ next_is v s.

Lemma durable_loaded vc v : durable (loaded vc v).
Proof using Type.
  intros s s' _ _ (_ & Ep & _) _ [-> Hx]. split; [done|]. by eapply next_is_later.
Qed.

Lemma runs_slot vc v tr Q :
  runs (fun s => pop_idle l s /\ loaded vc v s) tr Q ->
  runs (fun s => pop_idle l s /\ available vc s)
    (sync c KSlot (slot_address rr (value vc)) ++ barrier c ++
     Load KSlot (slot_address rr (value vc)) v :: barrier c ++ tr) Q.
Proof using placed.
  intros Hr. pose proof pop_idling_before as Hid.
  apply (runs_sync _ _ _ _ _ _ Hid (available vc) (slot_fresh vc));
    [apply (ring_object_slot rr)|apply durable_available|apply durable_slot_fresh| |].
  { intros s Hi Hs [Hvc [x Hx]] E. split; [done|]. exists x. split; [done|].
    rewrite E. by apply next_in_memory. }
  apply (runs_barrier _ _ _ _ _ _ Hid); [apply durable_slot_fresh|].
  apply (runs_load _ _ _ _ _ _ Hid (slot_fresh vc) (loaded vc v));
    [apply durable_slot_fresh|apply durable_loaded| |].
  { intros s Hi Hs (-> & x & Hx & <-) <-. by split. }
  by apply (runs_barrier _ _ _ _ _ _ Hid); [apply durable_loaded|].
Qed.

(** *** Consuming *)

Definition taking (v : slot) s : Prop :=
  (consumed s = length l \/ consumed s = S (length l)) /\
  l ++ [v] `prefix_of` published s /\ (before <= length (published s))%nat.

Definition released (v : slot) s : Prop :=
  taking v s /\
  owes producer consumer slots c KCounter consumer (count (S (length l))) (mem_of s).

Lemma releasing v s m' :
  inv s -> taking v s ->
  moved producer consumer slots c KCounter consumer (count (S (length l))) (mem_of s) m' ->
  exists s', mem_of s' = m' /\ guar s s' /\ inv s' /\ taking v s'.
Proof using placed.
  intros Hi (Hc & Hv & Hb) (Hd & Hm & Hs). pose proof Hi as [Ip Ic Io Is If].
  pose proof (prefix_length _ _ Hv) as Hlen. rewrite length_app in Hlen. cbn [length] in Hlen.
  assert (Hprod : dram (obs KCounter m' producer) = count (length (published s))).
  { rewrite Hm; [done|apply object_producer|].
    intros [= E]. by apply (counter_addresses_ne rr placed). }
  assert (Hslot : forall n, dram (obs KSlot m' (slot_at n)) =
      dram (obs KSlot (mem_of s) (slot_at n))).
  { intros n. apply Hm; [apply object_slot|done]. }
  assert (Hgo : forall n, (consumed s <= n)%nat -> n = length l \/ n = S (length l) ->
    dram (obs KCounter m' consumer) = count n ->
    exists s', mem_of s' = m' /\ guar s s' /\ inv s' /\ taking v s').
  { intros n Hn Hn' Ed. exists (Shared m' (published s) n).
    split; [done|]. split; [split; [done|]; split; [done|]; split; [exact Hslot|by apply same_cache_rely]|].
    split; [split; cbn [mem_of published consumed]; try done; [lia|]|by split].
    intros i x Hix Hx. rewrite Hslot. apply Is; [lia|done]. }
  destruct Hd as [Hd|Hd].
  - apply (Hgo (consumed s)); [done|done|by rewrite Hd].
  - apply (Hgo (S (length l))); [lia|by right|done].
Qed.

Lemma fit_released v : fit (released v).
Proof using placed.
  split.
  - intros s s' Hi Hi' (Ec & Ep & Ecache) ((Hc & Hv & Hb) & Ho).
    pose proof (prefix_length _ _ Ep). split.
    + split; [by rewrite Ec|]. split; [by etrans|lia].
    + eapply owes_cache; [exact Ecache| |exact Ho].
      by rewrite (inv_consumer _ _ _ _ _ Hi), (inv_consumer _ _ _ _ _ Hi'), Ec.
  - intros s m' Ec Hi (Hp & Ho) Hh. rewrite Ec in Ho.
    destruct (owes_hw producer consumer slots KCounter _ _ _ _ (object_consumer _ _ _) Ho Hh)
      as [Ho' Hm]. rewrite <- Ec in Ho', Hm.
    destruct (releasing v s m' Hi Hp Hm) as (s' & <- & Hg & Hi' & Hp'). exists s'.
    by split_and!.
  - intros s ((Hc & Hv & _) & _). split; [|lia].
    etrans; [|exact Hv]. by apply prefix_app_r.
Qed.

Lemma next_prefix v s : l `prefix_of` published s -> next_is v s ->
  l ++ [v] `prefix_of` published s.
Proof using Type.
  intros [k E] Hv. unfold next_is in Hv. rewrite E in *.
  rewrite lookup_app_r, Nat.sub_diag in Hv by lia. destruct k as [|x k]; [done|].
  injection Hv as ->. by exists k; rewrite <- app_assoc.
Qed.

Lemma release vc v :
  advances c guar (fun s => pop_idle l s /\ loaded vc v s)
    (Store KCounter consumer (fun _ => CounterLine (u32 (value vc + 1)))) (released v).
Proof using placed.
  intros s m' Hi ((Hp & Ht & Hb & Hc) & -> & Hv) Hstep. rewrite count_next in Hstep.
  destruct (store_step producer consumer slots placed c KCounter _ _ _ _ Hc
    (object_consumer _ _ _) Hstep) as [Ho Hm].
  destruct (releasing v s m' Hi) as (s' & <- & Hg & Hi' & Hp'); [|done|].
  - split; [by left|]. split; [by apply next_prefix|done].
  - exists s'. by split_and!.
Qed.

Lemma runs_released v tr Q :
  runs (fun s => pop_idle (l ++ [v]) s /\ True) tr Q ->
  runs (released v) (write_back c KCounter consumer ++ tr) Q.
Proof using placed.
  assert (Hdone : forall s, inv s -> taking v s ->
    dram (obs KCounter (mem_of s) consumer) = count (S (length l)) ->
    clean_but producer consumer slots c None (mem_of s) ->
    pop_idle (l ++ [v]) s /\ True).
  { intros s Hi (Hp & Hv & Hb) Hd Hc. split; [|done]. split; [|by split_and!].
    rewrite length_app, Nat.add_1_r. destruct Hp as [Hp|Hp]; [|done]. exfalso.
    apply (count_next_ne (length l)). by rewrite <- Hd, (inv_consumer _ _ _ _ _ Hi), Hp. }
  apply runs_write_back.
  - apply (fit_idle _ _ _ _ (pop_idle (l ++ [v])) pop_drift); [|done].
    apply pop_idling; [by apply prefix_app_r|by rewrite length_app].
  - intros Ec s m' Hi (Hp & Ho) Hstep. rewrite Ec in Ho, Hstep.
    destruct (clean_step producer consumer slots placed KCounter _ _ _ _
      (object_consumer _ _ _) Ho Hstep) as (Hc & Hd & _ & Hm).
    rewrite <- Ec in Hc, Hm. destruct (releasing v s m' Hi Hp Hm) as (s' & <- & Hg & Hi' & Hp').
    exists s'. split_and!; try done. all: by apply Hdone.
  - intros Ec s Hi (Hp & Ho). rewrite Ec in Ho. apply linux_owes_nothing in Ho as [Hd Hc].
    rewrite <- Ec in Hc. by apply Hdone.
Qed.

(** *** The operation *)

Definition pop_trace (vp vc : counter_line) (v : slot) : list access :=
  counts_trace c vp vc ++
  let occupancy := u32 (value vp - value vc) in
  let a := slot_address rr (value vc) in
  if (64 <? occupancy) || (occupancy =? 0) then []
  else
    sync c KSlot a ++ barrier c ++ Load KSlot a v :: barrier c ++
    Store KCounter consumer (fun _ => CounterLine (u32 (value vc + 1))) ::
    write_back c KCounter consumer ++ barrier c.

Definition pop_result (vp vc : counter_line) (v buffer : slot) : ring_result * slot :=
  let occupancy := u32 (value vp - value vc) in
  if 64 <? occupancy then (RING_CORRUPT, buffer)
  else if occupancy =? 0 then (RING_EMPTY, buffer)
  else (if SG2002_RTOS_SHM_PAYLOAD_SIZE <? msg_length v then RING_CORRUPT else RING_OK, v).

Lemma pop_recorded buffer gs : exists vp vc v gs',
  sg2002_rtos_ring_try_pop (Some (core_ring producer consumer slots c)) (Some buffer)
    (Recorder gs []) =
    ((pop_result vp vc v buffer).1, Some (pop_result vp vc v buffer).2,
     Recorder gs' (pop_trace vp vc v)).
Proof using placed.
  exists (of_cell KCounter (head gs)), (of_cell KCounter (head (tail gs))),
    (of_cell KSlot (head (tail (tail gs)))).
  unfold sg2002_rtos_ring_try_pop, pop_result, pop_trace, counts_trace, read_occupancy.
  destruct placed as [Np Nc Ns _ _ _].
  apply Z.eqb_neq in Np, Nc, Ns. cbn in Np, Nc, Ns. change SG2002_RTOS_SHM_SLOT_COUNT with 64.
  destruct c; cbn; rewrite Np, Nc, Ns; cbn;
    (destruct (64 <? u32 _) eqn:E2; [by eexists|]);
    (destruct (u32 _ =? 0) eqn:E3; [by eexists|]); cbn;
    destruct (_ <? msg_length _); by eexists.
Qed.

Definition pop_done (result : ring_result) (message : option slot) s : Prop :=
  pop_idle (log_pop result message l) s /\ honest (Popped result before (length l)).

Lemma runs_pop vp vc v buffer :
  runs (fun s => pop_idle l s /\ True) (pop_trace vp vc v)
    (pop_done (pop_result vp vc v buffer).1 (Some (pop_result vp vc v buffer).2)).
Proof using placed.
  unfold pop_trace. apply runs_pop_counts. unfold pop_result, pop_done.
  destruct (64 <? u32 (value vp - value vc)) eqn:E1; cbn [orb].
  { intros s Hi (Hs & Hr). destruct (counted_occupied _ _ _ Hi Hs Hr) as (n & En & ? & ?).
    clear placed. lia. }
  destruct (u32 (value vp - value vc) =? 0) eqn:E2.
  { intros s Hi (Hs & Hr). destruct (counted_occupied _ _ _ Hi Hs Hr) as (n & En & ? & ?).
    split; [done|]. cbn. clear placed. lia. }
  apply (runs_weaken _ _ _ _ _ (fun s => pop_idle l s /\ available vc s)).
  { intros s Hi (Hs & Hr). split; [done|].
    destruct (counted_occupied _ _ _ Hi Hs Hr) as (n & En & ? & ?).
    split; [apply Hr|]. apply lookup_lt_is_Some_2. clear placed. lia. }
  apply runs_slot. exists (released v). split_and!; [apply fit_released|apply release|].
  apply runs_released. rewrite <- (app_nil_r (barrier c)).
  apply (runs_barrier _ _ _ _ (pop_idle (l ++ [v])) pop_drift);
    [apply pop_idling; [by apply prefix_app_r|by rewrite length_app]|done|].
  intros s Hi [Hs _]. cbn [fst snd].
  replace (_ <? msg_length v) with false; [by split|].
  destruct Hs as (_ & Hp & _). pose proof (inv_fit _ _ _ _ _ Hi) as Hf.
  assert (Hv : v ∈ published s).
  { destruct Hp as [k ->]. rewrite !elem_of_app. left. right. by left. }
  rewrite Forall_forall in Hf. specialize (Hf v Hv). clear placed. cbn in Hf. lia.
Qed.

Lemma pop_spec buffer gs result message tr :
  sg2002_rtos_ring_try_pop (Some (core_ring producer consumer slots c)) (Some buffer)
    (Recorder gs []) = (result, message, tr) ->
  runs (fun s => pop_idle l s /\ True) (trace tr) (pop_done result message).
Proof using placed.
  intros E. destruct (pop_recorded buffer gs) as (vp & vc & v & gs' & E').
  rewrite E in E'. injection E' as -> -> ->. apply runs_pop.
Qed.

End Pop.

(** ** The machine *)

(** The producer is at an assertion from which the rest of its operation is right. *)
Definition push_ok c (push : option (progress (ring_result * slot))) (acc : list slot)
    (s : shared) : Prop :=
  exists A message,
    fit c (pop_rely (other c)) (push_rely producer consumer slots base c)
      (push_side acc message) A /\ A s /\
    match push with
    | None => forall s, A s -> push_idle c 0 acc s
    | Some p =>
        accepted_before p = length acc /\ (outcome p).2 = message /\
        runs c (pop_rely (other c)) (push_rely producer consumer slots base c)
          (push_side acc message) A (remaining p)
          (push_done c acc (taken_before p) message (outcome p).1)
    end.

Definition pop_ok c (pop : option (progress (ring_result * option slot))) (t : list slot)
    (s : shared) : Prop :=
  exists A,
    fit c (push_rely producer consumer slots base (other c)) (pop_rely c) (pop_side t) A /\
    A s /\
    match pop with
    | None => forall s, A s -> pop_idle c 0 t s
    | Some p =>
        taken_before p = length t /\
        runs c (push_rely producer consumer slots base (other c)) (pop_rely c) (pop_side t)
          A (remaining p) (pop_done c t (accepted_before p) (outcome p).1 (outcome p).2)
    end.

Record machine_inv c (x : machine) (s : shared) : Prop := {
  machine_memory : mem_of s = memory x;
  machine_shared : inv s;
  machine_push : push_ok c (pushing x) (accepted x) s;
  machine_pop : pop_ok (other c) (popping x) (taken x) s;
  machine_reports : Forall honest (reports x);
}.

Lemma push_ok_rely c push acc s s' :
  inv s -> inv s' -> push_rely producer consumer slots base c s s' ->
  push_ok c push acc s -> push_ok c push acc s'.
Proof using Type.
  intros Hi Hi' Hr (A & message & Hf & HA & Hp). exists A, message.
  split_and!; [done|exact (fit_rely _ _ _ _ _ Hf s s' Hi Hi' Hr HA)|done].
Qed.

Lemma pop_ok_rely c pop t s s' :
  inv s -> inv s' -> pop_rely c s s' -> pop_ok c pop t s -> pop_ok c pop t s'.
Proof using Type.
  intros Hi Hi' Hr (A & Hf & HA & Hp). exists A.
  split_and!; [done|exact (fit_rely _ _ _ _ _ Hf s s' Hi Hi' Hr HA)|done].
Qed.

Lemma push_ok_idle c before acc s :
  push_idle c before acc s -> push_ok c None acc s.
Proof using Type.
  intros (Hp & _ & Hc). exists (fun s => push_idle c 0 acc s /\ True), zero_slot.
  split; [|split; [|by intros s' [? _]]].
  - apply (fit_idle _ _ _ _ (push_idle c 0 acc) (push_drift c)); [|done].
    apply push_idling_before.
  - split; [|done]. split_and!; [done|lia|done].
Qed.

Lemma pop_ok_idle c before t s : pop_idle c before t s -> pop_ok c None t s.
Proof using Type.
  intros (Hc & Ht & _ & Hcl). exists (fun s => pop_idle c 0 t s /\ True).
  split; [|split; [|by intros s' [? _]]].
  - apply (fit_idle _ _ _ _ (pop_idle c 0 t) (pop_drift c)); [|done].
    apply pop_idling_before.
  - split; [|done]. split_and!; [done|done|lia|done].
Qed.

(** What both sides say of the messages. *)
Lemma push_ok_side c push acc s :
  push_ok c push acc s ->
  acc `prefix_of` published s /\
  published s `prefix_of` acc ++ match push with Some p => [(outcome p).2] | None => [] end.
Proof using Type.
  intros (A & message & Hf & HA & Hp). destruct (fit_side _ _ _ _ _ Hf s HA) as [H1 H2].
  split; [done|]. destruct push as [p|]; [by destruct Hp as (_ & -> & _)|].
  destruct (Hp s HA) as (-> & _). by rewrite app_nil_r.
Qed.

Lemma pop_ok_side c pop t s :
  pop_ok c pop t s ->
  t `prefix_of` published s /\
  (length t <= consumed s <= length t + match pop with Some _ => 1 | None => 0 end)%nat.
Proof using Type.
  intros (A & Hf & HA & Hp). destruct (fit_side _ _ _ _ _ Hf s HA) as [H1 H2].
  split; [done|]. destruct pop as [p|]; [done|]. destruct (Hp s HA) as (-> & _). lia.
Qed.

Lemma push_ok_begins c acc s message gs result tr n :
  push_ok c None acc s -> (n <= consumed s)%nat ->
  sg2002_rtos_ring_try_push (Some (core_ring producer consumer slots c)) (Some message)
    (Recorder gs []) = (result, tr) ->
  push_ok c (Some (Progress (trace tr) (result, message) (length acc) n)) acc s.
Proof using placed.
  intros (A & x & Hf & HA & Hp) Hn E. destruct (Hp s HA) as (Hpub & _ & Hc).
  exists (fun s => push_idle c n acc s /\ True), message. split; [|split; [by split_and!|]].
  { apply (fit_idle _ _ _ _ (push_idle c n acc) (push_drift c)); [|done].
    apply push_idling_before. }
  cbn [accepted_before outcome remaining taken_before fst snd]. split_and!; [done|done|].
  destruct (decide (msg_length message <= SG2002_RTOS_SHM_PAYLOAD_SIZE)) as [Hl|Hl].
  - by eapply push_spec.
  - destruct (push_too_long c acc n message gs result tr) as (-> & Hlog & Hh); [lia|done|].
    intros s' _ [Hs _]. unfold push_done. by rewrite Hlog.
Qed.

Lemma pop_ok_begins c t s buffer gs result message tr n :
  pop_ok c None t s -> (n <= length (published s))%nat ->
  sg2002_rtos_ring_try_pop (Some (core_ring producer consumer slots c)) (Some buffer)
    (Recorder gs []) = (result, message, tr) ->
  pop_ok c (Some (Progress (trace tr) (result, message) n (length t))) t s.
Proof using placed.
  intros (A & Hf & HA & Hp) Hn E. destruct (Hp s HA) as (Hcon & Ht & _ & Hc).
  exists (fun s => pop_idle c n t s /\ True). split; [|split; [by split_and!|]].
  { apply (fit_idle _ _ _ _ (pop_idle c n t) (pop_drift c)); [|done].
    apply pop_idling_before. }
  cbn [accepted_before outcome remaining taken_before fst snd]. split; [done|].
  by eapply pop_spec.
Qed.

Lemma other_other c : other (other c) = c.
Proof using Type. by destruct c. Qed.

(** *** One step *)

Lemma push_ok_advances c e m' tr r x y acc s :
  inv s -> push_ok c (Some (Progress (e :: tr) r x y)) acc s ->
  core_step c e (mem_of s) m' ->
  exists s', mem_of s' = m' /\ pop_rely (other c) s s' /\ inv s' /\
    push_ok c (Some (Progress tr r x y)) acc s'.
Proof using Type.
  intros Hi (A & message & Hf & HA & Hx & Hm & A' & Hf' & Ha & Hr) Hstep.
  destruct (Ha s m' Hi HA Hstep) as (s' & Es & Hg & Hi' & HA').
  exists s'. split_and!; try done. by exists A', message.
Qed.

Lemma pop_ok_advances c e m' tr r x y t s :
  inv s -> pop_ok c (Some (Progress (e :: tr) r x y)) t s ->
  core_step c e (mem_of s) m' ->
  exists s', mem_of s' = m' /\ push_rely producer consumer slots base (other c) s s' /\ inv s' /\
    pop_ok c (Some (Progress tr r x y)) t s'.
Proof using Type.
  intros Hi (A & Hf & HA & Hx & A' & Hf' & Ha & Hr) Hstep.
  destruct (Ha s m' Hi HA Hstep) as (s' & Es & Hg & Hi' & HA').
  exists s'. split_and!; try done. by exists A'.
Qed.

Lemma push_ok_ends c result message x y acc s :
  inv s -> push_ok c (Some (Progress [] (result, message) x y)) acc s ->
  push_ok c None (log_push result message acc) s /\ honest (Pushed result x y).
Proof using Type.
  intros Hi (A & z & Hf & HA & Hx & Hz & Hr). cbn in Hx, Hz, Hr. subst x z.
  destruct (Hr s Hi HA) as [Hs Hh].
  split; [by eapply push_ok_idle|done].
Qed.

Lemma pop_ok_ends c result message x y t s :
  inv s -> pop_ok c (Some (Progress [] (result, message) x y)) t s ->
  pop_ok c None (log_pop result message t) s /\ honest (Popped result x y).
Proof using Type.
  intros Hi (A & Hf & HA & Hy & Hr). cbn in Hy, Hr. subst y.
  destruct (Hr s Hi HA) as [Hs Hh].
  split; [by eapply pop_ok_idle|done].
Qed.

(** The cache acts: it is the cache of the side that runs on the C906L. *)
Lemma push_ok_hw push acc s m' :
  inv s -> push_ok Rtos push acc s -> CachedMemory.hw_step (mem_of s) m' ->
  exists s', mem_of s' = m' /\ pop_rely LinuxCore s s' /\ inv s' /\ push_ok Rtos push acc s'.
Proof using Type.
  intros Hi (A & message & Hf & HA & Hp) Hh.
  destruct (fit_hw _ _ _ _ _ Hf s m' eq_refl Hi HA Hh) as (s' & Es & Hg & Hi' & HA').
  exists s'. split_and!; try done. by exists A, message.
Qed.

Lemma pop_ok_hw pop t s m' :
  inv s -> pop_ok Rtos pop t s -> CachedMemory.hw_step (mem_of s) m' ->
  exists s', mem_of s' = m' /\ push_rely producer consumer slots base LinuxCore s s' /\
    inv s' /\ pop_ok Rtos pop t s'.
Proof using Type.
  intros Hi (A & Hf & HA & Hp) Hh.
  destruct (fit_hw _ _ _ _ _ Hf s m' eq_refl Hi HA Hh) as (s' & Es & Hg & Hi' & HA').
  exists s'. split_and!; try done. by exists A.
Qed.

Lemma machine_inv_step c x x' s :
  machine_step producer consumer slots c x x' -> machine_inv c x s ->
  exists s', machine_inv c x' s'.
Proof using placed.
  intros Hstep [Hm Hi Hpush Hpop Hr].
  destruct Hstep as [m pop a t rs message gs result tr E|m m' e tr r n1 n2 pop a t rs E
    |m result message n1 n2 pop a t rs|m push a t rs buffer gs result message tr E
    |m m' e tr r n1 n2 push a t rs E|m result message n1 n2 push a t rs
    |m m' push pop a t rs E]; cbn [memory pushing popping accepted taken reports] in *;
    subst m.
  - exists s. split; try done. cbn. eapply push_ok_begins; [done| |done].
    apply pop_ok_side in Hpop as [_ ?]. lia.
  - destruct (push_ok_advances _ _ _ _ _ _ _ _ _ Hi Hpush E) as (s' & Es & Hg & Hi' & Hp').
    exists s'. split; try done. exact (pop_ok_rely _ _ _ _ _ Hi Hi' Hg Hpop).
  - apply push_ok_ends in Hpush as [Hp' Hh]; [|done]. exists s.
    split; try done. by constructor.
  - exists s. split; try done. cbn. eapply pop_ok_begins; [done| |done].
    apply push_ok_side in Hpush as [Hpre _]. by apply prefix_length.
  - destruct (pop_ok_advances _ _ _ _ _ _ _ _ _ Hi Hpop E) as (s' & Es & Hg & Hi' & Hp').
    rewrite other_other in Hg. exists s'. split; try done. exact (push_ok_rely _ _ _ _ _ Hi Hi' Hg Hpush).
  - apply pop_ok_ends in Hpop as [Hp' Hh]; [|done]. exists s.
    split; try done. by constructor.
  - destruct c.
    + destruct (push_ok_hw _ _ _ _ Hi Hpush E) as (s' & Es & Hg & Hi' & Hp').
      exists s'. split; try done. exact (pop_ok_rely _ _ _ _ _ Hi Hi' Hg Hpop).
    + destruct (pop_ok_hw _ _ _ _ Hi Hpop E) as (s' & Es & Hg & Hi' & Hp').
      exists s'. split; try done. exact (push_ok_rely _ _ _ _ _ Hi Hi' Hg Hpush).
Qed.

End Program.

Section Machine.
Context (producer consumer slots : Z).
Local Abbreviation rr := (rtos_ring producer consumer slots).

Lemma machine_init_inv c x base :
  ring_state rr (memory x) base base [] -> pushing x = None -> popping x = None ->
  accepted x = [] -> taken x = [] -> reports x = [] ->
  machine_inv producer consumer slots base c x (Shared (memory x) [] 0).
Proof.
  intros [Hs Hp Hc Rp _ _ _ _] E1 E2 E3 E4 E5.
  assert (Hcount : CounterLine base = count base 0).
  { unfold count. f_equal. rewrite Z.add_0_r. symmetry. by apply wrap_small. }
  split; cbn [mem_of published consumed]; rewrite ?E1, ?E2, ?E3, ?E4, ?E5; try done.
  - split; cbn [mem_of published consumed]; try done.
    + exact (eq_trans Hp Hcount).
    + exact (eq_trans Hc Hcount).
    + cbn. lia.
  - eapply push_ok_idle. split; [done|]. split; [apply le_n|]. intros _ k a Ho _. by apply Hs.
  - eapply pop_ok_idle. split; [done|]. split; [done|]. split; [apply le_n|].
    intros _ k a Ho _. by apply Hs.
Qed.

Lemma reachable_machine_inv c x :
  ring_placed rr -> reachable_by producer consumer slots c x ->
  exists base s, machine_inv producer consumer slots base c x s.
Proof.
  intros placed. induction 1 as [x ([p Hst] & ? & ? & ? & ? & ?)|x x' _ (base & s & IH) Hstep].
  - exists p. eexists. by apply machine_init_inv.
  - exists base. by eapply machine_inv_step.
Qed.

(** C7: two cores on one ring, each making its accesses to memory in program order, in
    any interleaving with those of the other and with a cache that fills and evicts
    lines as it likes. Whichever core is the producer, the messages taken are the first
    of those accepted (the last of them perhaps one whose push is still under way), in
    order, each exactly once and unchanged; no more than 64 are accepted and not yet
    taken, or 65 while a pop is under way; and every operation that has returned was
    right: a push said full only if 64 messages were there when it began, a pop said
    empty only if all messages accepted before it began had been taken, and no
    operation took the ring for corrupt. *)
Theorem ring_interleaved c x :
  ring_placed rr -> reachable_by producer consumer slots c x ->
  taken x `prefix_of`
    accepted x ++ match pushing x with Some p => [(outcome p).2] | None => [] end /\
  (length (accepted x) <= length (taken x) + 64 +
     match popping x with Some _ => 1 | None => 0 end)%nat /\
  Forall honest (reports x).
Proof.
  intros placed Hr.
  destruct (reachable_machine_inv c x placed Hr) as (base & s & [Hm Hi Hpush Hpop Hh]).
  apply push_ok_side in Hpush as [Ha Hp]. apply pop_ok_side in Hpop as [Ht Hc].
  pose proof (inv_order _ _ _ _ _ Hi) as Ho. pose proof (prefix_length _ _ Ha).
  split_and!; [by etrans|lia|done].
Qed.

End Machine.

(** ** A race: Linux sends while the firmware receives

    The C906L caches the counter before the message is there. Linux starts a second push
    before the first message is taken, and the cache evicts the consumer counter before
    it is cleaned. *)

Definition demo_machine : machine :=
  Machine (CachedMemory.Make ∅ ∅) None None [] [] [].

Definition demo_counters (p c : Z) : list cell :=
  [CounterCell (CounterLine p); CounterCell (CounterLine c)].

Definition demo_schedule : list move :=
  [Prefetch KCounter 192; BeginPush demo_message (demo_counters 0 0);
   BeginPop zero_slot (demo_counters 1 0 ++ [SlotCell demo_message]);
   StepPush; StepPop; StepPush; StepPush; StepPush; EndPush; StepPop; StepPop; StepPop;
   BeginPush demo_message (demo_counters 1 0); StepPush; StepPop; StepPop; StepPush;
   StepPop; StepPop; StepPush; StepPop; StepPop; Evict 256; StepPop; StepPop; EndPop].

Definition demo_race : option machine :=
  run_moves 192 256 4096 LinuxCore demo_schedule demo_machine.

Lemma demo_machine_reachable : reachable_by 192 256 4096 LinuxCore demo_machine.
Proof. apply by_init. split_and!; try done. exists 0. by split. Qed.

Lemma ring_interleaved_witness :
  ring_placed (rtos_ring 192 256 4096) /\
  exists x, demo_race = Some x /\ taken x = [demo_message] /\
    (remaining <$> pushing x) = Some [Store KCounter 192 (fun _ => CounterLine 2)] /\
    taken x `prefix_of`
      accepted x ++ match pushing x with Some p => [(outcome p).2] | None => [] end /\
    (length (accepted x) <= length (taken x) + 64 +
       match popping x with Some _ => 1 | None => 0 end)%nat /\
    Forall honest (reports x).
Proof.
  assert (placed : ring_placed (rtos_ring 192 256 4096)) by (destruct demo_placed; by split).
  split; [exact placed|].
  destruct demo_race as [x|] eqn:E; [|by vm_compute in E].
  exists x. split; [done|].
  assert (Ht : (taken <$> demo_race) = Some [demo_message]) by (vm_compute; reflexivity).
  assert (Hp : (fun x => remaining <$> pushing x) <$> demo_race =
    Some (Some [Store KCounter 192 (fun _ => CounterLine 2)])) by (vm_compute; reflexivity).
  rewrite E in Ht, Hp. injection Ht as Ht. injection Hp as Hp.
  split; [exact Ht|]. split; [exact Hp|].
  exact (ring_interleaved 192 256 4096 LinuxCore x placed
    (run_moves_reachable 192 256 4096 LinuxCore demo_schedule demo_machine x
       demo_machine_reachable E)).
Defined.
