(* ===== verification/Gpio.v ===== *)
(** * GPIO driver: [ports/duo-sdk/overlay/freertos/cvitek/driver/gpio]

    The driver reaches the controllers through [mmio_read_32] and
    [mmio_write_32] of the vendor SDK, an interface here ([Mmio]). The laws
    assumed of the data and direction registers are those of plain storage
    ([StorageRegisters]); the level register is only read, with no law. *)

From S2P Require Import Prelude.
Local Open Scope Z_scope.

(** ** The register interface *)

Class Mmio (W : Type) := {
  mmio_read_32 : W -> Z -> Z * W;
  mmio_write_32 : W -> Z -> Z -> W;
}.

(** The registers for which [storage] holds keep what was last written; reading
    one disturbs none of them, nor does writing another register. *)
Class StorageRegisters (W : Type) `{Mmio W} (storage : Z -> Prop) := {
  register : W -> Z -> Z;
  register_read w a : storage a -> (mmio_read_32 w a).1 = register w a;
  register_read_frame w a b :
    storage b -> register (mmio_read_32 w a).2 b = register w b;
  register_write w a v : storage a -> register (mmio_write_32 w a v) a = v;
  register_write_frame w a v b :
    storage b -> a <> b -> register (mmio_write_32 w a v) b = register w b;
}.

(** ** The driver: [src/gpio.c], [include/gpio.h] *)

Definition CVI_GPIOA_BASE : Z := 0x03020000.
Definition CVI_GPIOB_BASE : Z := 0x03021000.
Definition CVI_GPIOC_BASE : Z := 0x03022000.
Definition CVI_GPIOD_BASE : Z := 0x03023000.

Definition gpio_base_from_pin (pin : Z) : Z :=
  match Z.shiftr pin 8 with
  | 0xA => CVI_GPIOA_BASE
  | 0xB => CVI_GPIOB_BASE
  | 0xC => CVI_GPIOC_BASE
  | 0xD => CVI_GPIOD_BASE
  | _ => 0
  end.

Definition gpio_is_valid (pin : Z) : bool :=
  (0 <=? pin) && (Z.land pin 0xff <? 32) && negb (gpio_base_from_pin pin =? 0).

Section Driver.
Context {W : Type} `{Mmio W}.

Definition gpio_get_value (pin : Z) (w : W) : Z * W :=
  if negb (gpio_is_valid pin) then (0, w)
  else
    let gpio_base := gpio_base_from_pin pin in
    let pin := Z.land pin 0xff in
    let pin_mask := u32 (Z.shiftl 1 pin) in
    let '(level, w) := mmio_read_32 w (gpio_base + 0x50) in
    (Z.b2z (negb (Z.land level pin_mask =? 0)), w).

Definition gpio_direction_output (pin val : Z) (w : W) : W :=
  if negb (gpio_is_valid pin) then w
  else
    let gpio_base := gpio_base_from_pin pin in
    let pin := Z.land pin 0xff in
    let pin_mask := u32 (Z.shiftl 1 pin) in
    let '(output, w) := mmio_read_32 w gpio_base in
    let output :=
      if negb (val =? 0) then Z.lor output pin_mask
      else Z.land output (u32 (Z.lnot pin_mask)) in
    let w := mmio_write_32 w gpio_base output in
    let '(direction, w) := mmio_read_32 w (gpio_base + 4) in
    mmio_write_32 w (gpio_base + 4) (Z.lor direction pin_mask).

End Driver.

(** ** A concrete register bank: every register is storage *)

Module RegisterBank.

Definition t : Type := gmap Z Z.

#[global] Instance mmio : Mmio t := {|
  mmio_read_32 := fun w a => (default 0 ((w : gmap Z Z) !! a), w);
  mmio_write_32 := fun w a v => <[a := v]> (w : gmap Z Z);
|}.

#[global] Instance storage : StorageRegisters t (fun _ => True).
Proof.
  refine {| register := fun (w : t) a => default 0 ((w : gmap Z Z) !! a) |};
    unfold t; simpl; try done.
  - intros. by rewrite lookup_insert_eq.
  - intros. by rewrite lookup_insert_ne.
Defined.

End RegisterBank.

(** ** Lemmas *)

Lemma pin_mask_bit i j :
  0 <= i < 32 -> 0 <= j < 32 ->
  Z.testbit (u32 (Z.shiftl 1 i)) j = (i =? j).
Proof.
  intros Hi Hj. unfold wrap. rewrite Z.mod_pow2_bits_low by lia.
  rewrite Z.shiftl_1_l, Z.pow2_bits_eqb by lia. done.
Qed.

Lemma pin_mask_clear_bit i j :
  0 <= i < 32 -> 0 <= j < 32 ->
  Z.testbit (u32 (Z.lnot (u32 (Z.shiftl 1 i)))) j = negb (i =? j).
Proof.
  intros Hi Hj. unfold wrap at 1. rewrite Z.mod_pow2_bits_low by lia.
  rewrite Z.lnot_spec by lia. by rewrite pin_mask_bit.
Qed.

(** A valid pin names a bank and a bit. *)
Lemma gpio_valid_cases pin :
  gpio_is_valid pin = true ->
  0 <= Z.land pin 0xff < 32 /\
  (gpio_base_from_pin pin = CVI_GPIOA_BASE \/
   gpio_base_from_pin pin = CVI_GPIOB_BASE \/
   gpio_base_from_pin pin = CVI_GPIOC_BASE \/
   gpio_base_from_pin pin = CVI_GPIOD_BASE).
Proof.
  unfold gpio_is_valid. rewrite !andb_true_iff, negb_true_iff.
  intros [[H0 H1] H2]. split; [rewrite land_0xff in *; lia|].
  unfold gpio_base_from_pin in *. repeat case_match; auto; discriminate.
Qed.

Lemma direction_output_effect {W} `{Mmio W} (storage : Z -> Prop)
    `{!StorageRegisters W storage} pin val w :
  gpio_is_valid pin = true ->
  let base := gpio_base_from_pin pin in
  let line := Z.land pin 0xff in
  let w' := gpio_direction_output pin val w in
  storage base -> storage (base + 4) ->
  (forall i, 0 <= i < 32 ->
    Z.testbit (register w' base) i =
      (if i =? line then negb (val =? 0) else Z.testbit (register w base) i) /\
    Z.testbit (register w' (base + 4)) i =
      (if i =? line then true else Z.testbit (register w (base + 4)) i)) /\
  (forall a, storage a -> a <> base -> a <> base + 4 ->
    register w' a = register w a).
Proof.
  intros Hv base line w' S1 S2. destruct (gpio_valid_cases pin Hv) as [Hline _].
  unfold w', gpio_direction_output. rewrite Hv. cbn [negb].
  fold base line.
  pose proof (register_read w base S1) as R1.
  pose proof (register_read_frame w base) as F1.
  destruct (mmio_read_32 w base) as [out w1]; cbn [fst snd] in *.
  match goal with |- context [mmio_write_32 w1 base ?o] => set (out' := o) end.
  pose proof (register_read (mmio_write_32 w1 base out') (base + 4) S2) as R2.
  pose proof (register_read_frame (mmio_write_32 w1 base out') (base + 4)) as F2.
  destruct (mmio_read_32 (mmio_write_32 w1 base out') (base + 4)) as [dir w2];
    cbn [fst snd] in *.
  rewrite register_write_frame in R2 by (done || lia).
  split.
  - intros i Hi. rewrite register_write, register_write_frame by (done || lia).
    rewrite F2, register_write by done. rewrite R2, F1 by done.
    rewrite Z.lor_spec, pin_mask_bit by done. subst out out'.
    split; [|rewrite (Z.eqb_sym line i); destruct (i =? line); by btauto].
    destruct (val =? 0); cbn [negb].
    + rewrite Z.land_spec, pin_mask_clear_bit, (Z.eqb_sym line i) by done.
      destruct (i =? line); by btauto.
    + rewrite Z.lor_spec, pin_mask_bit, (Z.eqb_sym line i) by done.
      destruct (i =? line); by btauto.
  - intros a Sa N1 N2.
    rewrite register_write_frame by (done || lia). rewrite F2 by done.
    rewrite register_write_frame by (done || lia). by rewrite F1.
Qed.

(** ** Properties *)

(** Which pins the driver accepts: exactly the 32 lines of the banks A to D,
    numbered [bank << 8 | line] with banks 0xA to 0xD. *)
Theorem gpio_valid_pins pin :
  gpio_is_valid pin = true <->
  exists bank line, 0xA <= bank <= 0xD /\ 0 <= line < 32 /\ pin = bank * 256 + line.
Proof.
  unfold gpio_is_valid, gpio_base_from_pin.
  rewrite land_0xff, shiftr_div by lia. change (2 ^ 8) with 256. split.
  - rewrite !andb_true_iff, negb_true_iff. intros [[H0 H1] H2].
    exists (pin / 256), (pin mod 256).
    assert (10 <= pin / 256 <= 13) by (repeat case_match; lia).
    lia.
  - intros (bank & line & Hb & Hl & ->).
    replace ((bank * 256 + line) / 256) with bank by lia.
    replace ((bank * 256 + line) mod 256) with line by lia.
    assert (bank = 10 \/ bank = 11 \/ bank = 12 \/ bank = 13) as [ -> | [ -> | [ -> | -> ]]]
      by lia; cbv [CVI_GPIOA_BASE CVI_GPIOB_BASE CVI_GPIOC_BASE CVI_GPIOD_BASE]; lia.
Qed.

(** Driving a valid pin sets exactly its bit of the bank's data register to
    the level asked for and its bit of the direction register to output; every
    other bit of the two registers, and every other storage register, keeps its
    value. *)
Theorem gpio_direction_output_effect {W} `{Mmio W} (storage : Z -> Prop)
    `{!StorageRegisters W storage} pin val w :
  gpio_is_valid pin = true ->
  let base := gpio_base_from_pin pin in
  let line := Z.land pin 0xff in
  let w' := gpio_direction_output pin val w in
  storage base -> storage (base + 4) ->
  (forall i, 0 <= i < 32 ->
    Z.testbit (register w' base) i =
      (if i =? line then negb (val =? 0) else Z.testbit (register w base) i) /\
    Z.testbit (register w' (base + 4)) i =
      (if i =? line then true else Z.testbit (register w (base + 4)) i)) /\
  (forall a, storage a -> a <> base -> a <> base + 4 ->
    register w' a = register w a).
Proof. apply direction_output_effect. Qed.

Lemma gpio_direction_output_effect_witness :
  let w : RegisterBank.t := {[ CVI_GPIOB_BASE := 0x0f; CVI_GPIOB_BASE + 4 := 0 ]} in
  Z.testbit (register (gpio_direction_output 0xb04 1 w) CVI_GPIOB_BASE) 4 = true /\
  Z.testbit (register (gpio_direction_output 0xb04 1 w) (CVI_GPIOB_BASE + 4)) 4
    = true.
Proof.
  intros w.
  destruct (gpio_direction_output_effect (fun _ => True) 0xb04 1 w
              eq_refl I I) as [H _].
  exact (H 4 ltac:(lia)).
Defined.
