(* ===== verification/App.v ===== *)
(** * Application handlers: [firmware/app/sg2002_rtos_app.c]

    [sg2002_rtos_app_handle] executes one 32-bit command, and
    [sg2002_rtos_app_handle_message] one framed message. A pointer argument is
    an option ([None] is [NULL]); a byte access outside a buffer is undefined
    behaviour and makes the whole result [None], so the theorems that the result
    is [Some _] are memory-safety theorems. *)

From S2P Require Import Prelude Protocol Gpio.
Local Open Scope Z_scope.

Inductive app_result := APP_UNHANDLED | APP_HANDLED.

#[export] Instance app_result_eq_dec : EqDecision app_result.
Proof. solve_decision. Defined.

Section Handlers.
Context {W : Type} `{Mmio W}.

Definition sg2002_rtos_app_handle (command : Z) (value : option Z) (w : W) :
    app_result * option Z * W :=
  match value with
  | None => (APP_UNHANDLED, None, w)
  | Some value =>
      match command_of command with
      | Some SG2002_RTOS_CMD_PING =>
          (APP_HANDLED, Some (Z.lxor value SG2002_RTOS_PING_XOR), w)
      | Some SG2002_RTOS_CMD_GPIO_SET =>
          let pin := SG2002_RTOS_GPIO_PIN value in
          let gpio_value := SG2002_RTOS_GPIO_VALUE value in
          if negb (gpio_is_valid pin)
          then (APP_HANDLED, Some SG2002_RTOS_RESPONSE_INVALID_ARGUMENT, w)
          else
            let w := gpio_direction_output pin
                       (if negb (gpio_value =? 0) then 1 else 0) w in
            (APP_HANDLED, Some gpio_value, w)
      | Some SG2002_RTOS_CMD_GPIO_GET =>
          let pin := SG2002_RTOS_GPIO_PIN value in
          if negb (gpio_is_valid pin)
          then (APP_HANDLED, Some SG2002_RTOS_RESPONSE_INVALID_ARGUMENT, w)
          else
            let '(level, w) := gpio_get_value pin w in
            (APP_HANDLED, Some (u32 (Z.land level 0x1)), w)
      | Some SG2002_RTOS_CMD_GET_INFO =>
          (APP_HANDLED, Some SG2002_RTOS_INFO_VALUE, w)
      | Some SG2002_RTOS_CMD_ECHO =>
          (APP_HANDLED, Some value, w)
      | None =>
          if (SG2002_RTOS_CMD_FIRST <=? command) &&
             (command <=? SG2002_RTOS_CMD_LAST)
          then (APP_HANDLED, Some SG2002_RTOS_RESPONSE_UNSUPPORTED, w)
          else (APP_UNHANDLED, Some value, w)
      end
  end.

(** Result: the outcome, the response buffer, [*response_length] and the
    device. *)
Definition sg2002_rtos_app_handle_message (request : option (list Z))
    (request_length : Z) (response : option (list Z))
    (response_length : option Z) (w : W) :
    option (app_result * option (list Z) * option Z * W) :=
  match response_length with
  | None => Some (APP_UNHANDLED, response, None, w)
  | Some response_capacity =>
      match request, response with
      | Some request, Some response =>
          if request_length =? 0
          then Some (APP_UNHANDLED, Some response, Some 0, w)
          else
            command ← request !! SG2002_RTOS_VALUE_MESSAGE_COMMAND_OFFSET;
            if (command <? SG2002_RTOS_CMD_FIRST) ||
               (SG2002_RTOS_CMD_LAST <? command)
            then Some (APP_UNHANDLED, Some response, Some 0, w)
            else if command =? command_value SG2002_RTOS_CMD_ECHO then
              if response_capacity <? request_length
              then Some (APP_UNHANDLED, Some response, Some 0, w)
              else
                response ← memcpy response 0 request 0 (Z.to_nat request_length);
                Some (APP_HANDLED, Some response, Some request_length, w)
            else if response_capacity <? SG2002_RTOS_VALUE_MESSAGE_SIZE
            then Some (APP_UNHANDLED, Some response, Some 0, w)
            else
              '(result, value, w) ←
                (if request_length =? SG2002_RTOS_VALUE_MESSAGE_SIZE then
                   bs ← read_bytes request SG2002_RTOS_VALUE_MESSAGE_VALUE_OFFSET 4;
                   let '(result, value, w) :=
                     sg2002_rtos_app_handle command (Some (le_value bs)) w in
                   value ← value;
                   Some (result, value, w)
                 else
                   Some (APP_HANDLED, SG2002_RTOS_RESPONSE_INVALID_ARGUMENT, w));
              if decide (result = APP_HANDLED) then
                response ← write_bytes response
                             SG2002_RTOS_VALUE_MESSAGE_COMMAND_OFFSET [command];
                response ← write_bytes response
                             SG2002_RTOS_VALUE_MESSAGE_VALUE_OFFSET
                             (le_bytes 4 value);
                Some (APP_HANDLED, Some response,
                      Some SG2002_RTOS_VALUE_MESSAGE_SIZE, w)
              else Some (result, Some response, Some 0, w)
      | _, response => Some (APP_UNHANDLED, response, Some 0, w)
      end
  end.

(** ** Specification of the message framing

    What a message is answered with: [None] when it is left unhandled. *)
Definition spec_reply (request : list Z) (w : W) : option (list Z) * W :=
  match request with
  | [] => (None, w)
  | command :: data =>
      if negb ((SG2002_RTOS_CMD_FIRST <=? command) &&
               (command <=? SG2002_RTOS_CMD_LAST)) then (None, w)
      else if command =? command_value SG2002_RTOS_CMD_ECHO
      then (Some request, w)
      else
        let '(value, w) :=
          if decide (length data = 4%nat)
          then let '(_, value, w) :=
                 sg2002_rtos_app_handle command (Some (le_value data)) w in
               (default 0 value, w)
          else (SG2002_RTOS_RESPONSE_INVALID_ARGUMENT, w) in
        (Some (command :: le_bytes 4 value), w)
  end.

End Handlers.

(** ** Lemmas *)

Lemma command_of_range command c :
  command_of command = Some c ->
  command = command_value c /\ 0x60 <= command <= 0x64.
Proof.
  unfold command_of, command_value, SG2002_RTOS_CMD_FIRST.
  intros E. repeat match type of E with
  | (if ?b then _ else _) = _ => destruct b eqn:?
  end; try done; injection E as <-; cbv iota; lia.
Qed.

Section HandlerLemmas.
Context {W : Type} `{Mmio W}.

(** A command in the application range is handled and always answers. *)
Lemma app_handle_in_range command value (w : W) :
  SG2002_RTOS_CMD_FIRST <= command <= SG2002_RTOS_CMD_LAST ->
  exists v w', sg2002_rtos_app_handle command (Some value) w =
    (APP_HANDLED, Some v, w').
Proof.
  intros Hr. unfold sg2002_rtos_app_handle.
  destruct (command_of command) as [[]|]; eauto.
  - destruct (negb _); eauto.
  - destruct (negb _); [eauto|]. destruct (gpio_get_value _ _); eauto.
  - replace ((_ <=? command) && _) with true by lia. eauto.
Qed.

Lemma app_handle_out_of_range command value (w : W) :
  ~ (SG2002_RTOS_CMD_FIRST <= command <= SG2002_RTOS_CMD_LAST) ->
  sg2002_rtos_app_handle command (Some value) w = (APP_UNHANDLED, Some value, w).
Proof.
  intros Hr. unfold sg2002_rtos_app_handle.
  destruct (command_of command) as [c|] eqn:E.
  - apply command_of_range in E as [_ ?].
    unfold SG2002_RTOS_CMD_FIRST, SG2002_RTOS_CMD_LAST in *. lia.
  - by replace ((_ <=? command) && _) with false by lia.
Qed.

(** A 32-bit argument has a 32-bit answer. *)
Lemma app_handle_value_range command value (w w' : W) result v :
  is_u32 value ->
  sg2002_rtos_app_handle command (Some value) w = (result, Some v, w') -> is_u32 v.
Proof.
  intros Hv. unfold sg2002_rtos_app_handle. pose proof (GPIO_VALUE_range value).
  destruct (command_of command) as [[]|];
    repeat (case_match || simplify_eq); intros; simplify_eq;
    try done; try (apply wrap_u32_range); try (word_unfold; lia).
  by apply lxor_range.
Qed.

(** Writing at the front of a buffer that is long enough. *)
Lemma write_front response (bs : list Z) :
  (length bs <= length response)%nat ->
  write_bytes response 0 bs = Some (bs ++ drop (length bs) response).
Proof. intros. by rewrite write_bytes_Some. Qed.

(** Writing a byte, then bytes after it, writes them all. *)
Lemma write_front_cons response (b : Z) (bs : list Z) :
  (S (length bs) <= length response)%nat ->
  (response ← write_bytes response 0 [b]; write_bytes response 1 bs) =
    Some ((b :: bs) ++ drop (S (length bs)) response).
Proof.
  intros Hlen. rewrite write_front by (simpl; lia). cbn [mbind option_bind].
  rewrite write_bytes_Some.
  - destruct response as [|r rs]; [cbn [length] in Hlen; lia|].
    cbn [length app take drop]. simpl. by rewrite drop_0.
  - rewrite length_app, length_drop. simpl. lia.
Qed.

(** The five bytes of a value reply. *)
Lemma write_value_reply response command value (w : W) :
  (5 <= length response)%nat ->
  (response ← write_bytes response SG2002_RTOS_VALUE_MESSAGE_COMMAND_OFFSET [command];
   response ← write_bytes response SG2002_RTOS_VALUE_MESSAGE_VALUE_OFFSET
                (le_bytes 4 value);
   Some (APP_HANDLED, Some response, Some SG2002_RTOS_VALUE_MESSAGE_SIZE, w)) =
  Some (APP_HANDLED, Some ((command :: le_bytes 4 value) ++ drop 5 response),
        Some SG2002_RTOS_VALUE_MESSAGE_SIZE, w).
Proof.
  intros Hlen. pose proof (write_front_cons response command (le_bytes 4 value)) as Hw.
  rewrite le_bytes_length in Hw. specialize (Hw ltac:(lia)).
  unfold SG2002_RTOS_VALUE_MESSAGE_COMMAND_OFFSET, SG2002_RTOS_VALUE_MESSAGE_VALUE_OFFSET.
  destruct (write_bytes response 0 [command]); [|done]. cbn [mbind option_bind] in *.
  by rewrite Hw.
Qed.

(** A reply is never longer than five bytes unless it echoes the request. *)
Lemma spec_reply_length bytes (w w' : W) reply :
  spec_reply bytes w = (Some reply, w') ->
  length reply = (if decide (hd_error bytes = Some (command_value SG2002_RTOS_CMD_ECHO))
                  then length bytes else 5%nat).
Proof.
  unfold spec_reply. destruct bytes as [|c data]; [done|]. cbn [hd_error].
  destruct (negb _); [done|]. destruct (c =? _) eqn:E.
  - intros [= <- _]. rewrite decide_True; [done|]. f_equal. lia.
  - rewrite (decide_False (P := Some c = _)) by (intros [= ->]; by rewrite Z.eqb_refl in E).
    destruct (decide _) as [Hd|];
      [destruct (sg2002_rtos_app_handle _ _ _) as [[? v] ?]|];
      intros [= <- _]; done.
Qed.

(** What the caller of the handler gets: the reply when it fits, nothing and no
    effect otherwise. *)
Definition framed (response : list Z) (capacity : Z) (reply : option (list Z) * W)
    (w : W) : app_result * option (list Z) * option Z * W :=
  match reply with
  | (Some reply, w') =>
      if Z.of_nat (length reply) <=? capacity
      then (APP_HANDLED, Some (reply ++ drop (length reply) response),
            Some (Z.of_nat (length reply)), w')
      else (APP_UNHANDLED, Some response, Some 0, w)
  | (None, _) => (APP_UNHANDLED, Some response, Some 0, w)
  end.

(** The frame of a value reply. *)
Lemma framed_value response capacity command v (w w' : W) :
  framed response capacity (Some (command :: le_bytes 4 v), w') w =
    if capacity <? SG2002_RTOS_VALUE_MESSAGE_SIZE
    then (APP_UNHANDLED, Some response, Some 0, w)
    else (APP_HANDLED, Some ((command :: le_bytes 4 v) ++ drop 5 response),
          Some SG2002_RTOS_VALUE_MESSAGE_SIZE, w').
Proof.
  unfold framed, SG2002_RTOS_VALUE_MESSAGE_SIZE.
  rewrite length_cons, le_bytes_length. change (Z.of_nat 5) with 5.
  destruct (capacity <? 5) eqn:Hc.
  - by replace (5 <=? capacity) with false by lia.
  - by replace (5 <=? capacity) with true by lia.
Qed.

Lemma handle_message_spec request request_length response capacity (w : W) :
  0 <= request_length <= Z.of_nat (length request) ->
  0 <= capacity <= Z.of_nat (length response) ->
  sg2002_rtos_app_handle_message (Some request) request_length (Some response)
    (Some capacity) w =
  Some (framed response capacity
          (spec_reply (take (Z.to_nat request_length) request) w) w).
Proof.
  intros Hlen Hcap. unfold sg2002_rtos_app_handle_message.
  destruct (request_length =? 0) eqn:E0.
  { assert (request_length = 0) as -> by lia. done. }
  destruct request as [|command rest]; [cbn [length] in Hlen; lia|].
  replace (Z.to_nat request_length) with (S (Z.to_nat (request_length - 1))) by lia.
  cbn [lookup list_lookup SG2002_RTOS_VALUE_MESSAGE_COMMAND_OFFSET mbind option_bind
       take spec_reply].
  destruct ((command <? _) || _) eqn:Er.
  { by replace (negb _) with true by lia. }
  replace (negb _) with false by lia.
  destruct (command =? _) eqn:Ee.
  - cbn [framed length]. rewrite length_take, Nat.min_l by (cbn [length] in *; lia).
    replace (Z.of_nat _) with request_length by lia.
    destruct (capacity <? request_length) eqn:Ec.
    { by replace (_ <=? capacity) with false by lia. }
    replace (_ <=? capacity) with true by lia.
    unfold memcpy. rewrite read_bytes_Some by (cbn [length] in *; lia).
    cbn [mbind option_bind drop].
    rewrite write_front by (rewrite length_take; cbn [length] in *; lia).
    cbn [mbind option_bind]. do 3 f_equal.
    rewrite length_take, Nat.min_l by (cbn [length] in *; lia).
    by replace (Z.to_nat request_length) with (S (Z.to_nat (request_length - 1))) by lia.
  - pose proof (framed_value response capacity command) as Hframe.
    assert (Hr : SG2002_RTOS_CMD_FIRST <= command <= SG2002_RTOS_CMD_LAST) by lia.
    destruct (app_handle_in_range command (le_value (take 4 rest)) w Hr)
      as (v & w' & E).
    destruct (request_length =? SG2002_RTOS_VALUE_MESSAGE_SIZE) eqn:E5;
      unfold SG2002_RTOS_VALUE_MESSAGE_SIZE in E5.
    + assert (request_length = 5) as -> by lia.
      change (Z.to_nat (5 - 1)) with 4%nat.
      rewrite (decide_True (P := length (take 4 rest) = 4%nat))
        by (rewrite length_take; cbn [length] in *; lia).
      rewrite E. cbn [default]. rewrite Hframe.
      destruct (capacity <? _) eqn:Ec; [done|].
      rewrite read_bytes_Some
        by (unfold SG2002_RTOS_VALUE_MESSAGE_VALUE_OFFSET; cbn [length] in *; lia).
      cbn [SG2002_RTOS_VALUE_MESSAGE_VALUE_OFFSET mbind option_bind drop].
      rewrite drop_0, E. cbn [mbind option_bind]. rewrite decide_True by done.
      apply write_value_reply. unfold SG2002_RTOS_VALUE_MESSAGE_SIZE in Ec. lia.
    + rewrite decide_False by (rewrite length_take; cbn [length] in *; lia).
      rewrite Hframe. destruct (capacity <? _) eqn:Ec; [done|].
      cbn [mbind option_bind]. rewrite decide_True by done.
      apply write_value_reply. unfold SG2002_RTOS_VALUE_MESSAGE_SIZE in Ec. lia.
Qed.

End HandlerLemmas.

(** ** Properties *)

Section Properties.
Context {W : Type} `{Mmio W}.

(** C11: the message framing. The handler answers what [spec_reply] says of the
    request bytes when the answer fits the capacity it was given, and otherwise
    reports the message unhandled with no reply and no effect on the device; it
    never touches memory outside the buffers. [spec_reply]: empty messages and
    commands outside 0x60 to 0x7e are unhandled, ECHO returns the message, a
    value message carries the command and the little-endian answer of
    [sg2002_rtos_app_handle], and a value command of the wrong length answers
    INVALID_ARGUMENT without being executed. *)
Theorem message_framing request request_length response capacity (w : W) :
  0 <= request_length <= Z.of_nat (length request) ->
  0 <= capacity <= Z.of_nat (length response) ->
  sg2002_rtos_app_handle_message (Some request) request_length (Some response)
    (Some capacity) w =
  Some (framed response capacity
          (spec_reply (take (Z.to_nat request_length) request) w) w).
Proof. apply handle_message_spec. Qed.

(** C38: the handler stays inside the capacity: it reports at most [capacity]
    bytes, the response buffer keeps its size and every byte past the reported
    length, and an unhandled message leaves buffer and device alone. *)
Theorem message_within_capacity request request_length response capacity (w : W) :
  0 <= request_length <= Z.of_nat (length request) ->
  0 <= capacity <= Z.of_nat (length response) ->
  exists result response' n w',
    sg2002_rtos_app_handle_message (Some request) request_length (Some response)
      (Some capacity) w = Some (result, Some response', Some n, w') /\
    0 <= n <= capacity /\ length response' = length response /\
    drop (Z.to_nat n) response' = drop (Z.to_nat n) response /\
    (result = APP_UNHANDLED -> n = 0 /\ response' = response /\ w' = w).
Proof.
  intros Hlen Hcap. rewrite handle_message_spec by done. unfold framed.
  destruct (spec_reply _ w) as [[reply|] w'].
  2: { do 4 eexists. split; [done|]. split_and!; (lia || done). }
  destruct (_ <=? capacity) eqn:E; do 4 eexists; (split; [done|]);
    split_and!; try (lia || done).
  - rewrite length_app, length_drop. lia.
  - by rewrite Nat2Z.id, drop_app_length.
Qed.

(** The reserved error words. In the application range, UNSUPPORTED answers
    exactly the unassigned commands 0x65 to 0x7e among the non-PING, non-ECHO
    commands, and INVALID_ARGUMENT exactly the GPIO commands whose pin the
    driver does not have. *)
Theorem error_replies command value (w : W) :
  SG2002_RTOS_CMD_FIRST <= command <= SG2002_RTOS_CMD_LAST ->
  command <> command_value SG2002_RTOS_CMD_PING ->
  command <> command_value SG2002_RTOS_CMD_ECHO ->
  let reply := (sg2002_rtos_app_handle command (Some value) w).1.2 in
  (reply = Some SG2002_RTOS_RESPONSE_UNSUPPORTED <-> 0x65 <= command) /\
  (reply = Some SG2002_RTOS_RESPONSE_INVALID_ARGUMENT <->
   (command = command_value SG2002_RTOS_CMD_GPIO_SET \/
    command = command_value SG2002_RTOS_CMD_GPIO_GET) /\
   gpio_is_valid (SG2002_RTOS_GPIO_PIN value) = false).
Proof.
  intros Hr Hping Hecho. unfold sg2002_rtos_app_handle.
  destruct (command_of command) as [c|] eqn:E.
  - apply command_of_range in E as [-> Hc].
    pose proof (GPIO_VALUE_range value) as Hv.
    destruct c; cbn [command_value] in *; try lia;
      try destruct (gpio_is_valid _) eqn:Ev; cbn [negb fst snd];
      try (destruct (gpio_get_value _ _) as [level w1]; cbn [fst snd];
           rewrite land_0x1);
      unfold SG2002_RTOS_CMD_FIRST, SG2002_RTOS_RESPONSE_UNSUPPORTED,
        SG2002_RTOS_RESPONSE_INVALID_ARGUMENT, SG2002_RTOS_INFO_VALUE in *;
      split; split; intros; simplify_eq; try (word_lia || intuition (lia || congruence)).
    all: try (exfalso; match goal with H : Some _ = Some _ |- _ => injection H as H end;
              vm_compute in H0; congruence).
  - replace ((_ <=? command) && _) with true by lia. cbn [fst snd].
    assert (0x65 <= command).
    { revert E. unfold command_of. cbn [command_value].
      unfold SG2002_RTOS_CMD_FIRST in *.
      repeat match goal with
      | |- (if ?b then _ else _) = _ -> _ => destruct b eqn:?
      end; intros; try done. lia. }
    split; split; intros Hx; try done; cbn [command_value] in *;
      unfold SG2002_RTOS_CMD_FIRST in *; lia.
Qed.

(** A GPIO_SET request drives the line: for every pin of the banks and
    either level, the handler answers the level, and afterwards the pin's data
    bit is that level and its direction bit is output. *)
Theorem gpio_set_drives_line (storage : Z -> Prop) `{!StorageRegisters W storage}
    pin level (w : W) :
  is_u16 pin -> in_range 1 level -> gpio_is_valid pin = true ->
  storage (gpio_base_from_pin pin) -> storage (gpio_base_from_pin pin + 4) ->
  exists w',
    sg2002_rtos_app_handle (command_value SG2002_RTOS_CMD_GPIO_SET)
      (Some (SG2002_RTOS_GPIO_ENCODE pin level)) w = (APP_HANDLED, Some level, w') /\
    Z.testbit (register w' (gpio_base_from_pin pin)) (Z.land pin 0xff)
      = (level =? 1) /\
    Z.testbit (register w' (gpio_base_from_pin pin + 4)) (Z.land pin 0xff) = true.
Proof.
  intros Hp Hl Hv S1 S2. destruct (gpio_word_fields pin level Hp Hl) as [Epin Elevel].
  unfold sg2002_rtos_app_handle. cbn [command_of command_value].
  change (command_of _) with (Some SG2002_RTOS_CMD_GPIO_SET). cbv iota beta zeta.
  rewrite Epin, Elevel, Hv. cbn [negb]. eexists. split; [done|].
  destruct (gpio_valid_cases pin Hv) as [Hline _].
  destruct (direction_output_effect storage pin
              (if negb (level =? 0) then 1 else 0) w Hv S1 S2) as [Hbits _].
  destruct (Hbits _ Hline) as [-> ->]. rewrite Z.eqb_refl.
  word_unfold. split; [|done]. by assert (level = 0 \/ level = 1) as [-> | ->] by lia.
Qed.

(** The reserved error words are not distinguishable from every answer: a
    PING (and likewise an ECHO word) can answer any 32-bit word, the two
    reserved ones included. *)
Theorem ping_answers_any_word (reply : Z) (w : W) :
  is_u32 reply ->
  exists value, is_u32 value /\
    sg2002_rtos_app_handle (command_value SG2002_RTOS_CMD_PING) (Some value) w =
      (APP_HANDLED, Some reply, w).
Proof.
  intros Hr. exists (Z.lxor reply SG2002_RTOS_PING_XOR). split.
  - by apply lxor_range.
  - unfold sg2002_rtos_app_handle. change (command_of _) with (Some SG2002_RTOS_CMD_PING).
    cbv iota beta. by rewrite Z.lxor_assoc, Z.lxor_nilpotent, Z.lxor_0_r.
Qed.

End Properties.

(** ** Witnesses *)

Definition demo_device : RegisterBank.t := {[ CVI_GPIOB_BASE := 0x0f ]}.

Lemma message_framing_witness :
  sg2002_rtos_app_handle_message (Some [0x60; 1; 2; 3; 4]) 5
    (Some (replicate 6 0xee)) (Some 6) demo_device =
  Some (APP_HANDLED, Some [0x60; 0x5b; 0x58; 0xa6; 0xa1; 0xee], Some 5, demo_device).
Proof.
  assert (H5 : 0 <= 5 <= Z.of_nat (length [0x60; 1; 2; 3; 4])) by (cbn; lia).
  assert (H6 : 0 <= 6 <= Z.of_nat (length (replicate 6 0xee))) by (cbn; lia).
  exact (message_framing [0x60; 1; 2; 3; 4] 5 (replicate 6 0xee) 6 demo_device H5 H6).
Defined.

Lemma message_within_capacity_witness :
  exists result response' n w',
    sg2002_rtos_app_handle_message (Some [0x64; 1; 2]) 3 (Some [9; 9; 9; 9]) (Some 2)
      demo_device = Some (result, Some response', Some n, w') /\
    0 <= n <= 2 /\ length response' = 4%nat /\
    drop (Z.to_nat n) response' = drop (Z.to_nat n) [9; 9; 9; 9] /\
    (result = APP_UNHANDLED -> n = 0 /\ response' = [9; 9; 9; 9] /\ w' = demo_device).
Proof.
  apply (message_within_capacity [0x64; 1; 2] 3 [9; 9; 9; 9] 2 demo_device);
    cbn; lia.
Defined.

Lemma error_replies_witness :
  (sg2002_rtos_app_handle 0x65 (Some 0) demo_device).1.2 =
    Some SG2002_RTOS_RESPONSE_UNSUPPORTED /\
  (sg2002_rtos_app_handle 0x61 (Some 0x0c200001) demo_device).1.2 =
    Some SG2002_RTOS_RESPONSE_INVALID_ARGUMENT.
Proof.
  split.
  - apply (error_replies 0x65 0 demo_device); cbv; (congruence || split; congruence).
  - apply (error_replies 0x61 0x0c200001 demo_device);
      cbv; (congruence || (split; congruence) || (split; [by left|done])).
Defined.

Lemma gpio_set_drives_line_witness :
  exists w',
    sg2002_rtos_app_handle 0x61 (Some (SG2002_RTOS_GPIO_ENCODE 0xb04 1)) demo_device
      = (APP_HANDLED, Some 1, w') /\
    Z.testbit (register w' CVI_GPIOB_BASE) 4 = true /\
    Z.testbit (register w' (CVI_GPIOB_BASE + 4)) 4 = true.
Proof.
  apply (gpio_set_drives_line (fun _ => True) 0xb04 1 demo_device);
    (exact I || reflexivity || (unfold in_range; lia)).
Defined.

Lemma ping_answers_any_word_witness :
  exists value, is_u32 value /\
    sg2002_rtos_app_handle 0x60 (Some value) demo_device =
      (APP_HANDLED, Some SG2002_RTOS_RESPONSE_INVALID_ARGUMENT, demo_device).
Proof. apply ping_answers_any_word. vm_compute. split; congruence. Defined.
