(* ===== verification/ShmTransport.v ===== *)
(** * Firmware shared-memory transport:
      [firmware/transport/sg2002_rtos_shm_transport.c]

    The C906L side of the region: it attaches to the generation Linux
    published, drains the request ring through the application handler into the
    response ring, and publishes its own peer state. The statics of the file are
    the record [transport]; the region is a [SharedMemory]; the application's
    device is an [Mmio]. The address of the region is a linker symbol, hence a
    parameter. *)

From S2P Require Import Prelude Protocol Shm SharedMemory Ring Gpio App.
Local Open Scope Z_scope.

Inductive process_result :=
| PROCESS_OK | PROCESS_NOT_READY | PROCESS_CORRUPT.

#[export] Instance process_result_eq_dec : EqDecision process_result.
Proof. solve_decision. Defined.

(** The static variables. *)
Record transport (M : Type) := Transport {
  request_ring : ring M;
  response_ring : ring M;
  request_message : slot;
  response_message : slot;
  active_generation : Z;
}.
Arguments Transport {M}.
Arguments request_ring {M}.
Arguments response_ring {M}.
Arguments request_message {M}.
Arguments response_message {M}.
Arguments active_generation {M}.

(** C's [&&] over tests that read memory. *)
Definition and_then {M : Type} (t1 t2 : M -> bool * M) (m : M) : bool * M :=
  let '(b, m) := t1 m in if b then t2 m else (false, m).

Declare Scope transport_scope.
Delimit Scope transport_scope with transport.
Infix "&&&" := and_then (at level 40, left associativity) : transport_scope.
Local Open Scope transport_scope.

Section Transport.
Context {M : Type} `{SharedMemory M} {W : Type} `{Mmio W}.
Context (SG2002_RTOS_SHM_BASE : Z).
Implicit Types (t : transport M) (m : M) (w : W).

(** [&shm_control->field], [&request_slots[i]], [&response_slots[i]]. *)
Definition shm_address (o : object) : Z := SG2002_RTOS_SHM_BASE + object_offset o.

Definition sync_control_for_cpu m (address size : Z) : M :=
  fence (inv_dcache_range m address size).

Definition publish_rtos_state (state generation : Z) m : M :=
  let peer := shm_address RtosPeer in
  let m := store KPeer m peer (fun l => PeerLine (Shm.state l) generation) in
  let m := store KPeer m peer (fun l => PeerLine state (peer_generation l)) in
  let m := fence m in
  let m := clean_dcache_range m peer (size_of KPeer) in
  fence m.

(** A test of one [volatile] field. *)
Definition test_layout (f : layout_line -> bool) m : bool * M :=
  let '(l, m) := load KLayout m (shm_address Layout) in (f l, m).
Definition test_linux_peer (f : peer_line -> bool) m : bool * M :=
  let '(l, m) := load KPeer m (shm_address LinuxPeer) in (f l, m).

Definition layout_is_valid (generation : Z) : M -> bool * M :=
  test_layout (fun l => magic l =? SG2002_RTOS_SHM_MAGIC) &&&
  test_layout (fun l => abi_version l =? SG2002_RTOS_SHM_ABI_VERSION) &&&
  test_layout (fun l => control_size l =? SG2002_RTOS_SHM_CONTROL_SIZE) &&&
  test_layout (fun l => region_size l =? SG2002_RTOS_SHM_REGION_SIZE) &&&
  test_layout (fun l => slot_size l =? SG2002_RTOS_SHM_SLOT_SIZE) &&&
  test_layout (fun l => slot_count l =? SG2002_RTOS_SHM_SLOT_COUNT) &&&
  test_layout (fun l => request_offset l =? SG2002_RTOS_SHM_REQUEST_OFFSET) &&&
  test_layout (fun l => response_offset l =? SG2002_RTOS_SHM_RESPONSE_OFFSET) &&&
  test_layout (fun l => layout_generation l =? generation) &&&
  test_layout (fun l => Z.land (features l) SG2002_RTOS_SHM_FEATURES =?
                        SG2002_RTOS_SHM_FEATURES).

Definition attach t m : bool * transport M * M :=
  let m := sync_control_for_cpu m (shm_address Layout) (size_of KLayout) in
  let m := sync_control_for_cpu m (shm_address LinuxPeer) (size_of KPeer) in
  let '(line, m) := load KLayout m (shm_address Layout) in
  let generation := layout_generation line in
  let '(ready, m) :=
    ((fun m => (negb (generation =? 0), m)) &&& layout_is_valid generation &&&
     test_linux_peer (fun l => Shm.state l =? SG2002_RTOS_SHM_STATE_READY) &&&
     test_linux_peer (fun l => peer_generation l =? generation)) m in
  if negb ready then (false, t, m)
  else if active_generation t =? generation then (true, t, m)
  else
    let bind ring p c s :=
      default ring (sg2002_rtos_ring_init (Some ring) (shm_address p)
        (shm_address c) (shm_address s) (Some maintenance_ops)) in
    let t := Transport
      (bind (request_ring t) RequestProducer RequestConsumer (RequestSlot 0))
      (bind (response_ring t) ResponseProducer ResponseConsumer (ResponseSlot 0))
      (request_message t) (response_message t) generation in
    (true, t, publish_rtos_state SG2002_RTOS_SHM_STATE_READY generation m).

Definition mark_corrupt t m : process_result * M :=
  (PROCESS_CORRUPT,
   publish_rtos_state SG2002_RTOS_SHM_STATE_ERROR (active_generation t) m).

Definition sg2002_rtos_shm_transport_init t : transport M :=
  Transport (request_ring t) (response_ring t) (request_message t)
    (response_message t) 0.

(** The [while] loop; [None] is undefined behaviour, or the fuel running out
    ([process_total] shows that neither happens). The result carries [count]. *)
Fixpoint process_loop (fuel : nat) (count : Z) t m w :
    option (process_result * Z * transport M * M * W) :=
  match fuel with
  | O => None
  | S fuel =>
      if negb (count <? SG2002_RTOS_SHM_SLOT_COUNT)
      then Some (PROCESS_OK, count, t, m, w)
      else
        let '(can_push, m) := sg2002_rtos_ring_can_push (Some (response_ring t)) m in
        if can_push <? 0 then
          let '(result, m) := mark_corrupt t m in Some (result, count, t, m, w)
        else if can_push =? 0 then Some (PROCESS_OK, count, t, m, w)
        else
          let '(ring_result, message, m) :=
            sg2002_rtos_ring_try_pop (Some (request_ring t))
              (Some (request_message t)) m in
          let request := default (request_message t) message in
          let t := Transport (request_ring t) (response_ring t) request
                     (response_message t) (active_generation t) in
          if decide (ring_result = RING_EMPTY)
          then Some (PROCESS_OK, count, t, m, w)
          else if decide (ring_result <> RING_OK) then
            let '(result, m) := mark_corrupt t m in Some (result, count, t, m, w)
          else
            (* memset, then the sequence number *)
            let response := Slot (sequence request) 0 zero_payload in
            '(app_result, response_payload, response_length, w) ←
              sg2002_rtos_app_handle_message (Some (payload request))
                (msg_length request) (Some (payload response))
                (Some SG2002_RTOS_SHM_PAYLOAD_SIZE) w;
            response_payload ← response_payload;
            response_length ← response_length;
            let response_length :=
              if decide (app_result <> APP_HANDLED) then 0 else response_length in
            let response := Slot (sequence response) response_length
                              response_payload in
            let t := Transport (request_ring t) (response_ring t) request
                       response (active_generation t) in
            let '(ring_result, m) :=
              sg2002_rtos_ring_try_push (Some (response_ring t))
                (Some response) m in
            if decide (ring_result <> RING_OK) then
              let '(result, m) := mark_corrupt t m in Some (result, count, t, m, w)
            else process_loop fuel (count + 1) t m w
  end.

(** [processed] is the caller's variable, [None] for [NULL]. *)
Definition sg2002_rtos_shm_process (processed : option Z) t m w :
    option (process_result * option Z * transport M * M * W) :=
  let processed := (fun _ => 0) <$> processed in
  let '(attached, t, m) := attach t m in
  if negb attached then Some (PROCESS_NOT_READY, processed, t, m, w)
  else
    '(result, count, t, m, w) ←
      process_loop (S (Z.to_nat SG2002_RTOS_SHM_SLOT_COUNT)) 0 t m w;
    let processed :=
      if decide (result = PROCESS_OK) then (fun _ => count) <$> processed else processed in
    Some (result, processed, t, m, w).

Definition sg2002_rtos_shm_generation t : Z := active_generation t.

(** ** Abstract specification *)

(** What one request is answered with. *)
Definition spec_response (request : slot) w : slot * W :=
  let '(reply, w') :=
    spec_reply (take (Z.to_nat (msg_length request)) (payload request)) w in
  match reply with
  | Some bs =>
      (Slot (sequence request) (Z.of_nat (length bs))
         (bs ++ drop (length bs) zero_payload), w')
  | None => (Slot (sequence request) 0 zero_payload, w)
  end.

(** Answering a list of requests in order. *)
Fixpoint spec_serve (requests : list slot) w : list slot * W :=
  match requests with
  | [] => ([], w)
  | s :: requests =>
      let '(response, w) := spec_response s w in
      let '(responses, w) := spec_serve requests w in
      (response :: responses, w)
  end.

(** Draining the request queue into the response queue: stop when the budget or
    the room for responses is used up or the requests are; a request whose
    length is impossible is consumed and ends the drain as corrupt. *)
Fixpoint spec_drain (budget : nat) (requests responses : list slot) w :
    process_result * nat * list slot * list slot * W :=
  match budget, requests with
  | S budget, s :: rest =>
      if Z.of_nat (length responses) =? SG2002_RTOS_SHM_SLOT_COUNT
      then (PROCESS_OK, O, requests, responses, w)
      else if SG2002_RTOS_SHM_PAYLOAD_SIZE <? msg_length s
      then (PROCESS_CORRUPT, O, rest, responses, w)
      else
        let '(response, w) := spec_response s w in
        let '(result, n, requests, responses, w) :=
          spec_drain budget rest (responses ++ [response]) w in
        (result, S n, requests, responses, w)
  | _, _ => (PROCESS_OK, O, requests, responses, w)
  end.

(** The firmware's peer line after a call. *)
Definition spec_peer t (generation : Z) (peer : peer_line) : peer_line :=
  if active_generation t =? generation then peer
  else PeerLine SG2002_RTOS_SHM_STATE_READY generation.

(** The control lines Linux owns admit an attachment to [generation]. *)
Definition spec_attachable (layout : layout_line) (linux : peer_line) : bool :=
  negb (layout_generation layout =? 0) &&
  (magic layout =? SG2002_RTOS_SHM_MAGIC) &&
  (abi_version layout =? SG2002_RTOS_SHM_ABI_VERSION) &&
  (control_size layout =? SG2002_RTOS_SHM_CONTROL_SIZE) &&
  (region_size layout =? SG2002_RTOS_SHM_REGION_SIZE) &&
  (slot_size layout =? SG2002_RTOS_SHM_SLOT_SIZE) &&
  (slot_count layout =? SG2002_RTOS_SHM_SLOT_COUNT) &&
  (request_offset layout =? SG2002_RTOS_SHM_REQUEST_OFFSET) &&
  (response_offset layout =? SG2002_RTOS_SHM_RESPONSE_OFFSET) &&
  (Z.land (features layout) SG2002_RTOS_SHM_FEATURES =? SG2002_RTOS_SHM_FEATURES) &&
  (Shm.state linux =? SG2002_RTOS_SHM_STATE_READY) &&
  (peer_generation linux =? layout_generation layout).

(** ** Representation *)

Definition bound_request_ring : ring M :=
  Ring (shm_address RequestProducer) (shm_address RequestConsumer)
    (shm_address (RequestSlot 0)) (Some maintenance_ops).
Definition bound_response_ring : ring M :=
  Ring (shm_address ResponseProducer) (shm_address ResponseConsumer)
    (shm_address (ResponseSlot 0)) (Some maintenance_ops).

(** Attached statics hold the rings of the region. *)
Definition transport_bound t : Prop :=
  request_ring t = bound_request_ring /\ response_ring t = bound_response_ring.
Definition transport_inv t : Prop :=
  active_generation t <> 0 -> transport_bound t.

(** The region in main memory, as both cores see it once everything this core
    wrote is out of its cache. *)
Record region m (layout : layout_line) (linux rtos : peer_line)
    (requests responses : list slot) : Prop := {
  region_settled k o :
    (k, o) ∈ [(KLayout, Layout); (KPeer, LinuxPeer); (KPeer, RtosPeer)] ->
    settled k m (shm_address o);
  region_layout : dram (obs KLayout m (shm_address Layout)) = layout;
  region_linux : dram (obs KPeer m (shm_address LinuxPeer)) = linux;
  region_rtos : dram (obs KPeer m (shm_address RtosPeer)) = rtos;
  region_requests : exists p c, ring_state bound_request_ring m p c requests;
  region_responses : exists p c, ring_state bound_response_ring m p c responses;
}.

End Transport.

(** ** Lemmas *)

Section Theory.
Context {M : Type} `{SharedMemoryLaws M} {W : Type} `{Mmio W}.
Context (base : Z) (base_positive : 0 < base).
Implicit Types (t : transport M) (m : M) (w : W).

Local Abbreviation req := (bound_request_ring (M := M) base).
Local Abbreviation resp := (bound_response_ring (M := M) base).
Local Abbreviation at_ := (shm_address base).

#[local] Instance req_maintenance : RingMaintenance req.
Proof. by apply maintained_ring. Qed.
#[local] Instance resp_maintenance : RingMaintenance resp.
Proof. by apply maintained_ring. Qed.

(** Every address of the region is [base] plus a constant; every size is a
    constant. *)
Ltac region_arith :=
  unfold off_ring, off_range, inside in *;
  cbn [producer consumer slots bound_request_ring bound_response_ring] in *;
  change (at_ Layout) with (base + 0) in *;
  change (at_ LinuxPeer) with (base + 64) in *;
  change (at_ RtosPeer) with (base + 128) in *;
  change (at_ RequestProducer) with (base + 192) in *;
  change (at_ RequestConsumer) with (base + 256) in *;
  change (at_ ResponseProducer) with (base + 320) in *;
  change (at_ ResponseConsumer) with (base + 384) in *;
  change (at_ (RequestSlot 0)) with (base + 4096) in *;
  change (at_ (ResponseSlot 0)) with (base + 69632) in *;
  change SG2002_RTOS_SHM_RING_SIZE with 65536 in *;
  change (size_of KLayout) with 64 in *; change (size_of KPeer) with 64 in *;
  change (size_of KCounter) with 64 in *; change (size_of KSlot) with 1024 in *;
  unfold NULL in *; lia.

Lemma req_placed : ring_placed req.
Proof using base_positive. clear -base_positive. split; region_arith. Qed.
Lemma resp_placed : ring_placed resp.
Proof using base_positive. clear -base_positive. split; region_arith. Qed.

Lemma req_object_off_resp k a : ring_object req k a -> off_ring resp k a.
Proof.
  destruct 1 as [| |i]; rewrite ?slot_address_arith; region_arith.
Qed.
Lemma resp_object_off_req k a : ring_object resp k a -> off_ring req k a.
Proof.
  destruct 1 as [| |i]; rewrite ?slot_address_arith; region_arith.
Qed.

(** The three control lines, and what lies off them. *)
Definition control_line (k : kind) (o : object) : Prop :=
  (k, o) ∈ [(KLayout, Layout); (KPeer, LinuxPeer); (KPeer, RtosPeer)].

Lemma control_cases (P : kind -> object -> Prop) :
  P KLayout Layout -> P KPeer LinuxPeer -> P KPeer RtosPeer ->
  forall k o, control_line k o -> P k o.
Proof.
  intros PL PX PR k o Hin. unfold control_line in Hin.
  rewrite !elem_of_cons, elem_of_nil in Hin.
  by destruct Hin as [[= -> ->]|[[= -> ->]|[[= -> ->]|[]]]].
Qed.

Ltac by_control k o :=
  revert k o;
  match goal with
  | |- forall k o, control_line k o -> @?P k o => apply (control_cases P)
  end.

Lemma control_off_rings k o :
  control_line k o -> off_ring req k (at_ o) /\ off_ring resp k (at_ o).
Proof. by_control k o; region_arith. Qed.

Lemma control_apart k o k' o' :
  control_line k o -> control_line k' o' ->
  (k, o) = (k', o') \/ off_range k' (at_ o') (at_ o) (size_of k).
Proof.
  by_control k o; by_control k' o';
    try (by left); right; region_arith.
Qed.

Lemma ring_off_control k o k' a' :
  control_line k o -> ring_object req k' a' \/ ring_object resp k' a' ->
  off_range k' a' (at_ o) (size_of k).
Proof.
  by_control k o; intros Ho; destruct Ho as [Ho|Ho]; destruct Ho as [| |i];
    rewrite ?slot_address_arith; region_arith.
Qed.

(** *** What keeps the region *)

Lemma ring_state_ext r m m' p c q :
  (forall k a, ring_object r k a -> obs k m' a = obs k m a) ->
  ring_state r m p c q -> ring_state r m' p c q.
Proof.
  intros E [Hs Hp Hc ? ? ? ? Hq]. split; try done.
  - intros k a Ho. unfold settled. rewrite E by done. by apply Hs.
  - by rewrite E by constructor.
  - by rewrite E by constructor.
  - intros i s Hi. rewrite E by constructor. by apply Hq.
Qed.

Context (layout : layout_line) (linux : peer_line).

Lemma region_requests_step m m' rtos q1 q2 p c q1' :
  region base m layout linux rtos q1 q2 ->
  unchanged_off req m m' -> ring_state req m' p c q1' ->
  region base m' layout linux rtos q1' q2.
Proof.
  intros [Hs Hl Hx Hr _ (p2 & c2 & Hq2)] Hu Hq.
  split; rewrite ?Hu by (apply control_off_rings; by repeat constructor); eauto.
  - intros k o Hc. unfold settled. rewrite Hu by by apply control_off_rings.
    by apply Hs.
  - exists p2, c2. eapply ring_state_ext; [|done]. intros k a Ho.
    by apply Hu, resp_object_off_req.
Qed.

Lemma region_responses_step m m' rtos q1 q2 p c q2' :
  region base m layout linux rtos q1 q2 ->
  unchanged_off resp m m' -> ring_state resp m' p c q2' ->
  region base m' layout linux rtos q1 q2'.
Proof.
  intros [Hs Hl Hx Hr (p1 & c1 & Hq1) _] Hu Hq.
  split; rewrite ?Hu by (apply control_off_rings; by repeat constructor); eauto.
  - intros k o Hc. unfold settled. rewrite Hu by by apply control_off_rings.
    by apply Hs.
  - exists p1, c1. eapply ring_state_ext; [|done]. intros k a Ho.
    by apply Hu, req_object_off_resp.
Qed.

(** A step on one control line that leaves it settled. *)
Lemma region_control_step m m' k o rtos rtos' q1 q2 v :
  control_line k o ->
  region base m layout linux rtos q1 q2 ->
  obs k m' (at_ o) = v ->
  (forall k' a', off_range k' a' (at_ o) (size_of k) -> obs k' m' a' = obs k' m a') ->
  dirty v = false ->
  dram (obs KLayout m' (at_ Layout)) = layout ->
  dram (obs KPeer m' (at_ LinuxPeer)) = linux ->
  dram (obs KPeer m' (at_ RtosPeer)) = rtos' ->
  region base m' layout linux rtos' q1 q2.
Proof.
  intros Hc [Hs _ _ _ (p1 & c1 & Hq1) (p2 & c2 & Hq2)] Hv Hf Hd E1 E2 E3.
  split; try done.
  - intros k' o' Hc'. unfold settled.
    destruct (control_apart k o k' o' Hc Hc') as [[= <- <-]|Hoff]; [by rewrite Hv|].
    rewrite Hf by done. by apply Hs.
  - exists p1, c1. eapply ring_state_ext; [|done]. intros k' a' Ho.
    apply Hf. eapply ring_off_control; eauto.
  - exists p2, c2. eapply ring_state_ext; [|done]. intros k' a' Ho.
    apply Hf. eapply ring_off_control; eauto.
Qed.

Lemma region_same m m' rtos q1 q2 :
  same_obs m' m -> region base m layout linux rtos q1 q2 ->
  region base m' layout linux rtos q1 q2.
Proof.
  intros E [Hs Hl Hx Hr (p1 & c1 & Hq1) (p2 & c2 & Hq2)].
  split; rewrite ?E; try done.
  - intros k o Hc. rewrite E. by apply Hs.
  - exists p1, c1. eapply ring_state_ext; [|done]. intros. apply E.
  - exists p2, c2. eapply ring_state_ext; [|done]. intros. apply E.
Qed.

(** *** Publishing the firmware's state *)

Lemma publish_region m rtos q1 q2 st g :
  region base m layout linux rtos q1 q2 ->
  region base (publish_rtos_state base st g m) layout linux (PeerLine st g) q1 q2.
Proof.
  intros Hreg.
  assert (Hv : obs KPeer (publish_rtos_state base st g m) (at_ RtosPeer) =
               Obs (PeerLine st g) (PeerLine st g) false).
  { unfold publish_rtos_state. rewrite fence_obs.
    rewrite clean_inside, fence_obs, store_cpu by apply inside_self.
    rewrite store_cpu. cbn [peer_generation]. f_equal.
    destruct (dirty _) eqn:Ed; [done|].
    rewrite store_through by done. by rewrite store_cpu. }
  assert (Hf : forall k' a', off_range k' a' (at_ RtosPeer) (size_of KPeer) ->
    obs k' (publish_rtos_state base st g m) a' = obs k' m a').
  { intros k' a' Hoff. unfold publish_rtos_state.
    by rewrite fence_obs, clean_frame, fence_obs, !store_frame. }
  eapply (region_control_step m _ KPeer RtosPeer); try done.
  - by repeat constructor.
  - rewrite Hf by region_arith. apply Hreg.
  - rewrite Hf by region_arith. apply Hreg.
  - by rewrite Hv.
Qed.

Lemma sync_control_region m k o rtos q1 q2 :
  control_line k o -> region base m layout linux rtos q1 q2 ->
  let m' := sync_control_for_cpu m (at_ o) (size_of k) in
  region base m' layout linux rtos q1 q2 /\
  obs k m' (at_ o) = Obs (dram (obs k m (at_ o))) (dram (obs k m (at_ o))) false /\
  (forall k' a', off_range k' a' (at_ o) (size_of k) -> obs k' m' a' = obs k' m a').
Proof.
  intros Hc Hreg m'.
  assert (Hv : obs k m' (at_ o) =
    Obs (dram (obs k m (at_ o))) (dram (obs k m (at_ o))) false).
  { unfold m', sync_control_for_cpu. rewrite fence_obs.
    apply inv_inside; [apply inside_self|]. by apply Hreg. }
  assert (Hf : forall k' a', off_range k' a' (at_ o) (size_of k) ->
    obs k' m' a' = obs k' m a').
  { intros k' a' Hoff. unfold m', sync_control_for_cpu. rewrite fence_obs.
    by apply inv_frame. }
  assert (Hdram : forall k' o', control_line k' o' ->
    dram (obs k' m' (at_ o')) = dram (obs k' m (at_ o'))).
  { intros k' o' Hc'. destruct (control_apart k o k' o' Hc Hc') as [[= <- <-]|].
    - by rewrite Hv.
    - by rewrite Hf. }
  split_and!; try done.
  eapply region_control_step; try done; rewrite Hdram by (by repeat constructor);
    apply Hreg.
Qed.

(** *** The tests of [attach] *)

(** What this core reads of the two lines Linux owns. *)
Definition control_view m : Prop :=
  cpu (obs KLayout m (at_ Layout)) = layout /\
  cpu (obs KPeer m (at_ LinuxPeer)) = linux.

(** A test that answers [b] and changes nothing observable. *)
Definition answers (test : M -> bool * M) (b : bool) : Prop :=
  forall m, control_view m -> exists m', test m = (b, m') /\ same_obs m' m.

Lemma control_view_same m m' : same_obs m' m -> control_view m -> control_view m'.
Proof. intros E [? ?]. unfold control_view. by rewrite !E. Qed.

Lemma answers_pure b : answers (fun m => (b, m)) b.
Proof. intros m _. by exists m. Qed.

Lemma answers_layout f : answers (test_layout base f) (f layout).
Proof.
  intros m [Hl _]. unfold test_layout.
  pose proof (load_value KLayout m (at_ Layout)) as V.
  pose proof (load_same KLayout m (at_ Layout)) as S.
  destruct (load _ _ _) as [l m']; cbn [fst snd] in *.
  exists m'. by rewrite V, Hl.
Qed.

Lemma answers_linux_peer f : answers (test_linux_peer base f) (f linux).
Proof.
  intros m [_ Hl]. unfold test_linux_peer.
  pose proof (load_value KPeer m (at_ LinuxPeer)) as V.
  pose proof (load_same KPeer m (at_ LinuxPeer)) as S.
  destruct (load _ _ _) as [l m']; cbn [fst snd] in *.
  exists m'. by rewrite V, Hl.
Qed.

Lemma answers_and f1 f2 b1 b2 :
  answers f1 b1 -> answers f2 b2 -> answers (and_then f1 f2) (b1 && b2).
Proof.
  intros A1 A2 m Hv. destruct (A1 m Hv) as (m1 & E1 & S1).
  unfold and_then. rewrite E1. destruct b1; [|by exists m1].
  destruct (A2 m1 (control_view_same _ _ S1 Hv)) as (m2 & E2 & S2).
  exists m2. split; [done|]. by transitivity m1.
Qed.

Lemma answers_layout_is_valid g :
  layout_generation layout = g ->
  answers (and_then (and_then (and_then
      (fun m => (negb (g =? 0), m)) (layout_is_valid base g))
      (test_linux_peer base (fun l => Shm.state l =? SG2002_RTOS_SHM_STATE_READY)))
      (test_linux_peer base (fun l => peer_generation l =? g)))
    (spec_attachable layout linux).
Proof.
  intros Hg m Hv.
  assert (Hb : exists b, answers
    (and_then (and_then (and_then
      (fun m => (negb (g =? 0), m)) (layout_is_valid base g))
      (test_linux_peer base (fun l => Shm.state l =? SG2002_RTOS_SHM_STATE_READY)))
      (test_linux_peer base (fun l => peer_generation l =? g))) b /\
    b = spec_attachable layout linux).
  { eexists. split.
    - unfold layout_is_valid.
      repeat eapply answers_and;
        first [apply answers_pure|apply answers_layout|apply answers_linux_peer].
    - cbv beta. subst g. rewrite Z.eqb_refl. unfold spec_attachable. btauto. }
  destruct Hb as (b & Hb & <-). by apply Hb.
Qed.

(** The statics after an attachment to [g]. *)
Definition attached t (g : Z) : transport M :=
  if active_generation t =? g then t
  else Transport req resp (request_message t) (response_message t) g.

Lemma attach_spec t m rtos q1 q2 :
  let g := layout_generation layout in
  region base m layout linux rtos q1 q2 ->
  exists m',
    attach base t m =
      (spec_attachable layout linux,
       if spec_attachable layout linux then attached t g else t, m') /\
    region base m' layout linux
      (if spec_attachable layout linux then spec_peer t g rtos else rtos) q1 q2.
Proof.
  intros g Hreg. unfold attach.
  destruct (sync_control_region m KLayout Layout rtos q1 q2) as (R1 & V1 & F1);
    [by repeat constructor|done|].
  set (m1 := sync_control_for_cpu m _ _) in *.
  destruct (sync_control_region m1 KPeer LinuxPeer rtos q1 q2) as (R2 & V2 & F2);
    [by repeat constructor|done|].
  set (m2 := sync_control_for_cpu m1 _ _) in *.
  assert (Hv : control_view m2).
  { split.
    - rewrite F2, V1 by region_arith. apply Hreg.
    - rewrite V2. apply R1. }
  pose proof (load_value KLayout m2 (at_ Layout)) as V3.
  pose proof (load_same KLayout m2 (at_ Layout)) as S3.
  destruct (load KLayout m2 _) as [line m3]; cbn [fst snd] in *.
  rewrite (proj1 Hv) in V3. subst line. fold g.
  destruct (answers_layout_is_valid g eq_refl m3 (control_view_same _ _ S3 Hv))
    as (m4 & -> & S4).
  assert (R4 : region base m4 layout linux rtos q1 q2)
    by (eapply region_same; [|exact R2]; by transitivity m3).
  unfold attached, spec_peer.
  destruct (spec_attachable layout linux); cbn [negb]; [|by exists m4].
  destruct (active_generation t =? g); [by exists m4|].
  eexists. split; [reflexivity|]. by eapply publish_region.
Qed.

Lemma attached_bound t g :
  g <> 0 -> transport_inv base t ->
  transport_bound base (attached t g) /\ active_generation (attached t g) = g.
Proof.
  intros Hg Hinv. unfold attached. destruct (_ =? g) eqn:E; [|by split].
  split; [apply Hinv|]; lia.
Qed.

(** *** One request *)

Lemma length_zero_payload :
  length zero_payload = Z.to_nat SG2002_RTOS_SHM_PAYLOAD_SIZE.
Proof. apply length_replicate. Qed.

(** The handler, run as the transport runs it, produces [spec_response]. *)
Lemma handle_response s w :
  slot_wf s -> msg_length s <= SG2002_RTOS_SHM_PAYLOAD_SIZE ->
  exists result reply n w',
    sg2002_rtos_app_handle_message (Some (payload s)) (msg_length s)
      (Some zero_payload) (Some SG2002_RTOS_SHM_PAYLOAD_SIZE) w =
      Some (result, Some reply, Some n, w') /\
    (Slot (sequence s) (if decide (result <> APP_HANDLED) then 0 else n) reply, w')
      = spec_response s w /\
    msg_length (spec_response s w).1 <= SG2002_RTOS_SHM_PAYLOAD_SIZE.
Proof.
  intros (_ & Hn & _ & Hlen) Hle.
  change SG2002_RTOS_SHM_PAYLOAD_SIZE with 1018 in *.
  pose proof length_zero_payload as Hz. change SG2002_RTOS_SHM_PAYLOAD_SIZE with 1018 in Hz.
  rewrite handle_message_spec by (unfold in_range in Hn; rewrite ?Hz, ?Hlen; lia).
  unfold spec_response, framed.
  destruct (spec_reply _ w) as [[reply|] w'] eqn:E.
  - apply spec_reply_length in E.
    assert (Hr : (length reply <= 1018)%nat).
    { rewrite E. destruct (decide _); [rewrite length_take|]; lia. }
    rewrite (proj2 (Z.leb_le _ 1018)) by lia.
    do 4 eexists. split; [reflexivity|]. cbn [fst msg_length].
    rewrite decide_False by tauto. split; [done|lia].
  - do 4 eexists. split; [reflexivity|]. cbn [fst msg_length].
    rewrite decide_True by done. split; [done|lia].
Qed.

(** *** The loop *)

Lemma process_loop_drain fuel : forall budget count t m w rtos q1 q2,
  transport_bound base t -> region base m layout linux rtos q1 q2 ->
  Forall slot_wf q1 ->
  Z.of_nat budget = SG2002_RTOS_SHM_SLOT_COUNT - count -> (budget < fuel)%nat ->
  let '(result, n, q1', q2', w') := spec_drain budget q1 q2 w in
  exists t' m',
    process_loop base fuel count t m w =
      Some (result, count + Z.of_nat n, t', m', w') /\
    transport_bound base t' /\ active_generation t' = active_generation t /\
    region base m' layout linux
      (if decide (result = PROCESS_CORRUPT)
       then PeerLine SG2002_RTOS_SHM_STATE_ERROR (active_generation t) else rtos)
      q1' q2'.
Proof.
  induction fuel as [|fuel IH]; intros budget count t m w rtos q1 q2 Hb Hreg Hwf Hc Hf;
    [lia|].
  cbn [process_loop]. destruct budget as [|budget].
  { cbn [spec_drain]. replace (count <? _) with false by lia. cbn [negb]. exists t, m.
    by rewrite Z.add_0_r. }
  replace (count <? _) with true by lia. cbn [negb].
  destruct Hb as [Eq Es]. rewrite Eq, Es.
  destruct (region_responses _ _ _ _ _ _ _ Hreg) as (p2 & c2 & St2).
  destruct (can_push_state resp resp_placed _ _ _ _ St2) as (m1 & -> & St2' & U1).
  pose proof (region_responses_step _ _ _ _ _ _ _ _ Hreg U1 St2') as Hreg1.
  assert (Hneg : forall b, (Z.b2z b <? 0) = false) by by intros []. rewrite Hneg.
  destruct (region_requests _ _ _ _ _ _ _ Hreg1) as (p1 & c1 & St1).
  destruct (try_pop_refines req req_placed _ _ _ _ (request_message t) St1)
    as (c1' & m2 & E2 & St1' & U2).
  pose proof (region_requests_step _ _ _ _ _ _ _ _ Hreg1 U2 St1') as Hreg2.
  destruct q1 as [|s q1]; cbn [spec_pop fst snd] in *.
  { cbn [spec_drain]. rewrite E2. cbn [default id]. rewrite Z.add_0_r.
    destruct (_ =? 0); eexists _, _; split_and!; try done; by split. }
  apply Forall_cons_1 in Hwf as [Hs Hwf]. cbn [spec_drain].
  destruct (Z.of_nat (length q2) =? SG2002_RTOS_SHM_SLOT_COUNT) eqn:Efull.
  { replace (_ <? SG2002_RTOS_SHM_SLOT_COUNT) with false by lia. cbn [Z.b2z Z.eqb].
    exists t, m1. rewrite Z.add_0_r. by split_and!. }
  replace (_ <? SG2002_RTOS_SHM_SLOT_COUNT) with true.
  2: { destruct St2 as [_ _ _ _ _ _ Hbound _]. lia. }
  cbn [Z.b2z Z.eqb]. rewrite E2. clear E2. cbn [default id].
  destruct (_ <? msg_length s) eqn:Elen.
  { rewrite decide_False by done. rewrite decide_True by done.
    cbn [mark_corrupt active_generation]. rewrite Z.add_0_r.
    eexists _, _. split_and!; [done|by split|done|].
    rewrite decide_True by done. by eapply publish_region. }
  rewrite decide_False by done. rewrite decide_False by tauto. cbn [payload sequence].
  destruct (handle_response s w) as (ar & reply & n & w1 & -> & Er & Hr); [done|lia|].
  destruct (spec_response s w) as [r w1']. injection Er as Er <-.
  cbn [mbind option_bind fst sequence request_ring response_ring request_message
       response_message active_generation] in *. rewrite Er.
  destruct (region_responses _ _ _ _ _ _ _ Hreg2) as (p3 & c3 & St3).
  destruct (try_push_refines resp resp_placed _ _ _ _ r St3) as (p3' & m3 & -> & St3' & U3).
  assert (Hpush : spec_push q2 r = (RING_OK, q2 ++ [r])).
  { unfold spec_push. rewrite Efull.
    by replace (_ <? msg_length r) with false by lia. }
  rewrite Hpush in *. cbn [fst snd] in *.
  pose proof (region_responses_step _ _ _ _ _ _ _ _ Hreg2 U3 St3') as Hreg3.
  rewrite decide_False by tauto.
  specialize (IH budget (count + 1)
    (Transport req resp s r (active_generation t)) m3 w1 rtos q1 (q2 ++ [r])
    ltac:(by split) Hreg3 Hwf ltac:(lia) ltac:(lia)).
  destruct (spec_drain budget q1 (q2 ++ [r]) w1) as [[[[res k] q1'] q2'] w'].
  destruct IH as (t' & m' & -> & ? & ? & ?).
  exists t', m'. by replace (count + Z.of_nat (S k)) with (count + 1 + Z.of_nat k) by lia.
Qed.

(** *** The abstract drain in closed form *)

Lemma spec_drain_serves budget : forall q1 q2 w,
  Forall (fun s => msg_length s <= SG2002_RTOS_SHM_PAYLOAD_SIZE) q1 ->
  Z.of_nat (length q2) <= SG2002_RTOS_SHM_SLOT_COUNT ->
  let n := Nat.min budget (Nat.min (length q1)
             (Z.to_nat SG2002_RTOS_SHM_SLOT_COUNT - length q2)) in
  spec_drain budget q1 q2 w =
    (PROCESS_OK, n, drop n q1, q2 ++ (spec_serve (take n q1) w).1,
     (spec_serve (take n q1) w).2).
Proof.
  induction budget as [|budget IH]; intros q1 q2 w Hle Hb n.
  { unfold n. cbn [spec_drain Nat.min take spec_serve fst snd]. by rewrite drop_0, app_nil_r. }
  destruct q1 as [|s q1].
  { unfold n. cbn [spec_drain length]. rewrite Nat.min_0_l, Nat.min_0_r.
    cbn [take spec_serve fst snd]. by rewrite drop_0, app_nil_r. }
  apply Forall_cons_1 in Hle as [Hs Hle]. cbn [spec_drain].
  destruct (_ =? SG2002_RTOS_SHM_SLOT_COUNT) eqn:Efull.
  { replace n with O by (unfold n; lia).
    cbn [take spec_serve fst snd]. by rewrite drop_0, app_nil_r. }
  replace (_ <? msg_length s) with false by lia.
  replace n with (S (Nat.min budget (Nat.min (length q1)
    (Z.to_nat SG2002_RTOS_SHM_SLOT_COUNT - S (length q2)))))
    by (unfold n, SG2002_RTOS_SHM_SLOT_COUNT in *; cbn [length] in *; lia).
  cbn [take drop spec_serve]. destruct (spec_response s w) as [r w1].
  rewrite IH; [|done|rewrite length_app; cbn [length]; lia].
  rewrite length_app. cbn [length].
  replace (length q2 + 1)%nat with (S (length q2)) by lia.
  destruct (spec_serve _ w1) as [rs w2]. cbn [fst snd]. by rewrite <- app_assoc.
Qed.

Lemma spec_drain_malformed good : forall budget bad rest q2 w,
  Forall (fun s => msg_length s <= SG2002_RTOS_SHM_PAYLOAD_SIZE) good ->
  SG2002_RTOS_SHM_PAYLOAD_SIZE < msg_length bad ->
  (length good < budget)%nat ->
  Z.of_nat (length good + length q2) < SG2002_RTOS_SHM_SLOT_COUNT ->
  spec_drain budget (good ++ bad :: rest) q2 w =
    (PROCESS_CORRUPT, length good, rest, q2 ++ (spec_serve good w).1,
     (spec_serve good w).2).
Proof.
  induction good as [|s good IH]; intros budget bad rest q2 w Hle Hbad Hbud Hb;
    (destruct budget as [|budget]; [cbn [length] in Hbud; lia|]);
    cbn [app spec_drain spec_serve length] in *;
    replace (_ =? SG2002_RTOS_SHM_SLOT_COUNT) with false by lia.
  - replace (_ <? msg_length bad) with true by lia.
    cbn [fst snd]. by rewrite app_nil_r.
  - apply Forall_cons_1 in Hle as [Hs Hle].
    replace (_ <? msg_length s) with false by lia.
    destruct (spec_response s w) as [r w1].
    rewrite IH; [|done|done|lia|rewrite length_app; cbn [length]; lia].
    destruct (spec_serve good w1) as [rs w2]. cbn [fst snd]. by rewrite <- app_assoc.
Qed.

(** *** The whole operation *)

Lemma spec_attachable_generation :
  spec_attachable layout linux = true -> layout_generation layout <> 0.
Proof. unfold spec_attachable. rewrite !andb_true_iff, negb_true_iff. lia. Qed.

Lemma process_drain t m w rtos q1 q2 processed :
  let g := layout_generation layout in
  transport_inv base t -> region base m layout linux rtos q1 q2 ->
  Forall slot_wf q1 -> spec_attachable layout linux = true ->
  let '(result, n, q1', q2', w') :=
    spec_drain (Z.to_nat SG2002_RTOS_SHM_SLOT_COUNT) q1 q2 w in
  exists t' m',
    sg2002_rtos_shm_process base processed t m w =
      Some (result,
            (fun _ => if decide (result = PROCESS_OK) then Z.of_nat n else 0) <$> processed,
            t', m', w') /\
    transport_bound base t' /\ sg2002_rtos_shm_generation t' = g /\
    region base m' layout linux
      (if decide (result = PROCESS_CORRUPT)
       then PeerLine SG2002_RTOS_SHM_STATE_ERROR g else spec_peer t g rtos) q1' q2'.
Proof.
  intros g Hinv Hreg Hwf Hatt. unfold sg2002_rtos_shm_process.
  destruct (attach_spec t m rtos q1 q2 Hreg) as (m1 & -> & Hreg1).
  rewrite Hatt in *. cbn [negb]. fold g in Hreg1 |- *.
  destruct (attached_bound t g (spec_attachable_generation Hatt) Hinv) as [Hb Hg].
  pose proof (process_loop_drain (S (Z.to_nat SG2002_RTOS_SHM_SLOT_COUNT))
    (Z.to_nat SG2002_RTOS_SHM_SLOT_COUNT) 0 _ m1 w _ q1 q2 Hb Hreg1 Hwf
    ltac:(reflexivity) ltac:(lia)) as Hloop.
  destruct (spec_drain _ q1 q2 w) as [[[[res n] q1'] q2'] w'].
  destruct Hloop as (t' & m' & -> & Hb' & Hg' & Hreg').
  cbn [mbind option_bind]. rewrite Z.add_0_l. rewrite Hg in *.
  exists t', m'. split_and!; try done.
  by destruct (decide (res = PROCESS_OK)), processed.
Qed.

(** ** Properties *)

(** C1: the drain. On a region Linux made ready (generation [g]) with any
    well-formed requests queued, whatever this core had cached, one call
    terminates without undefined behaviour, answers the oldest
    [min (requests, 64 - responses)] requests in order, appends their responses
    in order with their sequence numbers, keeps the other requests queued,
    reports the number answered, and leaves the firmware attached to [g]; a
    generation it was not attached to is acknowledged by publishing READY. *)
Theorem process_serves_requests t m w rtos requests responses processed :
  let g := layout_generation layout in
  transport_inv base t -> region base m layout linux rtos requests responses ->
  Forall slot_wf requests ->
  Forall (fun s => msg_length s <= SG2002_RTOS_SHM_PAYLOAD_SIZE) requests ->
  spec_attachable layout linux = true ->
  let n := Nat.min (length requests)
             (Z.to_nat SG2002_RTOS_SHM_SLOT_COUNT - length responses) in
  let served := spec_serve (take n requests) w in
  exists t' m',
    sg2002_rtos_shm_process base (Some processed) t m w =
      Some (PROCESS_OK, Some (Z.of_nat n), t', m', served.2) /\
    transport_bound base t' /\ sg2002_rtos_shm_generation t' = g /\
    region base m' layout linux (spec_peer t g rtos)
      (drop n requests) (responses ++ served.1).
Proof.
  intros g Hinv Hreg Hwf Hle Hatt n served.
  pose proof (process_drain t m w rtos requests responses (Some processed) Hinv Hreg Hwf Hatt)
    as Hd.
  assert (Hb : Z.of_nat (length responses) <= SG2002_RTOS_SHM_SLOT_COUNT).
  { destruct (region_responses _ _ _ _ _ _ _ Hreg) as (p & c & St). apply St. }
  rewrite spec_drain_serves in Hd by done.
  replace (Nat.min (Z.to_nat SG2002_RTOS_SHM_SLOT_COUNT) _) with n in Hd by (unfold n; lia).
  exact Hd.
Qed.

(** C20: a request with an impossible length. The requests before it are
    answered, it is consumed without an answer, the call reports CORRUPT with
    the caller's count left at 0, and the firmware's peer line says ERROR with
    the current generation; the requests behind it stay queued. *)
Theorem process_rejects_malformed t m w rtos good bad rest responses processed :
  let g := layout_generation layout in
  transport_inv base t ->
  region base m layout linux rtos (good ++ bad :: rest) responses ->
  Forall slot_wf (good ++ bad :: rest) ->
  Forall (fun s => msg_length s <= SG2002_RTOS_SHM_PAYLOAD_SIZE) good ->
  SG2002_RTOS_SHM_PAYLOAD_SIZE < msg_length bad ->
  Z.of_nat (length good + length responses) < SG2002_RTOS_SHM_SLOT_COUNT ->
  spec_attachable layout linux = true ->
  let served := spec_serve good w in
  exists t' m',
    sg2002_rtos_shm_process base (Some processed) t m w =
      Some (PROCESS_CORRUPT, Some 0, t', m', served.2) /\
    sg2002_rtos_shm_generation t' = g /\
    region base m' layout linux (PeerLine SG2002_RTOS_SHM_STATE_ERROR g)
      rest (responses ++ served.1).
Proof.
  intros g Hinv Hreg Hwf Hle Hbad Hroom Hatt served.
  pose proof (process_drain t m w rtos _ responses (Some processed) Hinv Hreg Hwf Hatt) as Hd.
  rewrite spec_drain_malformed in Hd by (done || lia).
  destruct Hd as (t' & m' & E & _ & Hg & Hreg'). eauto.
Qed.

(** Until Linux has published a valid layout and declared itself READY with
    the same non-zero generation, a call does nothing: it reports NOT_READY and
    0 processed, and the statics, the device and the region in main memory are
    as they were. *)
Theorem process_not_ready t m w rtos requests responses processed :
  region base m layout linux rtos requests responses ->
  spec_attachable layout linux = false ->
  exists m',
    sg2002_rtos_shm_process base (Some processed) t m w =
      Some (PROCESS_NOT_READY, Some 0, t, m', w) /\
    region base m' layout linux rtos requests responses.
Proof.
  intros Hreg Hatt. unfold sg2002_rtos_shm_process.
  destruct (attach_spec t m rtos requests responses Hreg) as (m' & -> & Hreg').
  rewrite Hatt in *. by exists m'.
Qed.


End Theory.

(** ** A concrete region *)

Definition demo_base : Z := 0x10000.

Definition demo_layout (generation : Z) : layout_line :=
  LayoutLine SG2002_RTOS_SHM_MAGIC 2 0x1000 135168 1024 64 0x1000 69632
    generation 1.

(** A PING of the word 0x04030201, and a slot whose length is impossible. *)
Definition demo_request : slot := Slot 9 5 ([0x60; 1; 2; 3; 4] ++ replicate 1013 0).
Definition demo_malformed : slot := Slot 10 1019 zero_payload.

(** Linux is READY with [generation], [requests] are queued, and this core still
    caches the zeroed layout and the producer counter from before. *)
Definition demo_region_memory (generation : Z) (requests : list slot) :
    CachedMemory.t :=
  CachedMemory.Make
    (list_to_map
       ([((KLayout, demo_base), LayoutCell (demo_layout generation));
         ((KPeer, demo_base + 64), PeerCell (PeerLine 1 generation));
         ((KCounter, demo_base + 192),
          CounterCell (CounterLine (Z.of_nat (length requests))))] ++
        imap (fun i s => ((KSlot, demo_base + 4096 + 1024 * Z.of_nat i), SlotCell s))
          requests))
    {[ (KLayout, demo_base) := (LayoutCell (zero_val KLayout), false);
       (KCounter, demo_base + 192) := (CounterCell (CounterLine 0), false) ]}.

Definition demo_transport : transport CachedMemory.t :=
  Transport (Ring 0 0 0 None) (Ring 0 0 0 None) zero_slot zero_slot 0.

Lemma demo_region_clean generation requests k a :
  settled k (demo_region_memory generation requests) a.
Proof.
  apply CachedMemory.clean_cache_settled. cbn [CachedMemory.cache demo_region_memory].
  by apply map_Forall_insert_2; [|apply map_Forall_singleton].
Qed.

Ltac solve_demo_region p :=
  split;
    [intros; apply demo_region_clean | reflexivity | reflexivity | reflexivity
    | exists p, 0 | exists 0, 0];
    (split;
      [intros; apply demo_region_clean | reflexivity | reflexivity
      | word_lia | word_lia | reflexivity | cbv; congruence
      | intros i s Hi; repeat (destruct i as [|i]; [by injection Hi as <-|]); done]).

Lemma demo_region_ping :
  region demo_base (demo_region_memory 7 [demo_request]) (demo_layout 7)
    (PeerLine 1 7) (PeerLine 0 0) [demo_request] [].
Proof. solve_demo_region 1. Qed.

Lemma demo_region_malformed :
  region demo_base (demo_region_memory 7 [demo_request; demo_malformed])
    (demo_layout 7) (PeerLine 1 7) (PeerLine 0 0) [demo_request; demo_malformed] [].
Proof. solve_demo_region 2. Qed.

Lemma demo_region_zero :
  region demo_base (demo_region_memory 0 []) (demo_layout 0)
    (PeerLine 1 0) (PeerLine 0 0) [] [].
Proof. solve_demo_region 0. Qed.

Lemma demo_request_wf : slot_wf demo_request.
Proof.
  unfold slot_wf, demo_request, is_bytes. cbn [sequence msg_length payload].
  split_and!; [word_lia|word_lia| |by rewrite length_app, length_replicate].
  apply Forall_app_2; [repeat constructor; word_lia|].
  apply Forall_replicate. word_lia.
Qed.

Lemma demo_malformed_wf : slot_wf demo_malformed.
Proof.
  destruct zero_slot_wf as (_ & _ & ? & ?). unfold slot_wf, demo_malformed.
  cbn [sequence msg_length payload]. by split_and!; [word_lia|word_lia|..].
Qed.

Definition demo_response : slot :=
  Slot 9 5 ([0x60; 0x5b; 0x58; 0xa6; 0xa1] ++ drop 5 zero_payload).

Lemma process_serves_requests_witness :
  exists t' m',
    sg2002_rtos_shm_process demo_base (Some 99) demo_transport
      (demo_region_memory 7 [demo_request]) demo_device =
      Some (PROCESS_OK, Some 1, t', m', demo_device) /\
    transport_bound demo_base t' /\ sg2002_rtos_shm_generation t' = 7 /\
    region demo_base m' (demo_layout 7) (PeerLine 1 7) (PeerLine 1 7) []
      [demo_response].
Proof.
  exact (process_serves_requests demo_base eq_refl (demo_layout 7) (PeerLine 1 7)
    demo_transport (demo_region_memory 7 [demo_request]) demo_device (PeerLine 0 0)
    [demo_request] [] 99 (fun H => False_ind _ (H eq_refl)) demo_region_ping
    (Forall_cons_2 _ _ _ demo_request_wf (Forall_nil_2 _))
    (Forall_cons_2 (fun s => msg_length s <= SG2002_RTOS_SHM_PAYLOAD_SIZE) demo_request []
       (proj1 (Z.leb_le 5 1018) eq_refl) (Forall_nil_2 _))
    eq_refl).
Defined.

Lemma process_rejects_malformed_witness :
  exists t' m',
    sg2002_rtos_shm_process demo_base (Some 99) demo_transport
      (demo_region_memory 7 [demo_request; demo_malformed]) demo_device =
      Some (PROCESS_CORRUPT, Some 0, t', m', demo_device) /\
    sg2002_rtos_shm_generation t' = 7 /\
    region demo_base m' (demo_layout 7) (PeerLine 1 7) (PeerLine 2 7) []
      [demo_response].
Proof.
  apply (process_rejects_malformed demo_base eq_refl (demo_layout 7) (PeerLine 1 7)
    demo_transport (demo_region_memory 7 [demo_request; demo_malformed]) demo_device
    (PeerLine 0 0) [demo_request] demo_malformed [] [] 99).
  - by intros [].
  - exact demo_region_malformed.
  - apply Forall_cons_2; [apply demo_request_wf|].
    apply Forall_cons_2; [apply demo_malformed_wf|constructor].
  - constructor; [|constructor]. apply Z.leb_le. reflexivity.
  - reflexivity.
  - reflexivity.
  - reflexivity.
Defined.

Lemma process_not_ready_witness :
  exists m',
    sg2002_rtos_shm_process demo_base (Some 99) demo_transport
      (demo_region_memory 0 []) demo_device =
      Some (PROCESS_NOT_READY, Some 0, demo_transport, m', demo_device) /\
    region demo_base m' (demo_layout 0) (PeerLine 1 0) (PeerLine 0 0) [] [].
Proof.
  apply (process_not_ready demo_base (demo_layout 0) (PeerLine 1 0)
    demo_transport (demo_region_memory 0 []) demo_device (PeerLine 0 0) [] [] 99
    demo_region_zero eq_refl).
Defined.

