(* ===== verification/Cmdqu.v ===== *)
(** * Command-queue words: [ports/osdrv/include/rtos_cmdqu.h]

    The 8-byte command exchanged through the mailbox, as a record and as the
    64-bit word it occupies, and the identifiers of the intellectual-property
    blocks and system commands. *)

From S2P Require Import Prelude.
Local Open Scope Z_scope.

(** [enum IP_TYPE]. *)
Inductive IP_TYPE :=
| IP_ISP | IP_VCODEC | IP_VIP | IP_VI | IP_RGN | IP_AUDIO | IP_SYSTEM
| IP_CAMERA | IP_LIMIT.

Definition ip_value (ip : IP_TYPE) : Z :=
  match ip with
  | IP_ISP => 0 | IP_VCODEC => 1 | IP_VIP => 2 | IP_VI => 3 | IP_RGN => 4
  | IP_AUDIO => 5 | IP_SYSTEM => 6 | IP_CAMERA => 7 | IP_LIMIT => 8
  end.

(** [enum SYS_CMD_ID]: consecutive values from 0x50. *)
Inductive SYS_CMD_ID :=
| SYS_CMD_INFO_TRANS | SYS_CMD_INFO_LINUX_INIT_DONE | SYS_CMD_INFO_RTOS_INIT_DONE
| SYS_CMD_INFO_STOP_ISR | SYS_CMD_INFO_STOP_ISR_DONE | SYS_CMD_INFO_LINUX
| SYS_CMD_INFO_RTOS | SYS_CMD_SYNC_TIME | SYS_CMD_INFO_DUMP_MSG
| SYS_CMD_INFO_DUMP_EN | SYS_CMD_INFO_DUMP_DIS
| SYS_CMD_INFO_TRACE_SNAPSHOT_START | SYS_CMD_INFO_TRACE_SNAPSHOT_STOP
| SYS_CMD_INFO_TRACE_STREAM_START | SYS_CMD_INFO_TRACE_STREAM_STOP
| SYS_CMD_INFO_LIMIT.

Definition sys_cmd_value (c : SYS_CMD_ID) : Z :=
  0x50 +
  match c with
  | SYS_CMD_INFO_TRANS => 0 | SYS_CMD_INFO_LINUX_INIT_DONE => 1
  | SYS_CMD_INFO_RTOS_INIT_DONE => 2 | SYS_CMD_INFO_STOP_ISR => 3
  | SYS_CMD_INFO_STOP_ISR_DONE => 4 | SYS_CMD_INFO_LINUX => 5
  | SYS_CMD_INFO_RTOS => 6 | SYS_CMD_SYNC_TIME => 7
  | SYS_CMD_INFO_DUMP_MSG => 8 | SYS_CMD_INFO_DUMP_EN => 9
  | SYS_CMD_INFO_DUMP_DIS => 10 | SYS_CMD_INFO_TRACE_SNAPSHOT_START => 11
  | SYS_CMD_INFO_TRACE_SNAPSHOT_STOP => 12 | SYS_CMD_INFO_TRACE_STREAM_START => 13
  | SYS_CMD_INFO_TRACE_STREAM_STOP => 14 | SYS_CMD_INFO_LIMIT => 15
  end.

(** [struct valid_t], one view of [union resv_t]. *)
Record valid_t := Valid {
  linux_valid : Z;
  rtos_valid : Z;
}.

(** [struct cmdqu_t]; [cmd_id] is a 7-bit and [block] a 1-bit field. *)
Record cmdqu_t := Cmdqu {
  ip_id : Z;
  cmd_id : Z;
  block : Z;
  resv : valid_t;
  param_ptr : Z;
}.

#[export] Instance valid_eq_dec : EqDecision valid_t.
Proof. solve_decision. Defined.
#[export] Instance cmdqu_eq_dec : EqDecision cmdqu_t.
Proof. solve_decision. Defined.

(** The other view of the union, [resv.mstime]: little-endian. *)
Definition mstime (c : cmdqu_t) : Z :=
  linux_valid (resv c) + 256 * rtos_valid (resv c).

Definition set_ip_id (i : Z) (c : cmdqu_t) : cmdqu_t :=
  Cmdqu i (cmd_id c) (block c) (resv c) (param_ptr c).
Definition set_cmd_id (i : Z) (c : cmdqu_t) : cmdqu_t :=
  Cmdqu (ip_id c) i (block c) (resv c) (param_ptr c).
Definition set_block (b : Z) (c : cmdqu_t) : cmdqu_t :=
  Cmdqu (ip_id c) (cmd_id c) b (resv c) (param_ptr c).
Definition set_param_ptr (p : Z) (c : cmdqu_t) : cmdqu_t :=
  Cmdqu (ip_id c) (cmd_id c) (block c) (resv c) p.

Definition cmdqu_wf (c : cmdqu_t) : Prop :=
  is_u8 (ip_id c) /\ in_range 7 (cmd_id c) /\ in_range 1 (block c) /\
  is_u8 (linux_valid (resv c)) /\ is_u8 (rtos_valid (resv c)) /\
  is_u32 (param_ptr c).

(** The packed structure as the 64-bit word at its address: fields in order,
    bit-fields from the least significant bit. *)
Definition cmdqu_word (c : cmdqu_t) : Z :=
  ip_id c + 2 ^ 8 * cmd_id c + 2 ^ 15 * block c +
  2 ^ 16 * linux_valid (resv c) + 2 ^ 24 * rtos_valid (resv c) +
  2 ^ 32 * param_ptr c.

Definition cmdqu_of_word (w : Z) : cmdqu_t :=
  Cmdqu (w mod 2 ^ 8) (w / 2 ^ 8 mod 2 ^ 7) (w / 2 ^ 15 mod 2)
    (Valid (w / 2 ^ 16 mod 2 ^ 8) (w / 2 ^ 24 mod 2 ^ 8))
    (w / 2 ^ 32 mod 2 ^ 32).

Lemma cmdqu_word_range c : cmdqu_wf c -> is_u64 (cmdqu_word c).
Proof. unfold cmdqu_wf, cmdqu_word. word_lia. Qed.

Lemma cmdqu_of_word_wf w : cmdqu_wf (cmdqu_of_word w).
Proof.
  unfold cmdqu_wf, cmdqu_of_word; cbn [ip_id cmd_id block resv linux_valid rtos_valid
    param_ptr].
  split_and!; apply Z.mod_pos_bound; lia.
Qed.

Lemma cmdqu_of_word_word c : cmdqu_wf c -> cmdqu_of_word (cmdqu_word c) = c.
Proof.
  destruct c as [ip cmd blk [lv rv] p]. unfold cmdqu_wf; cbn.
  unfold in_range. intros (? & ? & ? & ? & ? & ?).
  unfold cmdqu_of_word, cmdqu_word; cbn [ip_id cmd_id block resv linux_valid rtos_valid
    param_ptr].
  f_equal; [..|f_equal|]; lia.
Qed.

Lemma cmdqu_word_of_word w : is_u64 w -> cmdqu_word (cmdqu_of_word w) = w.
Proof.
  unfold in_range, cmdqu_of_word, cmdqu_word; cbn [ip_id cmd_id block resv linux_valid
    rtos_valid param_ptr]. lia.
Qed.

(** ** Properties *)

(** A command and the 64-bit word in the mailbox slot carry the same information:
    every well-formed command is recovered from its word, every word is the word of
    the command read from it, and that command is well-formed. *)
Theorem cmdqu_word_roundtrip c w :
  cmdqu_wf c -> is_u64 w ->
  is_u64 (cmdqu_word c) /\ cmdqu_of_word (cmdqu_word c) = c /\
  cmdqu_wf (cmdqu_of_word w) /\ cmdqu_word (cmdqu_of_word w) = w.
Proof.
  intros Hc Hw. split; [by apply cmdqu_word_range|]. split; [by apply cmdqu_of_word_word|].
  split; [apply cmdqu_of_word_wf|by apply cmdqu_word_of_word].
Qed.

Lemma cmdqu_word_roundtrip_witness :
  let c := Cmdqu (ip_value IP_SYSTEM) 0x61 1 (Valid 100 0) 42 in
  cmdqu_wf c /\ is_u64 0x2a0064e107 /\
  is_u64 (cmdqu_word c) /\ cmdqu_of_word (cmdqu_word c) = c /\
  cmdqu_wf (cmdqu_of_word 0x2a0064e107) /\
  cmdqu_word (cmdqu_of_word 0x2a0064e107) = 0x2a0064e107.
Proof.
  intros c.
  assert (Hc : cmdqu_wf c) by (unfold cmdqu_wf, c, in_range; cbn; lia).
  assert (Hw : is_u64 0x2a0064e107) by (unfold in_range; lia).
  split; [exact Hc|]. split; [exact Hw|].
  exact (cmdqu_word_roundtrip c 0x2a0064e107 Hc Hw).
Defined.
