(* ===== verification/Mailbox.v ===== *)
(** * Firmware mailbox: [firmware/transport/sg2002_rtos_mailbox.c]

    The C906L end of the command mailbox: eight 64-bit slots shared with Linux,
    the doorbell registers, and a hardware spinlock. Registers, slots and lock
    belong to vendor headers and hardware, hence the interface
    [MailboxHardware]; its laws say what the code relies on, the interference
    of Linux included: between two accesses Linux may change any slot that does
    not hold a word the other side must leave alone ([stable]). The trace macro,
    compiled out by default, is not modelled. *)

From S2P Require Import Prelude Cmdqu.
Local Open Scope Z_scope.

(** ** The hardware interface *)

(** The members of [struct mailbox_set_register] the code names. *)
Inductive mailbox_register :=
| mbox_int_mask (cpu : Z) | mbox_int_clr (cpu : Z) | mbox_int_raw (cpu : Z)
| mbox_int (cpu : Z) | mbox_info (cpu : Z) | mbox_set.

#[export] Instance mailbox_register_eq_dec : EqDecision mailbox_register.
Proof. solve_decision. Defined.

Class MailboxHardware (W : Type) := {
  RECEIVE_CPU : Z;
  MAILBOX_MAX_NUM : nat;
  MAILBOX_LOCK_FAILED : Z;
  MAILBOX_REG_BASE : Z;
  MAILBOX_REG_BUFF : Z;
  register_read : W -> Z -> mailbox_register -> Z * W;
  register_write : W -> Z -> mailbox_register -> Z -> W;
  (** 64-bit load and store of a slot, and stores of its two words: the header
      and [param_ptr] *)
  slot_load : W -> Z -> nat -> Z * W;
  slot_store : W -> Z -> nat -> Z -> W;
  slot_store_header : W -> Z -> nat -> Z -> W;
  slot_store_param : W -> Z -> nat -> Z -> W;
  fence_iorw : W -> W;
  cvi_spinlock_init : W -> W;
  drv_spin_lock_irqsave : W -> Z * W;
  drv_spin_unlock_irqrestore : W -> Z -> W;
}.

(** [mailbox_registers] and [mailbox_context]. *)
Record mailbox := Mailbox {
  mailbox_registers : Z;
  mailbox_context : Z;
}.

Record mailbox_diagnostics := MailboxDiagnostics {
  enabled : Z;
  raw : Z;
  mask : Z;
  pending : Z;
}.

Section Operations.
Context {W : Type} `{MailboxHardware W}.
Implicit Types (mb : mailbox) (w : W).

(** The header of a command, as the first 32-bit word of the slot. *)
Definition command_header (command : cmdqu_t) : Z :=
  Z.lor (Z.lor (Z.lor (Z.lor
    (u32 (Z.shiftl (u32 (ip_id command)) 0))
    (u32 (Z.shiftl (u32 (cmd_id command)) 8)))
    (u32 (Z.shiftl (u32 (block command)) 15)))
    (u32 (Z.shiftl (u32 (linux_valid (resv command))) 16)))
    (u32 (Z.shiftl (u32 (rtos_valid (resv command))) 24)).

Definition sg2002_rtos_mailbox_init w : mailbox * W :=
  (Mailbox MAILBOX_REG_BASE MAILBOX_REG_BUFF, cvi_spinlock_init w).

Definition sg2002_rtos_mailbox_enable_receiver mb w : W :=
  let regs := mailbox_registers mb in
  let w := register_write w regs (mbox_int_mask RECEIVE_CPU) 0xff in
  let w := register_write w regs (mbox_int_clr RECEIVE_CPU) 0xff in
  let w := register_write w regs (mbox_info RECEIVE_CPU) 0 in
  let w := fence_iorw w in
  let w := register_write w regs (mbox_int_mask RECEIVE_CPU) 0 in
  fence_iorw w.

(** [diagnostics] is the caller's structure, [None] for [NULL]. *)
Definition sg2002_rtos_mailbox_get_diagnostics mb
    (diagnostics : option mailbox_diagnostics) w :
    option mailbox_diagnostics * W :=
  match diagnostics with
  | None => (None, w)
  | Some _ =>
      let regs := mailbox_registers mb in
      let w := fence_iorw w in
      let '(e, w) := register_read w regs (mbox_info RECEIVE_CPU) in
      let '(r, w) := register_read w regs (mbox_int_raw RECEIVE_CPU) in
      let '(m, w) := register_read w regs (mbox_int_mask RECEIVE_CPU) in
      let '(p, w) := register_read w regs (mbox_int RECEIVE_CPU) in
      let w := fence_iorw w in
      (Some (MailboxDiagnostics (u8 e) (u8 r) (u8 m) (u8 p)), w)
  end.

(** The first loop of [receive_commands]: acknowledge the interrupts. *)
Fixpoint acknowledge mb (interrupt_mask : Z) (slots : list nat) w : W :=
  match slots with
  | [] => w
  | slot :: slots =>
      let slot_mask := u8 (Z.land interrupt_mask (Z.shiftl 1 (Z.of_nat slot))) in
      if slot_mask =? 0 then acknowledge mb interrupt_mask slots w
      else
        let regs := mailbox_registers mb in
        let w := register_write w regs (mbox_int_clr RECEIVE_CPU) slot_mask in
        let '(info, w) := register_read w regs (mbox_info RECEIVE_CPU) in
        let w := register_write w regs (mbox_info RECEIVE_CPU)
                   (Z.land info (Z.lnot slot_mask)) in
        acknowledge mb interrupt_mask slots w
  end.

(** The second loop: copy and release the slots Linux owns. The result carries
    [count] and the caller's array; [None] is an access outside it. *)
Fixpoint copy_slots mb (slots : list nat) (capacity count : Z)
    (commands : list cmdqu_t) w : option (Z * list cmdqu_t * W) :=
  match slots with
  | [] => Some (count, commands, w)
  | slot :: slots =>
      if negb (count <? capacity) then Some (count, commands, w)
      else
        let context := mailbox_context mb in
        let '(word, w) := slot_load w context slot in
        if negb (linux_valid (resv (cmdqu_of_word word)) =? 1)
        then copy_slots mb slots capacity count commands w
        else
          let '(word, w) := slot_load w context slot in
          if negb (rtos_valid (resv (cmdqu_of_word word)) =? 0)
          then copy_slots mb slots capacity count commands w
          else
            let '(word, w) := slot_load w context slot in
            commands ← array_store commands count (cmdqu_of_word word);
            let w := slot_store w context slot 0 in
            copy_slots mb slots capacity (u32 (count + 1)) commands w
  end.

(** [commands] is the caller's array, [None] for [NULL]. *)
Definition receive_commands mb (commands : option (list cmdqu_t))
    (capacity interrupt_mask : Z) w : option (Z * option (list cmdqu_t) * W) :=
  match commands with
  | None => Some (0, None, w)
  | Some array =>
      if capacity =? 0 then Some (0, commands, w)
      else
        let w := acknowledge mb interrupt_mask (seq 0 MAILBOX_MAX_NUM) w in
        let w := fence_iorw w in
        '(count, array, w) ←
          copy_slots mb (seq 0 MAILBOX_MAX_NUM) capacity 0 array w;
        Some (count, Some array, w)
  end.

Definition sg2002_rtos_mailbox_receive mb (commands : option (list cmdqu_t))
    (capacity : Z) w : option (Z * option (list cmdqu_t) * W) :=
  match commands with
  | None => Some (0, None, w)
  | Some _ =>
      if capacity =? 0 then Some (0, commands, w)
      else
        let '(flags, w) := drv_spin_lock_irqsave w in
        if flags =? MAILBOX_LOCK_FAILED then Some (0, commands, w)
        else
          let '(interrupt_mask, w) :=
            register_read w (mailbox_registers mb) (mbox_int RECEIVE_CPU) in
          let w := fence_iorw w in
          '(count, commands, w) ←
            receive_commands mb commands capacity (u8 interrupt_mask) w;
          Some (count, commands, drv_spin_unlock_irqrestore w flags)
  end.

Definition sg2002_rtos_mailbox_receive_from_isr mb
    (commands : option (list cmdqu_t)) (capacity : Z) w :
    option (Z * option (list cmdqu_t) * W) :=
  match commands with
  | None => Some (0, None, w)
  | Some _ =>
      if capacity =? 0 then Some (0, commands, w)
      else
        let '(interrupt_mask, w) :=
          register_read w (mailbox_registers mb) (mbox_int RECEIVE_CPU) in
        let w := fence_iorw w in
        receive_commands mb commands capacity (u8 interrupt_mask) w
  end.

(** The loop of [send]: the slot used, [MAILBOX_MAX_NUM] when none was free. *)
Fixpoint post_reply mb (reply : cmdqu_t) (send_to_cpu : Z) (slots : list nat) w :
    nat * W :=
  match slots with
  | [] => (MAILBOX_MAX_NUM, w)
  | slot :: slots =>
      let context := mailbox_context mb in
      let regs := mailbox_registers mb in
      let '(word, w) := slot_load w context slot in
      if negb (linux_valid (resv (cmdqu_of_word word)) =? 0)
      then post_reply mb reply send_to_cpu slots w
      else
        let '(word, w) := slot_load w context slot in
        if negb (rtos_valid (resv (cmdqu_of_word word)) =? 0)
        then post_reply mb reply send_to_cpu slots w
        else
          let w := slot_store_param w context slot (param_ptr reply) in
          let w := fence_iorw w in
          let w := slot_store_header w context slot (command_header reply) in
          let w := fence_iorw w in
          let bit := u32 (Z.shiftl 1 (Z.of_nat slot)) in
          let w := register_write w regs (mbox_int_clr send_to_cpu) bit in
          let '(info, w) := register_read w regs (mbox_info send_to_cpu) in
          let w := register_write w regs (mbox_info send_to_cpu) (Z.lor info bit) in
          let w := register_write w regs mbox_set bit in
          (slot, w)
  end.

(** The reply as posted: owned by the RTOS. *)
Definition rtos_reply (command : cmdqu_t) : cmdqu_t :=
  Cmdqu (ip_id command) (cmd_id command) (block command) (Valid 0 1)
    (param_ptr command).

Definition sg2002_rtos_mailbox_send mb (command : option cmdqu_t)
    (send_to_cpu : Z) w : Z * W :=
  match command with
  | None => (-1, w)
  | Some command =>
      let reply := rtos_reply command in
      let '(flags, w) := drv_spin_lock_irqsave w in
      if flags =? MAILBOX_LOCK_FAILED then (-1, w)
      else
        let '(slot, w) :=
          post_reply mb reply send_to_cpu (seq 0 MAILBOX_MAX_NUM) w in
        let w := drv_spin_unlock_irqrestore w flags in
        if (MAILBOX_MAX_NUM <=? slot)%nat then (-1, w) else (0, w)
  end.

End Operations.

(** ** What the code relies on

    [slot_value] is what a slot holds, [events] the accesses made so far, except
    reads. Every operation leaves alone the slots whose word is [stable]: for the
    interrupt handler, which takes no lock, the words Linux marked valid; under
    the lock, every word. *)
Inductive mailbox_event :=
| EvRegister (r : mailbox_register) (v : Z)
| EvSlot (i : nat) (v : Z) | EvHeader (i : nat) (v : Z) | EvParam (i : nat) (v : Z)
| EvFence
| EvLock (flags : Z) | EvUnlock (flags : Z).

Class MailboxLaws (W : Type) `{MailboxHardware W} (stable : Z -> bool) := {
  slot_value : W -> nat -> Z;
  events : W -> list mailbox_event;
  slot_value_range w i : is_u64 (slot_value w i);
  slot_load_value w i :
    (slot_load w MAILBOX_REG_BUFF i).1 =
      slot_value (slot_load w MAILBOX_REG_BUFF i).2 i;
  slot_load_frame w i j :
    stable (slot_value w j) = true ->
    slot_value (slot_load w MAILBOX_REG_BUFF i).2 j = slot_value w j;
  slot_store_value w i v :
    is_u64 v -> slot_value (slot_store w MAILBOX_REG_BUFF i v) i = v;
  slot_store_frame w i v j :
    i <> j -> stable (slot_value w j) = true ->
    slot_value (slot_store w MAILBOX_REG_BUFF i v) j = slot_value w j;
  slot_header_value w i v :
    stable (slot_value w i) = true -> is_u32 v ->
    slot_value (slot_store_header w MAILBOX_REG_BUFF i v) i =
      v + 2 ^ 32 * (slot_value w i / 2 ^ 32);
  slot_header_frame w i v j :
    i <> j -> stable (slot_value w j) = true ->
    slot_value (slot_store_header w MAILBOX_REG_BUFF i v) j = slot_value w j;
  slot_param_value w i v :
    stable (slot_value w i) = true -> is_u32 v ->
    slot_value (slot_store_param w MAILBOX_REG_BUFF i v) i =
      slot_value w i mod 2 ^ 32 + 2 ^ 32 * v;
  slot_param_frame w i v j :
    i <> j -> stable (slot_value w j) = true ->
    slot_value (slot_store_param w MAILBOX_REG_BUFF i v) j = slot_value w j;
  register_read_frame w r j :
    stable (slot_value w j) = true ->
    slot_value (register_read w MAILBOX_REG_BASE r).2 j = slot_value w j;
  register_write_frame w r v j :
    stable (slot_value w j) = true ->
    slot_value (register_write w MAILBOX_REG_BASE r v) j = slot_value w j;
  fence_iorw_frame w j :
    stable (slot_value w j) = true -> slot_value (fence_iorw w) j = slot_value w j;
  lock_frame w j :
    stable (slot_value w j) = true ->
    slot_value (drv_spin_lock_irqsave w).2 j = slot_value w j;
  unlock_frame w flags j :
    stable (slot_value w j) = true ->
    slot_value (drv_spin_unlock_irqrestore w flags) j = slot_value w j;
  slot_load_events w i : events (slot_load w MAILBOX_REG_BUFF i).2 = events w;
  register_read_events w r : events (register_read w MAILBOX_REG_BASE r).2 = events w;
  slot_store_events w i v :
    events (slot_store w MAILBOX_REG_BUFF i v) = events w ++ [EvSlot i v];
  slot_header_events w i v :
    events (slot_store_header w MAILBOX_REG_BUFF i v) = events w ++ [EvHeader i v];
  slot_param_events w i v :
    events (slot_store_param w MAILBOX_REG_BUFF i v) = events w ++ [EvParam i v];
  register_write_events w r v :
    events (register_write w MAILBOX_REG_BASE r v) = events w ++ [EvRegister r v];
  fence_iorw_events w : events (fence_iorw w) = events w ++ [EvFence];
  lock_events w :
    events (drv_spin_lock_irqsave w).2 =
      events w ++ [EvLock (drv_spin_lock_irqsave w).1];
  unlock_events w flags :
    events (drv_spin_unlock_irqrestore w flags) = events w ++ [EvUnlock flags];
}.

(** A word Linux marked valid: Linux leaves it alone until it is cleared. *)
Definition published (word : Z) : bool :=
  linux_valid (resv (cmdqu_of_word word)) =? 1.

(** A word Linux published and the firmware has not consumed. *)
Definition linux_owned (word : Z) : bool :=
  (linux_valid (resv (cmdqu_of_word word)) =? 1) &&
  (rtos_valid (resv (cmdqu_of_word word)) =? 0).

(** A free slot. *)
Definition slot_free (word : Z) : bool :=
  (linux_valid (resv (cmdqu_of_word word)) =? 0) &&
  (rtos_valid (resv (cmdqu_of_word word)) =? 0).

(** The mailbox as [sg2002_rtos_mailbox_init] leaves it. *)
Definition initialised {W} `{MailboxHardware W} : mailbox :=
  Mailbox MAILBOX_REG_BASE MAILBOX_REG_BUFF.

(** ** Words *)

Lemma command_header_arith c :
  cmdqu_wf c ->
  command_header c = ip_id c + 2 ^ 8 * cmd_id c + 2 ^ 15 * block c +
    2 ^ 16 * linux_valid (resv c) + 2 ^ 24 * rtos_valid (resv c).
Proof.
  destruct c as [ip cmd blk [lv rv] p].
  unfold cmdqu_wf, command_header; cbn [ip_id cmd_id block resv linux_valid rtos_valid
    param_ptr]. intros (? & ? & ? & ? & ? & ?).
  autorewrite with word_arith. rewrite !(wrap_small 32) by (word_unfold; lia).
  rewrite (lor_shifted_l 8), (lor_shifted_l 15), (lor_shifted_l 16),
    (lor_shifted_l 24) by (word_unfold; lia). lia.
Qed.

(** The two stores of a reply make its word. *)
Lemma reply_words c :
  cmdqu_wf c ->
  is_u32 (command_header c) /\
  command_header c + 2 ^ 32 * param_ptr c = cmdqu_word c.
Proof.
  intros Hwf. rewrite command_header_arith by done.
  unfold cmdqu_wf, cmdqu_word, in_range in *. lia.
Qed.

Lemma rtos_reply_wf c : cmdqu_wf c -> cmdqu_wf (rtos_reply c).
Proof. unfold cmdqu_wf, rtos_reply, in_range; cbn. lia. Qed.

Lemma linux_owned_published word : linux_owned word = true -> published word = true.
Proof. unfold linux_owned. rewrite andb_true_iff. tauto. Qed.

(** ** Accesses that leave the stable slots alone *)

Section Keeps.
Context {W : Type} `{MailboxHardware W} {stable : Z -> bool} `{!MailboxLaws W stable}.
Implicit Types (w : W).

(** What the firmware can count on: stable words stay. *)
Definition keeps w w' : Prop :=
  forall j, stable (slot_value w j) = true -> slot_value w' j = slot_value w j.

#[export] Instance keeps_preorder : PreOrder keeps.
Proof.
  split; [by intros w j|]. intros w1 w2 w3 K1 K2 j Hj.
  rewrite <- (K1 j Hj) in Hj |- *. by apply K2.
Qed.

Lemma slot_load_keeps w i :
  keeps w (slot_load w MAILBOX_REG_BUFF i).2 /\
  (slot_load w MAILBOX_REG_BUFF i).1 = slot_value (slot_load w MAILBOX_REG_BUFF i).2 i.
Proof. split; [intros j; apply slot_load_frame|apply slot_load_value]. Qed.

Lemma register_read_keeps w r : keeps w (register_read w MAILBOX_REG_BASE r).2.
Proof. intros j. apply register_read_frame. Qed.

Lemma register_write_keeps w r v : keeps w (register_write w MAILBOX_REG_BASE r v).
Proof. intros j. apply register_write_frame. Qed.

Lemma fence_keeps w : keeps w (fence_iorw w).
Proof. intros j. apply fence_iorw_frame. Qed.

Lemma acknowledge_keeps interrupt_mask slots w :
  keeps w (acknowledge initialised interrupt_mask slots w).
Proof.
  revert w. induction slots as [|slot slots IH]; intros w; cbn [acknowledge]; [done|].
  destruct (_ =? 0); [apply IH|]. cbn [mailbox_registers initialised].
  set (w1 := register_write w _ _ _).
  pose proof (register_read_keeps w1 (mbox_info RECEIVE_CPU)) as K.
  destruct (register_read w1 _ _) as [info w2]; cbn [snd] in K.
  etransitivity; [apply register_write_keeps|]. etransitivity; [exact K|].
  etransitivity; [apply register_write_keeps|]. apply IH.
Qed.

Lemma diagnostics_keeps w d :
  exists d' w',
    sg2002_rtos_mailbox_get_diagnostics initialised (Some d) w = (Some d', w') /\
    keeps w w'.
Proof.
  cbn [sg2002_rtos_mailbox_get_diagnostics mailbox_registers initialised].
  pose proof (fence_keeps w) as K0.
  pose proof (register_read_keeps (fence_iorw w) (mbox_info RECEIVE_CPU)) as K1.
  destruct (register_read (fence_iorw w) _ _) as [v1 w1]; cbn [snd] in K1.
  pose proof (register_read_keeps w1 (mbox_int_raw RECEIVE_CPU)) as K2.
  destruct (register_read w1 _ _) as [v2 w2]; cbn [snd] in K2.
  pose proof (register_read_keeps w2 (mbox_int_mask RECEIVE_CPU)) as K3.
  destruct (register_read w2 _ _) as [v3 w3]; cbn [snd] in K3.
  pose proof (register_read_keeps w3 (mbox_int RECEIVE_CPU)) as K4.
  destruct (register_read w3 _ _) as [v4 w4]; cbn [snd] in K4.
  do 2 eexists. split; [reflexivity|].
  etransitivity; [exact K0|]. etransitivity; [exact K1|]. etransitivity; [exact K2|].
  etransitivity; [exact K3|]. etransitivity; [exact K4|]. apply fence_keeps.
Qed.

End Keeps.

(** ** What the accesses write *)

(** The stores to slots among some accesses, and the operations on the lock. *)
Definition slot_part (es : list mailbox_event) : list (nat * Z) :=
  omap (fun e => match e with
    | EvSlot i v | EvHeader i v | EvParam i v => Some (i, v) | _ => None end) es.
Definition is_lock (e : mailbox_event) : bool :=
  match e with EvLock _ | EvUnlock _ => true | _ => false end.
Definition lock_part (es : list mailbox_event) : list mailbox_event :=
  filter (fun e => is_lock e = true) es.

Section Writes.
Context {W : Type} `{MailboxHardware W} {stable : Z -> bool} `{!MailboxLaws W stable}.
Implicit Types (w : W).

(** From [w] to [w'] the firmware stored [writes] and used the lock as in [locks]. *)
Definition wrote w w' (locks : list mailbox_event) (writes : list (nat * Z)) : Prop :=
  exists es, events w' = events w ++ es /\ lock_part es = locks /\ slot_part es = writes.

Lemma wrote_trans w1 w2 w3 l1 l2 s1 s2 :
  wrote w1 w2 l1 s1 -> wrote w2 w3 l2 s2 -> wrote w1 w3 (l1 ++ l2) (s1 ++ s2).
Proof.
  intros (e1 & E1 & <- & <-) (e2 & E2 & <- & <-). exists (e1 ++ e2).
  unfold lock_part, slot_part. by rewrite E2, E1, filter_app, omap_app, app_assoc.
Qed.

(** Reading, ringing and fencing store in no slot and leave the lock alone. *)
Definition quiet w w' : Prop := wrote w w' [] [].

#[export] Instance quiet_preorder : PreOrder quiet.
Proof.
  split; [intros w; exists []; by rewrite app_nil_r|]. intros w1 w2 w3. apply wrote_trans.
Qed.

Lemma wrote_quiet w1 w2 w3 l s : quiet w1 w2 -> wrote w2 w3 l s -> wrote w1 w3 l s.
Proof. apply wrote_trans. Qed.

Lemma wrote_events w w' e :
  events w' = events w ++ [e] -> wrote w w' (lock_part [e]) (slot_part [e]).
Proof. intros E. by exists [e]. Qed.

Lemma slot_load_quiet w i : quiet w (slot_load w MAILBOX_REG_BUFF i).2.
Proof. exists []. by rewrite app_nil_r, slot_load_events. Qed.

Lemma register_read_quiet w r : quiet w (register_read w MAILBOX_REG_BASE r).2.
Proof. exists []. by rewrite app_nil_r, register_read_events. Qed.

Lemma register_write_quiet w r v : quiet w (register_write w MAILBOX_REG_BASE r v).
Proof. apply (wrote_events _ _ (EvRegister r v)), register_write_events. Qed.

Lemma fence_quiet w : quiet w (fence_iorw w).
Proof. apply (wrote_events _ _ EvFence), fence_iorw_events. Qed.

Lemma slot_store_wrote w i v : wrote w (slot_store w MAILBOX_REG_BUFF i v) [] [(i, v)].
Proof. apply (wrote_events _ _ (EvSlot i v)), slot_store_events. Qed.

Lemma acknowledge_quiet interrupt_mask slots : forall w,
  quiet w (acknowledge initialised interrupt_mask slots w).
Proof.
  induction slots as [|slot slots IH]; intros w; cbn [acknowledge]; [done|].
  destruct (_ =? 0); [apply IH|]. cbn [mailbox_registers initialised].
  set (w1 := register_write w _ _ _).
  pose proof (register_read_quiet w1 (mbox_info RECEIVE_CPU)) as K.
  destruct (register_read w1 _ _) as [info w2]; cbn [snd] in K.
  etransitivity; [apply register_write_quiet|]. etransitivity; [exact K|].
  etransitivity; [apply register_write_quiet|]. apply IH.
Qed.

Lemma diagnostics_quiet w d d' w' :
  sg2002_rtos_mailbox_get_diagnostics initialised (Some d) w = (d', w') -> quiet w w'.
Proof.
  cbn [sg2002_rtos_mailbox_get_diagnostics mailbox_registers initialised].
  pose proof (fence_quiet w) as K. set (w0 := fence_iorw w) in *. clearbody w0.
  assert (Hread : forall w1 r (f : Z -> W -> option mailbox_diagnostics * W),
    quiet w w1 -> (forall v w2, quiet w w2 -> f v w2 = (d', w') -> quiet w w') ->
    (let '(v, w2) := register_read w1 MAILBOX_REG_BASE r in f v w2) = (d', w') -> quiet w w').
  { intros w1 r f K1 Hf E. pose proof (register_read_quiet w1 r) as K2.
    destruct (register_read w1 _ _) as [v w2]; cbn [snd] in K2.
    eapply Hf; [|exact E]. by transitivity w1. }
  do 4 (apply Hread; [assumption|clear dependent w0; intros ? w0 K]).
  intros [= _ <-]. etransitivity; [exact K|apply fence_quiet].
Qed.

End Writes.

(** ** Under the lock: nobody else touches the slots *)

Section Locked.
Context {W : Type} `{MailboxHardware W} `{!MailboxLaws W (fun _ => true)}.
Implicit Types (w : W).

Definition same_slots w w' : Prop := forall j, slot_value w' j = slot_value w j.

Lemma slot_load_locked w i :
  (slot_load w MAILBOX_REG_BUFF i).1 = slot_value w i /\
  same_slots w (slot_load w MAILBOX_REG_BUFF i).2.
Proof.
  split; [rewrite slot_load_value|intros j]; by apply slot_load_frame.
Qed.

Lemma acknowledge_slots interrupt_mask slots w :
  same_slots w (acknowledge initialised interrupt_mask slots w).
Proof.
  revert w. induction slots as [|slot slots IH]; intros w j; cbn [acknowledge]; [done|].
  destruct (_ =? 0); [apply IH|]. cbn [mailbox_registers initialised].
  destruct (register_read _ _ _) as [info w1] eqn:E.
  rewrite IH, register_write_frame by done.
  replace w1 with (register_read (register_write w MAILBOX_REG_BASE
    (mbox_int_clr RECEIVE_CPU) (u8 (Z.land interrupt_mask (Z.shiftl 1 (Z.of_nat slot)))))
    MAILBOX_REG_BASE (mbox_info RECEIVE_CPU)).2 by by rewrite E.
  by rewrite register_read_frame, register_write_frame.
Qed.

(** The slots [copy_slots] takes. *)
Definition owned_slots w (slots : list nat) : list nat :=
  filter (fun i => linux_owned (slot_value w i) = true) slots.

(** [r] is the result of taking the slots [taken] after [prefix] was filled. *)
Definition copied w (taken : list nat) (prefix rest : list cmdqu_t)
    (r : option (Z * list cmdqu_t * W)) : Prop :=
  exists w',
    r = Some (Z.of_nat (length prefix + length taken),
              prefix ++ map (fun i => cmdqu_of_word (slot_value w i)) taken ++
                drop (length taken) rest, w') /\
    (forall j, slot_value w' j = if decide (j ∈ taken) then 0 else slot_value w j) /\
    wrote w w' [] ((fun i => (i, 0)) <$> taken).

Lemma copied_nil w prefix rest :
  copied w [] prefix rest (Some (Z.of_nat (length prefix), prefix ++ rest, w)).
Proof.
  exists w. cbn [map length app]. rewrite Nat.add_0_r, drop_0. split_and!; [done|done|].
  apply (reflexivity (R := quiet)).
Qed.

Lemma copied_same w w2 taken prefix rest r :
  same_slots w w2 -> quiet w w2 -> copied w2 taken prefix rest r -> copied w taken prefix rest r.
Proof.
  intros S2 Q (w' & -> & Hs & D). exists w'. split_and!; [| |by eapply wrote_quiet].
  - f_equal. f_equal. f_equal. f_equal. f_equal. apply map_ext. intros i. by rewrite S2.
  - intros j. by rewrite Hs, S2.
Qed.

(** Taking [slot] first: it is cleared, the others are as they were. *)
Lemma copied_cons w w2 slot taken prefix x rest r :
  (forall j, slot <> j -> slot_value w2 j = slot_value w j) ->
  slot_value w2 slot = 0 -> wrote w w2 [] [(slot, 0)] -> slot ∉ taken ->
  copied w2 taken (prefix ++ [cmdqu_of_word (slot_value w slot)]) rest r ->
  copied w (slot :: taken) prefix (x :: rest) r.
Proof.
  intros S2 Z2 D1 Hslot (w' & -> & Hs & D). exists w'.
  split_and!; [| |exact (wrote_trans _ _ _ _ _ _ _ D1 D)].
  - cbn [map drop length]. rewrite length_app, <- app_assoc. cbn [app length].
    replace (length prefix + 1 + length taken)%nat
      with (length prefix + S (length taken))%nat by lia.
    do 5 f_equal. f_equal. apply map_ext_in. intros j Hj%list_elem_of_In.
    rewrite S2; [done|]. by intros ->.
  - intros j. rewrite Hs. destruct (decide (j = slot)) as [->|Hne].
    + rewrite decide_False, decide_True by (done || by left). done.
    + rewrite S2 by done. destruct (decide (j ∈ taken)).
      * by rewrite decide_True by by right.
      * by rewrite decide_False by (by rewrite elem_of_cons; intros [?|?]).
Qed.

Lemma owned_slots_same w w2 slots :
  (forall j, j ∈ slots -> slot_value w2 j = slot_value w j) ->
  owned_slots w2 slots = owned_slots w slots.
Proof. intros S2. apply filter_ext_in. intros j Hj. by rewrite S2. Qed.

Lemma copy_slots_locked slots : forall capacity w prefix rest,
  NoDup slots -> Z.of_nat (length slots + length prefix) < 2 ^ 32 ->
  Z.of_nat (length prefix) <= capacity <= Z.of_nat (length prefix + length rest) ->
  copied w (take (Z.to_nat capacity - length prefix) (owned_slots w slots)) prefix rest
    (copy_slots initialised slots capacity (Z.of_nat (length prefix))
       (prefix ++ rest) w).
Proof.
  induction slots as [|slot slots IH]; intros capacity w prefix rest Hnd Hlen Hcap.
  { change (owned_slots w []) with (@nil nat). rewrite take_nil. apply copied_nil. }
  apply list.NoDup_cons in Hnd as [Hslot Hnd]. cbn [length] in Hlen.
  cbn [copy_slots]. destruct (Z.of_nat (length prefix) <? capacity) eqn:Ec; cbn [negb].
  2: { replace (_ - _)%nat with O by lia. apply copied_nil. }
  cbn [mailbox_context initialised].
  destruct (slot_load_locked w slot) as [V1 S1].
  pose proof (slot_load_quiet w slot) as Q1.
  destruct (slot_load w _ slot) as [word1 w1]; cbn [fst snd] in *. subst word1.
  assert (Hskip : forall w2, same_slots w w2 -> quiet w w2 ->
    linux_owned (slot_value w slot) = false ->
    copied w (take (Z.to_nat capacity - length prefix) (owned_slots w (slot :: slots)))
      prefix rest
      (copy_slots initialised slots capacity (Z.of_nat (length prefix))
         (prefix ++ rest) w2)).
  { intros w2 S2 Q2 Hno. unfold owned_slots. rewrite filter_cons_False by congruence.
    fold (owned_slots w slots).
    rewrite <- (owned_slots_same w w2 slots) by (intros; apply S2).
    eapply copied_same; [exact S2|exact Q2|]. apply IH; (done || lia). }
  unfold linux_owned in Hskip at 1.
  destruct (_ =? 1) eqn:El; cbn [negb]; [|by apply Hskip].
  destruct (slot_load_locked w1 slot) as [V2 S2].
  pose proof (slot_load_quiet w1 slot) as Q2.
  destruct (slot_load w1 _ slot) as [word2 w2]; cbn [fst snd] in *.
  rewrite S1 in V2. subst word2.
  destruct (_ =? 0) eqn:Er; cbn [negb].
  2: { apply Hskip; [|by transitivity w1|done]. intros j. by rewrite S2, S1. }
  destruct (slot_load_locked w2 slot) as [V3 S3].
  pose proof (slot_load_quiet w2 slot) as Q3.
  destruct (slot_load w2 _ slot) as [word3 w3]; cbn [fst snd] in *.
  rewrite S2, S1 in V3. subst word3.
  destruct rest as [|x rest]; [cbn [length] in Hcap; lia|].
  rewrite array_store_prefix. cbn [mbind option_bind].
  set (w4 := slot_store w3 _ slot 0).
  assert (S4 : forall j, slot <> j -> slot_value w4 j = slot_value w j).
  { intros j Hj. unfold w4. by rewrite slot_store_frame, S3, S2, S1. }
  unfold owned_slots. rewrite filter_cons_True by (unfold linux_owned; by rewrite El, Er).
  fold (owned_slots w slots).
  rewrite <- (owned_slots_same w w4 slots) by (intros j Hj; apply S4; by intros ->).
  replace (Z.to_nat capacity - length prefix)%nat
    with (S (Z.to_nat capacity - length (prefix ++ [cmdqu_of_word (slot_value w slot)])))
    by (rewrite length_app; cbn [length]; lia).
  eapply copied_cons; [exact S4|apply slot_store_value; word_lia| | |].
  { do 3 (eapply wrote_quiet; [eassumption|]). apply slot_store_wrote. }
  { intros (i & Hi & _)%elem_of_take. apply list_elem_of_lookup_2 in Hi.
    by apply list_elem_of_filter in Hi as [_ ?]. }
  replace (u32 (Z.of_nat (length prefix) + 1))
    with (Z.of_nat (length (prefix ++ [cmdqu_of_word (slot_value w slot)])))
    by (rewrite length_app; cbn [length]; word_lia).
  apply IH; rewrite ?length_app; cbn [length] in *; (done || lia).
Qed.

(** *** Receiving *)

Lemma receive_commands_locked array capacity interrupt_mask w :
  0 < capacity <= Z.of_nat (length array) -> Z.of_nat MAILBOX_MAX_NUM < 2 ^ 32 ->
  let taken := take (Z.to_nat capacity) (owned_slots w (seq 0 MAILBOX_MAX_NUM)) in
  exists w',
    receive_commands initialised (Some array) capacity interrupt_mask w =
      Some (Z.of_nat (length taken),
            Some (map (fun i => cmdqu_of_word (slot_value w i)) taken ++
                  drop (length taken) array), w') /\
    (forall j, slot_value w' j = if decide (j ∈ taken) then 0 else slot_value w j) /\
    wrote w w' [] ((fun i => (i, 0)) <$> taken).
Proof.
  intros Hcap Hmax taken. unfold receive_commands.
  replace (capacity =? 0) with false by lia.
  set (w1 := fence_iorw _).
  assert (S1 : same_slots w w1).
  { intros j. unfold w1. rewrite fence_iorw_frame by done. apply acknowledge_slots. }
  assert (Q1 : quiet w w1) by (etransitivity; [apply acknowledge_quiet|apply fence_quiet]).
  destruct (copy_slots_locked (seq 0 MAILBOX_MAX_NUM) capacity w1 [] array)
    as (w' & E & Hs & D); [apply NoDup_seq|rewrite length_seq; cbn [length]; lia
                      |cbn [length]; lia|].
  cbn [length app] in E. rewrite Nat.sub_0_r, Nat.add_0_l in *.
  rewrite (owned_slots_same w w1) in * by (intros; apply S1). fold taken in E, Hs.
  change (Z.of_nat 0) with 0 in E. rewrite E. cbn [mbind option_bind].
  exists w'. split_and!; [| |by eapply wrote_quiet].
  - do 5 f_equal. apply map_ext. intros i. by rewrite S1.
  - intros j. by rewrite Hs, S1.
Qed.

(** *** Sending *)

Definition slot_bit (slot : nat) : Z := u32 (Z.shiftl 1 (Z.of_nat slot)).

(** The accesses that post [reply] in [slot]. *)
Definition post_events (reply : cmdqu_t) (cpu : Z) (slot : nat) (info : Z) :
    list mailbox_event :=
  [EvParam slot (param_ptr reply); EvFence; EvHeader slot (command_header reply);
   EvFence; EvRegister (mbox_int_clr cpu) (slot_bit slot);
   EvRegister (mbox_info cpu) (Z.lor info (slot_bit slot));
   EvRegister mbox_set (slot_bit slot)].

Definition posted w (reply : cmdqu_t) (cpu : Z) (free : option nat) (r : nat * W) :
    Prop :=
  match free with
  | None => r.1 = MAILBOX_MAX_NUM /\ same_slots w r.2 /\ events r.2 = events w
  | Some i =>
      r.1 = i /\ slot_value r.2 i = cmdqu_word reply /\
      (forall j, j <> i -> slot_value r.2 j = slot_value w j) /\
      exists info, events r.2 = events w ++ post_events reply cpu i info
  end.

Lemma posted_same w w2 reply cpu free r :
  same_slots w w2 -> events w2 = events w ->
  posted w2 reply cpu free r -> posted w reply cpu free r.
Proof.
  intros S2 E2. destruct free as [i|]; cbn [posted]; rewrite E2.
  - intros (? & ? & Hj & ?). split_and!; try done. intros j ?. by rewrite Hj.
  - intros (? & Hj & ?). split_and!; try done. intros j. by rewrite Hj.
Qed.

Lemma post_one w reply cpu slot :
  cmdqu_wf reply ->
  posted w reply cpu (Some slot)
    (let w := slot_store_param w MAILBOX_REG_BUFF slot (param_ptr reply) in
     let w := fence_iorw w in
     let w := slot_store_header w MAILBOX_REG_BUFF slot (command_header reply) in
     let w := fence_iorw w in
     let w := register_write w MAILBOX_REG_BASE (mbox_int_clr cpu) (slot_bit slot) in
     let '(info, w) := register_read w MAILBOX_REG_BASE (mbox_info cpu) in
     let w := register_write w MAILBOX_REG_BASE (mbox_info cpu)
                (Z.lor info (slot_bit slot)) in
     let w := register_write w MAILBOX_REG_BASE mbox_set (slot_bit slot) in
     (slot, w)).
Proof.
  intros Hwf. destruct (reply_words reply Hwf) as [Hh Hword].
  assert (Hp : is_u32 (param_ptr reply)) by apply Hwf.
  cbv zeta.
  set (w1 := slot_store_param _ _ _ _). set (w2 := fence_iorw w1).
  set (w3 := slot_store_header _ _ _ _). set (w4 := fence_iorw w3).
  set (w5 := register_write w4 _ _ _).
  destruct (register_read w5 MAILBOX_REG_BASE (mbox_info cpu)) as [info w6] eqn:E6.
  assert (S6 : same_slots w5 w6).
  { intros j. replace w6 with (register_read w5 MAILBOX_REG_BASE (mbox_info cpu)).2
      by by rewrite E6. by apply register_read_frame. }
  assert (E6' : events w6 = events w5).
  { replace w6 with (register_read w5 MAILBOX_REG_BASE (mbox_info cpu)).2
      by by rewrite E6. apply register_read_events. }
  cbn [posted fst snd]. split_and!; [done| | |].
  - rewrite !register_write_frame, S6 by done. unfold w5, w4.
    rewrite register_write_frame, fence_iorw_frame by done. unfold w3.
    rewrite slot_header_value by done. unfold w2. rewrite fence_iorw_frame by done.
    unfold w1. rewrite slot_param_value by done. rewrite <- Hword. f_equal. f_equal.
    lia.
  - intros j Hj. rewrite !register_write_frame, S6 by done. unfold w5, w4.
    rewrite register_write_frame, fence_iorw_frame by done. unfold w3.
    rewrite slot_header_frame by done. unfold w2. rewrite fence_iorw_frame by done.
    by apply slot_param_frame.
  - exists info. rewrite !register_write_events, E6'. unfold w5, w4, w3, w2, w1.
    rewrite register_write_events, fence_iorw_events, slot_header_events,
      fence_iorw_events, slot_param_events. by rewrite <- !app_assoc.
Qed.

Lemma post_reply_locked reply cpu slots : forall w,
  cmdqu_wf reply ->
  posted w reply cpu (find (fun i => slot_free (slot_value w i)) slots)
    (post_reply initialised reply cpu slots w).
Proof.
  induction slots as [|slot slots IH]; intros w Hwf; [by split_and!|].
  cbn [post_reply find]. cbn [mailbox_context mailbox_registers initialised].
  destruct (slot_load_locked w slot) as [V1 S1].
  pose proof (slot_load_events w slot) as E1.
  destruct (slot_load w _ slot) as [word1 w1]; cbn [fst snd] in *. subst word1.
  assert (Hfind : forall w2, same_slots w w2 ->
    find (fun i => slot_free (slot_value w i)) slots =
    find (fun i => slot_free (slot_value w2 i)) slots).
  { intros w2 S2. clear -S2. induction slots as [|i slots IH]; [done|].
    cbn [find]. by rewrite S2, IH. }
  unfold slot_free at 1.
  destruct (linux_valid _ =? 0) eqn:El; cbn [negb andb].
  2: { rewrite (Hfind w1) by done. eapply posted_same; [done|done|]. by apply IH. }
  destruct (slot_load_locked w1 slot) as [V2 S2].
  pose proof (slot_load_events w1 slot) as E2.
  destruct (slot_load w1 _ slot) as [word2 w2]; cbn [fst snd] in *.
  rewrite S1 in V2. subst word2.
  assert (S12 : same_slots w w2) by (intros j; by rewrite S2, S1).
  assert (E12 : events w2 = events w) by by rewrite E2.
  destruct (rtos_valid _ =? 0) eqn:Er; cbn [negb].
  - eapply posted_same; [done|done|]. by apply post_one.
  - rewrite (Hfind w2) by done. eapply posted_same; [done|done|]. by apply IH.
Qed.

End Locked.

(** ** In the interrupt handler: Linux may act between any two accesses *)

Section Interrupt.
Context {W : Type} `{MailboxHardware W} `{!MailboxLaws W published}.
Implicit Types (w : W).

(** [r] is the result of taking the pairs (slot, word) [taken], from [slots]. *)
Definition taken_from w (slots : list nat) (taken : list (nat * Z)) (capacity : Z)
    (prefix rest : list cmdqu_t) (r : option (Z * list cmdqu_t * W)) : Prop :=
  sublist taken.*1 slots /\ Forall (fun p => linux_owned p.2 = true) taken /\
  (forall i, i ∈ slots -> linux_owned (slot_value w i) = true ->
    (i, slot_value w i) ∈ taken \/
    Z.of_nat (length prefix + length taken) = capacity /\ i ∉ taken.*1) /\
  exists w',
    r = Some (Z.of_nat (length prefix + length taken),
              prefix ++ map (fun p => cmdqu_of_word p.2) taken ++
                drop (length taken) rest, w') /\
    (forall j, published (slot_value w j) = true -> j ∉ taken.*1 ->
      slot_value w' j = slot_value w j) /\
    wrote w w' [] ((fun p => (p.1, 0)) <$> taken).

Lemma taken_none w slots capacity prefix rest :
  Z.of_nat (length prefix) = capacity \/ slots = [] ->
  taken_from w slots [] capacity prefix rest
    (Some (Z.of_nat (length prefix), prefix ++ rest, w)).
Proof.
  intros Hend. split_and!; [apply sublist_nil_l|constructor| |].
  - intros i Hi _. destruct Hend as [Hend| ->];
      [right; split; [cbn [length]; lia|apply not_elem_of_nil]|].
    by apply not_elem_of_nil in Hi.
  - exists w. cbn [map length app]. rewrite Nat.add_0_r, drop_0.
    split_and!; [done|done|]. apply (reflexivity (R := quiet)).
Qed.

(** A slot that was not Linux's is skipped. *)
Lemma taken_skip w w2 slot slots taken capacity prefix rest r :
  keeps w w2 -> quiet w w2 -> linux_owned (slot_value w slot) = false ->
  taken_from w2 slots taken capacity prefix rest r ->
  taken_from w (slot :: slots) taken capacity prefix rest r.
Proof.
  intros K Q Hno (Hsub & Hall & Hin & w' & -> & Hs & D). split_and!.
  - by apply sublist_cons.
  - done.
  - intros i Hi Ho. apply elem_of_cons in Hi as [->|Hi]; [congruence|].
    rewrite <- (K i) in Ho |- * by by apply linux_owned_published. by apply Hin.
  - exists w'. split; [done|]. split; [|by eapply wrote_quiet]. intros j Hj Hn.
    rewrite <- (K j Hj) in Hj |- *. by apply Hs.
Qed.

(** A slot that holds a published word is taken with that word. *)
Lemma taken_cons w w2 slot word slots taken capacity prefix x rest r :
  linux_owned word = true ->
  (linux_owned (slot_value w slot) = true -> slot_value w slot = word) ->
  (forall j, slot <> j -> published (slot_value w j) = true ->
    slot_value w2 j = slot_value w j) ->
  wrote w w2 [] [(slot, 0)] ->
  slot ∉ slots ->
  taken_from w2 slots taken capacity (prefix ++ [cmdqu_of_word word]) rest r ->
  taken_from w (slot :: slots) ((slot, word) :: taken) capacity prefix (x :: rest) r.
Proof.
  intros Hw Hsame K D1 Hslot (Hsub & Hall & Hin & w' & -> & Hs & D).
  rewrite length_app in *. cbn [length] in *.
  replace (length prefix + 1 + length taken)%nat
    with (length prefix + S (length taken))%nat in * by lia.
  split_and!.
  - by apply sublist_skip.
  - by constructor.
  - intros i Hi Ho. apply elem_of_cons in Hi as [->|Hi].
    + left. rewrite Hsame by done. by left.
    + assert (Hne : slot <> i) by by intros ->.
      rewrite <- (K i Hne) in Ho |- * by by apply linux_owned_published.
      destruct (Hin i Hi Ho) as [?|[? Hn]]; [left; by right|right].
      split; [done|]. cbn [fmap list_fmap fst]. by rewrite not_elem_of_cons.
  - exists w'. split_and!; [| |exact (wrote_trans _ _ _ _ _ _ _ D1 D)].
    + cbn [map drop snd]. by rewrite <- app_assoc.
    + intros j Hj Hn. cbn [fmap list_fmap fst] in Hn.
      apply not_elem_of_cons in Hn as [Hne Hn].
      rewrite <- (K j) in Hj |- * by done. by apply Hs.
Qed.

Lemma copy_slots_interrupt slots : forall capacity w prefix rest,
  NoDup slots -> Z.of_nat (length slots + length prefix) < 2 ^ 32 ->
  Z.of_nat (length prefix) <= capacity <= Z.of_nat (length prefix + length rest) ->
  exists taken, taken_from w slots taken capacity prefix rest
    (copy_slots initialised slots capacity (Z.of_nat (length prefix))
       (prefix ++ rest) w).
Proof.
  induction slots as [|slot slots IH]; intros capacity w prefix rest Hnd Hlen Hcap.
  { exists []. apply taken_none. by right. }
  apply list.NoDup_cons in Hnd as [Hslot Hnd]. cbn [length] in Hlen.
  cbn [copy_slots]. destruct (Z.of_nat (length prefix) <? capacity) eqn:Ec; cbn [negb].
  2: { exists []. apply taken_none. left. lia. }
  cbn [mailbox_context initialised].
  destruct (slot_load_keeps w slot) as [K1 V1].
  pose proof (slot_load_quiet w slot) as Q1.
  destruct (slot_load w _ slot) as [word w1]; cbn [fst snd] in *.
  assert (Hskip : forall w2, keeps w w2 -> quiet w w2 ->
    linux_owned (slot_value w slot) = false ->
    exists taken, taken_from w (slot :: slots) taken capacity prefix rest
      (copy_slots initialised slots capacity (Z.of_nat (length prefix))
         (prefix ++ rest) w2)).
  { intros w2 K2 Q2 Hno. destruct (IH capacity w2 prefix rest Hnd ltac:(lia) Hcap)
      as (taken & Ht). exists taken. by eapply taken_skip. }
  assert (Hword : linux_owned (slot_value w slot) = true -> slot_value w slot = word).
  { intros Ho. by rewrite V1, K1 by by apply linux_owned_published. }
  destruct (linux_valid _ =? 1) eqn:El; cbn [negb].
  2: { apply Hskip; [done|done|]. destruct (linux_owned _) eqn:Eo; [|done].
       rewrite Hword in Eo by done. unfold linux_owned in Eo. by rewrite El in Eo. }
  assert (Hpub : published (slot_value w1 slot) = true) by by rewrite <- V1.
  destruct (slot_load_keeps w1 slot) as [K2 V2].
  pose proof (slot_load_quiet w1 slot) as Q2.
  destruct (slot_load w1 _ slot) as [word2 w2]; cbn [fst snd] in *.
  rewrite K2, <- V1 in V2 by done. subst word2.
  destruct (rtos_valid _ =? 0) eqn:Er; cbn [negb].
  2: { apply Hskip; [by transitivity w1|by transitivity w1|]. destruct (linux_owned _) eqn:Eo; [|done].
       rewrite Hword in Eo by done. unfold linux_owned in Eo. by rewrite El, Er in Eo. }
  assert (Hpub2 : published (slot_value w2 slot) = true) by by rewrite K2.
  destruct (slot_load_keeps w2 slot) as [K3 V3].
  pose proof (slot_load_quiet w2 slot) as Q3.
  destruct (slot_load w2 _ slot) as [word3 w3]; cbn [fst snd] in *.
  rewrite K3, K2, <- V1 in V3 by done. subst word3.
  destruct rest as [|x rest]; [cbn [length] in Hcap; lia|].
  rewrite array_store_prefix. cbn [mbind option_bind].
  destruct (IH capacity (slot_store w3 MAILBOX_REG_BUFF slot 0)
              (prefix ++ [cmdqu_of_word word]) rest Hnd) as (taken & Ht);
    [rewrite length_app; cbn [length] in *; lia..|].
  exists ((slot, word) :: taken).
  replace (u32 (Z.of_nat (length prefix) + 1))
    with (Z.of_nat (length (prefix ++ [cmdqu_of_word word])))
    by (rewrite length_app; cbn [length]; word_lia).
  eapply taken_cons; [|done| | |done|exact Ht].
  - unfold linux_owned. by rewrite El, Er.
  - intros j Hj Hp. assert (K : keeps w w3) by (transitivity w2; [by transitivity w1|done]).
    rewrite slot_store_frame; [by apply K|done|by rewrite K].
  - do 3 (eapply wrote_quiet; [eassumption|]). apply slot_store_wrote.
Qed.

End Interrupt.

(** ** Two concrete mailboxes

    On the [Quiet] one only the firmware acts. On the [Busy] one Linux posts the
    head of [incoming] into its slot, if that is free, before every load. *)

Module Board.

Record t := Make {
  slots : gmap nat Z;
  registers : mailbox_register -> Z;
  log : list mailbox_event;
  incoming : list (nat * Z);
  lock_flags : Z;
}.

Definition value (b : t) (i : nat) : Z := u64 (default 0 (slots b !! i)).

Definition put (i : nat) (v : Z) (b : t) : t :=
  Make (<[i := v]> (slots b)) (registers b) (log b) (incoming b) (lock_flags b).
Definition logged (e : mailbox_event) (b : t) : t :=
  Make (slots b) (registers b) (log b ++ [e]) (incoming b) (lock_flags b).
Definition linux_turn (b : t) : t :=
  match incoming b with
  | [] => b
  | (i, v) :: rest =>
      let b := Make (slots b) (registers b) (log b) rest (lock_flags b) in
      if value b i =? 0 then put i v b else b
  end.

Definition hardware (turn : t -> t) : MailboxHardware t := {|
  RECEIVE_CPU := 2;
  MAILBOX_MAX_NUM := 8;
  MAILBOX_LOCK_FAILED := -1;
  MAILBOX_REG_BASE := 0x1900000;
  MAILBOX_REG_BUFF := 0x1900400;
  register_read := fun b _ r => (registers b r, b);
  register_write := fun b _ r v =>
    Make (slots b) (fun r' => if decide (r' = r) then v else registers b r')
      (log b ++ [EvRegister r v]) (incoming b) (lock_flags b);
  slot_load := fun b _ i => (value (turn b) i, turn b);
  slot_store := fun b _ i v => logged (EvSlot i v) (put i v b);
  slot_store_header := fun b _ i v =>
    logged (EvHeader i v) (put i (v + 2 ^ 32 * (value b i / 2 ^ 32)) b);
  slot_store_param := fun b _ i v =>
    logged (EvParam i v) (put i (value b i mod 2 ^ 32 + 2 ^ 32 * v) b);
  fence_iorw := logged EvFence;
  cvi_spinlock_init := fun b => b;
  drv_spin_lock_irqsave := fun b => (lock_flags b, logged (EvLock (lock_flags b)) b);
  drv_spin_unlock_irqrestore := fun b flags => logged (EvUnlock flags) b;
|}.

Lemma value_put_eq i v b : is_u64 v -> value (put i v b) i = v.
Proof. intros. unfold value; simpl. rewrite lookup_insert_eq. by apply wrap_small. Qed.

Lemma value_put_ne i v b j : i <> j -> value (put i v b) j = value b j.
Proof. intros. unfold value; simpl. by rewrite lookup_insert_ne. Qed.

Lemma value_range b i : is_u64 (value b i).
Proof. by apply wrap_range. Qed.

Lemma linux_turn_published b j :
  published (value b j) = true -> value (linux_turn b) j = value b j.
Proof.
  intros Hj. unfold linux_turn. destruct (incoming b) as [|[i v] rest]; [done|].
  destruct (_ =? 0) eqn:E; [|done]. rewrite value_put_ne; [done|].
  intros ->. change ((value b j =? 0) = true) in E. apply Z.eqb_eq in E.
  by rewrite E in Hj.
Qed.

(** Laws for any [turn] that leaves stable words and the log alone. *)
Definition laws_for (turn : t -> t) (stable : Z -> bool) :
  (forall b j, stable (value b j) = true -> value (turn b) j = value b j) ->
  (forall b, log (turn b) = log b) ->
  @MailboxLaws t (hardware turn) stable.
Proof.
  intros Hturn Hlog.
  refine (@Build_MailboxLaws t (hardware turn) stable value log
    value_range _ _ _ _ _ _ _ _ _ _ _ _ _ _ _ _ _ _ _ _ _ _); simpl; try done.
  - auto.
  - intros b i v Hv. by apply value_put_eq.
  - intros b i v j Hne _. by apply value_put_ne.
  - intros b i v _ Hv. apply value_put_eq. pose proof (value_range b i). word_lia.
  - intros b i v j Hne _. by apply value_put_ne.
  - intros b i v _ Hv. apply value_put_eq. word_lia.
  - intros b i v j Hne _. by apply value_put_ne.
Defined.

Lemma linux_turn_log b : log (linux_turn b) = log b.
Proof.
  unfold linux_turn. destruct (incoming b) as [|[i v] rest]; [done|].
  by destruct (_ =? 0).
Qed.

#[export] Instance quiet_laws :
  @MailboxLaws t (hardware id) (fun _ => true).
Proof. by apply laws_for. Defined.

#[export] Instance busy_laws : @MailboxLaws t (hardware linux_turn) published.
Proof. apply laws_for; [apply linux_turn_published|apply linux_turn_log]. Defined.

End Board.

(** ** Properties *)

Section Properties.
Context {W : Type} `{MailboxHardware W}.
Implicit Types (w : W).

Lemma send_spec `{!MailboxLaws W (fun _ => true)} command cpu w :
  cmdqu_wf command ->
  let flags := (drv_spin_lock_irqsave w).1 in
  let '(result, w') := sg2002_rtos_mailbox_send initialised (Some command) cpu w in
  if flags =? MAILBOX_LOCK_FAILED
  then result = -1 /\ same_slots w w' /\ events w' = events w ++ [EvLock flags]
  else
    match find (fun i => slot_free (slot_value w i)) (seq 0 MAILBOX_MAX_NUM) with
    | Some i =>
        result = 0 /\ slot_value w' i = cmdqu_word (rtos_reply command) /\
        (forall j, j <> i -> slot_value w' j = slot_value w j) /\
        exists info,
          events w' = events w ++ [EvLock flags] ++
            post_events (rtos_reply command) cpu i info ++ [EvUnlock flags]
    | None =>
        result = -1 /\ same_slots w w' /\
        events w' = events w ++ [EvLock flags; EvUnlock flags]
    end.
Proof.
  intros Hwf. unfold sg2002_rtos_mailbox_send.
  pose proof (fun j => lock_frame w j eq_refl) as S1.
  pose proof (lock_events w) as E1.
  destruct (drv_spin_lock_irqsave w) as [flags w1]; cbn [fst snd] in *.
  destruct (flags =? MAILBOX_LOCK_FAILED); [done|].
  pose proof (post_reply_locked (rtos_reply command) cpu (seq 0 MAILBOX_MAX_NUM) w1
                (rtos_reply_wf command Hwf)) as Hpost.
  assert (Hfind : find (fun i => slot_free (slot_value w i)) (seq 0 MAILBOX_MAX_NUM) =
    find (fun i => slot_free (slot_value w1 i)) (seq 0 MAILBOX_MAX_NUM)).
  { clear -S1. induction (seq 0 _) as [|i l IH]; [done|]. cbn [find]. by rewrite S1, IH. }
  rewrite Hfind.
  destruct (post_reply _ _ _ _ w1) as [slot w2].
  destruct (find _ _) as [i|] eqn:Ef; cbn [posted fst snd] in Hpost.
  - destruct Hpost as (-> & Hi & Hj & info & E2).
    apply find_some in Ef as [Hin%in_seq _].
    rewrite (proj2 (Nat.leb_gt _ _)) by lia. split_and!; [done| | |].
    + by rewrite unlock_frame.
    + intros j Hne. by rewrite unlock_frame, Hj, S1.
    + exists info. by rewrite unlock_events, E2, E1, <- !app_assoc.
  - destruct Hpost as (-> & Hs & E2). rewrite Nat.leb_refl. split_and!; [done| |].
    + intros j. by rewrite unlock_frame, Hs, S1.
    + by rewrite unlock_events, E2, E1, <- app_assoc.
Qed.

(** C25: sending. Under the lock, [send] posts the reply (marked RTOS-valid, not
    Linux-valid) in the first free slot and nowhere else, storing [param_ptr]
    before the header that makes it valid, and both before it rings the doorbell
    of exactly that slot; it returns 0. When no slot is free it writes nothing
    and returns -1; when the lock is refused it touches nothing and returns -1.
    The lock is released on every path that took it. *)
Theorem mailbox_send_posts_reply `{!MailboxLaws W (fun _ => true)} command cpu w :
  cmdqu_wf command ->
  let flags := (drv_spin_lock_irqsave w).1 in
  let '(result, w') := sg2002_rtos_mailbox_send initialised (Some command) cpu w in
  if flags =? MAILBOX_LOCK_FAILED
  then result = -1 /\ same_slots w w' /\ events w' = events w ++ [EvLock flags]
  else
    match find (fun i => slot_free (slot_value w i)) (seq 0 MAILBOX_MAX_NUM) with
    | Some i =>
        result = 0 /\ slot_value w' i = cmdqu_word (rtos_reply command) /\
        (forall j, j <> i -> slot_value w' j = slot_value w j) /\
        exists info,
          events w' = events w ++ [EvLock flags] ++
            post_events (rtos_reply command) cpu i info ++ [EvUnlock flags]
    | None =>
        result = -1 /\ same_slots w w' /\
        events w' = events w ++ [EvLock flags; EvUnlock flags]
    end.
Proof. apply send_spec. Qed.

Lemma receive_spec `{!MailboxLaws W (fun _ => true)} array capacity w :
  0 < capacity <= Z.of_nat (length array) -> Z.of_nat MAILBOX_MAX_NUM < 2 ^ 32 ->
  let flags := (drv_spin_lock_irqsave w).1 in
  let taken := take (Z.to_nat capacity) (owned_slots w (seq 0 MAILBOX_MAX_NUM)) in
  exists w',
    if flags =? MAILBOX_LOCK_FAILED
    then sg2002_rtos_mailbox_receive initialised (Some array) capacity w =
           Some (0, Some array, w') /\ same_slots w w' /\
         wrote w w' [EvLock flags] []
    else
      sg2002_rtos_mailbox_receive initialised (Some array) capacity w =
        Some (Z.of_nat (length taken),
              Some (map (fun i => cmdqu_of_word (slot_value w i)) taken ++
                    drop (length taken) array), w') /\
      (forall j, slot_value w' j = if decide (j ∈ taken) then 0 else slot_value w j) /\
      (exists before, events w' = before ++ [EvUnlock flags]) /\
      wrote w w' [EvLock flags; EvUnlock flags] ((fun i => (i, 0)) <$> taken).
Proof.
  intros Hcap Hmax. unfold sg2002_rtos_mailbox_receive.
  replace (capacity =? 0) with false by lia.
  pose proof (fun j => lock_frame w j eq_refl) as S1.
  pose proof (wrote_events _ _ _ (lock_events w)) as D1.
  destruct (drv_spin_lock_irqsave w) as [flags w1]; cbn [fst snd] in *.
  destruct (flags =? MAILBOX_LOCK_FAILED); [by exists w1|].
  cbn [mailbox_registers initialised].
  pose proof (fun j => register_read_frame w1 (mbox_int RECEIVE_CPU) j eq_refl) as S2.
  pose proof (register_read_quiet w1 (mbox_int RECEIVE_CPU)) as Q2.
  destruct (register_read w1 _ _) as [interrupt_mask w2]; cbn [fst snd] in *.
  assert (S3 : same_slots w (fence_iorw w2)).
  { intros j. by rewrite fence_iorw_frame, S2, S1. }
  destruct (receive_commands_locked array capacity (u8 interrupt_mask)
              (fence_iorw w2) Hcap Hmax) as (w' & -> & Hs & D).
  rewrite (owned_slots_same w (fence_iorw w2)) in * by (intros; apply S3).
  cbn [mbind option_bind]. eexists. split_and!.
  - f_equal. f_equal. f_equal. f_equal. f_equal. apply map_ext. intros i. by rewrite S3.
  - intros j. rewrite unlock_frame, Hs by done. by rewrite S3.
  - eexists. apply unlock_events.
  - pose proof (wrote_events _ _ _ (unlock_events w' flags)) as D4.
    pose proof (wrote_trans _ _ _ _ _ _ _ D1 (wrote_quiet _ _ _ _ _ Q2
      (wrote_quiet _ _ _ _ _ (fence_quiet w2) (wrote_trans _ _ _ _ _ _ _ D D4)))) as D5.
    cbn in D5. by rewrite app_nil_r in D5.
Qed.

(** C26: receiving under the lock. The oldest-numbered slots Linux owns, up to the
    capacity, are copied in slot order to the front of the caller's array, which
    is otherwise as it was; exactly those slots are cleared; the count is
    returned and the lock released last. A refused lock receives nothing. *)
Theorem mailbox_receive_takes_owned `{!MailboxLaws W (fun _ => true)} array capacity w :
  0 < capacity <= Z.of_nat (length array) -> Z.of_nat MAILBOX_MAX_NUM < 2 ^ 32 ->
  let flags := (drv_spin_lock_irqsave w).1 in
  let taken := take (Z.to_nat capacity) (owned_slots w (seq 0 MAILBOX_MAX_NUM)) in
  exists w',
    if flags =? MAILBOX_LOCK_FAILED
    then sg2002_rtos_mailbox_receive initialised (Some array) capacity w =
           Some (0, Some array, w') /\ same_slots w w'
    else
      sg2002_rtos_mailbox_receive initialised (Some array) capacity w =
        Some (Z.of_nat (length taken),
              Some (map (fun i => cmdqu_of_word (slot_value w i)) taken ++
                    drop (length taken) array), w') /\
      (forall j, slot_value w' j = if decide (j ∈ taken) then 0 else slot_value w j) /\
      exists before, events w' = before ++ [EvUnlock flags].
Proof.
  intros Hcap Hmax flags taken.
  destruct (receive_spec array capacity w Hcap Hmax) as (w' & Hr). exists w'.
  fold flags taken in Hr. destruct (_ =? _); [by destruct Hr as (? & ? & _)|].
  by destruct Hr as (? & ? & ? & _).
Qed.

Lemma isr_receive_spec `{!MailboxLaws W published} array capacity w :
  0 < capacity <= Z.of_nat (length array) -> Z.of_nat MAILBOX_MAX_NUM < 2 ^ 32 ->
  exists (taken : list (nat * Z)) w',
    sg2002_rtos_mailbox_receive_from_isr initialised (Some array) capacity w =
      Some (Z.of_nat (length taken),
            Some (map (fun p => cmdqu_of_word p.2) taken ++
                  drop (length taken) array), w') /\
    sublist taken.*1 (seq 0 MAILBOX_MAX_NUM) /\
    Forall (fun p => linux_owned p.2 = true) taken /\
    (forall i, (i < MAILBOX_MAX_NUM)%nat -> linux_owned (slot_value w i) = true ->
      (i, slot_value w i) ∈ taken \/
      Z.of_nat (length taken) = capacity /\ i ∉ taken.*1) /\
    (forall j, published (slot_value w j) = true -> j ∉ taken.*1 ->
      slot_value w' j = slot_value w j) /\
    wrote w w' [] ((fun p => (p.1, 0)) <$> taken).
Proof.
  intros Hcap Hmax. unfold sg2002_rtos_mailbox_receive_from_isr, receive_commands.
  replace (capacity =? 0) with false by lia. cbn [mailbox_registers initialised].
  pose proof (register_read_keeps w (mbox_int RECEIVE_CPU)) as K1.
  pose proof (register_read_quiet w (mbox_int RECEIVE_CPU)) as Q1.
  destruct (register_read w _ _) as [interrupt_mask w1]; cbn [snd] in K1, Q1.
  set (w2 := fence_iorw (acknowledge _ _ _ _)).
  assert (K2 : keeps w w2).
  { etransitivity; [exact K1|]. etransitivity; [apply fence_keeps|].
    etransitivity; [apply acknowledge_keeps|]. apply fence_keeps. }
  assert (Q2 : quiet w w2).
  { etransitivity; [exact Q1|]. etransitivity; [apply fence_quiet|].
    etransitivity; [apply acknowledge_quiet|]. apply fence_quiet. }
  destruct (copy_slots_interrupt (seq 0 MAILBOX_MAX_NUM) capacity w2 [] array)
    as (taken & Hsub & Hall & Hin & w' & E & Hs & D);
    [apply NoDup_seq|rewrite length_seq; cbn [length]; lia|cbn [length]; lia|].
  cbn [length app] in E, Hin. rewrite Nat.add_0_l in *.
  change (Z.of_nat 0) with 0 in E. rewrite E. cbn [mbind option_bind].
  exists taken, w'. split_and!; try done.
  - intros i Hi Ho. rewrite <- (K2 i) in Ho |- * by by apply linux_owned_published.
    apply Hin; [|done]. apply elem_of_seq. lia.
  - intros j Hj Hn. rewrite <- (K2 j Hj) in Hj |- *. by apply Hs.
  - by eapply wrote_quiet.
Qed.

(** C17: receiving in the interrupt handler, without the lock, while Linux may post
    commands into free slots between any two accesses. Every command returned is
    one Linux had published; every slot Linux owned on entry is returned with its
    word (unless the array filled up), each slot at most once and in slot order;
    published slots that were not returned are intact; the array is not written past
    the count; and the handler stores a zero once in each slot it took, in that order,
    and in no other, and does not touch the lock. *)
Theorem mailbox_isr_receives `{!MailboxLaws W published} array capacity w :
  0 < capacity <= Z.of_nat (length array) -> Z.of_nat MAILBOX_MAX_NUM < 2 ^ 32 ->
  exists (taken : list (nat * Z)) w',
    sg2002_rtos_mailbox_receive_from_isr initialised (Some array) capacity w =
      Some (Z.of_nat (length taken),
            Some (map (fun p => cmdqu_of_word p.2) taken ++
                  drop (length taken) array), w') /\
    sublist taken.*1 (seq 0 MAILBOX_MAX_NUM) /\
    Forall (fun p => linux_owned p.2 = true) taken /\
    (forall i, (i < MAILBOX_MAX_NUM)%nat -> linux_owned (slot_value w i) = true ->
      (i, slot_value w i) ∈ taken \/
      Z.of_nat (length taken) = capacity /\ i ∉ taken.*1) /\
    (forall j, published (slot_value w j) = true -> j ∉ taken.*1 ->
      slot_value w' j = slot_value w j) /\
    wrote w w' [] ((fun p => (p.1, 0)) <$> taken).
Proof. apply isr_receive_spec. Qed.

End Properties.

(** ** Witnesses *)

Definition demo_command : cmdqu_t := Cmdqu 6 0x60 0 (Valid 1 0) 0x1234.
Definition demo_empty : cmdqu_t := Cmdqu 0 0 0 (Valid 0 0) 0.

(** Slot 0 holds a reply Linux has not read, slot 2 a command. *)
Definition demo_board (incoming : list (nat * Z)) : Board.t :=
  Board.Make
    {[ 0%nat := cmdqu_word (rtos_reply demo_command); 2%nat := cmdqu_word demo_command ]}
    (fun _ => 0) [] incoming 1.

Lemma mailbox_send_posts_reply_witness :
  let '(result, w') :=
    @sg2002_rtos_mailbox_send _ (Board.hardware id) (@initialised _ (Board.hardware id))
      (Some demo_command) 1 (demo_board []) in
  result = 0 /\ Board.value w' 1 = cmdqu_word (rtos_reply demo_command) /\
  (forall j, j <> 1%nat -> Board.value w' j = Board.value (demo_board []) j) /\
  exists info, Board.log w' = [EvLock 1] ++
    post_events (rtos_reply demo_command) 1 1 info ++ [EvUnlock 1].
Proof.
  refine (@mailbox_send_posts_reply _ (Board.hardware id) Board.quiet_laws
            demo_command 1 (demo_board []) _).
  unfold cmdqu_wf, in_range; cbn. lia.
Defined.

Lemma mailbox_receive_takes_owned_witness :
  exists w',
    @sg2002_rtos_mailbox_receive _ (Board.hardware id)
      (@initialised _ (Board.hardware id)) (Some [demo_empty; demo_empty]) 2
      (demo_board []) = Some (1, Some [demo_command; demo_empty], w') /\
    (forall j, Board.value w' j =
       if decide (j ∈ [2%nat]) then 0 else Board.value (demo_board []) j) /\
    exists before, Board.log w' = before ++ [EvUnlock 1].
Proof.
  refine (@mailbox_receive_takes_owned _ (Board.hardware id) Board.quiet_laws
            [demo_empty; demo_empty] 2 (demo_board []) _ _); cbn; lia.
Defined.

(** Linux posts in slot 1 while the handler is scanning. *)
Lemma mailbox_isr_receives_witness :
  exists taken w',
    @sg2002_rtos_mailbox_receive_from_isr _ (Board.hardware Board.linux_turn)
      (@initialised _ (Board.hardware id)) (Some [demo_empty; demo_empty]) 2
      (demo_board [(1%nat, cmdqu_word demo_command)]) =
      Some (Z.of_nat (length taken),
            Some (map (fun p : nat * Z => cmdqu_of_word p.2) taken ++
                  drop (length taken) [demo_empty; demo_empty]), w') /\
    sublist taken.*1 (seq 0 8) /\
    Forall (fun p => linux_owned p.2 = true) taken.
Proof.
  destruct (@mailbox_isr_receives _ (Board.hardware Board.linux_turn) Board.busy_laws
              [demo_empty; demo_empty] 2 (demo_board [(1%nat, cmdqu_word demo_command)])
              ltac:(cbn; lia) ltac:(cbn; lia)) as (taken & w' & E & Hs & Ha & _).
  exists taken, w'. split_and!; done.
Defined.

Example isr_sees_concurrent_post :
  (r ← @sg2002_rtos_mailbox_receive_from_isr _ (Board.hardware Board.linux_turn)
         (@initialised _ (Board.hardware id)) (Some [demo_empty; demo_empty]) 2
         (demo_board [(1%nat, cmdqu_word demo_command)]);
   Some r.1) = Some (2, Some [demo_command; demo_command]).
Proof. vm_compute. reflexivity. Qed.
