(* ===== verification/CommMain.v ===== *)
(** * Firmware command task and mailbox interrupt:
      [ports/duo-sdk/overlay/freertos/cvitek/task/comm/src/riscv64/comm_main.c]

    The file's statics, FreeRTOS queues and hardware are the components of the
    record [comm]: the mailbox hardware, the device registers, the shared
    memory, the queues and the rest of the vendor code each have an interface of
    their own and a state of their own. Boot traces and messages are recorded in
    [log]. The [for (;;)] of the task is [cmdqu_iteration], run [n] times by
    [cmdqu_run]. The branches under [configUSE_TRACE_FACILITY] and
    [FAST_IMAGE_ENABLE] are compiled out in this model. *)

From S2P Require Import Prelude Protocol Shm SharedMemory Ring Gpio App.
From S2P Require Import ShmTransport Cmdqu Mailbox.
Local Open Scope Z_scope.

(** ** Interfaces *)

(** FreeRTOS queues of commands; a handle is an address, [0] is [NULL]. The
    booleans are [pdPASS] and [pdTRUE]. *)
Class FreeRtos (Q : Type) := {
  xQueueCreate : Q -> Z -> Z * Q;
  xQueueSend : Q -> Z -> cmdqu_t -> bool * Q;
  xQueueSendFromISR : Q -> Z -> cmdqu_t -> bool -> bool * bool * Q;
  xQueueReceive : Q -> Z -> Z -> option cmdqu_t * Q;
  xTaskCreate : Q -> string -> Z -> Z -> Q;
  vTaskStartScheduler : Q -> Q;
  portYIELD_FROM_ISR : Q -> bool -> Q;
}.

Class FreeRtosLaws (Q : Type) `{FreeRtos Q} := {
  queue : Q -> Z -> list cmdqu_t;
  queue_length : Q -> Z -> nat;
  queue_send q h c :
    (xQueueSend q h c).1 = (length (queue q h) <? queue_length q h)%nat;
  queue_send_contents q h c h' :
    queue (xQueueSend q h c).2 h' =
      (if (h =? h') && (xQueueSend q h c).1 then queue q h' ++ [c] else queue q h');
  queue_send_length q h c h' :
    queue_length (xQueueSend q h c).2 h' = queue_length q h';
  queue_send_isr q h c woken :
    (xQueueSendFromISR q h c woken).1.1 = (length (queue q h) <? queue_length q h)%nat;
  queue_send_isr_contents q h c woken h' :
    queue (xQueueSendFromISR q h c woken).2 h' =
      (if (h =? h') && (xQueueSendFromISR q h c woken).1.1
       then queue q h' ++ [c] else queue q h');
  queue_send_isr_length q h c woken h' :
    queue_length (xQueueSendFromISR q h c woken).2 h' = queue_length q h';
  queue_receive q h timeout c rest :
    queue q h = c :: rest -> (xQueueReceive q h timeout).1 = Some c;
  queue_receive_contents q h timeout c rest h' :
    queue q h = c :: rest ->
    queue (xQueueReceive q h timeout).2 h' =
      (if h =? h' then rest else queue q h');
  queue_yield q woken h : queue (portYIELD_FROM_ISR q woken) h = queue q h;
  queue_yield_length q woken h :
    queue_length (portYIELD_FROM_ISR q woken) h = queue_length q h;
}.

Inductive csr := mstatus | mie | mip.

(** Vendor constants and functions. *)
Class CommVendor (V : Type) := {
  E_QUEUE_ISP : Z; E_QUEUE_VCODEC : Z; E_QUEUE_VI : Z; E_QUEUE_CAMERA : Z;
  E_QUEUE_RGN : Z; E_QUEUE_CMDQU : Z; E_QUEUE_AUDIO : Z; E_QUEUE_MAX : Z;
  configMINIMAL_STACK_SIZE : Z; tskIDLE_PRIORITY : Z;
  SEND_TO_CPU0 : Z; SEND_TO_CPU1 : Z;
  C906_MAGIC_HEADER : Z; CA53_MAGIC_HEADER : Z; MCU_STATUS_RTOS_T1_RUNNING : Z;
  STOP_CMD_DONE_VI : Z; STOP_CMD_DONE_VCODE : Z; STOP_CMD_DONE_ALL : Z;
  SYS_CMD_INFO_DUMP_JPG : Z;
  MBOX_INT_C906_2ND : Z;
  PLIC_PENDING1 : Z; PLIC_ENABLE1 : Z; PLIC_PRIORITY0 : Z; PLIC_THRESHOLD : Z;
  pdMS_TO_TICKS : Z -> Z;
  read_csr : V -> csr -> Z * V;
  request_irq : V -> Z * V;
  dump_uart_enable : V -> V;
  dump_uart_disable : V -> V;
  dump_uart_msg : V -> Z * V;
  (** [(uint32_t)(uintptr_t)&transfer_config] *)
  transfer_config_address : Z;
}.

(** What the code reports through [cvitek_boot_trace_*] and [printf]. *)
Inductive log_entry :=
| TraceTaskReady (word : Z)
| TraceIsrEntry (diagnostics : Z)
| TraceIrqResult (word : Z)
| TraceIrqDiagnostics (reason initial current plic csr irqs recoveries : Z)
| TraceMark (stage : string)
| MessageUnknownIp (ip cmd : Z)
| MessageNoMailbox (ip cmd : Z).

Definition DIAG_REASON_INIT : Z := 0.
Definition DIAG_REASON_ISR : Z := 1.
Definition DIAG_REASON_RECOVERY : Z := 2.

(** ** State *)

(** [TASK_CTX_S]; [runTask] says whether the pointer is not [NULL]. *)
Record task_ctx := TaskCtx {
  name : string;
  stack_size : Z;
  priority : Z;
  runTask : bool;
  queLength : Z;
  queHandle : Z;
}.

(** The statics of the file and of the modules it calls, and the state of what
    it runs on. *)
Record comm (H M D Q V : Type) := Comm {
  gTaskCtx : list task_ctx;
  initial_mailbox_diagnostics : mailbox_diagnostics;
  mailbox_irq_count : Z;
  mailbox_recovery_count : Z;
  stop_ip : Z;
  conf_magic : Z;
  mcu_status : Z;
  mbox : mailbox;
  shm : transport M;
  hw : H;
  memory : M;
  device : D;
  queues : Q;
  vendor : V;
  log : list log_entry;
}.
Arguments Comm {H M D Q V}.
Arguments gTaskCtx {H M D Q V}.
Arguments initial_mailbox_diagnostics {H M D Q V}.
Arguments mailbox_irq_count {H M D Q V}.
Arguments mailbox_recovery_count {H M D Q V}.
Arguments stop_ip {H M D Q V}.
Arguments conf_magic {H M D Q V}.
Arguments mcu_status {H M D Q V}.
Arguments mbox {H M D Q V}.
Arguments shm {H M D Q V}.
Arguments hw {H M D Q V}.
Arguments memory {H M D Q V}.
Arguments device {H M D Q V}.
Arguments queues {H M D Q V}.
Arguments vendor {H M D Q V}.
Arguments log {H M D Q V}.

Section Comm.
Context {H M D Q V : Type} `{MailboxHardware H} `{SharedMemory M} `{Mmio D}
  `{FreeRtos Q} `{CommVendor V}.
Context (SG2002_RTOS_SHM_BASE : Z).
Local Abbreviation st := (comm H M D Q V).

(** Updates of one field. *)
Definition set_gTaskCtx (x : list task_ctx) (s : st) : st :=
  Comm x (initial_mailbox_diagnostics s) (mailbox_irq_count s)
    (mailbox_recovery_count s) (stop_ip s) (conf_magic s) (mcu_status s)
    (mbox s) (shm s) (hw s) (memory s) (device s) (queues s) (vendor s)
    (log s).
Definition set_initial_mailbox_diagnostics (x : mailbox_diagnostics) (s : st) : st :=
  Comm (gTaskCtx s) x (mailbox_irq_count s) (mailbox_recovery_count s)
    (stop_ip s) (conf_magic s) (mcu_status s) (mbox s) (shm s) (hw s)
    (memory s) (device s) (queues s) (vendor s) (log s).
Definition set_mailbox_irq_count (x : Z) (s : st) : st :=
  Comm (gTaskCtx s) (initial_mailbox_diagnostics s) x (mailbox_recovery_count
    s) (stop_ip s) (conf_magic s) (mcu_status s) (mbox s) (shm s) (hw s)
    (memory s) (device s) (queues s) (vendor s) (log s).
Definition set_mailbox_recovery_count (x : Z) (s : st) : st :=
  Comm (gTaskCtx s) (initial_mailbox_diagnostics s) (mailbox_irq_count s) x
    (stop_ip s) (conf_magic s) (mcu_status s) (mbox s) (shm s) (hw s)
    (memory s) (device s) (queues s) (vendor s) (log s).
Definition set_stop_ip (x : Z) (s : st) : st :=
  Comm (gTaskCtx s) (initial_mailbox_diagnostics s) (mailbox_irq_count s)
    (mailbox_recovery_count s) x (conf_magic s) (mcu_status s) (mbox s)
    (shm s) (hw s) (memory s) (device s) (queues s) (vendor s) (log s).
Definition set_mcu_status (x : Z) (s : st) : st :=
  Comm (gTaskCtx s) (initial_mailbox_diagnostics s) (mailbox_irq_count s)
    (mailbox_recovery_count s) (stop_ip s) (conf_magic s) x (mbox s) (shm
    s) (hw s) (memory s) (device s) (queues s) (vendor s) (log s).
Definition set_mbox (x : mailbox) (s : st) : st :=
  Comm (gTaskCtx s) (initial_mailbox_diagnostics s) (mailbox_irq_count s)
    (mailbox_recovery_count s) (stop_ip s) (conf_magic s) (mcu_status s) x
    (shm s) (hw s) (memory s) (device s) (queues s) (vendor s) (log s).
Definition set_shm (x : transport M) (s : st) : st :=
  Comm (gTaskCtx s) (initial_mailbox_diagnostics s) (mailbox_irq_count s)
    (mailbox_recovery_count s) (stop_ip s) (conf_magic s) (mcu_status s)
    (mbox s) x (hw s) (memory s) (device s) (queues s) (vendor s) (log s).
Definition set_hw (x : H) (s : st) : st :=
  Comm (gTaskCtx s) (initial_mailbox_diagnostics s) (mailbox_irq_count s)
    (mailbox_recovery_count s) (stop_ip s) (conf_magic s) (mcu_status s)
    (mbox s) (shm s) x (memory s) (device s) (queues s) (vendor s) (log s).
Definition set_memory (x : M) (s : st) : st :=
  Comm (gTaskCtx s) (initial_mailbox_diagnostics s) (mailbox_irq_count s)
    (mailbox_recovery_count s) (stop_ip s) (conf_magic s) (mcu_status s)
    (mbox s) (shm s) (hw s) x (device s) (queues s) (vendor s) (log s).
Definition set_device (x : D) (s : st) : st :=
  Comm (gTaskCtx s) (initial_mailbox_diagnostics s) (mailbox_irq_count s)
    (mailbox_recovery_count s) (stop_ip s) (conf_magic s) (mcu_status s)
    (mbox s) (shm s) (hw s) (memory s) x (queues s) (vendor s) (log s).
Definition set_queues (x : Q) (s : st) : st :=
  Comm (gTaskCtx s) (initial_mailbox_diagnostics s) (mailbox_irq_count s)
    (mailbox_recovery_count s) (stop_ip s) (conf_magic s) (mcu_status s)
    (mbox s) (shm s) (hw s) (memory s) (device s) x (vendor s) (log s).
Definition set_vendor (x : V) (s : st) : st :=
  Comm (gTaskCtx s) (initial_mailbox_diagnostics s) (mailbox_irq_count s)
    (mailbox_recovery_count s) (stop_ip s) (conf_magic s) (mcu_status s)
    (mbox s) (shm s) (hw s) (memory s) (device s) (queues s) x (log s).
Definition set_log (x : list log_entry) (s : st) : st :=
  Comm (gTaskCtx s) (initial_mailbox_diagnostics s) (mailbox_irq_count s)
    (mailbox_recovery_count s) (stop_ip s) (conf_magic s) (mcu_status s)
    (mbox s) (shm s) (hw s) (memory s) (device s) (queues s) (vendor s) x.

Definition on_hw {A} (f : H -> A * H) : ST st A := zoom hw set_hw f.
Definition on_device {A} (f : D -> A * D) : ST st A := zoom device set_device f.
Definition on_queues {A} (f : Q -> A * Q) : ST st A := zoom queues set_queues f.
Definition on_vendor {A} (f : V -> A * V) : ST st A := zoom vendor set_vendor f.
Definition report (e : log_entry) : ST st unit := modify (fun s => set_log (log s ++ [e]) s).
Definition call {T} (f : T -> T) (t : T) : unit * T := (tt, f t).

(** [gTaskCtx[i]]. *)
Definition task (i : Z) : ST st task_ctx :=
  tasks ← gets gTaskCtx; lift (if i <? 0 then None else tasks !! Z.to_nat i).

(** The initialiser of [gTaskCtx]. *)
Definition gTaskCtx_init : list task_ctx :=
  let small := configMINIMAL_STACK_SIZE in
  [ TaskCtx "ISP" (small * 8) (tskIDLE_PRIORITY + 3) false 1 0;
    TaskCtx "VCODEC" small (tskIDLE_PRIORITY + 3) false 1 0;
    TaskCtx "VI" small (tskIDLE_PRIORITY + 3) false 1 0;
    TaskCtx "CAMERA" small (tskIDLE_PRIORITY + 3) false 1 0;
    TaskCtx "RGN" small (tskIDLE_PRIORITY + 3) true 10 0;
    TaskCtx "CMDQU" small (tskIDLE_PRIORITY + 1) true 30 0;
    TaskCtx "AUDIO" (small * 15) (tskIDLE_PRIORITY + 3) true 10 0 ].

Definition main_GetMODHandle (handle_idx : Z) : ST st Z :=
  if E_QUEUE_MAX <=? handle_idx then mret 0
  else t ← task handle_idx; mret (queHandle t).

(** [TASK_INIT(i)]. *)
Definition task_init (i : nat) : ST st unit :=
  t ← task (Z.of_nat i);
  handle ← on_queues (fun q => xQueueCreate q (queLength t));
  modify (fun s => set_gTaskCtx
    (<[i := TaskCtx (name t) (stack_size t) (priority t) (runTask t) (queLength t)
              handle]> (gTaskCtx s)) s);;
  if negb (handle =? 0) && runTask t
  then on_queues (call (fun q => xTaskCreate q (name t) (stack_size t) (priority t)))
  else mret tt.

Definition main_create_tasks : ST st unit :=
  tasks ← gets gTaskCtx; st_iter task_init (seq 0 (length tasks)).

Definition prvQueueForIp (ip : Z) : ST st Z :=
  let handle i := t ← task i; mret (queHandle t) in
  if ip =? ip_value IP_ISP then handle E_QUEUE_ISP
  else if ip =? ip_value IP_VCODEC then handle E_QUEUE_VCODEC
  else if ip =? ip_value IP_VI then handle E_QUEUE_VI
  else if ip =? ip_value IP_RGN then handle E_QUEUE_RGN
  else if ip =? ip_value IP_AUDIO then handle E_QUEUE_AUDIO
  else if ip =? ip_value IP_SYSTEM then handle E_QUEUE_CMDQU
  else if ip =? ip_value IP_CAMERA then handle E_QUEUE_CAMERA
  else mret 0.

Definition prvQueueCommandFromTask (c : cmdqu_t) : ST st bool :=
  h ← prvQueueForIp (ip_id c);
  if h =? 0 then report (MessageUnknownIp (ip_id c) (cmd_id c));; mret false
  else on_queues (fun q => xQueueSend q h c).

(** [*higher_priority_task_woken] is threaded. *)
Definition prvQueueCommandFromISR (c : cmdqu_t) (woken : bool) : ST st (bool * bool) :=
  h ← prvQueueForIp (ip_id c);
  if h =? 0 then mret (false, woken)
  else on_queues (fun q => xQueueSendFromISR q h c woken).

Definition prvPackMailboxDiagnostics (d : mailbox_diagnostics) : Z :=
  Z.lor (Z.lor (Z.lor (u32 (enabled d)) (u32 (Z.shiftl (u32 (raw d)) 8)))
    (u32 (Z.shiftl (u32 (mask d)) 16))) (u32 (Z.shiftl (u32 (pending d)) 24)).

Definition prvPlicDiagnostics : ST st Z :=
  let bit := u32 (Z.shiftl 1 (MBOX_INT_C906_2ND mod 32)) in
  let offset := u32 (MBOX_INT_C906_2ND / 32 * 4) in
  pending ← on_device (fun d => mmio_read_32 d (PLIC_PENDING1 + offset));
  enabled ← on_device (fun d => mmio_read_32 d (PLIC_ENABLE1 + offset));
  priority ← on_device (fun d => mmio_read_32 d (PLIC_PRIORITY0 + MBOX_INT_C906_2ND * 4));
  threshold ← on_device (fun d => mmio_read_32 d PLIC_THRESHOLD);
  mret (Z.lor (Z.lor (Z.lor
    (if negb (Z.land pending bit =? 0) then 1 else 0)
    (if negb (Z.land enabled bit =? 0) then 2 else 0))
    (u32 (Z.shiftl (Z.land priority 0xff) 8)))
    (u32 (Z.shiftl (Z.land threshold 0xff) 16))).

Definition prvCsrDiagnostics : ST st Z :=
  status ← on_vendor (fun v => read_csr v mstatus);
  ie ← on_vendor (fun v => read_csr v mie);
  ip ← on_vendor (fun v => read_csr v mip);
  mret (u32 (Z.lor (Z.lor (Z.shiftl (Z.land (Z.shiftr status 3) 1) 0)
    (Z.shiftl (Z.land (Z.shiftr ie 11) 1) 1))
    (Z.shiftl (Z.land (Z.shiftr ip 11) 1) 2))).

Definition prvTraceMailboxDiagnostics (reason : Z) (d : mailbox_diagnostics)
    (plic_state csr_state : Z) : ST st unit :=
  s ← gets id;
  report (TraceIrqDiagnostics reason
    (prvPackMailboxDiagnostics (initial_mailbox_diagnostics s))
    (prvPackMailboxDiagnostics d) plic_state csr_state
    (mailbox_irq_count s) (mailbox_recovery_count s)).

(** [sg2002_rtos_mailbox_get_diagnostics(&d)] for a local [d]. *)
Definition read_diagnostics : ST st mailbox_diagnostics :=
  mb ← gets mbox;
  d ← on_hw (sg2002_rtos_mailbox_get_diagnostics mb
               (Some (MailboxDiagnostics 0 0 0 0)));
  lift d.

Definition main_cvirtos : ST st unit :=
  mb ← on_hw sg2002_rtos_mailbox_init;
  modify (set_mbox mb);;
  modify (fun s => set_shm (sg2002_rtos_shm_transport_init (shm s)) s);;
  d ← read_diagnostics;
  modify (set_initial_mailbox_diagnostics d);;
  on_hw (call (sg2002_rtos_mailbox_enable_receiver mb));;
  main_create_tasks;;
  t ← task E_QUEUE_CMDQU;
  irq_ret ← (if queHandle t =? 0 then mret (-1) else on_vendor request_irq);
  ready ← read_diagnostics;
  plic ← prvPlicDiagnostics;
  csr ← prvCsrDiagnostics;
  prvTraceMailboxDiagnostics DIAG_REASON_INIT ready plic csr;;
  report (TraceIrqResult
    (Z.lor (u32 (Z.shiftl (Z.land (u32 MBOX_INT_C906_2ND) 0xffff) 16))
           (Z.land (u32 irq_ret) 0xffff)));;
  report (TraceMark "IRQ_READY");;
  on_queues (call vTaskStartScheduler).

(** *** Receiving from the mailbox *)

Definition on_hw_option {A} (f : H -> option (A * H)) : ST st A := fun s =>
  match f (hw s) with
  | Some (a, h) => Some (a, set_hw h s)
  | None => None
  end.

(** [cmdqu_t pending[SG2002_RTOS_MAILBOX_SLOT_COUNT]], a local; its entries are
    only read below the count. *)
Definition SG2002_RTOS_MAILBOX_SLOT_COUNT : Z := 8.
Definition SG2002_RTOS_MAILBOX_RECOVERY_INTERVAL_MS : Z := 100.
Definition pending_array : list cmdqu_t :=
  replicate (Z.to_nat SG2002_RTOS_MAILBOX_SLOT_COUNT) (Cmdqu 0 0 0 (Valid 0 0) 0).

(** The loop over [pending] in the interrupt handler. *)
Fixpoint queue_from_isr (pending : list cmdqu_t) (indices : list nat) (woken : bool) :
    ST st bool :=
  match indices with
  | [] => mret woken
  | i :: indices =>
      c ← lift (pending !! i);
      '(_, woken) ← prvQueueCommandFromISR c woken;
      queue_from_isr pending indices woken
  end.

Definition prvMailboxISR : ST st Z :=
  d ← read_diagnostics;
  plic_state ← prvPlicDiagnostics;
  csr_state ← prvCsrDiagnostics;
  mb ← gets mbox;
  '(count, pending) ← on_hw_option
    (sg2002_rtos_mailbox_receive_from_isr mb (Some pending_array)
       SG2002_RTOS_MAILBOX_SLOT_COUNT);
  pending ← lift pending;
  modify (fun s => set_mailbox_irq_count (u32 (mailbox_irq_count s + 1)) s);;
  irqs ← gets mailbox_irq_count;
  (if irqs =? 1 then report (TraceIsrEntry (prvPackMailboxDiagnostics d)) else mret tt);;
  (if (irqs <=? 4) || (Z.land irqs 0xff =? 0)
   then prvTraceMailboxDiagnostics DIAG_REASON_ISR d plic_state csr_state
   else mret tt);;
  woken ← queue_from_isr pending (seq 0 (Z.to_nat count)) false;
  on_queues (call (fun q => portYIELD_FROM_ISR q woken));;
  mret 0.

Definition note_recovery (count : Z) (d : mailbox_diagnostics)
    (plic_state csr_state : Z) : ST st unit :=
  if 0 <? count then
    modify (fun s => set_mailbox_recovery_count (u32 (mailbox_recovery_count s + 1)) s);;
    prvTraceMailboxDiagnostics DIAG_REASON_RECOVERY d plic_state csr_state
  else mret tt.

(** The loop over [pending] in the task. *)
Definition queue_from_task (pending : list cmdqu_t) (indices : list nat) : ST st unit :=
  st_iter (fun i => c ← lift (pending !! i); prvQueueCommandFromTask c;; mret tt) indices.

Definition prvRecoverMailbox : ST st unit :=
  d ← read_diagnostics;
  plic_state ← prvPlicDiagnostics;
  csr_state ← prvCsrDiagnostics;
  mb ← gets mbox;
  '(count, pending) ← on_hw_option
    (sg2002_rtos_mailbox_receive mb (Some pending_array)
       SG2002_RTOS_MAILBOX_SLOT_COUNT);
  pending ← lift pending;
  note_recovery count d plic_state csr_state;;
  queue_from_task pending (seq 0 (Z.to_nat count)).

(** *** The command task *)

(** Up to the loop: the mailbox to answer to. *)
Definition prvCmdQuRunTask_start : ST st Z :=
  report (TraceMark "CMDQU_TASK");;
  modify (set_mcu_status MCU_STATUS_RTOS_T1_RUNNING);;
  magic ← gets conf_magic;
  let send_to_cpu :=
    if magic =? C906_MAGIC_HEADER then SEND_TO_CPU1
    else if magic =? CA53_MAGIC_HEADER then SEND_TO_CPU0
    else SEND_TO_CPU1 in
  report (TraceTaskReady
    (Z.lor (u32 (Z.shiftl (Z.land (u32 RECEIVE_CPU) 0xffff) 16))
           (Z.land (u32 send_to_cpu) 0xffff)));;
  mret send_to_cpu.

(** [send_label]. *)
Definition send_reply (send_to_cpu : Z) (c : cmdqu_t) : ST st unit :=
  mb ← gets mbox;
  result ← on_hw (sg2002_rtos_mailbox_send mb (Some c) send_to_cpu);
  if negb (result =? 0) then report (MessageNoMailbox (ip_id c) (cmd_id c))
  else mret tt.

(** [xQueueSend(gTaskCtx[i].queHandle, &rtos_cmdq, 0U)]. *)
Definition forward (i : Z) (c : cmdqu_t) : ST st unit :=
  t ← task i; on_queues (fun q => xQueueSend q (queHandle t) c);; mret tt.

(** The [switch]. *)
Definition system_command (send_to_cpu : Z) (c : cmdqu_t) : ST st unit :=
  let cmd := cmd_id c in
  let this k := cmd =? sys_cmd_value k in
  if cmd =? SYS_CMD_INFO_DUMP_JPG then mret tt
  else if this SYS_CMD_INFO_DUMP_EN then on_vendor (call dump_uart_enable)
  else if this SYS_CMD_INFO_DUMP_DIS then on_vendor (call dump_uart_disable)
  else if this SYS_CMD_INFO_DUMP_MSG then
    message ← on_vendor dump_uart_msg;
    send_reply send_to_cpu
      (set_param_ptr (u32 message) (set_cmd_id (sys_cmd_value SYS_CMD_INFO_DUMP_MSG) c))
  else if this SYS_CMD_INFO_LINUX_INIT_DONE then
    send_reply send_to_cpu
      (set_param_ptr (u32 transfer_config_address)
         (set_cmd_id (sys_cmd_value SYS_CMD_INFO_RTOS_INIT_DONE) c))
  else if this SYS_CMD_INFO_STOP_ISR then
    modify (set_stop_ip 0);;
    forward E_QUEUE_VI
      (set_ip_id (ip_value IP_VI) (set_cmd_id (sys_cmd_value SYS_CMD_INFO_STOP_ISR) c))
  else if this SYS_CMD_INFO_STOP_ISR_DONE then
    if ip_id c =? ip_value IP_VI then
      modify (fun s => set_stop_ip (Z.lor (stop_ip s) STOP_CMD_DONE_VI) s);;
      forward E_QUEUE_VCODEC
        (set_cmd_id (sys_cmd_value SYS_CMD_INFO_STOP_ISR)
           (set_ip_id (ip_value IP_VCODEC) c))
    else
      (if ip_id c =? ip_value IP_VCODEC
       then modify (fun s => set_stop_ip (Z.lor (stop_ip s) STOP_CMD_DONE_VCODE) s)
       else mret tt);;
      stopped ← gets stop_ip;
      if negb (stopped =? STOP_CMD_DONE_ALL) then mret tt
      else send_reply send_to_cpu (set_ip_id (ip_value IP_SYSTEM) c)
  else send_reply send_to_cpu c.

(** [sg2002_rtos_shm_process(NULL)]. *)
Definition shm_process : ST st process_result := fun s =>
  match sg2002_rtos_shm_process SG2002_RTOS_SHM_BASE None (shm s) (memory s) (device s) with
  | Some (result, _, t, m, d) => Some (result, set_shm t (set_memory m (set_device d s)))
  | None => None
  end.

(** The body of the loop after a command was dequeued. *)
Definition handle_command (send_to_cpu : Z) (c : cmdqu_t) : ST st unit :=
  let system := ip_id c =? ip_value IP_SYSTEM in
  if system && (cmd_id c =? SG2002_RTOS_SHM_DOORBELL_COMMAND) then
    shm_process;;
    generation ← gets (fun s => sg2002_rtos_shm_generation (shm s));
    send_reply send_to_cpu (set_block 0 (set_param_ptr generation c))
  else
    '(result, value) ←
      (if system
       then on_device (sg2002_rtos_app_handle (cmd_id c) (Some (param_ptr c)))
       else mret (APP_UNHANDLED, Some (param_ptr c)));
    let c := set_param_ptr (default (param_ptr c) value) c in
    if system && bool_decide (result = APP_HANDLED)
    then send_reply send_to_cpu (set_ip_id (ip_value IP_SYSTEM) c)
    else system_command send_to_cpu c.

Definition cmdqu_iteration (send_to_cpu : Z) : ST st unit :=
  t ← task E_QUEUE_CMDQU;
  received ← on_queues (fun q => xQueueReceive q (queHandle t)
    (pdMS_TO_TICKS SG2002_RTOS_MAILBOX_RECOVERY_INTERVAL_MS));
  match received with
  | None => prvRecoverMailbox
  | Some c => handle_command send_to_cpu c
  end.

(** [n] turns of the [for (;;)]. *)
Fixpoint cmdqu_run (n : nat) (send_to_cpu : Z) : ST st unit :=
  match n with
  | O => mret tt
  | S n => cmdqu_iteration send_to_cpu;; cmdqu_run n send_to_cpu
  end.

End Comm.

(** ** Specification of the routing *)

(** The table index a command is queued at. *)
Definition spec_route (ip : Z) : option nat :=
  match ip with
  | 0 => Some 0%nat | 1 => Some 1%nat | 3 => Some 2%nat | 7 => Some 3%nat
  | 4 => Some 4%nat | 6 => Some 5%nat | 5 => Some 6%nat
  | _ => None
  end.

(** The queue of a command, [0] when its block has none. *)
Definition spec_queue (handles : list Z) (ip : Z) : Z :=
  match spec_route ip with
  | Some i => default 0 (handles !! i)
  | None => 0
  end.

(** What the vendor headers fix: the queues are numbered in the order of the
    table, all blocks are stopped when VI and VCODEC are, and the [case] labels
    of the switch are distinct. *)
Class CommVendorLaws (V : Type) `{CommVendor V} := {
  stop_done_all : STOP_CMD_DONE_ALL = Z.lor STOP_CMD_DONE_VI STOP_CMD_DONE_VCODE;
  dump_jpg_distinct k : SYS_CMD_INFO_DUMP_JPG <> sys_cmd_value k;
  queue_order : [E_QUEUE_ISP; E_QUEUE_VCODEC; E_QUEUE_VI; E_QUEUE_CAMERA; E_QUEUE_RGN;
                 E_QUEUE_CMDQU; E_QUEUE_AUDIO; E_QUEUE_MAX] = [0; 1; 2; 3; 4; 5; 6; 7];
}.

Section Theory.
Context {H M D Q V : Type} `{MailboxHardware H} `{SharedMemoryLaws M} `{Mmio D}
  `{FreeRtosLaws Q} `{CommVendorLaws V}.
Context (base : Z).
Local Abbreviation st := (comm H M D Q V).
Implicit Types (s : st) (c : cmdqu_t).

(** The queues were created. *)
Definition queues_created s (handles : list Z) : Prop :=
  map queHandle (gTaskCtx s) = handles /\ length handles = 7%nat /\
  Forall (fun h => h <> 0) handles.

Lemma task_at s handles i (n : nat) :
  queues_created s handles -> i = Z.of_nat n -> (n < 7)%nat ->
  exists t, task i s = Some (t, s) /\ queHandle t = default 0 (handles !! n) /\
    queHandle t <> 0.
Proof.
  intros (<- & Hlen & Hne) -> Hn. rewrite length_map in Hlen. unfold task. run_st.
  replace (Z.of_nat n <? 0) with false by lia. rewrite Nat2Z.id.
  destruct (lookup_lt_is_Some_2 (gTaskCtx s) n ltac:(lia)) as [t Ht].
  rewrite Ht. exists t. rewrite list_lookup_fmap, Ht. split_and!; try done.
  apply (Forall_lookup_1 (fun h => h <> 0) (map queHandle (gTaskCtx s)) n); [done|].
  by rewrite list_lookup_fmap, Ht.
Qed.

Lemma prvQueueForIp_spec s handles ip :
  queues_created s handles ->
  prvQueueForIp ip s = Some (spec_queue handles ip, s) /\
  (spec_queue handles ip <> 0 <-> is_Some (spec_route ip)).
Proof.
  intros Hq. pose proof queue_order as Ho. injection Ho as E0 E1 E2 E3 E4 E5 E6 _.
  unfold prvQueueForIp, spec_queue.
  assert (Htask : forall i n, i = Z.of_nat n -> (n < 7)%nat ->
    (t ← task i; mret (queHandle t)) s = Some (default 0 (handles !! n), s) /\
    default 0 (handles !! n) <> 0).
  { intros i n Hi Hn. destruct (task_at s handles i n Hq Hi Hn) as (t & Et & <- & Hne).
    run_st. by rewrite Et. }
  cbn [ip_value].
  repeat match goal with
  | |- context [if ip =? ?k then _ else _] =>
      destruct (ip =? k) eqn:?;
      [replace ip with k by lia; cbn [spec_route];
       match goal with |- context [handles !! ?n] =>
         split; [apply (Htask _ n); (done || lia)|];
         split; [by eauto|intros _; apply (Htask (Z.of_nat n) n); (done || lia)]
       end|]
  end.
  assert (spec_route ip = None) as ->.
  { destruct ip as [|[[[]|[]|]|[[]|[]|]|]|]; cbn in *; done || lia. }
  split; [done|]. split; [done|by intros []].
Qed.

(** *** Delivery to the queues *)

(** One command offered to the queue [h0]. *)
Definition offered (q q1 : Q) (h0 : Z) c : Prop :=
  (forall h, queue q1 h =
    if (h0 =? h) && (length (queue q h0) <? queue_length q h0)%nat
    then queue q h ++ [c] else queue q h) /\
  (forall h, queue_length q1 h = queue_length q h).

(** Every queue received its commands of [cs], in order, up to its length. *)
Definition delivered (handles : list Z) (q q' : Q) (cs : list cmdqu_t) : Prop :=
  forall h, h <> 0 ->
    queue q' h = queue q h ++ take (queue_length q h - length (queue q h))
      (filter (fun c => spec_queue handles (ip_id c) = h) cs) /\
    queue_length q' h = queue_length q h.

Lemma delivered_nil handles q : delivered handles q q [].
Proof. intros h _. cbn. by rewrite take_nil, app_nil_r. Qed.

Lemma delivered_skip handles q q' c cs :
  spec_queue handles (ip_id c) = 0 ->
  delivered handles q q' cs -> delivered handles q q' (c :: cs).
Proof.
  intros E Hd h Hh. rewrite filter_cons_False by congruence. by apply Hd.
Qed.

Lemma delivered_cons handles q q1 q' c cs :
  offered q q1 (spec_queue handles (ip_id c)) c ->
  delivered handles q1 q' cs -> delivered handles q q' (c :: cs).
Proof.
  intros [Hq Hl] Hd h Hh. destruct (Hd h Hh) as [E El]. rewrite E, El, Hl, Hq.
  set (h0 := spec_queue handles (ip_id c)). split; [|done].
  destruct (h0 =? h) eqn:Eh; cbn [andb].
  - assert (Eh' : h0 = h) by lia.
    rewrite (filter_cons_True _ c) by done. rewrite Eh'.
    destruct (length (queue q h) <? queue_length q h)%nat eqn:Er.
    + replace (queue_length q h - length (queue q h))%nat
        with (S (queue_length q h - length (queue q h ++ [c])))
        by (rewrite length_app; cbn [length]; lia).
      cbn [take]. by rewrite <- app_assoc.
    + by replace (queue_length q h - length (queue q h))%nat with O by lia.
  - rewrite filter_cons_False; [done|]. intros E'. fold h0 in E'. lia.
Qed.

Lemma send_offered q h c : offered q (xQueueSend q h c).2 h c.
Proof.
  split; intros h'; [|apply queue_send_length].
  by rewrite queue_send_contents, queue_send.
Qed.

Lemma send_isr_offered q h c woken : offered q (xQueueSendFromISR q h c woken).2 h c.
Proof.
  split; intros h'; [|apply queue_send_isr_length].
  by rewrite queue_send_isr_contents, queue_send_isr.
Qed.

Lemma queue_from_isr_spec handles s cs : forall pre rest woken q,
  queues_created s handles ->
  exists woken' q',
    queue_from_isr (pre ++ cs ++ rest) (seq (length pre) (length cs)) woken
      (set_queues q s) = Some (woken', set_queues q' s) /\
    delivered handles q q' cs.
Proof.
  induction cs as [|c cs IH]; intros pre rest woken q Hq.
  { exists woken, q. split; [done|apply delivered_nil]. }
  cbn [length seq queue_from_isr]. unfold prvQueueCommandFromISR. run_st.
  rewrite lookup_app_r, Nat.sub_diag by lia. cbn [app lookup list_lookup]. run_st.
  destruct (prvQueueForIp_spec (set_queues q s) handles (ip_id c) Hq) as [-> _].
  specialize (IH (pre ++ [c]) rest).
  rewrite length_app, <- app_assoc in IH. cbn [length app] in IH.
  rewrite Nat.add_1_r in IH.
  destruct (spec_queue handles (ip_id c) =? 0) eqn:Eh.
  - destruct (IH woken q Hq) as (woken' & q' & E & Hd).
    exists woken', q'. split; [exact E|]. apply delivered_skip; [lia|done].
  - unfold on_queues, zoom. cbn [queues set_queues].
    pose proof (send_isr_offered q (spec_queue handles (ip_id c)) c woken) as Ho.
    destruct (xQueueSendFromISR q _ c woken) as [[ok woken1] q1]; cbn [snd] in Ho.
    destruct (IH woken1 q1 Hq) as (woken' & q' & E & Hd).
    exists woken', q'. split; [exact E|]. by eapply delivered_cons.
Qed.

Lemma queue_from_task_spec handles s cs : forall pre rest q l,
  queues_created s handles ->
  exists q' l',
    queue_from_task (pre ++ cs ++ rest) (seq (length pre) (length cs))
      (set_log l (set_queues q s)) =
      Some (tt, set_log l' (set_queues q' s)) /\
    delivered handles q q' cs.
Proof.
  induction cs as [|c cs IH]; intros pre rest q l Hq.
  { exists q, l. split; [done|apply delivered_nil]. }
  unfold queue_from_task in *. cbn [length seq st_iter].
  unfold prvQueueCommandFromTask, report. run_st.
  rewrite lookup_app_r, Nat.sub_diag by lia. cbn [app lookup list_lookup]. run_st.
  destruct (prvQueueForIp_spec (set_log l (set_queues q s)) handles (ip_id c) Hq)
    as [-> _].
  specialize (IH (pre ++ [c]) rest).
  rewrite length_app, <- app_assoc in IH. cbn [length app] in IH.
  rewrite Nat.add_1_r in IH.
  destruct (spec_queue handles (ip_id c) =? 0) eqn:Eh.
  - destruct (IH q (l ++ [MessageUnknownIp (ip_id c) (cmd_id c)]) Hq)
      as (q' & l' & E & Hd).
    exists q', l'. split; [exact E|]. apply delivered_skip; [lia|done].
  - unfold on_queues, zoom. cbn [queues set_log set_queues].
    pose proof (send_offered q (spec_queue handles (ip_id c)) c) as Ho.
    destruct (xQueueSend q _ c) as [ok q1]; cbn [snd] in Ho.
    destruct (IH q1 l Hq) as (q' & l' & E & Hd).
    exists q', l'. split; [exact E|]. by eapply delivered_cons.
Qed.

(** *** Diagnostics change neither slots nor queues *)

Lemma plic_spec s :
  exists v d', prvPlicDiagnostics s = Some (v, set_device d' s).
Proof.
  unfold prvPlicDiagnostics, on_device. run_st. cbn [device set_device].
  repeat match goal with
  | |- context [mmio_read_32 ?d ?a] =>
      destruct (mmio_read_32 d a) as [? ?]; cbn [device set_device]
  end. by do 2 eexists.
Qed.

Lemma csr_spec s :
  exists v w', prvCsrDiagnostics s = Some (v, set_vendor w' s).
Proof.
  unfold prvCsrDiagnostics, on_vendor. run_st. cbn [vendor set_vendor].
  repeat match goal with
  | |- context [read_csr ?d ?a] =>
      destruct (read_csr d a) as [? ?]; cbn [vendor set_vendor]
  end. by do 2 eexists.
Qed.

Lemma diagnostics_spec {stable} `{!MailboxLaws H stable} s :
  mbox s = initialised ->
  exists d h', read_diagnostics s = Some (d, set_hw h' s) /\ keeps (hw s) h' /\
    quiet (hw s) h'.
Proof.
  intros Hm. unfold read_diagnostics, on_hw. run_st. rewrite Hm.
  destruct (diagnostics_keeps (hw s) (MailboxDiagnostics 0 0 0 0))
    as (d & h' & E & K).
  rewrite E. exists d, h'. split_and!; [done|done|by eapply diagnostics_quiet].
Qed.

(** *** Receiving *)

(** Reports only extend the log. *)
Definition only_logs (f : ST st unit) : Prop :=
  forall s, exists l, f s = Some (tt, set_log l s).

Lemma report_only_logs e : only_logs (report e).
Proof. intros s. by eexists. Qed.

Lemma trace_only_logs reason d plic csr :
  only_logs (prvTraceMailboxDiagnostics reason d plic csr).
Proof. intros s. by eexists. Qed.

Lemma if_only_logs (b : bool) f :
  only_logs f -> only_logs (if b then f else fun s => Some (tt, s)).
Proof.
  intros Hf s. destruct b; [apply Hf|]. exists (log s). by destruct s.
Qed.


Lemma sublist_full {A} (l k : list A) :
  sublist l k -> (length k <= length l)%nat -> l = k.
Proof.
  induction 1 as [|x l k Hs IH|x l k Hs IH]; cbn [length]; intros Hlen; [done| |].
  - f_equal. apply IH. lia.
  - apply sublist_length in Hs. lia.
Qed.

Lemma isr_spec `{!MailboxLaws H published} s handles :
  queues_created s handles -> mbox s = initialised -> (MAILBOX_MAX_NUM <= 8)%nat ->
  exists (received : list (nat * Z)) s',
    prvMailboxISR s = Some (0, s') /\
    sublist received.*1 (seq 0 MAILBOX_MAX_NUM) /\
    Forall (fun p => linux_owned p.2 = true) received /\
    (forall i, (i < MAILBOX_MAX_NUM)%nat -> linux_owned (slot_value (hw s) i) = true ->
      (i, slot_value (hw s) i) ∈ received) /\
    wrote (hw s) (hw s') [] ((fun p => (p.1, 0)) <$> received) /\
    delivered handles (queues s) (queues s')
      (map (fun p => cmdqu_of_word p.2) received) /\
    mailbox_irq_count s' = u32 (mailbox_irq_count s + 1).
Proof.
  intros Hq Hm Hmax. unfold prvMailboxISR.
  run_st. destruct (diagnostics_spec s Hm) as (d & h' & -> & K & Kq).
  destruct (plic_spec (set_hw h' s)) as (p & d' & ->).
  destruct (csr_spec (set_device d' (set_hw h' s))) as (x & v' & ->).
  set (s1 := set_vendor _ _).
  destruct (isr_receive_spec pending_array SG2002_RTOS_MAILBOX_SLOT_COUNT (hw s1))
    as (received & h2 & E & Hsub & Hall & Hin & _ & Hw); [by vm_compute|lia|].
  unfold on_hw_option. run_st. replace (mbox s1) with initialised by done.
  rewrite E. cbn [fst snd]. run_st.
  set (s2 := set_mailbox_irq_count _ (set_hw h2 s1)).
  destruct (if_only_logs (mailbox_irq_count s2 =? 1) _
    (report_only_logs (TraceIsrEntry (prvPackMailboxDiagnostics d))) s2) as [l1 ->].
  destruct (if_only_logs ((mailbox_irq_count s2 <=? 4) ||
      (Z.land (mailbox_irq_count s2) 255 =? 0)) _
    (trace_only_logs DIAG_REASON_ISR d p x) (set_log l1 s2)) as [l2 ->].
  destruct (queue_from_isr_spec handles (set_log l2 s2)
    (map (fun p => cmdqu_of_word p.2) received) []
    (drop (length received) pending_array) false (queues s) Hq)
    as (woken & q' & E' & Hd).
  rewrite length_map in E'. rewrite Nat2Z.id. cbn [app length] in E'.
  change (set_queues (queues s) (set_log l2 s2)) with (set_log l2 s2) in E'.
  change (set_log l2 (set_log l1 s2)) with (set_log l2 s2). rewrite E'.
  unfold on_queues, call. run_st.
  exists received. eexists. split_and!; try done.
  - intros i Hi Ho. rewrite <- (K i) in Ho |- * by by apply linux_owned_published.
    destruct (Hin i Hi Ho) as [?|[Hfull Hn]]; [done|]. exfalso. apply Hn.
    unfold SG2002_RTOS_MAILBOX_SLOT_COUNT in Hfull.
    rewrite (sublist_full received.*1 (seq 0 MAILBOX_MAX_NUM)); [|done|].
    + apply elem_of_seq. lia.
    + rewrite length_fmap, length_seq. lia.
  - by eapply wrote_quiet.
  - intros h Hh. cbn [queues set_queues]. rewrite queue_yield, queue_yield_length.
    by apply Hd.
Qed.

Lemma recover_spec `{!MailboxLaws H (fun _ => true)} s handles :
  queues_created s handles -> mbox s = initialised -> (MAILBOX_MAX_NUM <= 8)%nat ->
  exists flags taken s',
    prvRecoverMailbox s = Some (tt, s') /\
    taken = (if flags =? MAILBOX_LOCK_FAILED then []
             else owned_slots (hw s) (seq 0 MAILBOX_MAX_NUM)) /\
    wrote (hw s) (hw s')
      (EvLock flags :: if flags =? MAILBOX_LOCK_FAILED then [] else [EvUnlock flags])
      ((fun i => (i, 0)) <$> taken) /\
    (forall j, slot_value (hw s') j =
      if decide (j ∈ taken) then 0 else slot_value (hw s) j) /\
    delivered handles (queues s) (queues s')
      (map (fun i => cmdqu_of_word (slot_value (hw s) i)) taken).
Proof.
  intros Hq Hm Hmax. unfold prvRecoverMailbox. run_st.
  destruct (diagnostics_spec s Hm) as (d & h' & -> & K & Kq).
  destruct (plic_spec (set_hw h' s)) as (p & d' & ->).
  destruct (csr_spec (set_device d' (set_hw h' s))) as (x & v' & ->).
  set (s1 := set_vendor _ _).
  destruct (receive_spec pending_array SG2002_RTOS_MAILBOX_SLOT_COUNT (hw s1))
    as (h2 & E); [by vm_compute|lia|].
  unfold on_hw_option. run_st. replace (mbox s1) with initialised by done.
  assert (S1 : forall j, slot_value (hw s1) j = slot_value (hw s) j)
    by (intros j; by apply K).
  set (flags := (drv_spin_lock_irqsave (hw s1)).1) in *. exists flags.
  destruct (flags =? MAILBOX_LOCK_FAILED).
  - destruct E as (-> & Hs & Hw). run_st. cbn [Z.ltb Z.compare Z.to_nat seq st_iter]. run_st.
    exists []. eexists. split_and!; [done|done|by eapply wrote_quiet| |apply delivered_nil].
    intros j. cbn [hw set_hw]. rewrite Hs. apply S1.
  - destruct E as (-> & Hs & _ & Hw). cbn [fst snd]. run_st.
    rewrite (owned_slots_same (hw s) (hw s1)) in * by (intros; apply S1).
    set (owned := take _ _) in *.
    assert (Hall : owned = owned_slots (hw s) (seq 0 MAILBOX_MAX_NUM)).
    { apply take_ge. unfold owned_slots. etrans; [apply length_filter|].
      rewrite length_seq. unfold SG2002_RTOS_MAILBOX_SLOT_COUNT. lia. }
    set (cs := map (fun i => cmdqu_of_word (slot_value (hw s1) i)) owned).
    assert (Hlog : exists r l,
      note_recovery (Z.of_nat (length owned)) d p x (set_hw h2 s1) =
      Some (tt, set_log l (set_queues (queues s)
        (set_mailbox_recovery_count r (set_hw h2 s1))))).
    { unfold note_recovery. destruct (0 <? _).
      - exists (u32 (mailbox_recovery_count s + 1)). by eexists.
      - by exists (mailbox_recovery_count s), (log s). }
    destruct Hlog as (r & l & ->).
    destruct (queue_from_task_spec handles
      (set_mailbox_recovery_count r (set_hw h2 s1)) cs []
      (drop (length owned) pending_array) (queues s) l Hq) as (q' & l' & E' & Hd).
    unfold cs in E' at 2. rewrite length_map in E'. rewrite Nat2Z.id.
    cbn [app length] in E'. rewrite E'. exists owned. eexists.
    split_and!; [done|exact Hall|by eapply wrote_quiet| |].
    + intros j. cbn [hw set_log set_queues]. rewrite Hs. by rewrite S1.
    + cbn [queues set_log set_queues].
      replace (map _ owned) with cs; [exact Hd|]. apply map_ext. intros i.
      by rewrite S1.
Qed.

(** *** Replies *)

Lemma send_reply_spec `{!MailboxLaws H (fun _ => true)} cpu c s i :
  mbox s = initialised -> cmdqu_wf c ->
  (drv_spin_lock_irqsave (hw s)).1 <> MAILBOX_LOCK_FAILED ->
  find (fun i => slot_free (slot_value (hw s) i)) (seq 0 MAILBOX_MAX_NUM) = Some i ->
  exists h', send_reply cpu c s = Some (tt, set_hw h' s) /\
    slot_value h' i = cmdqu_word (rtos_reply c) /\
    (forall j, j <> i -> slot_value h' j = slot_value (hw s) j).
Proof.
  intros Hm Hwf Hlock Hfree. unfold send_reply, on_hw. run_st. rewrite Hm.
  pose proof (send_spec c cpu (hw s) Hwf) as Hs. cbv zeta in Hs.
  destruct (sg2002_rtos_mailbox_send _ _ _ _) as [result h'].
  apply Z.eqb_neq in Hlock. rewrite Hlock, Hfree in Hs.
  destruct Hs as (-> & Hi & Hj & _). by exists h'.
Qed.

Lemma handle_app_command cpu c s :
  ip_id c = ip_value IP_SYSTEM ->
  SG2002_RTOS_CMD_FIRST <= cmd_id c <= SG2002_RTOS_CMD_LAST ->
  exists v d',
    sg2002_rtos_app_handle (cmd_id c) (Some (param_ptr c)) (device s) =
      (APP_HANDLED, Some v, d') /\
    handle_command base cpu c s =
      send_reply cpu (set_param_ptr v c) (set_device d' s).
Proof.
  intros Hip Hcmd. destruct (app_handle_in_range (cmd_id c) (param_ptr c) (device s) Hcmd)
    as (v & d' & E).
  exists v, d'. split; [done|]. unfold handle_command.
  rewrite Hip, Z.eqb_refl. cbn [andb].
  replace (cmd_id c =? SG2002_RTOS_SHM_DOORBELL_COMMAND) with false
    by (unfold SG2002_RTOS_SHM_DOORBELL_COMMAND, SG2002_RTOS_CMD_LAST in *; lia).
  unfold on_device. run_st. rewrite E. cbn [default].
  rewrite bool_decide_true by done. destruct c; cbn in *. by subst.
Qed.

(** A command outside the application range reaches the switch unchanged. *)
Lemma handle_system_command cpu c s :
  ~ (SG2002_RTOS_CMD_FIRST <= cmd_id c <= SG2002_RTOS_CMD_LAST) ->
  cmd_id c <> SG2002_RTOS_SHM_DOORBELL_COMMAND ->
  handle_command base cpu c s = system_command cpu c s.
Proof.
  intros Hcmd Hd. unfold handle_command. apply Z.eqb_neq in Hd. rewrite Hd, andb_false_r.
  unfold on_device. run_st. destruct (ip_id c =? _).
  - rewrite app_handle_out_of_range by done. cbn [default].
    rewrite bool_decide_false by done. by destruct c, s.
  - by destruct c.
Qed.

Lemma handle_doorbell cpu c s layout linux rtos requests responses :
  0 < base -> ip_id c = ip_value IP_SYSTEM ->
  cmd_id c = SG2002_RTOS_SHM_DOORBELL_COMMAND ->
  let g := layout_generation layout in
  transport_inv base (shm s) ->
  region base (memory s) layout linux rtos requests responses ->
  Forall slot_wf requests ->
  Forall (fun r => msg_length r <= SG2002_RTOS_SHM_PAYLOAD_SIZE) requests ->
  spec_attachable layout linux = true ->
  let n := Nat.min (length requests)
             (Z.to_nat SG2002_RTOS_SHM_SLOT_COUNT - length responses) in
  let served := spec_serve (take n requests) (device s) in
  exists t' m',
    handle_command base cpu c s =
      send_reply cpu (set_block 0 (set_param_ptr g c))
        (set_shm t' (set_memory m' (set_device served.2 s))) /\
    region base m' layout linux (spec_peer (shm s) g rtos)
      (drop n requests) (responses ++ served.1).
Proof.
  intros Hbase Hip Hcmd g Hinv Hreg Hwf Hle Hatt n served.
  pose proof (process_drain base Hbase layout linux (shm s) (memory s) (device s) rtos
    requests responses None Hinv Hreg Hwf Hatt) as Hd.
  assert (Hb : Z.of_nat (length responses) <= SG2002_RTOS_SHM_SLOT_COUNT).
  { destruct (region_responses _ _ _ _ _ _ _ Hreg) as (p & x & St). apply St. }
  rewrite spec_drain_serves in Hd by done.
  replace (Nat.min (Z.to_nat SG2002_RTOS_SHM_SLOT_COUNT) _) with n in Hd
    by (unfold n; lia).
  destruct Hd as (t' & m' & E & _ & Hg & Hreg').
  exists t', m'. split; [|exact Hreg'].
  unfold handle_command. rewrite Hip, Hcmd, !Z.eqb_refl. cbn [andb].
  run_st. unfold shm_process. rewrite E. run_st. cbn [shm set_shm]. by rewrite Hg.
Qed.

(** *** The stop handshake *)

Lemma forward_spec handles i (n : nat) c s :
  queues_created s handles -> i = Z.of_nat n -> (n < 7)%nat ->
  exists q', forward i c s = Some (tt, set_queues q' s) /\
    offered (queues s) q' (default 0 (handles !! n)) c.
Proof.
  intros Hq Hi Hn. unfold forward, on_queues. run_st.
  destruct (task_at s handles i n Hq Hi Hn) as (t & -> & <- & _).
  pose proof (send_offered (queues s) (queHandle t) c) as Ho.
  destruct (xQueueSend (queues s) _ c) as [ok q']; cbn [snd] in Ho. by exists q'.
Qed.

(** Decide the comparisons of [case] labels. *)
Ltac eval_labels :=
  repeat match goal with
  | |- context [sys_cmd_value ?a =? sys_cmd_value ?b] =>
      let r := eval vm_compute in (sys_cmd_value a =? sys_cmd_value b) in
      change (sys_cmd_value a =? sys_cmd_value b) with r
  end; cbv iota beta zeta.

Lemma stop_cases cpu c s k :
  cmd_id c = sys_cmd_value k ->
  k = SYS_CMD_INFO_STOP_ISR \/ k = SYS_CMD_INFO_STOP_ISR_DONE ->
  handle_command base cpu c s = system_command cpu c s /\
  (cmd_id c =? SYS_CMD_INFO_DUMP_JPG) = false.
Proof.
  intros Hcmd Hk. split.
  - apply handle_system_command; rewrite Hcmd;
      unfold SG2002_RTOS_CMD_FIRST, SG2002_RTOS_CMD_LAST, SG2002_RTOS_SHM_DOORBELL_COMMAND;
      destruct Hk as [-> | ->]; unfold sys_cmd_value; lia.
  - rewrite Hcmd. apply Z.eqb_neq. intros E. by apply (dump_jpg_distinct k).
Qed.

Lemma handle_stop handles cpu c s :
  queues_created s handles -> cmd_id c = sys_cmd_value SYS_CMD_INFO_STOP_ISR ->
  exists q',
    handle_command base cpu c s = Some (tt, set_queues q' (set_stop_ip 0 s)) /\
    offered (queues s) q' (default 0 (handles !! 2%nat))
      (set_ip_id (ip_value IP_VI) c).
Proof.
  intros Hq Hcmd. destruct (stop_cases cpu c s _ Hcmd) as [-> Hj]; [by left|].
  unfold system_command. rewrite Hj, Hcmd. eval_labels.
  run_st. pose proof queue_order as Ho. injection Ho as _ _ Eq _ _ _ _ _.
  destruct (forward_spec handles E_QUEUE_VI 2%nat
    (set_ip_id (ip_value IP_VI) (set_cmd_id (sys_cmd_value SYS_CMD_INFO_STOP_ISR) c))
    (set_stop_ip 0 s) Hq Eq) as (q' & E & Hof); [lia|].
  exists q'. split; [exact E|]. cbn [queues set_stop_ip] in Hof.
  destruct c; cbn in *. by subst.
Qed.

Lemma handle_vi_done handles cpu c s :
  queues_created s handles -> cmd_id c = sys_cmd_value SYS_CMD_INFO_STOP_ISR_DONE ->
  ip_id c = ip_value IP_VI ->
  exists q',
    handle_command base cpu c s =
      Some (tt, set_queues q' (set_stop_ip (Z.lor (stop_ip s) STOP_CMD_DONE_VI) s)) /\
    offered (queues s) q' (default 0 (handles !! 1%nat))
      (set_cmd_id (sys_cmd_value SYS_CMD_INFO_STOP_ISR)
         (set_ip_id (ip_value IP_VCODEC) c)).
Proof.
  intros Hq Hcmd Hip. destruct (stop_cases cpu c s _ Hcmd) as [-> Hj]; [by right|].
  unfold system_command. rewrite Hj, Hcmd. eval_labels.
  rewrite Hip, Z.eqb_refl. run_st.
  pose proof queue_order as Ho. injection Ho as _ Eq _ _ _ _ _ _.
  exact (forward_spec handles E_QUEUE_VCODEC 1%nat _
    (set_stop_ip (Z.lor (stop_ip s) STOP_CMD_DONE_VI) s) Hq Eq ltac:(lia)).
Qed.

Lemma handle_vcodec_done cpu c s :
  cmd_id c = sys_cmd_value SYS_CMD_INFO_STOP_ISR_DONE ->
  ip_id c = ip_value IP_VCODEC ->
  let s' := set_stop_ip (Z.lor (stop_ip s) STOP_CMD_DONE_VCODE) s in
  handle_command base cpu c s =
    if stop_ip s' =? STOP_CMD_DONE_ALL
    then send_reply cpu (set_ip_id (ip_value IP_SYSTEM) c) s'
    else Some (tt, s').
Proof.
  intros Hcmd Hip s'. destruct (stop_cases cpu c s _ Hcmd) as [-> Hj]; [by right|].
  unfold system_command. rewrite Hj, Hcmd. eval_labels.
  rewrite Hip. cbn [ip_value Z.eqb Pos.eqb]. run_st.
  destruct (stop_ip s' =? STOP_CMD_DONE_ALL) eqn:E; unfold s' in E;
    cbn [stop_ip set_stop_ip] in *; by rewrite E.
Qed.

End Theory.

(** ** Concrete queues and vendor code *)

Module Queues.

Record t := Make {
  contents : gmap Z (list cmdqu_t);
  lengths : gmap Z nat;
  next : Z;
}.

Definition get (q : t) (h : Z) : list cmdqu_t := default [] (contents q !! h).
Definition len (q : t) (h : Z) : nat := default 0%nat (lengths q !! h).

Definition push (q : t) (h : Z) (c : cmdqu_t) : bool * t :=
  if (length (get q h) <? len q h)%nat
  then (true, Make (<[h := get q h ++ [c]]> (contents q)) (lengths q) (next q))
  else (false, q).

#[global] Instance freertos : FreeRtos t := {|
  xQueueCreate := fun q n =>
    (next q, Make (<[next q := []]> (contents q)) (<[next q := Z.to_nat n]> (lengths q))
               (next q + 1));
  xQueueSend := push;
  xQueueSendFromISR := fun q h c woken => let '(ok, q) := push q h c in (ok, true, q);
  xQueueReceive := fun q h _ =>
    match get q h with
    | [] => (None, q)
    | c :: rest => (Some c, Make (<[h := rest]> (contents q)) (lengths q) (next q))
    end;
  xTaskCreate := fun q _ _ _ => q;
  vTaskStartScheduler := fun q => q;
  portYIELD_FROM_ISR := fun q _ => q;
|}.

Lemma push_result q h c : (push q h c).1 = (length (get q h) <? len q h)%nat.
Proof. unfold push. by destruct (_ <? _)%nat. Qed.

Lemma push_contents q h c h' :
  get (push q h c).2 h' =
    if (h =? h') && (push q h c).1 then get q h' ++ [c] else get q h'.
Proof.
  rewrite push_result. unfold push.
  destruct (_ <? _)%nat; [|by rewrite andb_false_r].
  unfold get; cbn [contents snd]. rewrite andb_true_r.
  destruct (h =? h') eqn:E.
  - assert (h' = h) as -> by lia. by rewrite lookup_insert_eq.
  - by rewrite lookup_insert_ne by lia.
Qed.

Lemma push_length q h c h' : len (push q h c).2 h' = len q h'.
Proof. unfold push. by destruct (_ <? _)%nat. Qed.

#[global] Instance laws : FreeRtosLaws t.
Proof.
  refine {| queue := get; queue_length := len |}; intros; simpl;
    try (pose proof (push_result q h c) as R; pose proof (push_contents q h c) as C;
         pose proof (push_length q h c) as L;
         destruct (push q h c) as [ok q']; cbn [fst snd] in *; by auto);
    try done.
  - match goal with H : get _ _ = _ |- _ => rewrite H end. done.
  - match goal with H : get _ _ = _ |- _ => rewrite H end.
    unfold get; cbn [snd contents]. destruct (h =? h') eqn:E.
    + assert (h' = h) as -> by lia. by rewrite lookup_insert_eq.
    + by rewrite lookup_insert_ne by lia.
Defined.

End Queues.

#[export] Instance demo_vendor : CommVendor unit := {|
  E_QUEUE_ISP := 0; E_QUEUE_VCODEC := 1; E_QUEUE_VI := 2; E_QUEUE_CAMERA := 3;
  E_QUEUE_RGN := 4; E_QUEUE_CMDQU := 5; E_QUEUE_AUDIO := 6; E_QUEUE_MAX := 7;
  configMINIMAL_STACK_SIZE := 1024; tskIDLE_PRIORITY := 0;
  SEND_TO_CPU0 := 0; SEND_TO_CPU1 := 1;
  C906_MAGIC_HEADER := 0xA55AC906; CA53_MAGIC_HEADER := 0xA55ACA53;
  MCU_STATUS_RTOS_T1_RUNNING := 3;
  STOP_CMD_DONE_VI := 1; STOP_CMD_DONE_VCODE := 2; STOP_CMD_DONE_ALL := 3;
  SYS_CMD_INFO_DUMP_JPG := 0x20;
  MBOX_INT_C906_2ND := 61;
  PLIC_PENDING1 := 0x70001000; PLIC_ENABLE1 := 0x70002000; PLIC_PRIORITY0 := 0x70000000;
  PLIC_THRESHOLD := 0x70200000;
  pdMS_TO_TICKS := fun ms => ms;
  read_csr := fun v _ => (0, v);
  request_irq := fun v => (0, v);
  dump_uart_enable := fun v => v;
  dump_uart_disable := fun v => v;
  dump_uart_msg := fun v => (0, v);
  transfer_config_address := 0x9000;
|}.

#[export] Instance demo_vendor_laws : CommVendorLaws unit.
Proof. split; [done|by intros []|done]. Qed.

Definition demo_tasks : list task_ctx :=
  imap (fun i t => TaskCtx (name t) (stack_size t) (priority t) (runTask t) (queLength t)
                     (100 + Z.of_nat i)) gTaskCtx_init.

(** After start-up, with the region of [ShmTransport] and one posted command. *)
Definition demo_comm :
    comm Board.t CachedMemory.t RegisterBank.t Queues.t unit :=
  Comm demo_tasks (MailboxDiagnostics 0 0 0 0) 0 0 0 0xA55AC906 3
    (Mailbox 0x1900000 0x1900400) demo_transport (demo_board [])
    (demo_region_memory 7 [demo_request]) demo_device
    (Queues.Make ∅ (list_to_map (imap (fun i n => (100 + Z.of_nat i, n))
       [1%nat; 1%nat; 1%nat; 1%nat; 10%nat; 30%nat; 10%nat])) 107) tt [].

Definition demo_handles : list Z := [100; 101; 102; 103; 104; 105; 106].

Lemma demo_queues_created : queues_created demo_comm demo_handles.
Proof. split_and!; [done|done|by repeat constructor]. Qed.

(** Start-up creates the queues. *)
Example start_up_creates_queues :
  fst <$> (_ ← @main_cvirtos _ _ _ _ _ (Board.hardware id) _ _ _;
           gets (fun s => map queHandle (gTaskCtx s)))
    (set_gTaskCtx gTaskCtx_init (set_queues (Queues.Make ∅ ∅ 100) demo_comm)) =
  Some demo_handles.
Proof. vm_compute. reflexivity. Qed.

(** ** Properties *)

Section Properties.
Context {H M D Q V : Type} `{MailboxHardware H} `{SharedMemoryLaws M} `{Mmio D}
  `{FreeRtosLaws Q} `{CommVendorLaws V}.
Context (base : Z).
Local Abbreviation st := (comm H M D Q V).
Implicit Types (s : st) (c : cmdqu_t).

(** C12: the mailbox interrupt loses nothing it can deliver. The handler terminates
    without undefined behaviour, whatever Linux does meanwhile; it takes only
    published commands and every one that was published on entry, and offers each
    exactly once, in slot order, to the queue of its block: afterwards every queue
    holds what it held followed by its commands, up to its length. It clears each slot
    it took, once, so that no later interrupt takes that command again, and stores in
    no other. It counts itself once. *)
Theorem interrupt_delivers_commands `{!MailboxLaws H published} s handles :
  queues_created s handles -> mbox s = initialised -> (MAILBOX_MAX_NUM <= 8)%nat ->
  exists (received : list (nat * Z)) s',
    prvMailboxISR s = Some (0, s') /\
    sublist received.*1 (seq 0 MAILBOX_MAX_NUM) /\
    Forall (fun p => linux_owned p.2 = true) received /\
    (forall i, (i < MAILBOX_MAX_NUM)%nat -> linux_owned (slot_value (hw s) i) = true ->
      (i, slot_value (hw s) i) ∈ received) /\
    wrote (hw s) (hw s') [] ((fun p => (p.1, 0)) <$> received) /\
    delivered handles (queues s) (queues s')
      (map (fun p => cmdqu_of_word p.2) received) /\
    mailbox_irq_count s' = u32 (mailbox_irq_count s + 1).
Proof. apply isr_spec. Qed.

(** C27: recovery. When the task polls the mailbox (no command for 100 ms), it asks for
    the lock once. Refused, it takes nothing and stores nothing; granted, it takes
    every slot Linux owns, clears exactly those, in slot order, and releases the lock.
    It delivers each command it took to the queue of its block. *)
Theorem recovery_delivers_commands `{!MailboxLaws H (fun _ => true)} s handles :
  queues_created s handles -> mbox s = initialised -> (MAILBOX_MAX_NUM <= 8)%nat ->
  exists flags taken s',
    prvRecoverMailbox s = Some (tt, s') /\
    taken = (if flags =? MAILBOX_LOCK_FAILED then []
             else owned_slots (hw s) (seq 0 MAILBOX_MAX_NUM)) /\
    wrote (hw s) (hw s')
      (EvLock flags :: if flags =? MAILBOX_LOCK_FAILED then [] else [EvUnlock flags])
      ((fun i => (i, 0)) <$> taken) /\
    (forall j, slot_value (hw s') j =
      if decide (j ∈ taken) then 0 else slot_value (hw s) j) /\
    delivered handles (queues s) (queues s')
      (map (fun i => cmdqu_of_word (slot_value (hw s) i)) taken).
Proof. apply recover_spec. Qed.

(** C6: an application command is answered. For a SYSTEM command in the application
    range, the task posts in the first free mailbox slot, and nowhere else, the
    same command marked as the RTOS's with the answer of [sg2002_rtos_app_handle]
    as parameter; apart from the device and the mailbox nothing changes. *)
Theorem application_command_answered `{!MailboxLaws H (fun _ => true)} cpu c s i :
  ip_id c = ip_value IP_SYSTEM ->
  SG2002_RTOS_CMD_FIRST <= cmd_id c <= SG2002_RTOS_CMD_LAST ->
  cmdqu_wf c -> mbox s = initialised ->
  (drv_spin_lock_irqsave (hw s)).1 <> MAILBOX_LOCK_FAILED ->
  find (fun i => slot_free (slot_value (hw s) i)) (seq 0 MAILBOX_MAX_NUM) = Some i ->
  exists v d' h',
    sg2002_rtos_app_handle (cmd_id c) (Some (param_ptr c)) (device s) =
      (APP_HANDLED, Some v, d') /\
    handle_command base cpu c s = Some (tt, set_hw h' (set_device d' s)) /\
    slot_value h' i = cmdqu_word (rtos_reply (set_param_ptr v c)) /\
    (forall j, j <> i -> slot_value h' j = slot_value (hw s) j).
Proof.
  intros Hip Hcmd Hwf Hm Hlock Hfree.
  destruct (handle_app_command base cpu c s Hip Hcmd) as (v & d' & E & ->).
  assert (Hv : is_u32 v) by (eapply app_handle_value_range; [apply Hwf|exact E]).
  destruct (send_reply_spec cpu (set_param_ptr v c) (set_device d' s) i Hm)
    as (h' & E' & Hi & Hj); [|done|done|].
  - destruct Hwf as (? & ? & ? & ? & ? & _). by split_and!.
  - by exists v, d', h'.
Qed.

(** C21: the doorbell. It drains the shared-memory requests exactly as the transport
    specifies and answers with the generation the firmware is attached to, the
    block flag cleared, in the first free mailbox slot. *)
Theorem doorbell_serves_and_acknowledges `{!MailboxLaws H (fun _ => true)} cpu c s i
    layout linux rtos requests responses :
  0 < base -> ip_id c = ip_value IP_SYSTEM ->
  cmd_id c = SG2002_RTOS_SHM_DOORBELL_COMMAND ->
  let g := layout_generation layout in
  cmdqu_wf c -> is_u32 g -> mbox s = initialised ->
  (drv_spin_lock_irqsave (hw s)).1 <> MAILBOX_LOCK_FAILED ->
  find (fun i => slot_free (slot_value (hw s) i)) (seq 0 MAILBOX_MAX_NUM) = Some i ->
  transport_inv base (shm s) ->
  region base (memory s) layout linux rtos requests responses ->
  Forall slot_wf requests ->
  Forall (fun r => msg_length r <= SG2002_RTOS_SHM_PAYLOAD_SIZE) requests ->
  spec_attachable layout linux = true ->
  let n := Nat.min (length requests)
             (Z.to_nat SG2002_RTOS_SHM_SLOT_COUNT - length responses) in
  let served := spec_serve (take n requests) (device s) in
  exists s',
    handle_command base cpu c s = Some (tt, s') /\
    device s' = served.2 /\
    region base (memory s') layout linux (spec_peer (shm s) g rtos)
      (drop n requests) (responses ++ served.1) /\
    slot_value (hw s') i =
      cmdqu_word (rtos_reply (set_block 0 (set_param_ptr g c))) /\
    queues s' = queues s.
Proof.
  intros Hbase Hip Hcmd g Hwf Hg Hm Hlock Hfree Hinv Hreg Hrw Hle Hatt n served.
  destruct (handle_doorbell base cpu c s layout linux rtos requests responses)
    as (t' & m' & -> & Hreg'); try done.
  destruct (send_reply_spec cpu (set_block 0 (set_param_ptr g c))
    (set_shm t' (set_memory m' (set_device served.2 s))) i Hm) as (h' & E & Hi & _);
    [|done|done|].
  - destruct Hwf as (? & ? & _ & ? & ? & _). split_and!; try done; word_lia.
  - eexists. split; [exact E|]. split_and!; try done.
Qed.

(** C29: the stop handshake. STOP_ISR from Linux is forwarded to VI's queue; VI's
    completion is forwarded as STOP_ISR to VCODEC's queue; neither is answered;
    and VCODEC's completion is answered, once, as a SYSTEM command, when the two
    bits make up the value that means all are stopped. *)
Theorem stop_handshake cpu s handles c1 c2 c3 :
  queues_created s handles ->
  cmd_id c1 = sys_cmd_value SYS_CMD_INFO_STOP_ISR ->
  cmd_id c2 = sys_cmd_value SYS_CMD_INFO_STOP_ISR_DONE -> ip_id c2 = ip_value IP_VI ->
  cmd_id c3 = sys_cmd_value SYS_CMD_INFO_STOP_ISR_DONE ->
  ip_id c3 = ip_value IP_VCODEC ->
  exists q1 q2,
    let s2 := set_queues q2 (set_stop_ip STOP_CMD_DONE_VI s) in
    (handle_command base cpu c1;; handle_command base cpu c2) s = Some (tt, s2) /\
    offered (queues s) q1 (default 0 (handles !! 2%nat))
      (set_ip_id (ip_value IP_VI) c1) /\
    offered q1 q2 (default 0 (handles !! 1%nat))
      (set_cmd_id (sys_cmd_value SYS_CMD_INFO_STOP_ISR)
         (set_ip_id (ip_value IP_VCODEC) c2)) /\
    handle_command base cpu c3 s2 =
      send_reply cpu (set_ip_id (ip_value IP_SYSTEM) c3)
        (set_stop_ip STOP_CMD_DONE_ALL s2).
Proof.
  intros Hq Hc1 Hc2 Hi2 Hc3 Hi3.
  destruct (handle_stop base handles cpu c1 s Hq Hc1) as (q1 & E1 & H1').
  destruct (handle_vi_done base handles cpu c2 (set_queues q1 (set_stop_ip 0 s)) Hq Hc2 Hi2)
    as (q2 & E2 & H2').
  exists q1, q2. cbv zeta. split_and!; [|exact H1'|exact H2'|].
  - run_st. rewrite E1, E2. cbn [stop_ip set_queues set_stop_ip]. by rewrite Z.lor_0_l.
  - rewrite (handle_vcodec_done base) by done.
    cbn [stop_ip set_queues set_stop_ip]. by rewrite <- stop_done_all, Z.eqb_refl.
Qed.

End Properties.

(** ** Witnesses *)

Lemma interrupt_delivers_commands_witness :
  exists (received : list (nat * Z)) s',
    @prvMailboxISR _ _ _ _ _ (Board.hardware Board.linux_turn) _ _ _ demo_comm =
      Some (0, s') /\
    (2%nat, cmdqu_word demo_command) ∈ received /\
    slot_part (Board.log (hw s')) = (fun p => (p.1, 0)) <$> received /\
    delivered demo_handles (queues demo_comm) (queues s')
      (map (fun p => cmdqu_of_word p.2) received).
Proof.
  destruct (@interrupt_delivers_commands _ _ _ _ _ (Board.hardware Board.linux_turn)
    _ _ _ _ _ Board.busy_laws demo_comm demo_handles demo_queues_created eq_refl
    ltac:(cbn; lia)) as (received & s' & E & _ & _ & Hin & (es & He & _ & Hw) & Hd & _).
  exists received, s'.
  split_and!; [exact E| |exact (eq_trans (f_equal slot_part He) Hw)|exact Hd].
  apply (Hin 2%nat); [cbn; lia|]. vm_compute. reflexivity.
Defined.

(** The lock is granted, and slot 2 is taken. *)
Lemma recovery_delivers_commands_witness :
  exists s',
    @prvRecoverMailbox _ _ _ _ _ (Board.hardware id) _ _ _ demo_comm = Some (tt, s') /\
    delivered demo_handles (queues demo_comm) (queues s') [demo_command] /\
    Board.value (hw s') 2 = 0.
Proof.
  destruct (@recovery_delivers_commands _ _ _ _ _ (Board.hardware id)
    _ _ _ _ _ Board.quiet_laws demo_comm demo_handles demo_queues_created eq_refl
    ltac:(cbn; lia)) as (flags & taken & s' & E & Et & (es & He & Hl & _) & Hs & Hd).
  exists s'.
  assert (El : (fun r => lock_part (Board.log (hw r.2))) <$>
    @prvRecoverMailbox _ _ _ _ _ (Board.hardware id) _ _ _ demo_comm =
    Some [EvLock 1; EvUnlock 1]) by (vm_compute; reflexivity).
  rewrite E in El. injection El as El.
  assert (Hc : [EvLock 1; EvUnlock 1] = EvLock flags ::
    if flags =? -1 then [] else [EvUnlock flags])
    by exact (eq_trans (eq_sym El) (eq_trans (f_equal lock_part He) Hl)).
  assert (Hf : flags = 1) by congruence. rewrite Hf in Et.
  assert (Ht : taken = [2%nat]) by (rewrite Et; vm_compute; reflexivity).
  rewrite Ht in Hd, Hs. split_and!; [exact E|exact Hd|exact (Hs 2%nat)].
Defined.

Lemma application_command_answered_witness :
  exists v d' h',
    sg2002_rtos_app_handle 0x60 (Some 0x1234) demo_device = (APP_HANDLED, Some v, d') /\
    @handle_command _ _ _ _ _ (Board.hardware id) _ _ _ _ demo_base 1 demo_command
      demo_comm = Some (tt, set_hw h' (set_device d' demo_comm)) /\
    Board.value h' 1 = cmdqu_word (rtos_reply (set_param_ptr v demo_command)).
Proof.
  destruct (@application_command_answered _ _ _ _ _ (Board.hardware id)
    _ _ _ _ demo_base Board.quiet_laws 1 demo_command demo_comm 1%nat)
    as (v & d' & h' & E1 & E2 & E3 & _).
  - reflexivity.
  - split; vm_compute; congruence.
  - unfold cmdqu_wf, in_range; cbn; lia.
  - reflexivity.
  - vm_compute; congruence.
  - vm_compute; reflexivity.
  - exists v, d', h'. split_and!; [exact E1|exact E2|exact E3].
Defined.

Definition demo_doorbell : cmdqu_t := Cmdqu 6 0x7f 1 (Valid 1 0) 0.

Lemma doorbell_serves_and_acknowledges_witness :
  exists s',
    @handle_command _ _ _ _ _ (Board.hardware id) _ _ _ _ demo_base 1 demo_doorbell
      demo_comm = Some (tt, s') /\
    region demo_base (memory s') (demo_layout 7) (PeerLine 1 7) (PeerLine 1 7) []
      [demo_response] /\
    Board.value (hw s') 1 = cmdqu_word (Cmdqu 6 0x7f 0 (Valid 0 1) 7).
Proof.
  destruct (@doorbell_serves_and_acknowledges _ _ _ _ _ (Board.hardware id)
    _ _ _ _ _ demo_base Board.quiet_laws 1 demo_doorbell demo_comm 1%nat
    (demo_layout 7) (PeerLine 1 7) (PeerLine 0 0) [demo_request] [])
    as (s' & E & _ & Hr & Hs & _).
  - reflexivity.
  - reflexivity.
  - reflexivity.
  - unfold cmdqu_wf, in_range; cbn; lia.
  - unfold in_range; cbn; lia.
  - reflexivity.
  - vm_compute; congruence.
  - vm_compute; reflexivity.
  - by intros [].
  - exact demo_region_ping.
  - constructor; [apply demo_request_wf|constructor].
  - constructor; [|constructor]. apply Z.leb_le. reflexivity.
  - reflexivity.
  - exists s'. split_and!; [exact E|exact Hr|exact Hs].
Defined.

Lemma stop_handshake_witness :
  exists q1 q2,
    let s2 := set_queues q2 (set_stop_ip 1 demo_comm) in
    let run := @handle_command _ _ _ _ _ (Board.hardware id) _ _ _ _ demo_base 1 in
    (run (Cmdqu 6 0x53 0 (Valid 1 0) 0);; run (Cmdqu 3 0x54 0 (Valid 1 0) 0)) demo_comm
      = Some (tt, s2) /\
    offered (queues demo_comm) q1 102 (Cmdqu 3 0x53 0 (Valid 1 0) 0) /\
    offered q1 q2 101 (Cmdqu 1 0x53 0 (Valid 1 0) 0) /\
    run (Cmdqu 1 0x54 0 (Valid 1 0) 0) s2 =
      @send_reply _ _ _ _ _ (Board.hardware id) 1 (Cmdqu 6 0x54 0 (Valid 1 0) 0)
        (set_stop_ip 3 s2).
Proof.
  exact (@stop_handshake _ _ _ _ _ (Board.hardware id) _ _ _ _ _ _ demo_base 1 demo_comm
    demo_handles (Cmdqu 6 0x53 0 (Valid 1 0) 0) (Cmdqu 3 0x54 0 (Valid 1 0) 0)
    (Cmdqu 1 0x54 0 (Valid 1 0) 0) demo_queues_created eq_refl eq_refl eq_refl eq_refl
    eq_refl).
Defined.
