(* ===== verification/LinuxOs.v ===== *)
(** * What the Linux library calls: the operating system

    The system calls of [linux/src/sg2002_rtos.c] as an interface: the command
    queue device with its [ioctl]s, [poll], the event descriptor, the clock, the
    two mutexes and the allocation of the handle's private part. The laws are the
    documented behaviour the theorems use. *)

From S2P Require Import Prelude Shm Cmdqu.
Local Open Scope Z_scope.

(** ** Error numbers (the generic Linux numbering) *)

Definition ENOENT : Z := 2.
Definition EINTR : Z := 4.
Definition EIO : Z := 5.
Definition EBADF : Z := 9.
Definition EAGAIN : Z := 11.
Definition ENOMEM : Z := 12.
Definition ENODEV : Z := 19.
Definition EINVAL : Z := 22.
Definition ENOTTY : Z := 25.
Definition EPROTO : Z := 71.
Definition EMSGSIZE : Z := 90.
Definition EOPNOTSUPP : Z := 95.
Definition ENOBUFS : Z := 105.
Definition ETIMEDOUT : Z := 110.
Definition EALREADY : Z := 114.

Definition POLLIN : Z := 0x1.
Definition POLLOUT : Z := 0x4.
Definition POLLERR : Z := 0x8.
Definition POLLHUP : Z := 0x10.
Definition POLLNVAL : Z := 0x20.

Definition INT_MAX : Z := 2 ^ 31 - 1.
Definition UINT32_MAX : Z := 2 ^ 32 - 1.

(** The result of a system call: a value, or -1 with [errno]. *)
Inductive sys (A : Type) := Ok (a : A) | Err (errno : Z).
Arguments Ok {A}.
Arguments Err {A}.

Inductive poll_result :=
| PollReady (revents : list Z) | PollTimeout | PollError (errno : Z).

(** [struct sg2002_rtos_shm_transfer] and [struct sg2002_rtos_shm_batch] (whose
    [slots_ptr] is the array passed beside it; [flags] and [reserved] stay 0). *)
Record transfer := Transfer {
  transfer_timeout_ms : Z;
  message : slot;
}.
Record batch := Batch {
  batch_timeout_ms : Z;
  batch_generation : Z;
  batch_count : Z;
  batch_completed : Z;
}.

Inductive lock := tx_lock | rx_lock.

Class Linux (O : Type) := {
  os_open : string -> O -> sys Z * O;
  os_close : Z -> O -> unit * O;
  os_calloc : O -> bool * O;
  os_free : O -> unit * O;
  os_eventfd : O -> sys Z * O;
  (** an 8-byte read or write: the bytes transferred, and the value read *)
  os_read : Z -> O -> sys (Z * Z) * O;
  os_write : Z -> Z -> O -> sys Z * O;
  os_poll : list (Z * Z) -> Z -> O -> poll_result * O;
  os_clock : O -> option (Z * Z) * O;
  pthread_mutex_init : lock -> O -> Z * O;
  pthread_mutex_destroy : lock -> O -> unit * O;
  pthread_mutex_lock : lock -> O -> Z * O;
  pthread_mutex_unlock : lock -> O -> unit * O;
  ioctl_acquire : Z -> O -> sys shm_info * O;
  ioctl_send : Z -> transfer -> O -> sys transfer * O;
  ioctl_receive : Z -> transfer -> O -> sys transfer * O;
  ioctl_submit_batch : Z -> batch -> list slot -> O -> sys batch * list slot * O;
  ioctl_reap_batch : Z -> batch -> list slot -> O -> sys batch * list slot * O;
  ioctl_send_wait : Z -> cmdqu_t -> O -> sys cmdqu_t * O;
}.

(** ** Documented behaviour *)

(** The other side of the transport: the sequence number the kernel gives to the
    next request, whether the request ring has room, and the response the firmware
    makes of a request. *)
Record peer := Peer {
  v_next_sequence : Z;
  v_can_send : bool;
  v_answer : slot -> slot;
}.

(** What the library can observe of the system: the counters of the event
    descriptors, the responses in the kernel's ring, those still to arrive, the
    other side, the mutexes held, and the last time known of the monotonic clock,
    in milliseconds. *)
Record os_view := OsView {
  v_events : gmap Z nat;
  v_responses : list slot;
  v_in_flight : list slot;
  v_peer : peer;
  v_tx_held : bool;
  v_rx_held : bool;
  v_clock : Z;
}.

Definition set_events (e : gmap Z nat) (v : os_view) : os_view :=
  OsView e (v_responses v) (v_in_flight v) (v_peer v) (v_tx_held v) (v_rx_held v)
    (v_clock v).
Definition set_responses (l : list slot) (v : os_view) : os_view :=
  OsView (v_events v) l (v_in_flight v) (v_peer v) (v_tx_held v) (v_rx_held v)
    (v_clock v).
Definition set_in_flight (l : list slot) (v : os_view) : os_view :=
  OsView (v_events v) (v_responses v) l (v_peer v) (v_tx_held v) (v_rx_held v)
    (v_clock v).
Definition set_peer (p : peer) (v : os_view) : os_view :=
  OsView (v_events v) (v_responses v) (v_in_flight v) p (v_tx_held v) (v_rx_held v)
    (v_clock v).
Definition set_held (l : lock) (b : bool) (v : os_view) : os_view :=
  match l with
  | tx_lock =>
      OsView (v_events v) (v_responses v) (v_in_flight v) (v_peer v) b (v_rx_held v)
        (v_clock v)
  | rx_lock =>
      OsView (v_events v) (v_responses v) (v_in_flight v) (v_peer v) (v_tx_held v) b
        (v_clock v)
  end.
Definition set_clock (c : Z) (v : os_view) : os_view :=
  OsView (v_events v) (v_responses v) (v_in_flight v) (v_peer v) (v_tx_held v)
    (v_rx_held v) c.
Definition v_held (l : lock) (v : os_view) : bool :=
  match l with tx_lock => v_tx_held v | rx_lock => v_rx_held v end.

(** Semaphore-mode event descriptors, a non-blocking receive, error-checking
    mutexes, a monotonic clock, and a [poll] for input that returns once a response
    is there or its timeout has passed. *)
Class LinuxLaws (O : Type) `{Linux O} := {
  view : O -> os_view;
  view_open path o : view (os_open path o).2 = view o;
  view_acquire d o : view (ioctl_acquire d o).2 = view o;
  view_calloc o : view (os_calloc o).2 = view o;
  view_mutex_init l o : view (pthread_mutex_init l o).2 = view o;
  view_eventfd o :
    view (os_eventfd o).2 =
      match (os_eventfd o).1 with
      | Ok d => set_events (<[d := 0%nat]> (v_events (view o))) (view o)
      | Err _ => view o
      end;
  view_write o d n :
    v_events (view o) !! d = Some n -> Z.of_nat n < 2 ^ 64 - 2 ->
    (os_write d 1 o).1 = Ok 8 /\
    view (os_write d 1 o).2 = set_events (<[d := S n]> (v_events (view o))) (view o);
  view_read o d n :
    v_events (view o) !! d = Some (S n) ->
    (os_read d o).1 = Ok (8, 1) /\
    view (os_read d o).2 = set_events (<[d := n]> (v_events (view o))) (view o);
  view_receive o d t m rest :
    v_responses (view o) = m :: rest ->
    (ioctl_receive d t o).1 = Ok (Transfer (transfer_timeout_ms t) m) /\
    view (ioctl_receive d t o).2 = set_responses rest (view o);
  view_receive_empty o d t :
    v_responses (view o) = [] -> transfer_timeout_ms t = 0 ->
    (ioctl_receive d t o).1 = Err EAGAIN /\
    view (ioctl_receive d t o).2 = view o;
  (** a request that fits the ring is numbered, and its response is on its way *)
  view_send o d t :
    v_can_send (v_peer (view o)) = true -> v_next_sequence (v_peer (view o)) <> 0 ->
    let m := Slot (v_next_sequence (v_peer (view o))) (msg_length (message t))
               (payload (message t)) in
    (ioctl_send d t o).1 = Ok (Transfer (transfer_timeout_ms t) m) /\
    exists next,
      view (ioctl_send d t o).2 =
        set_peer next (set_in_flight
          (v_in_flight (view o) ++ [v_answer (v_peer (view o)) m]) (view o));
  view_lock o l :
    v_held l (view o) = false ->
    (pthread_mutex_lock l o).1 = 0 /\
    view (pthread_mutex_lock l o).2 = set_held l true (view o);
  view_unlock o l : view (pthread_mutex_unlock l o).2 = set_held l false (view o);
  (** the clock does not go back, and is far from the limits of 64 bits *)
  view_clock o :
    exists sec nsec c,
      (os_clock o).1 = Some (sec, nsec) /\ 0 <= sec /\ 0 <= nsec < 10 ^ 9 /\
      c = sec * 1000 + nsec / 10 ^ 6 /\ v_clock (view o) <= c < 2 ^ 62 /\
      view (os_clock o).2 = set_clock c (view o);
  (** some time later a response has arrived, or the timeout has passed *)
  view_poll o d t :
    (v_responses (view o) ++ v_in_flight (view o)) <> [] -> -1 <= t ->
    exists c, v_clock (view o) <= c /\
      ((exists rs arrived later,
          (os_poll [(d, POLLIN)] t o).1 = PollReady rs /\
          v_in_flight (view o) = arrived ++ later /\
          (v_responses (view o) ++ arrived) <> [] /\
          view (os_poll [(d, POLLIN)] t o).2 =
            set_clock c (set_in_flight later
              (set_responses (v_responses (view o) ++ arrived) (view o)))) \/
       (0 <= t /\ v_clock (view o) + t <= c /\
        (os_poll [(d, POLLIN)] t o).1 = PollTimeout /\
        view (os_poll [(d, POLLIN)] t o).2 = set_clock c (view o)));
}.

(** What a process has to give back: descriptors, allocations, mutexes. *)
Record resources := Resources {
  r_fds : gset Z;
  r_allocations : Z;
  r_tx : bool;
  r_rx : bool;
}.

Definition set_mutex (l : lock) (b : bool) (r : resources) : resources :=
  match l with
  | tx_lock => Resources (r_fds r) (r_allocations r) b (r_rx r)
  | rx_lock => Resources (r_fds r) (r_allocations r) (r_tx r) b
  end.
Definition set_fds (f : gset Z) (r : resources) : resources :=
  Resources f (r_allocations r) (r_tx r) (r_rx r).
Definition add_allocations (n : Z) (r : resources) : resources :=
  Resources (r_fds r) (r_allocations r + n) (r_tx r) (r_rx r).

Definition opened (r r' : resources) (result : sys Z) : Prop :=
  match result with
  | Ok d => 0 <= d /\ (d ∉ r_fds r) /\ r' = set_fds ({[d]} ∪ r_fds r) r
  | Err e => 0 < e /\ r' = r
  end.

Class LinuxResources (O : Type) `{Linux O} := {
  owned : O -> resources;
  owned_open path o : opened (owned o) (owned (os_open path o).2) (os_open path o).1;
  owned_eventfd o : opened (owned o) (owned (os_eventfd o).2) (os_eventfd o).1;
  owned_close d o :
    owned (os_close d o).2 = set_fds (r_fds (owned o) ∖ {[d]}) (owned o);
  owned_calloc o :
    owned (os_calloc o).2 =
      if (os_calloc o).1 then add_allocations 1 (owned o) else owned o;
  owned_free o : owned (os_free o).2 = add_allocations (-1) (owned o);
  owned_init l o :
    0 <= (pthread_mutex_init l o).1 /\
    owned (pthread_mutex_init l o).2 =
      if (pthread_mutex_init l o).1 =? 0 then set_mutex l true (owned o) else owned o;
  owned_destroy l o : owned (pthread_mutex_destroy l o).2 = set_mutex l false (owned o);
  owned_acquire d o :
    owned (ioctl_acquire d o).2 = owned o /\
    (forall e, (ioctl_acquire d o).1 = Err e -> 0 < e);
}.
