(* ===== verification/LinuxSim.v ===== *)
(** * A concrete operating system

    An executable instance of the interfaces of LinuxOs.v: descriptors handed out
    in order, semaphore event descriptors, a kernel whose responses arrive at the
    next [poll], an error-checking pair of mutexes. The theorems about the client
    library are evaluated on it. *)

From S2P Require Import Prelude Protocol Shm Cmdqu LinuxOs.
Local Open Scope Z_scope.

Module Sim.

(** [features] is what [ACQUIRE] reports; [memory] how many allocations succeed. *)
Record t := Sim {
  sim_view : os_view;
  sim_owned : resources;
  features : Z;
  memory : Z;
  clock : nat;
}.

Definition set_view (v : os_view) (o : t) : t :=
  Sim v (sim_owned o) (features o) (memory o) (clock o).
Definition set_owned (r : resources) (o : t) : t :=
  Sim (sim_view o) r (features o) (memory o) (clock o).

(** A number above every descriptor in use and the standard ones. *)
Definition next_fd (fds : gset Z) : Z := 1 + set_fold Z.max 2 fds.

Definition new_fd (o : t) : Z * t :=
  let d := next_fd (r_fds (sim_owned o)) in
  (d, set_owned (set_fds ({[d]} ∪ r_fds (sim_owned o)) (sim_owned o)) o).

(** The monotonic clock: a millisecond per reading, up to its limit. *)
Definition now (o : t) : Z := Z.min (Z.of_nat (clock o)) (2 ^ 61).

Definition lock_mutex (l : lock) (o : t) : Z * t :=
  if v_held l (sim_view o) then (35, o)
  else (0, set_view (set_held l true (sim_view o)) o).

Definition receive (tr : transfer) (o : t) : sys transfer * t :=
  match v_responses (sim_view o) with
  | m :: rest =>
      (Ok (Transfer (transfer_timeout_ms tr) m), set_view (set_responses rest (sim_view o)) o)
  | [] => (Err EAGAIN, o)
  end.

(** Numbers go on after 2^32 - 1 with 1: 0 is no sequence number. *)
Definition next_peer (p : peer) : peer :=
  Peer (if v_next_sequence p =? 2 ^ 32 - 1 then 1 else v_next_sequence p + 1)
    (v_can_send p) (v_answer p).

Definition send (tr : transfer) (o : t) : sys transfer * t :=
  let v := sim_view o in
  let p := v_peer v in
  if v_can_send p then
    let m := Slot (v_next_sequence p) (msg_length (message tr)) (payload (message tr)) in
    (Ok (Transfer (transfer_timeout_ms tr) m),
     set_view (set_peer (next_peer p)
       (set_in_flight (v_in_flight v ++ [v_answer p m]) v)) o)
  else (Err EAGAIN, o).

(** Everything in flight arrives when a [poll] waits; the first descriptor is the
    device, and no other becomes ready. *)
Definition poll (descriptors : list (Z * Z)) (o : t) : poll_result * t :=
  let v := sim_view o in
  match v_responses v ++ v_in_flight v with
  | [] => (PollTimeout, o)
  | l => (PollReady (POLLIN :: ((fun _ => 0) <$> tail descriptors)),
          set_view (set_in_flight [] (set_responses l v)) o)
  end.

Definition read (d : Z) (o : t) : sys (Z * Z) * t :=
  match v_events (sim_view o) !! d with
  | Some (S n) => (Ok (8, 1), set_view (set_events (<[d := n]> (v_events (sim_view o)))
                                (sim_view o)) o)
  | _ => (Err EAGAIN, o)
  end.

Definition write (d : Z) (o : t) : sys Z * t :=
  match v_events (sim_view o) !! d with
  | Some n => (Ok 8, set_view (set_events (<[d := S n]> (v_events (sim_view o)))
                       (sim_view o)) o)
  | None => (Err EBADF, o)
  end.

#[global] Instance linux : Linux t := {|
  os_open := fun _ o => let '(d, o) := new_fd o in (Ok d, o);
  os_close := fun d o =>
    (tt, set_owned (set_fds (r_fds (sim_owned o) ∖ {[d]}) (sim_owned o)) o);
  os_calloc := fun o =>
    if 0 <? memory o
    then (true, Sim (sim_view o) (add_allocations 1 (sim_owned o)) (features o)
                  (memory o - 1) (clock o))
    else (false, o);
  os_free := fun o => (tt, set_owned (add_allocations (-1) (sim_owned o)) o);
  os_eventfd := fun o =>
    let '(d, o) := new_fd o in
    (Ok d, set_view (set_events (<[d := 0%nat]> (v_events (sim_view o))) (sim_view o)) o);
  os_read := read;
  os_write := fun d _ => write d;
  os_poll := fun l _ => poll l;
  os_clock := fun o =>
    let o := Sim (sim_view o) (sim_owned o) (features o) (memory o) (S (clock o)) in
    (Some (now o / 1000, now o mod 1000 * 10 ^ 6), o);
  pthread_mutex_init := fun l o => (0, set_owned (set_mutex l true (sim_owned o)) o);
  pthread_mutex_destroy := fun l o => (tt, set_owned (set_mutex l false (sim_owned o)) o);
  pthread_mutex_lock := lock_mutex;
  pthread_mutex_unlock := fun l o => (tt, set_view (set_held l false (sim_view o)) o);
  ioctl_acquire := fun _ o =>
    if features o =? 0 then (Err ENOTTY, o)
    else (Ok (ShmInfo SG2002_RTOS_SHM_ABI_VERSION SG2002_RTOS_SHM_REGION_SIZE
                SG2002_RTOS_SHM_CONTROL_SIZE SG2002_RTOS_SHM_SLOT_SIZE
                SG2002_RTOS_SHM_SLOT_COUNT SG2002_RTOS_SHM_PAYLOAD_SIZE 1 (features o)), o);
  ioctl_send := fun _ => send;
  ioctl_receive := fun _ => receive;
  ioctl_submit_batch := fun _ _ l o => (Err ENOTTY, l, o);
  ioctl_reap_batch := fun _ _ l o => (Err ENOTTY, l, o);
  ioctl_send_wait := fun _ c o =>
    (Ok (Cmdqu (ip_id c) (cmd_id c) (block c) (Valid 0 1) (param_ptr c)), o);
|}.

Lemma next_fd_fresh (fds : gset Z) : 0 <= next_fd fds /\ next_fd fds ∉ fds.
Proof.
  unfold next_fd.
  assert (Hb : 2 <= set_fold Z.max 2 fds /\ forall d, d ∈ fds -> d <= set_fold Z.max 2 fds).
  { apply (set_fold_ind_L (fun m X => 2 <= m /\ forall d, d ∈ X -> d <= m)).
    - split; [lia|]. set_solver.
    - intros x X r Hx [H2 IH]. split; [lia|]. intros d Hd.
      apply elem_of_union in Hd as [->%elem_of_singleton|Hd]; [lia|].
      specialize (IH d Hd). lia. }
  destruct Hb as [H2 Hb]. split; [lia|]. intros Hin. specialize (Hb _ Hin). lia.
Qed.

#[global] Instance laws : LinuxLaws t.
Proof.
  refine {| view := fun o => set_clock (now o) (sim_view o) |}; cbn; intros.
  all: try done.
  - by destruct (_ =? 0).
  - by destruct (0 <? memory o).
  - unfold write. by rewrite H.
  - unfold read. by rewrite H.
  - unfold receive. by rewrite H.
  - unfold receive. by rewrite H.
  - unfold send. rewrite H. split; [done|]. by eexists.
  - unfold lock_mutex. destruct l; cbn in *; by rewrite H.
  - by destruct l.
  - set (n := now (Sim (sim_view o) (sim_owned o) (features o) (memory o) (S (clock o)))).
    exists (n / 1000), (n mod 1000 * 10 ^ 6), n.
    assert (Hn : now o <= n < 2 ^ 62 /\ 0 <= n) by (unfold n, now; cbn [clock]; lia).
    rewrite Z.div_mul by done. pose proof (Z.div_mod n 1000).
    split_and!; try done; lia.
  - unfold poll. destruct (v_responses (sim_view o) ++ v_in_flight (sim_view o)) as [|m l] eqn:E;
      [done|].
    exists (now o). split; [lia|]. left.
    exists [POLLIN], (v_in_flight (sim_view o)), []. cbn.
    by rewrite app_nil_r, E.
Defined.

#[global] Instance resources_laws : LinuxResources t.
Proof.
  refine {| owned := sim_owned |}; cbn; intros; try done.
  - pose proof (next_fd_fresh (r_fds (sim_owned o))). tauto.
  - pose proof (next_fd_fresh (r_fds (sim_owned o))). tauto.
  - by destruct (0 <? memory o).
  - split; [|intros e]; destruct (_ =? 0); try done. by intros [= <-].
Defined.

(** A freshly booted system: nothing pending, and a firmware that answers a value
    message with its value inverted (PING). *)
Definition ping (m : slot) : slot :=
  Slot (sequence m) (msg_length m)
    (match payload m with
     | c :: l => c :: le_bytes 4 (Z.lxor (le_value (take 4 l)) SG2002_RTOS_PING_XOR)
                   ++ drop 4 l
     | [] => []
     end).

Definition booted (features memory : Z) (responses : list slot) : t :=
  Sim (OsView ∅ responses [] (Peer 7 true ping) false false 0)
    (Resources ∅ 0 false false) features memory 1000%nat.

End Sim.
