(* ===== verification/LinuxRtos.v ===== *)
(** * Linux client library: [linux/src/sg2002_rtos.c]

    A handle owns the device descriptor and, when the kernel has the shared-memory
    transport, a private part with the responses retained by synchronous calls.
    Computations run on the record [client]: the caller's handle ([None] is a
    [NULL] pointer) and the operating system. Out-parameters are results; a
    nullable one is an option. Every unbounded loop takes [fuel]; running out of
    it, and undefined behaviour, is [None]. *)

From S2P Require Import Prelude Protocol Shm Cmdqu LinuxOs.
Local Open Scope Z_scope.

Definition SG2002_RTOS_DEVICE_PATH : string := "/dev/cvi-rtos-cmdqu".
Definition SG2002_RTOS_DEFAULT_TIMEOUT_MS : Z := 3000.

Definition SG2002_RTOS_BATCH_UNKNOWN : Z := 0.
Definition SG2002_RTOS_BATCH_SUPPORTED : Z := 1.
Definition SG2002_RTOS_BATCH_UNSUPPORTED : Z := -1.

(** [struct sg2002_rtos_private], without the mutexes, which the system keeps. *)
Record private := Private {
  pending_fd : Z;
  shared_memory_enabled : Z;
  submit_batch_supported : Z;
  reap_batch_supported : Z;
  generation : Z;
  pending : list slot;
  pending_count : Z;
}.

(** [struct sg2002_rtos]. *)
Record handle := Handle {
  fd : Z;
  private_data : option private;
}.

Record client (L : Type) := Client {
  rtos : option handle;
  os : L;
}.
Arguments Client {L}.
Arguments rtos {L}.
Arguments os {L}.

Definition set_pending (l : list slot) (n : Z) (p : private) : private :=
  Private (pending_fd p) (shared_memory_enabled p) (submit_batch_supported p)
    (reap_batch_supported p) (generation p) l n.
Definition set_submit_batch_supported (x : Z) (p : private) : private :=
  Private (pending_fd p) (shared_memory_enabled p) x (reap_batch_supported p)
    (generation p) (pending p) (pending_count p).
Definition set_reap_batch_supported (x : Z) (p : private) : private :=
  Private (pending_fd p) (shared_memory_enabled p) (submit_batch_supported p) x
    (generation p) (pending p) (pending_count p).

Definition info_is_valid (info : shm_info) : bool :=
  (info_abi_version info =? SG2002_RTOS_SHM_ABI_VERSION) &&
  (info_region_size info =? SG2002_RTOS_SHM_REGION_SIZE) &&
  (info_control_size info =? SG2002_RTOS_SHM_CONTROL_SIZE) &&
  (info_slot_size info =? SG2002_RTOS_SHM_SLOT_SIZE) &&
  (info_slot_count info =? SG2002_RTOS_SHM_SLOT_COUNT) &&
  (info_payload_size info =? SG2002_RTOS_SHM_PAYLOAD_SIZE) &&
  negb (info_generation info =? 0) &&
  (Z.land (info_features info) SG2002_RTOS_SHM_FEATURES =? SG2002_RTOS_SHM_FEATURES).

Section Library.
Context {L : Type} `{Linux L}.
Context (fuel : nat).
Local Abbreviation M := (ST (client L)).

Definition set_os (o : L) (s : client L) : client L := Client (rtos s) o.
Definition set_rtos (h : handle) (s : client L) : client L := Client (Some h) (os s).
Definition call {A} (f : L -> A * L) : M A := zoom os set_os f.

(** The C function [private_data]. *)
Definition private_of (r : option handle) : option private :=
  match r with Some h => private_data h | None => None end.

(** [private->...] where the code has checked that it is not [NULL]. *)
Definition get_private : M private := r ← gets rtos; lift (private_of r).
Definition put_private (p : private) : M unit :=
  r ← gets rtos; h ← lift r; modify (set_rtos (Handle (fd h) (Some p))).

(** *** Opening and closing *)

Definition acquire_fallback (e : Z) : bool :=
  (e =? ENOTTY) || (e =? ENODEV) || (e =? EOPNOTSUPP) || (e =? ETIMEDOUT).

Definition zeroed_pending : list slot :=
  replicate (Z.to_nat SG2002_RTOS_SHM_SLOT_COUNT) zero_slot.

(** The allocation of the private part of a handle acquired on [fd]. *)
Definition open_private (fd : Z) (info : shm_info) : M Z :=
  allocated ← call os_calloc;
  if negb allocated then call (os_close fd);; mret (- ENOMEM)
  else
    mutex_result ← call (pthread_mutex_init tx_lock);
    if negb (mutex_result =? 0)
    then call os_free;; call (os_close fd);; mret (- mutex_result)
    else
      mutex_result ← call (pthread_mutex_init rx_lock);
      if negb (mutex_result =? 0)
      then call (pthread_mutex_destroy tx_lock);; call os_free;;
           call (os_close fd);; mret (- mutex_result)
      else
        event ← call os_eventfd;
        match event with
        | Err e =>
            call (pthread_mutex_destroy rx_lock);;
            call (pthread_mutex_destroy tx_lock);;
            call os_free;; call (os_close fd);; mret (- e)
        | Ok event =>
            modify (set_rtos (Handle fd (Some
              (Private event 1 SG2002_RTOS_BATCH_UNKNOWN SG2002_RTOS_BATCH_UNKNOWN
                 (info_generation info) zeroed_pending 0))));;
            mret 0
        end.

Definition sg2002_rtos_open (device_path : option string) : M Z :=
  r ← gets rtos;
  match r with
  | None => mret (- EINVAL)
  | Some h =>
      if 0 <=? fd h then mret (- EALREADY)
      else
        opened ← call (os_open (default SG2002_RTOS_DEVICE_PATH device_path));
        match opened with
        | Err e => mret (- e)
        | Ok fd =>
            acquired ← call (ioctl_acquire fd);
            match acquired with
            | Err e =>
                if negb (acquire_fallback e)
                then call (os_close fd);; mret (- e)
                else modify (set_rtos (Handle fd None));; mret 0
            | Ok info =>
                if negb (info_is_valid info)
                then call (os_close fd);; mret (- EPROTO)
                else open_private fd info
            end
        end
  end.

Definition sg2002_rtos_close : M unit :=
  r ← gets rtos;
  match r with
  | None => mret tt
  | Some h =>
      if fd h <? 0 then mret tt
      else
        call (os_close (fd h));;
        (match private_data h with
         | None => mret tt
         | Some p =>
             call (os_close (pending_fd p));;
             call (pthread_mutex_destroy rx_lock);;
             call (pthread_mutex_destroy tx_lock);;
             call os_free
         end);;
        modify (set_rtos (Handle (-1) None))
  end.

Definition shared_memory_available (r : option handle) : bool :=
  match r with
  | None => false
  | Some h =>
      if fd h <? 0 then false
      else match private_data h with
           | None => false
           | Some p => negb (shared_memory_enabled p =? 0)
           end
  end.

Definition sg2002_rtos_shared_memory_available : M Z :=
  r ← gets rtos; mret (Z.b2z (shared_memory_available r)).

Definition sg2002_rtos_poll_fd : M Z :=
  r ← gets rtos;
  mret (match r with
        | None => - EINVAL
        | Some h =>
            if fd h <? 0 then - EBADF
            else if negb (shared_memory_available r) then - EOPNOTSUPP
            else fd h
        end).

(** *** Time *)

Definition monotonic_milliseconds : M Z :=
  now ← call os_clock;
  mret (match now with
        | None => 0
        | Some (sec, nsec) => u64 (u64 sec * 1000 + u64 nsec / 1000000)
        end).

Definition timeout_deadline (timeout_ms : Z) : M Z :=
  if (timeout_ms =? 0) || (timeout_ms =? UINT32_MAX) then mret 0
  else now ← monotonic_milliseconds; mret (u64 (now + timeout_ms)).

(** What is left of a [difference] of milliseconds, as a [uint32_t]. *)
Definition remaining_of (difference : Z) : Z :=
  if UINT32_MAX <=? difference then UINT32_MAX - 1 else u32 difference.

(** [*remaining] is the second result, unchanged on a timeout. *)
Definition update_remaining (timeout_ms deadline remaining : Z) : M (Z * Z) :=
  if timeout_ms =? UINT32_MAX then mret (0, UINT32_MAX)
  else
    now ← monotonic_milliseconds;
    if deadline <=? now then mret (- ETIMEDOUT, remaining)
    else mret (0, remaining_of (u64 (deadline - now))).

(** The [int] milliseconds passed to [poll]. *)
Definition poll_timeout (remaining : Z) : Z :=
  if remaining =? UINT32_MAX then -1
  else if INT_MAX <? remaining then INT_MAX else remaining.

(** *** Waiting *)

Fixpoint wait_poll (n : nat) (descriptors : list (Z * Z))
    (timeout_ms deadline remaining : Z) : M poll_result :=
  match n with
  | O => undefined
  | S n =>
      ret ← call (os_poll descriptors (poll_timeout remaining));
      match ret with
      | PollTimeout =>
          if timeout_ms =? UINT32_MAX then mret PollTimeout
          else
            now ← monotonic_milliseconds;
            if deadline <=? now then mret PollTimeout
            else wait_poll n descriptors timeout_ms deadline
                   (remaining_of (u64 (deadline - now)))
      | _ => mret ret
      end
  end.

Definition supported_events : Z := Z.lor POLLIN POLLOUT.

(** The revents the caller sees, from those of the two descriptors. *)
Definition merge_revents (device : Z) (pending : option Z) : Z :=
  match pending with
  | None => device
  | Some pending =>
      let r := if negb (Z.land pending POLLIN =? 0) then Z.lor device POLLIN
               else device in
      if negb (Z.land pending (Z.lor (Z.lor POLLERR POLLHUP) POLLNVAL) =? 0)
      then Z.lor r POLLERR else r
  end.

Definition sg2002_rtos_wait (events : Z) (revents : option Z) (timeout_ms : Z) :
    M (Z * option Z) :=
  let revents := (fun _ => 0) <$> revents in
  r ← gets rtos;
  if negb (shared_memory_available r) then mret (- EOPNOTSUPP, revents)
  else
    match revents with
    | None => mret (- EINVAL, None)
    | Some _ =>
        if (events =? 0) || negb (Z.land events (Z.lnot supported_events) =? 0)
        then mret (- EINVAL, revents)
        else
          h ← lift r;
          p ← get_private;
          let descriptors :=
            (fd h, events) ::
            (if negb (Z.land events POLLIN =? 0) then [(pending_fd p, POLLIN)]
             else []) in
          deadline ← (if negb (timeout_ms =? UINT32_MAX)
                      then now ← monotonic_milliseconds; mret (u64 (now + timeout_ms))
                      else mret 0);
          ret ← wait_poll fuel descriptors timeout_ms deadline timeout_ms;
          match ret with
          | PollError e => mret (- e, revents)
          | PollTimeout => mret (0, revents)
          | PollReady rs =>
              device ← lift (rs !! 0%nat);
              let r := merge_revents device
                (if (length descriptors =? 2)%nat then rs !! 1%nat else None) in
              mret (if negb (r =? 0) then 1 else 0, Some r)
          end
    end.

(** *** One message to and from the kernel *)

(** The second result is [*sequence]. *)
Definition message_send_locked (request : option (list Z)) (request_length timeout_ms : Z)
    (sequence : option Z) : M (Z * option Z) :=
  if (SG2002_RTOS_SHM_PAYLOAD_SIZE <? request_length) ||
     ((0 <? request_length) && bool_decide (request = None)) ||
     bool_decide (sequence = None)
  then mret (- EINVAL, sequence)
  else
    payload ← (if 0 <? request_length
               then request ← lift request;
                    lift (memcpy zero_payload 0 request 0 (Z.to_nat request_length))
               else mret zero_payload);
    h ← gets rtos; h ← lift h;
    sent ← call (ioctl_send (fd h)
      (Transfer timeout_ms (Slot 0 request_length payload)));
    match sent with
    | Err e => mret (- e, sequence)
    | Ok t =>
        if Shm.sequence (message t) =? 0 then mret (- EPROTO, sequence)
        else mret (0, Some (Shm.sequence (message t)))
    end.

(** The second result is what [*message] was set to, if it was. *)
Definition receive_from_kernel_locked (timeout_ms : Z) : M (Z * option slot) :=
  h ← gets rtos; h ← lift h;
  received ← call (ioctl_receive (fd h) (Transfer timeout_ms zero_slot));
  match received with
  | Err e => mret (- e, None)
  | Ok t =>
      if (sequence (message t) =? 0) ||
         (SG2002_RTOS_SHM_PAYLOAD_SIZE <? msg_length (message t))
      then mret (- EPROTO, None)
      else mret (0, Some (message t))
  end.

(** *** Responses retained by synchronous calls *)

Fixpoint event_write (n : nat) (descriptor : Z) : M (sys Z) :=
  match n with
  | O => undefined
  | S n =>
      written ← call (os_write descriptor 1);
      match written with
      | Err e => if e =? EINTR then event_write n descriptor else mret (Err e)
      | Ok k => mret (Ok k)
      end
  end.

Definition pending_event_signal : M Z :=
  p ← get_private;
  written ← event_write fuel (pending_fd p);
  mret (match written with
        | Err e => - e
        | Ok k => if k =? 8 then 0 else - EIO
        end).

Fixpoint event_read (n : nat) (descriptor : Z) : M (sys (Z * Z)) :=
  match n with
  | O => undefined
  | S n =>
      received ← call (os_read descriptor);
      match received with
      | Err e => if e =? EINTR then event_read n descriptor else mret (Err e)
      | Ok r => mret (Ok r)
      end
  end.

Definition pending_event_consume : M Z :=
  p ← get_private;
  received ← event_read fuel (pending_fd p);
  mret (match received with
        | Err e => - e
        | Ok (k, value) => if (k =? 8) && (value =? 1) then 0 else - EIO
        end).

Definition retain_pending (message : slot) : M Z :=
  p ← get_private;
  if SG2002_RTOS_SHM_SLOT_COUNT <=? pending_count p then mret (- ENOBUFS)
  else
    l ← lift (array_store (pending p) (pending_count p) message);
    put_private (set_pending l (pending_count p + 1) p);;
    ret ← pending_event_signal;
    if negb (ret =? 0) then
      p ← get_private;
      put_private (set_pending (pending p) (pending_count p - 1) p);;
      mret ret
    else mret 0.

(** [memmove] of the [count - index] slots after [index] down by one. *)
Definition close_gap (l : list slot) (index count : nat) : list slot :=
  take index l ++ take (count - index) (drop (S index) l) ++ drop count l.

Definition remove_pending (index : Z) : M Z :=
  p ← get_private;
  if pending_count p <=? index then mret (- ENOENT)
  else
    let count := pending_count p - 1 in
    put_private (set_pending
      (if index <? count then close_gap (pending p) (Z.to_nat index) (Z.to_nat count)
       else pending p) count p);;
    ret ← pending_event_consume;
    mret (if ret =? - EAGAIN then - EPROTO else ret).

Definition take_pending_oldest : M (Z * option slot) :=
  p ← get_private;
  if pending_count p =? 0 then mret (0, None)
  else
    m ← lift (pending p !! 0%nat);
    ret ← remove_pending 0;
    if negb (ret =? 0) then mret (ret, Some m) else mret (1, Some m).

Fixpoint find_sequence (l : list slot) (indices : list nat) (seq : Z) :
    option (nat * slot) :=
  match indices with
  | [] => None
  | i :: indices =>
      match l !! i with
      | Some m => if negb (sequence m =? seq) then find_sequence l indices seq
                  else Some (i, m)
      | None => None
      end
  end.

Definition take_pending_sequence (seq : Z) : M (Z * option slot) :=
  p ← get_private;
  match find_sequence (pending p) (List.seq 0 (Z.to_nat (pending_count p))) seq with
  | None => mret (0, None)
  | Some (i, m) =>
      ret ← remove_pending (Z.of_nat i);
      if negb (ret =? 0) then mret (- EPROTO, Some m) else mret (1, Some m)
  end.

(** The caller's response buffer, [*response_length] and [*sequence] (an option:
    the pointer may be [NULL]). *)
Record outputs := Outputs {
  out_response : option (list Z);
  out_length : option Z;
  out_sequence : option Z;
}.

Definition copy_message (m : slot) (response_capacity : Z) (o : outputs) :
    M (Z * outputs) :=
  let o := Outputs (out_response o) (Some (msg_length m))
             ((fun _ => sequence m) <$> out_sequence o) in
  if response_capacity <? msg_length m then mret (- EMSGSIZE, o)
  else if 0 <? msg_length m then
    match out_response o with
    | None => mret (- EINVAL, o)
    | Some r =>
        r ← lift (memcpy r 0 (payload m) 0 (Z.to_nat (msg_length m)));
        mret (0, Outputs (Some r) (out_length o) (out_sequence o))
    end
  else mret (0, o).

(** *** Waiting for the other side *)

Definition wait_for_events (events timeout_ms deadline remaining : Z) : M (Z * Z) :=
  if timeout_ms =? 0 then mret (- EAGAIN, remaining)
  else
    '(ret, remaining) ← update_remaining timeout_ms deadline remaining;
    if negb (ret =? 0) then mret (ret, remaining)
    else
      '(ret, _) ← sg2002_rtos_wait events (Some 0) remaining;
      if ret <? 0 then mret (ret, remaining)
      else if ret =? 0 then mret (- ETIMEDOUT, remaining)
      else mret (0, remaining).

Fixpoint kernel_poll (n : nat) (descriptor events timeout_ms deadline remaining : Z) :
    M (Z * Z) :=
  match n with
  | O => undefined
  | S n =>
      '(ret, remaining) ← update_remaining timeout_ms deadline remaining;
      if negb (ret =? 0) then mret (ret, remaining)
      else
        ret ← call (os_poll [(descriptor, events)] (poll_timeout remaining));
        match ret with
        | PollError e => mret (- e, remaining)
        | PollReady _ => mret (0, remaining)
        | PollTimeout => kernel_poll n descriptor events timeout_ms deadline remaining
        end
  end.

Definition wait_for_kernel_events (events timeout_ms deadline remaining : Z) : M (Z * Z) :=
  h ← gets rtos; h ← lift h;
  if timeout_ms =? 0 then mret (- EAGAIN, remaining)
  else kernel_poll fuel (fd h) events timeout_ms deadline remaining.

(** The transient results every loop waits on. *)
Definition transient (ret : Z) : bool := (ret =? - EAGAIN) || (ret =? - ETIMEDOUT).

(** *** Asynchronous messages *)

(** [rtos == NULL || rtos->fd < 0 || private == NULL || !enabled]. *)
Definition has_channel : M bool := r ← gets rtos; mret (shared_memory_available r).

Fixpoint send_loop (n : nat) (request : option (list Z))
    (request_length timeout_ms deadline remaining : Z) (sequence : option Z) :
    M (Z * option Z) :=
  match n with
  | O => undefined
  | S n =>
      ret ← call (pthread_mutex_lock tx_lock);
      if negb (ret =? 0) then mret (- ret, sequence)
      else
        '(ret, sequence) ← message_send_locked request request_length 0 sequence;
        call (pthread_mutex_unlock tx_lock);;
        if negb (transient ret) then mret (ret, sequence)
        else
          '(ret, remaining) ← wait_for_events POLLOUT timeout_ms deadline remaining;
          if negb (ret =? 0) then mret (ret, sequence)
          else send_loop n request request_length timeout_ms deadline remaining sequence
  end.

Definition sg2002_rtos_message_send (request : option (list Z))
    (request_length timeout_ms : Z) (sequence : option Z) : M (Z * option Z) :=
  deadline ← timeout_deadline timeout_ms;
  available ← has_channel;
  if negb available then mret (- EOPNOTSUPP, sequence)
  else send_loop fuel request request_length timeout_ms deadline timeout_ms sequence.

(** What is done with a received message, under the lock. *)
Definition deliver (from_pending : bool) (m : slot) (response_capacity : Z)
    (o : outputs) : M (Z * outputs) :=
  '(ret, o) ← copy_message m response_capacity o;
  if from_pending && negb (ret =? - EMSGSIZE) then
    remove_result ← remove_pending 0;
    mret (if negb (remove_result =? 0) then remove_result else ret, o)
  else if negb from_pending && (ret =? - EMSGSIZE) then
    retain_result ← retain_pending m;
    mret (if negb (retain_result =? 0) then retain_result else ret, o)
  else mret (ret, o).

(** One turn of the receive loop, under the lock. *)
Definition receive_locked (response_capacity : Z) (o : outputs) : M (Z * outputs) :=
  p ← get_private;
  let from_pending := 0 <? pending_count p in
  '(ret, m) ←
    (if from_pending then m ← lift (pending p !! 0%nat); mret (0, Some m)
     else receive_from_kernel_locked 0);
  if ret =? 0 then m ← lift m; deliver from_pending m response_capacity o
  else mret (ret, o).

Fixpoint receive_loop (n : nat) (response_capacity : Z) (o : outputs)
    (timeout_ms deadline remaining : Z) : M (Z * outputs) :=
  match n with
  | O => undefined
  | S n =>
      ret ← call (pthread_mutex_lock rx_lock);
      if negb (ret =? 0) then mret (- ret, o)
      else
        '(ret, o) ← receive_locked response_capacity o;
        call (pthread_mutex_unlock rx_lock);;
        if negb (transient ret) then mret (ret, o)
        else
          '(ret, remaining) ← wait_for_events POLLIN timeout_ms deadline remaining;
          if negb (ret =? 0) then mret (ret, o)
          else receive_loop n response_capacity o timeout_ms deadline remaining
  end.

Definition sg2002_rtos_message_receive (response_capacity : Z) (o : outputs)
    (timeout_ms : Z) : M (Z * outputs) :=
  deadline ← timeout_deadline timeout_ms;
  available ← has_channel;
  if negb available then mret (- EOPNOTSUPP, o)
  else if bool_decide (out_length o = None) ||
          ((0 <? response_capacity) && bool_decide (out_response o = None))
  then mret (- EINVAL, o)
  else receive_loop fuel response_capacity o timeout_ms deadline timeout_ms.

(** *** Batches

    The results are the return value, the caller's array and [*completed]. *)

Definition set_sequence (seq : Z) (m : slot) : slot :=
  Slot seq (msg_length m) (payload m).

(** The fallback of [submit_batch_locked]: one kernel call per message. *)
Fixpoint submit_each (indices : list nat) (messages : list slot) (timeout_ms : Z)
    (index : Z) : M (Z * list slot * Z) :=
  match indices with
  | [] => mret (if 0 <? index then 0 else - EAGAIN, messages, index)
  | i :: indices =>
      m ← lift (messages !! i);
      let item_timeout := if index =? 0 then timeout_ms else 0 in
      '(ret, seq) ← message_send_locked (Some (payload m)) (msg_length m) item_timeout
                      (Some 0);
      if negb (ret =? 0) then
        if (0 <? index) && transient ret then mret (0, messages, index)
        else mret (ret, messages, index)
      else
        seq ← lift seq;
        messages ← lift (array_store messages (Z.of_nat i) (set_sequence seq m));
        submit_each indices messages timeout_ms (index + 1)
  end.

Definition submit_batch_locked (messages : list slot) (count completed timeout_ms : Z) :
    M (Z * list slot * Z) :=
  let each messages := submit_each (seq 0 (Z.to_nat count)) messages timeout_ms 0 in
  p ← get_private;
  if submit_batch_supported p =? SG2002_RTOS_BATCH_UNSUPPORTED then each messages
  else
    h ← gets rtos; h ← lift h;
    '(submitted, messages) ← call (ioctl_submit_batch (fd h)
      (Batch timeout_ms (generation p) count 0) messages);
    match submitted with
    | Ok b =>
        let n := batch_completed b in
        if (n =? 0) || (count <? n) then mret (- EPROTO, messages, completed)
        else if existsb (fun m => sequence m =? 0) (take (Z.to_nat n) messages)
        then mret (- EPROTO, messages, completed)
        else
          put_private (set_submit_batch_supported SG2002_RTOS_BATCH_SUPPORTED p);;
          mret (0, messages, n)
    | Err e =>
        if negb (e =? ENOTTY) then
          put_private (set_submit_batch_supported SG2002_RTOS_BATCH_SUPPORTED p);;
          mret (- e, messages, completed)
        else
          put_private (set_submit_batch_supported SG2002_RTOS_BATCH_UNSUPPORTED p);;
          each messages
    end.

Fixpoint batch_loop (lk : lock)
    (locked : list slot -> Z -> Z -> Z -> M (Z * list slot * Z)) (n : nat) (events : Z)
    (messages : list slot) (count completed timeout_ms deadline remaining : Z) :
    M (Z * list slot * Z) :=
  match n with
  | O => undefined
  | S n =>
      ret ← call (pthread_mutex_lock lk);
      if negb (ret =? 0) then mret (- ret, messages, completed)
      else
        '(ret, messages, completed) ← locked messages count 0 0;
        call (pthread_mutex_unlock lk);;
        if negb (transient ret) then mret (ret, messages, completed)
        else
          '(ret, remaining) ← wait_for_events events timeout_ms deadline remaining;
          if negb (ret =? 0) then mret (ret, messages, completed)
          else batch_loop lk locked n events messages count completed timeout_ms
                 deadline remaining
  end.

(** [messages] and [completed] are nullable; so are the results. *)
Definition sg2002_rtos_message_submit_batch (messages : option (list slot)) (count : Z)
    (completed : option Z) (timeout_ms : Z) :
    M (Z * option (list slot) * option Z) :=
  deadline ← timeout_deadline timeout_ms;
  let completed := (fun _ => 0) <$> completed in
  available ← has_channel;
  if negb available then mret (- EOPNOTSUPP, messages, completed)
  else
    match messages, completed with
    | Some l, Some c =>
        if (count =? 0) || (SG2002_RTOS_SHM_SLOT_COUNT <? count)
        then mret (- EINVAL, messages, completed)
        else
        first ← lift (if count <=? Z.of_nat (length l)
                      then Some (take (Z.to_nat count) l) else None);
        if existsb (fun m => SG2002_RTOS_SHM_PAYLOAD_SIZE <? msg_length m) first
        then mret (- EMSGSIZE, messages, completed)
        else
          '(ret, l, c) ← batch_loop tx_lock submit_batch_locked fuel POLLOUT l count c
                           timeout_ms deadline timeout_ms;
          mret (ret, Some l, Some c)
    | _, _ => mret (- EINVAL, messages, completed)
    end.

(** [messages[i] = m], when a message was obtained. *)
Definition store_message (messages : list slot) (i : nat) (m : option slot) :
    M (list slot) :=
  match m with
  | Some m => lift (array_store messages (Z.of_nat i) m)
  | None => mret messages
  end.

(** The first loop of [reap_batch_locked]: the retained responses. *)
Fixpoint reap_pending (indices : list nat) (messages : list slot) (index : Z) :
    M (Z * list slot * Z) :=
  match indices with
  | [] => mret (0, messages, index)
  | i :: indices =>
      '(ret, m) ← take_pending_oldest;
      messages ← store_message messages i m;
      if ret <? 0 then mret (ret, messages, index)
      else if ret =? 0 then mret (0, messages, index)
      else reap_pending indices messages (index + 1)
  end.

Fixpoint reap_each (indices : list nat) (messages : list slot) (timeout_ms index : Z) :
    M (Z * list slot * Z) :=
  match indices with
  | [] => mret (if 0 <? index then 0 else - EAGAIN, messages, index)
  | i :: indices =>
      let item_timeout := if index =? 0 then timeout_ms else 0 in
      '(ret, m) ← receive_from_kernel_locked item_timeout;
      messages ← store_message messages i m;
      if negb (ret =? 0) then
        if (0 <? index) && transient ret then mret (0, messages, index)
        else mret (ret, messages, index)
      else reap_each indices messages timeout_ms (index + 1)
  end.

Definition reap_batch_locked (messages : list slot) (count completed timeout_ms : Z) :
    M (Z * list slot * Z) :=
  '(ret, messages, index) ← reap_pending (seq 0 (Z.to_nat count)) messages 0;
  if ret <? 0 then mret (ret, messages, completed)
  else if 0 <? index then mret (0, messages, index)
  else
    let each messages := reap_each (seq 0 (Z.to_nat count)) messages timeout_ms 0 in
    p ← get_private;
    if reap_batch_supported p =? SG2002_RTOS_BATCH_UNSUPPORTED then each messages
    else
      h ← gets rtos; h ← lift h;
      '(reaped, messages) ← call (ioctl_reap_batch (fd h)
        (Batch timeout_ms (generation p) count 0) messages);
      match reaped with
      | Ok b =>
          let n := batch_completed b in
          if (n =? 0) || (count <? n) then mret (- EPROTO, messages, completed)
          else if existsb (fun m => (sequence m =? 0) ||
                             (SG2002_RTOS_SHM_PAYLOAD_SIZE <? msg_length m))
                    (take (Z.to_nat n) messages)
          then mret (- EPROTO, messages, completed)
          else
            put_private (set_reap_batch_supported SG2002_RTOS_BATCH_SUPPORTED p);;
            mret (0, messages, n)
      | Err e =>
          if negb (e =? ENOTTY) then
            put_private (set_reap_batch_supported SG2002_RTOS_BATCH_SUPPORTED p);;
            mret (- e, messages, completed)
          else
            put_private (set_reap_batch_supported SG2002_RTOS_BATCH_UNSUPPORTED p);;
            each messages
      end.

Definition sg2002_rtos_message_reap_batch (messages : option (list slot)) (count : Z)
    (completed : option Z) (timeout_ms : Z) :
    M (Z * option (list slot) * option Z) :=
  deadline ← timeout_deadline timeout_ms;
  let completed := (fun _ => 0) <$> completed in
  available ← has_channel;
  if negb available then mret (- EOPNOTSUPP, messages, completed)
  else
    match messages, completed with
    | Some l, Some c =>
        if (count =? 0) || (SG2002_RTOS_SHM_SLOT_COUNT <? count)
        then mret (- EINVAL, messages, completed)
        else
          '(ret, l, c) ← batch_loop rx_lock reap_batch_locked fuel POLLIN l count c
                           timeout_ms deadline timeout_ms;
          mret (ret, Some l, Some c)
    | _, _ => mret (- EINVAL, messages, completed)
    end.

Definition sg2002_rtos_native_batch_available : M Z :=
  available ← has_channel;
  if negb available then mret (- EOPNOTSUPP)
  else
    ret ← call (pthread_mutex_lock rx_lock);
    if negb (ret =? 0) then mret (- ret)
    else
      p ← get_private;
      let reap_status := reap_batch_supported p in
      call (pthread_mutex_unlock rx_lock);;
      ret ← call (pthread_mutex_lock tx_lock);
      if negb (ret =? 0) then mret (- ret)
      else
        p ← get_private;
        let submit_status := submit_batch_supported p in
        call (pthread_mutex_unlock tx_lock);;
        mret (if (submit_status =? SG2002_RTOS_BATCH_UNSUPPORTED) ||
                 (reap_status =? SG2002_RTOS_BATCH_UNSUPPORTED) then 0
              else if (submit_status =? SG2002_RTOS_BATCH_SUPPORTED) &&
                      (reap_status =? SG2002_RTOS_BATCH_SUPPORTED) then 1
              else - EAGAIN).

(** *** Synchronous messages *)

(** The first loop of [message_call]. [None] means sent, with [rx_lock] held and
    the sequence number; [Some ret] that the call returns [ret]. *)
Fixpoint call_send (n : nat) (request : option (list Z))
    (request_length timeout_ms deadline remaining sequence : Z) :
    M (option Z * Z * Z) :=
  match n with
  | O => undefined
  | S n =>
      ret ← call (pthread_mutex_lock rx_lock);
      if negb (ret =? 0) then mret (Some (- ret), sequence, remaining)
      else
        ret ← call (pthread_mutex_lock tx_lock);
        if negb (ret =? 0)
        then call (pthread_mutex_unlock rx_lock);; mret (Some (- ret), sequence, remaining)
        else
          '(ret, seq) ← message_send_locked request request_length 0 (Some sequence);
          sequence ← lift seq;
          call (pthread_mutex_unlock tx_lock);;
          if ret =? 0 then mret (None, sequence, remaining)
          else if negb (transient ret)
          then call (pthread_mutex_unlock rx_lock);; mret (Some ret, sequence, remaining)
          else
            '(ret, m) ← receive_from_kernel_locked 0;
            if ret =? 0 then
              m ← lift m;
              ret ← retain_pending m;
              call (pthread_mutex_unlock rx_lock);;
              if negb (ret =? 0) then mret (Some ret, sequence, remaining)
              else call_send n request request_length timeout_ms deadline remaining
                     sequence
            else if negb (transient ret)
            then call (pthread_mutex_unlock rx_lock);; mret (Some ret, sequence, remaining)
            else
              call (pthread_mutex_unlock rx_lock);;
              '(ret, remaining) ← wait_for_kernel_events (Z.lor POLLIN POLLOUT)
                                    timeout_ms deadline remaining;
              if negb (ret =? 0) then mret (Some ret, sequence, remaining)
              else call_send n request request_length timeout_ms deadline remaining
                     sequence
  end.

(** The second loop: the matching response, or an error. *)
Fixpoint call_receive (n : nat) (timeout_ms deadline remaining sequence : Z) :
    M (Z * option slot) :=
  match n with
  | O => undefined
  | S n =>
      '(pending_result, m) ← take_pending_sequence sequence;
      if pending_result <? 0 then mret (pending_result, None)
      else if 0 <? pending_result then mret (0, m)
      else
        '(ret, m) ← receive_from_kernel_locked 0;
        if transient ret then
          '(ret, remaining) ← wait_for_kernel_events POLLIN timeout_ms deadline remaining;
          if negb (ret =? 0) then mret (ret, None)
          else call_receive n timeout_ms deadline remaining sequence
        else if negb (ret =? 0) then mret (ret, None)
        else
          m ← lift m;
          if Shm.sequence m =? sequence then mret (0, Some m)
          else
            ret ← retain_pending m;
            if negb (ret =? 0) then mret (ret, None)
            else if negb (deadline =? 0) then
              now ← monotonic_milliseconds;
              if deadline <=? now then mret (- ETIMEDOUT, None)
              else call_receive n timeout_ms deadline (u32 (deadline - now)) sequence
            else call_receive n timeout_ms deadline remaining sequence
  end.

Definition sg2002_rtos_message_call (request : option (list Z)) (request_length : Z)
    (response_capacity : Z) (o : outputs) (timeout_ms : Z) : M (Z * outputs) :=
  available ← has_channel;
  if negb available then mret (- EOPNOTSUPP, o)
  else if bool_decide (out_length o = None) ||
          ((0 <? response_capacity) && bool_decide (out_response o = None))
  then mret (- EINVAL, o)
  else
    deadline ← timeout_deadline timeout_ms;
    '(sent, sequence, remaining) ←
      call_send fuel request request_length timeout_ms deadline timeout_ms 0;
    match sent with
    | Some ret => mret (ret, o)
    | None =>
        '(ret, m) ← call_receive fuel timeout_ms deadline remaining sequence;
        '(ret, o) ←
          (if ret =? 0 then
             m ← lift m;
             '(ret, o') ← copy_message m response_capacity
                            (Outputs (out_response o) (out_length o) None);
             mret (ret, Outputs (out_response o') (out_length o') (out_sequence o))
           else mret (ret, o));
        call (pthread_mutex_unlock rx_lock);;
        mret (ret, o)
    end.

(** *** 32-bit calls *)

Definition value_message (command value : Z) : list Z := command :: le_bytes 4 value.

(** [response] is the caller's variable. *)
Definition sg2002_rtos_call (command request timeout_ms : Z) (response : option Z) :
    M (Z * option Z) :=
  r ← gets rtos;
  match r, response with
  | Some h, Some old =>
      if (fd h <? 0) || (timeout_ms =? 0) then mret (- EINVAL, response)
      else if (command <? SG2002_RTOS_CMD_FIRST) || (SG2002_RTOS_CMD_LAST <? command)
      then mret (- EINVAL, response)
      else if shared_memory_available r then
        '(ret, o) ← sg2002_rtos_message_call (Some (value_message command request))
          SG2002_RTOS_VALUE_MESSAGE_SIZE SG2002_RTOS_VALUE_MESSAGE_SIZE
          (Outputs (Some (replicate (Z.to_nat SG2002_RTOS_VALUE_MESSAGE_SIZE) 0))
             (Some 0) None) timeout_ms;
        if negb (ret =? 0) then mret (ret, response)
        else
          bytes ← lift (out_response o);
          n ← lift (out_length o);
          echoed ← lift (bytes !! SG2002_RTOS_VALUE_MESSAGE_COMMAND_OFFSET);
          if negb (n =? SG2002_RTOS_VALUE_MESSAGE_SIZE) || negb (echoed =? command)
          then mret (- EPROTO, response)
          else
            value ← lift (read_bytes bytes SG2002_RTOS_VALUE_MESSAGE_VALUE_OFFSET 4);
            mret (0, Some (le_value value))
      else
        answered ← call (ioctl_send_wait (fd h)
          (Cmdqu (ip_value IP_SYSTEM) (command mod 2 ^ 7) 1
             (Valid (timeout_ms mod 256) (timeout_ms / 256)) request));
        match answered with
        | Err e => mret (- e, response)
        | Ok c =>
            if negb (ip_id c =? ip_value IP_SYSTEM) || negb (cmd_id c =? command) ||
               negb (linux_valid (resv c) =? 0) || negb (rtos_valid (resv c) =? 1)
            then mret (- EPROTO, response)
            else mret (0, Some (param_ptr c))
        end
  | _, _ => mret (- EINVAL, response)
  end.

Definition sg2002_rtos_get_info (info : option Z) : M (Z * option Z) :=
  match info with
  | None => mret (- EINVAL, None)
  | Some _ =>
      '(ret, response) ← sg2002_rtos_call (command_value SG2002_RTOS_CMD_GET_INFO) 0
        SG2002_RTOS_DEFAULT_TIMEOUT_MS (Some 0);
      if negb (ret =? 0) then mret (ret, info)
      else
        response ← lift response;
        if negb (SG2002_RTOS_INFO_IS_VALID response) then mret (- EPROTO, info)
        else mret (0, Some response)
  end.

Definition sg2002_rtos_ping (input : Z) (result : option Z) : M (Z * option Z) :=
  match result with
  | None => mret (- EINVAL, None)
  | Some _ =>
      sg2002_rtos_call (command_value SG2002_RTOS_CMD_PING) input
        SG2002_RTOS_DEFAULT_TIMEOUT_MS result
  end.

Definition sg2002_rtos_gpio_set (pin value : Z) : M Z :=
  if negb (value =? 0) && negb (value =? 1) then mret (- EINVAL)
  else
    '(ret, response) ← sg2002_rtos_call (command_value SG2002_RTOS_CMD_GPIO_SET)
      (SG2002_RTOS_GPIO_ENCODE pin value) SG2002_RTOS_DEFAULT_TIMEOUT_MS (Some 0);
    if negb (ret =? 0) then mret ret
    else
      response ← lift response;
      mret (if response =? SG2002_RTOS_RESPONSE_INVALID_ARGUMENT then - EINVAL
            else if response =? u32 value then 0 else - EPROTO).

Definition sg2002_rtos_gpio_get (pin : Z) (value : option Z) : M (Z * option Z) :=
  match value with
  | None => mret (- EINVAL, None)
  | Some _ =>
      '(ret, response) ← sg2002_rtos_call (command_value SG2002_RTOS_CMD_GPIO_GET)
        (SG2002_RTOS_GPIO_ENCODE pin 0) SG2002_RTOS_DEFAULT_TIMEOUT_MS (Some 0);
      if negb (ret =? 0) then mret (ret, value)
      else
        response ← lift response;
        if response =? SG2002_RTOS_RESPONSE_INVALID_ARGUMENT then mret (- EINVAL, value)
        else if 1 <? response then mret (- EPROTO, value)
        else mret (0, Some response)
  end.

End Library.
