(* ===== verification/LinuxTime.v ===== *)
(** * Deadlines and waiting in the Linux client library

    The clock readings of [linux/src/sg2002_rtos.c], and the loop around [poll] that
    waits for the kernel: it ends with a response to read or at the deadline,
    whatever the timeout. *)

From S2P Require Import Prelude Shm LinuxOs LinuxRtos.
Local Open Scope Z_scope.

(** What waiting does to the view: time passes and responses arrive. *)
Definition waited (v v' : os_view) : Prop :=
  exists c arrived later, v_clock v <= c /\ v_in_flight v = arrived ++ later /\
    v' = set_clock c (set_in_flight later (set_responses (v_responses v ++ arrived) v)).

(** All the responses not yet received, oldest first. *)
Definition outstanding (v : os_view) : list slot := v_responses v ++ v_in_flight v.

(** The deadline of a call with this timeout, now that the clock shows [v_clock v]. *)
Definition deadline_ok (timeout_ms deadline : Z) (v : os_view) : Prop :=
  (timeout_ms = UINT32_MAX /\ deadline = 0) \/
  (0 < timeout_ms < UINT32_MAX /\ 0 < deadline < 2 ^ 63 /\
   deadline - v_clock v < UINT32_MAX).

Lemma waited_refl v : waited v v.
Proof.
  exists (v_clock v), [], (v_in_flight v). split_and!; [done|done|].
  rewrite app_nil_r. by destruct v.
Qed.

Lemma waited_trans v1 v2 v3 : waited v1 v2 -> waited v2 v3 -> waited v1 v3.
Proof.
  intros (c & a & l & Hc & Hi & ->) (c' & a' & l' & Hc' & Hi' & ->). cbn in *.
  exists c', (a ++ a'), l'. split_and!; [lia|by rewrite Hi, Hi', app_assoc|].
  by rewrite app_assoc.
Qed.

Lemma waited_clock v c : v_clock v <= c -> waited v (set_clock c v).
Proof.
  intros Hc. exists c, [], (v_in_flight v). split_and!; [done|done|].
  rewrite app_nil_r. by destruct v.
Qed.

Lemma waited_outstanding v v' : waited v v' -> outstanding v' = outstanding v.
Proof.
  intros (c & a & l & _ & Hi & ->). unfold outstanding. cbn.
  by rewrite Hi, <- app_assoc.
Qed.

Lemma waited_deadline v v' timeout_ms deadline :
  waited v v' -> deadline_ok timeout_ms deadline v -> deadline_ok timeout_ms deadline v'.
Proof.
  intros (c & a & l & Hc & _ & ->) [?|?]; [by left|right]. cbn. lia.
Qed.

Section Time.
Context {L : Type} `{LinuxLaws L}.
Implicit Types (s : client L).

Lemma monotonic_spec s :
  exists c o, monotonic_milliseconds s = Some (c, set_os o s) /\ 0 <= c < 2 ^ 62 /\
    v_clock (view (os s)) <= c /\ view o = set_clock c (view (os s)).
Proof.
  unfold monotonic_milliseconds, call. run_st.
  destruct (view_clock (os s)) as (sec & nsec & c & E & Hs & Hn & -> & Hc & V).
  destruct (os_clock (os s)) as [r o]; cbn [fst snd] in *. subst r.
  eexists _, o. split; [|split; [|split; [|exact V]]]; [|lia|lia].
  do 2 f_equal. rewrite !(wrap_small 64) by word_lia. done.
Qed.

(** The deadline is computed once, at the start. *)
Lemma timeout_deadline_spec s timeout_ms :
  0 <= timeout_ms <= UINT32_MAX ->
  exists d o c, timeout_deadline timeout_ms s = Some (d, set_os o s) /\
    v_clock (view (os s)) <= c /\ view o = set_clock c (view (os s)) /\
    (0 < timeout_ms -> deadline_ok timeout_ms d (view o)) /\
    (0 < timeout_ms < UINT32_MAX -> v_clock (view (os s)) + timeout_ms <= d).
Proof.
  intros Ht. unfold timeout_deadline. destruct (_ || _) eqn:E.
  - exists 0, (os s), (v_clock (view (os s))). split; [by destruct s|]. split; [done|].
    split; [by destruct (view (os s))|]. split; [intros Hp; left; lia|lia].
  - destruct (monotonic_spec s) as (c & o & E1 & Hc & Hm & V).
    unfold mbind, st_bind, mret, st_ret. rewrite E1.
    exists (c + timeout_ms), o, c. unfold UINT32_MAX in *. split.
    + do 2 f_equal. apply wrap_small. word_lia.
    + split; [done|]. split; [done|]. split; [|lia]. intros _. rewrite V. right.
      unfold UINT32_MAX. cbn [v_clock set_clock]. lia.
Qed.

(** Reading the clock against the deadline. *)
Lemma update_remaining_spec s timeout_ms deadline remaining :
  deadline_ok timeout_ms deadline (view (os s)) ->
  exists o, waited (view (os s)) (view o) /\
    v_responses (view o) = v_responses (view (os s)) /\
    ((timeout_ms = UINT32_MAX /\
      update_remaining timeout_ms deadline remaining s =
        Some ((0, UINT32_MAX), set_os o s)) \/
     (timeout_ms < UINT32_MAX /\ v_clock (view o) < deadline /\
      update_remaining timeout_ms deadline remaining s =
        Some ((0, deadline - v_clock (view o)), set_os o s)) \/
     (timeout_ms < UINT32_MAX /\ deadline <= v_clock (view o) /\
      update_remaining timeout_ms deadline remaining s =
        Some ((- ETIMEDOUT, remaining), set_os o s))).
Proof.
  intros Hd. unfold update_remaining. destruct (timeout_ms =? UINT32_MAX) eqn:E.
  - exists (os s). split; [apply waited_refl|]. split; [done|]. left. split; [lia|].
    by destruct s.
  - destruct Hd as [[? ?]|(Ht & Hd & Hr)]; [lia|].
    destruct (monotonic_spec s) as (c & o & E1 & Hc & Hm & V). exists o.
    unfold mbind, st_bind, mret, st_ret. rewrite E1, V. cbn [v_clock v_responses set_clock].
    split; [by apply waited_clock|]. split; [done|]. right.
    destruct (deadline <=? c) eqn:El; [right|left].
    + split; [lia|]. split; [lia|done].
    + split; [lia|]. split; [lia|]. do 3 f_equal.
      rewrite (wrap_small 64) by word_lia. unfold remaining_of.
      replace (UINT32_MAX <=? deadline - c) with false by lia.
      apply wrap_small. unfold UINT32_MAX in *. word_lia.
Qed.

(** The turns of [wait_for_kernel_events] that may still end without a response. *)
Definition turns (timeout_ms deadline : Z) (v : os_view) : nat :=
  if timeout_ms =? UINT32_MAX then 0
  else if deadline <=? v_clock v then 0
  else if deadline - v_clock v <=? INT_MAX then 1 else 2.

Lemma turns_bound timeout_ms deadline v : (turns timeout_ms deadline v <= 2)%nat.
Proof. unfold turns. repeat case_match; lia. Qed.

Lemma poll_timeout_range r : 0 <= r <= UINT32_MAX -> -1 <= poll_timeout r.
Proof.
  intros Hr. unfold poll_timeout, INT_MAX. repeat case_match; lia.
Qed.

(** What the wait may last, after reading the clock. *)
Definition remaining_ok (timeout_ms deadline remaining : Z) (v : os_view) : Prop :=
  (timeout_ms = UINT32_MAX /\ remaining = UINT32_MAX) \/
  (timeout_ms < UINT32_MAX /\ 0 < remaining < UINT32_MAX /\
   remaining = deadline - v_clock v).

(** One poll: a response is readable, or fewer turns are left. *)
Lemma kernel_poll_turn descriptor timeout_ms deadline n s o1 remaining rem :
  outstanding (view (os s)) <> [] -> waited (view (os s)) (view o1) ->
  update_remaining timeout_ms deadline remaining s = Some ((0, rem), set_os o1 s) ->
  remaining_ok timeout_ms deadline rem (view o1) ->
  exists o, waited (view (os s)) (view o) /\
    ((kernel_poll (S n) descriptor POLLIN timeout_ms deadline remaining s =
        Some ((0, rem), set_os o s) /\ v_responses (view o) <> []) \/
     (kernel_poll (S n) descriptor POLLIN timeout_ms deadline remaining s =
        kernel_poll n descriptor POLLIN timeout_ms deadline rem (set_os o s) /\
      (turns timeout_ms deadline (view o) < turns timeout_ms deadline (view (os s)))%nat)).
Proof.
  intros Ho W1 E Hrem. cbn [kernel_poll]. unfold mbind, st_bind, mret, st_ret.
  rewrite E. change (negb (0 =? 0)) with false. cbn beta iota.
  unfold call, zoom. cbn [os set_os].
  destruct (view_poll o1 descriptor (poll_timeout rem)) as (c & Hc & Hp).
  { change (outstanding (view o1) <> []). by rewrite (waited_outstanding _ _ W1). }
  { apply poll_timeout_range. unfold remaining_ok, UINT32_MAX in *. lia. }
  destruct Hp as [(rs & arrived & later & Ep & Ei & Hne & V)|(Ht & Htc & Ep & V)];
    destruct (os_poll _ _ _) as [r o]; cbn [fst snd] in *; subst r; exists o.
  - split; [|left; by rewrite V].
    eapply waited_trans; [exact W1|]. by exists c, arrived, later.
  - assert (W2 : waited (view o1) (view o)) by (rewrite V; by apply waited_clock).
    split; [by eapply waited_trans|]. right. split; [done|].
    destruct W1 as (c1 & a1 & l1 & Hc1 & _ & V1).
    assert (Ec : v_clock (view o1) = c1) by by rewrite V1.
    unfold turns. rewrite V. cbn [v_clock set_clock].
    unfold remaining_ok, poll_timeout, UINT32_MAX, INT_MAX in *.
    destruct Hrem as [[? ?]|(? & ? & ?)]; repeat case_match; lia.
Qed.

(** Waiting while a response is outstanding: it becomes readable, or the deadline
    of a finite timeout passes. *)
Lemma kernel_poll_spec descriptor timeout_ms deadline n : forall s remaining,
  outstanding (view (os s)) <> [] -> deadline_ok timeout_ms deadline (view (os s)) ->
  (turns timeout_ms deadline (view (os s)) < n)%nat ->
  exists o r remaining',
    kernel_poll n descriptor POLLIN timeout_ms deadline remaining s =
      Some ((r, remaining'), set_os o s) /\
    waited (view (os s)) (view o) /\
    ((r = 0 /\ v_responses (view o) <> []) \/
     (r = - ETIMEDOUT /\ timeout_ms < UINT32_MAX /\ deadline <= v_clock (view o))).
Proof.
  induction n as [|n IH]; intros s remaining Ho Hd Hn; [lia|].
  destruct (update_remaining_spec s timeout_ms deadline remaining Hd) as (o1 & W1 & _ & Hu).
  pose proof (waited_deadline _ _ _ _ W1 Hd) as Hd1.
  assert (Hrem : (exists rem,
    update_remaining timeout_ms deadline remaining s = Some ((0, rem), set_os o1 s) /\
    remaining_ok timeout_ms deadline rem (view o1)) \/
    (update_remaining timeout_ms deadline remaining s =
       Some ((- ETIMEDOUT, remaining), set_os o1 s) /\ timeout_ms < UINT32_MAX /\
     deadline <= v_clock (view o1))).
  { destruct Hu as [[Ht E]|[(Ht & Hc & E)|(Ht & Hc & E)]]; [left|left|by right];
      eexists; (split; [exact E|]); [by left|].
    right. destruct Hd1 as [?|?]; lia. }
  destruct Hrem as [(rem & E & Hrem)|(E & Ht & Hc)].
  - destruct (kernel_poll_turn descriptor timeout_ms deadline n s o1 remaining rem Ho W1 E
      Hrem) as (o & W & [[E2 Hne]|[E2 Hlt]]); rewrite E2; [by exists o, 0, rem; eauto|].
    destruct (IH (set_os o s) rem) as (o' & r & rem' & E' & W' & Hr); cbn [os set_os].
    + by rewrite (waited_outstanding _ _ W).
    + by eapply waited_deadline.
    + lia.
    + exists o', r, rem'. split; [exact E'|]. split; [|done]. by eapply waited_trans.
  - cbn [kernel_poll]. unfold mbind, st_bind, mret, st_ret. rewrite E.
    exists o1, (- ETIMEDOUT), remaining. by eauto 6.
Qed.

End Time.
