(* ===== verification/LinuxRtosSpec.v ===== *)
(** * Properties of the Linux client library

    The responses retained by synchronous calls are a bounded queue mirrored by the
    event descriptor, and receiving hands out the oldest and loses nothing. *)

From S2P Require Import Prelude Protocol Shm Gpio App Cmdqu LinuxOs LinuxSim LinuxRtos LinuxTime.
Local Open Scope Z_scope.

Section Retained.
Context {L : Type} `{LinuxLaws L}.
Context (fuel : nat) (fuel_positive : (0 < fuel)%nat).
Implicit Types (s : client L) (p : private) (q : list slot).

(** The array holds [q] in front, and the event descriptor counts it. *)
Record holds s p q : Prop := {
  holds_private : private_of (rtos s) = Some p;
  holds_array : exists free, pending p = q ++ free;
  holds_length : length (pending p) = Z.to_nat SG2002_RTOS_SHM_SLOT_COUNT;
  holds_count : pending_count p = Z.of_nat (length q);
  holds_event : v_events (view (os s)) !! pending_fd p = Some (length q);
}.

Lemma get_private_eq s p q : holds s p q -> get_private s = Some (p, s).
Proof.
  intros Hh. unfold get_private. run_st. by rewrite (holds_private _ _ _ Hh).
Qed.

(** [put_private] on a handle that has one. *)
Definition with_private p s : client L :=
  match rtos s with
  | Some h => set_rtos (Handle (fd h) (Some p)) s
  | None => s
  end.

Lemma put_private_eq s p p' q :
  holds s p q -> put_private p' s = Some (tt, with_private p' s).
Proof.
  intros Hh. pose proof (holds_private _ _ _ Hh) as Hp. unfold put_private, with_private.
  run_st. by destruct (rtos s) as [h|].
Qed.

Lemma event_write_once o r d n :
  v_events (view o) !! d = Some n -> Z.of_nat n < 2 ^ 64 - 2 ->
  exists o', event_write fuel d (Client r o) = Some (Ok 8, Client r o') /\
    view o' = set_events (<[d := S n]> (v_events (view o))) (view o).
Proof using fuel_positive H0.
  intros Hn Hlt. destruct fuel as [|k]; [lia|]. cbn [event_write]. unfold call. run_st.
  destruct (view_write o d n Hn Hlt) as [E V]. cbn [os].
  destruct (os_write d 1 o) as [r' o']; cbn [fst snd] in *. subst r'.
  by exists o'.
Qed.

Lemma event_read_once o r d n :
  v_events (view o) !! d = Some (S n) ->
  exists o', event_read fuel d (Client r o) = Some (Ok (8, 1), Client r o') /\
    view o' = set_events (<[d := n]> (v_events (view o))) (view o).
Proof using fuel_positive H0.
  intros Hn. destruct fuel as [|k]; [lia|]. cbn [event_read]. unfold call. run_st.
  destruct (view_read o d n Hn) as [E V]. cbn [os].
  destruct (os_read d o) as [r' o']; cbn [fst snd] in *. subst r'.
  by exists o'.
Qed.

(** The state after the retained queue became [q'] in array [l]. *)
Definition with_queue s p l (n : Z) (o : L) : client L :=
  set_os o (with_private (set_pending l n p) s).

Lemma with_private_of s p p' :
  private_of (rtos s) = Some p -> private_of (rtos (with_private p' s)) = Some p'.
Proof. unfold with_private. by destruct (rtos s). Qed.

Lemma with_private_os s p : os (with_private p s) = os s.
Proof. by destruct s as [[h|] o]. Qed.

(** Changing the array and the counter together. *)
Lemma with_queue_holds s p q l q' o :
  holds s p q ->
  (exists free, l = q' ++ free) -> length l = Z.to_nat SG2002_RTOS_SHM_SLOT_COUNT ->
  v_events (view o) !! pending_fd p = Some (length q') ->
  holds (with_queue s p l (Z.of_nat (length q')) o)
    (set_pending l (Z.of_nat (length q')) p) q'.
Proof.
  intros Hh Hl Hlen He. split; cbn [pending pending_count pending_fd set_pending]; try done.
  unfold with_queue. change (rtos (set_os o ?x)) with (rtos x).
  eapply with_private_of, Hh.
Qed.

(** *** Retaining *)

Lemma holds_bound s p q : holds s p q -> (length q <= 64)%nat.
Proof.
  intros [_ [free E] Hl _ _]. rewrite E, length_app in Hl.
  unfold SG2002_RTOS_SHM_SLOT_COUNT in Hl. lia.
Qed.

Lemma retain_full s p q m :
  holds s p q -> length q = 64%nat ->
  retain_pending fuel m s = Some (- ENOBUFS, s).
Proof.
  intros Hh Hq. unfold retain_pending. run_st. rewrite (get_private_eq s p q Hh).
  rewrite (holds_count _ _ _ Hh), Hq. done.
Qed.

Lemma retain_room s p q m :
  holds s p q -> (length q < 64)%nat ->
  exists p' l o, retain_pending fuel m s =
      Some (0, with_queue s p l (Z.of_nat (length (q ++ [m]))) o) /\
    p' = set_pending l (Z.of_nat (length (q ++ [m]))) p /\
    holds (with_queue s p l (Z.of_nat (length (q ++ [m]))) o) p' (q ++ [m]) /\
    view o = set_events (<[pending_fd p := length (q ++ [m])]> (v_events (view (os s))))
               (view (os s)).
Proof using fuel_positive H0.
  intros Hh Hq. pose proof Hh as [Hp [free Ea] Hlen Hc He].
  destruct free as [|x free].
  { rewrite app_nil_r in Ea. rewrite Ea in Hlen. unfold SG2002_RTOS_SHM_SLOT_COUNT in Hlen.
    lia. }
  unfold retain_pending. run_st. rewrite (get_private_eq s p q Hh). rewrite Hc.
  replace (_ <=? _) with false by (unfold SG2002_RTOS_SHM_SLOT_COUNT; lia).
  rewrite Ea, array_store_prefix. run_st.
  rewrite (put_private_eq s p _ q Hh).
  assert (El : length (q ++ [m]) = S (length q)) by (rewrite length_app; cbn [length]; lia).
  replace (Z.of_nat (length q) + 1) with (Z.of_nat (length (q ++ [m]))) by lia.
  set (p1 := set_pending ((q ++ [m]) ++ free) _ p).
  assert (Hp1 : private_of (rtos (with_private p1 s)) = Some p1)
    by by apply with_private_of with p.
  unfold pending_event_signal, get_private. run_st. rewrite Hp1. run_st.
  destruct (event_write_once (os s) (rtos (with_private p1 s)) (pending_fd p) (length q)
              He ltac:(lia)) as (o' & E & V).
  change (pending_fd p1) with (pending_fd p).
  replace (Client (rtos (with_private p1 s)) (os s)) with (with_private p1 s) in E
    by (rewrite <- (with_private_os s p1); by destruct (with_private p1 s)).
  rewrite E. cbn [Z.eqb Pos.eqb negb].
  eexists _, ((q ++ [m]) ++ free), o'. split; [done|]. split; [done|].
  rewrite <- El in V. split; [|exact V].
  eapply with_queue_holds; [done|by eexists| |].
  - rewrite <- Hlen, Ea, !length_app. cbn [length]. lia.
  - rewrite V. cbn [v_events set_events]. by rewrite lookup_insert_eq.
Qed.

(** *** Removing *)

Lemma close_gap_front q free (i : nat) :
  (i < length q)%nat ->
  let n := (length q - 1)%nat in
  exists free', (if Z.of_nat i <? Z.of_nat n then close_gap (q ++ free) i n else q ++ free)
    = delete i q ++ free' /\
    length (delete i q ++ free') = length (q ++ free).
Proof.
  intros Hi n. rewrite delete_take_drop.
  assert (Hlast : forall x, q = take n q ++ x -> length x = 1%nat).
  { intros x E. apply (f_equal length) in E. rewrite length_app, length_take in E. lia. }
  destruct (Z.of_nat i <? Z.of_nat n) eqn:E.
  - exists (drop n (q ++ free)). unfold close_gap. rewrite <- app_assoc.
    rewrite take_app_le, drop_app_le by lia. split.
    + do 2 f_equal. rewrite take_app_le by (rewrite length_drop; lia).
      by rewrite take_ge by (rewrite length_drop; lia).
    + rewrite !length_app, length_take, !length_drop, length_app. lia.
  - assert (i = n) as -> by lia. exists (drop n q ++ free).
    rewrite (drop_ge q (S n)), app_nil_r by lia. split.
    + by rewrite app_assoc, take_drop.
    + by rewrite app_assoc, take_drop.
Qed.

Lemma remove_spec s p q (i : nat) :
  holds s p q -> (i < length q)%nat ->
  exists l o,
    let q' := delete i q in
    let s' := with_queue s p l (Z.of_nat (length q')) o in
    remove_pending fuel (Z.of_nat i) s = Some (0, s') /\
    holds s' (set_pending l (Z.of_nat (length q')) p) q' /\
    view o = set_events (<[pending_fd p := length q']> (v_events (view (os s))))
               (view (os s)).
Proof using fuel_positive H0.
  intros Hh Hi. pose proof Hh as [Hp [free Ea] Hlen Hc He].
  destruct (close_gap_front q free i Hi) as (free' & Eg & Eg').
  assert (El : length (delete i q) = (length q - 1)%nat).
  { rewrite length_delete; [done|]. by apply lookup_lt_is_Some_2. }
  unfold remove_pending. run_st. rewrite (get_private_eq s p q Hh). rewrite Hc.
  replace (_ <=? _) with false by lia.
  replace (Z.of_nat (length q) - 1) with (Z.of_nat (length q - 1)) by lia.
  rewrite !Nat2Z.id, Ea, Eg, <- El.
  rewrite (put_private_eq s p _ q Hh).
  set (p1 := set_pending (delete i q ++ free') _ p).
  assert (Hp1 : private_of (rtos (with_private p1 s)) = Some p1)
    by by apply with_private_of with p.
  unfold pending_event_consume, get_private. run_st. rewrite Hp1. run_st.
  assert (He' : v_events (view (os s)) !! pending_fd p = Some (S (length (delete i q)))).
  { rewrite He. f_equal. lia. }
  destruct (event_read_once (os s) (rtos (with_private p1 s)) (pending_fd p) _ He')
    as (o' & E & V).
  change (pending_fd p1) with (pending_fd p).
  replace (Client (rtos (with_private p1 s)) (os s)) with (with_private p1 s) in E
    by (rewrite <- (with_private_os s p1); by destruct (with_private p1 s)).
  rewrite E. cbn [Z.eqb Pos.eqb andb].
  exists (delete i q ++ free'), o'. split; [done|]. split; [|exact V].
  eapply with_queue_holds; [done|by eexists|by rewrite Eg', <- Ea|].
  rewrite V. cbn [v_events set_events]. by rewrite lookup_insert_eq.
Qed.

(** *** Taking by sequence number *)

(** The first message with the sequence number. *)
Fixpoint first_with (seq : Z) (q : list slot) : option nat :=
  match q with
  | [] => None
  | m :: q => if sequence m =? seq then Some 0%nat else S <$> first_with seq q
  end.

Lemma first_with_Some seq q i :
  first_with seq q = Some i ->
  (i < length q)%nat /\ exists m, q !! i = Some m /\ sequence m = seq.
Proof.
  revert i. induction q as [|m q IH]; intros i; cbn [first_with]; [done|].
  destruct (sequence m =? seq) eqn:E.
  - intros [= <-]. split; [cbn [length]; lia|]. exists m. split; [done|lia].
  - destruct (first_with seq q) as [j|]; [|done]. intros [= <-].
    destruct (IH j eq_refl) as (Hj & Hm). split; [cbn [length]; lia|exact Hm].
Qed.

Lemma find_sequence_first seq q : forall pre free,
  find_sequence (pre ++ q ++ free) (List.seq (length pre) (length q)) seq =
    (i ← first_with seq q; m ← q !! i; Some ((length pre + i)%nat, m)).
Proof.
  induction q as [|m q IH]; intros pre free; [done|].
  cbn [length List.seq find_sequence first_with].
  rewrite lookup_app_r, Nat.sub_diag by lia. cbn [app lookup list_lookup].
  destruct (sequence m =? seq); cbn [negb].
  - cbn. by rewrite Nat.add_0_r.
  - specialize (IH (pre ++ [m]) free). rewrite length_app, <- app_assoc in IH.
    cbn [length app] in IH. rewrite Nat.add_1_r in IH. rewrite IH.
    destruct (first_with seq q) as [j|]; cbn; [|done].
    destruct (q !! j); cbn; [|done]. do 2 f_equal. lia.
Qed.

Lemma take_sequence_spec s p q seq :
  holds s p q ->
  match first_with seq q with
  | None => take_pending_sequence fuel seq s = Some ((0, None), s)
  | Some i =>
      exists m l o, q !! i = Some m /\ sequence m = seq /\
        let q' := delete i q in
        let s' := with_queue s p l (Z.of_nat (length q')) o in
        take_pending_sequence fuel seq s = Some ((1, Some m), s') /\
        holds s' (set_pending l (Z.of_nat (length q')) p) q' /\
        view o = set_events (<[pending_fd p := length q']> (v_events (view (os s))))
                   (view (os s))
  end.
Proof using fuel_positive H0.
  intros Hh. pose proof Hh as [_ [free Ea] _ Hc _].
  assert (E : take_pending_sequence fuel seq s =
    match (i ← first_with seq q; m ← q !! i; Some (i, m)) with
    | None => Some ((0, None), s)
    | Some (i, m) =>
        match remove_pending fuel (Z.of_nat i) s with
        | Some (ret, s) =>
            Some (if negb (ret =? 0) then (- EPROTO, Some m) else (1, Some m), s)
        | None => None
        end
    end).
  { unfold take_pending_sequence. unfold mbind at 1, st_bind at 1.
    rewrite (get_private_eq s p q Hh). rewrite Hc, Nat2Z.id, Ea.
    pose proof (find_sequence_first seq q [] free) as Ef. cbn [length app] in Ef.
    rewrite Ef. clear Ef. destruct (first_with seq q) as [i|]; [|done].
    change (i ← Some i; m ← q !! i; Some (i, m)) with (m ← q !! i; Some (i, m)).
    change (i ← Some i; m ← q !! i; Some ((0 + i)%nat, m)) with (m ← q !! i; Some (i, m)).
    destruct (q !! i) as [m|]; [|done]. cbn [mbind option_bind].
    run_st. destruct (remove_pending fuel (Z.of_nat i) s) as [[ret s1]|]; [|done].
    by destruct (negb _). }
  destruct (first_with seq q) as [i|] eqn:Ei; cbn [mbind option_bind] in E; [|done].
  destruct (first_with_Some _ _ _ Ei) as (Hi & m & Em & Hm).
  rewrite Em in E. cbn [mbind option_bind] in E.
  destruct (remove_spec s p q i Hh Hi) as (l & o & Er & Hh' & V).
  rewrite Er in E. exists m, l, o. split_and!; done.
Qed.

Lemma take_oldest_spec s p q :
  holds s p q ->
  match q with
  | [] => take_pending_oldest fuel s = Some ((0, None), s)
  | m :: q' =>
      exists l o,
        let s' := with_queue s p l (Z.of_nat (length q')) o in
        take_pending_oldest fuel s = Some ((1, Some m), s') /\
        holds s' (set_pending l (Z.of_nat (length q')) p) q' /\
        view o = set_events (<[pending_fd p := length q']> (v_events (view (os s))))
                   (view (os s))
  end.
Proof using fuel_positive H0.
  intros Hh. pose proof Hh as [_ [free Ea] _ Hc _].
  unfold take_pending_oldest. run_st. rewrite (get_private_eq s p q Hh). rewrite Hc.
  destruct q as [|m q]; [done|]. replace (_ =? 0) with false by (cbn [length]; lia).
  rewrite Ea. cbn [app lookup list_lookup]. run_st.
  destruct (remove_spec s p (m :: q) 0 Hh) as (l & o & Er & Hh' & V); [cbn [length]; lia|].
  change (Z.of_nat 0) with 0 in Er. rewrite Er. cbn [Z.eqb negb].
  by exists l, o.
Qed.

(** *** The retained responses as a queue

    The operations on the retained responses and what they are to do on the queue
    [q]: the return value, the message handed out, the new queue. *)

Inductive pending_op := Retain (m : slot) | TakeOldest | TakeSequence (seq : Z).

Definition run_op (op : pending_op) : ST (client L) (Z * option slot) :=
  match op with
  | Retain m => ret ← retain_pending fuel m; mret (ret, None)
  | TakeOldest => take_pending_oldest fuel
  | TakeSequence seq => take_pending_sequence fuel seq
  end.

Definition spec_op (op : pending_op) (q : list slot) : Z * option slot * list slot :=
  match op with
  | Retain m =>
      if decide (length q < Z.to_nat SG2002_RTOS_SHM_SLOT_COUNT)%nat
      then (0, None, q ++ [m]) else (- ENOBUFS, None, q)
  | TakeOldest =>
      match q with
      | [] => (0, None, [])
      | m :: q => (1, Some m, q)
      end
  | TakeSequence seq =>
      match first_with seq q with
      | Some i => (1, q !! i, delete i q)
      | None => (0, None, q)
      end
  end.

Fixpoint run_ops (ops : list pending_op) : ST (client L) (list (Z * option slot)) :=
  match ops with
  | [] => mret []
  | op :: ops => r ← run_op op; rs ← run_ops ops; mret (r :: rs)
  end.

Fixpoint spec_ops (ops : list pending_op) (q : list slot) :
    list (Z * option slot) * list slot :=
  match ops with
  | [] => ([], q)
  | op :: ops =>
      let '(r, m, q) := spec_op op q in
      let '(rs, q) := spec_ops ops q in
      ((r, m) :: rs, q)
  end.

(** What the operations on the queue leave alone. *)
Definition unrelated (p p' : private) (v v' : os_view) : Prop :=
  (pending_fd p', shared_memory_enabled p', submit_batch_supported p',
   reap_batch_supported p', generation p') =
  (pending_fd p, shared_memory_enabled p, submit_batch_supported p,
   reap_batch_supported p, generation p) /\
  exists e, v' = set_events e v.

Lemma unrelated_refl p v : unrelated p p v v.
Proof. split; [done|]. exists (v_events v). by destruct v. Qed.

Lemma unrelated_trans p1 p2 p3 v1 v2 v3 :
  unrelated p1 p2 v1 v2 -> unrelated p2 p3 v2 v3 -> unrelated p1 p3 v1 v3.
Proof.
  intros [E1 [e1 ->]] [E2 [e2 ->]]. split; [by rewrite E2|]. by exists e2.
Qed.

(** One operation. *)
Lemma run_op_spec op s p q :
  holds s p q ->
  exists s' p', let '(r, m, q') := spec_op op q in
    run_op op s = Some ((r, m), s') /\ holds s' p' q' /\
    unrelated p p' (view (os s)) (view (os s')) /\
    (fd <$> rtos s') = (fd <$> rtos s).
Proof using fuel_positive H0.
  intros Hh. pose proof (holds_bound _ _ _ Hh) as Hb.
  assert (Hfd : forall l n o, (fd <$> rtos (with_queue s p l n o)) = (fd <$> rtos s)).
  { intros. unfold with_queue, with_private. destruct (rtos s) as [h|] eqn:E; cbn; [done|].
    by rewrite E. }
  destruct op as [m| |seq]; cbn [run_op spec_op].
  - unfold mbind, st_bind. destruct (decide _) as [Hq|Hq];
      change (Z.to_nat _) with 64%nat in Hq.
    + destruct (retain_room s p q m Hh Hq) as (p' & l & o & E & -> & Hh' & V).
      rewrite E. eexists _, _. split_and!; [done|exact Hh'| |apply Hfd].
      split; [done|]. cbn [os with_queue set_os]. rewrite V. by eexists.
    + rewrite (retain_full s p q m Hh ltac:(lia)).
      exists s, p. split_and!; [done|done|apply unrelated_refl|done].
  - pose proof (take_oldest_spec s p q Hh) as Ht. destruct q as [|m q].
    + exists s, p. split_and!; [done|done|apply unrelated_refl|done].
    + destruct Ht as (l & o & E & Hh' & V). rewrite E.
      eexists _, _. split_and!; [done|exact Hh'| |apply Hfd].
      split; [done|]. cbn [os with_queue set_os]. rewrite V. by eexists.
  - pose proof (take_sequence_spec s p q seq Hh) as Ht.
    destruct (first_with seq q) as [i|].
    + destruct Ht as (m & l & o & Em & Hm & E & Hh' & V). rewrite E, Em.
      eexists _, _. split_and!; [done|exact Hh'| |apply Hfd].
      split; [done|]. cbn [os with_queue set_os]. rewrite V. by eexists.
    + exists s, p. split_and!; [done|done|apply unrelated_refl|done].
Qed.

(** C15: responses retained for other readers form a bounded queue. Any sequence of
    operations on a handle whose array holds [q] returns what the same operations
    return on the list: retaining appends (or reports -ENOBUFS, changing nothing,
    when 64 are held), taking the oldest removes the head, taking a sequence number
    removes the first message that has it. The array and its counter, and the
    counter of the event descriptor that makes the handle readable, agree with the
    list throughout, and nothing else of the handle or the system changes. *)
Theorem retained_fifo ops s p q :
  holds s p q ->
  exists s' p',
    run_ops ops s = Some ((spec_ops ops q).1, s') /\
    holds s' p' (spec_ops ops q).2 /\
    unrelated p p' (view (os s)) (view (os s')).
Proof using fuel_positive H0.
  revert s p q. induction ops as [|op ops IH]; intros s p q Hh; cbn [run_ops spec_ops].
  { exists s, p. split_and!; [done|done|apply unrelated_refl]. }
  destruct (run_op_spec op s p q Hh) as (s1 & p1 & Ho).
  destruct (spec_op op q) as [[r m] q1]. destruct Ho as (E & Hh1 & Hu & _).
  destruct (IH s1 p1 q1 Hh1) as (s2 & p2 & E2 & Hh2 & Hu2).
  destruct (spec_ops ops q1) as [rs q2]; cbn [fst snd] in *.
  exists s2, p2. unfold mbind, st_bind. rewrite E, E2.
  split_and!; [done|done|by eapply unrelated_trans].
Qed.

End Retained.

(** ** Receiving *)

(** A response as the kernel hands it out. *)
Definition valid_response (m : slot) : Prop :=
  sequence m <> 0 /\ 0 <= msg_length m <= SG2002_RTOS_SHM_PAYLOAD_SIZE /\
  length (payload m) = Z.to_nat SG2002_RTOS_SHM_PAYLOAD_SIZE.

(** The caller's buffers: a length variable, and room for [capacity] bytes. *)
Definition buffers (capacity : Z) (o : outputs) : Prop :=
  out_length o <> None /\ 0 <= capacity /\
  (0 < capacity -> exists r, out_response o = Some r /\ capacity <= Z.of_nat (length r)).

(** The guard of the receiving operations passes. *)
Lemma buffers_guard capacity o :
  buffers capacity o ->
  bool_decide (out_length o = None) ||
    ((0 <? capacity) && bool_decide (out_response o = None)) = false.
Proof.
  intros (Hb & _ & Hr). apply orb_false_intro; [by apply bool_decide_eq_false_2|].
  apply andb_false_iff. destruct (0 <? capacity) eqn:E0; [right|by left].
  destruct Hr as (r & -> & _); [lia|]. by apply bool_decide_eq_false_2.
Qed.

Definition fits (m : slot) (capacity : Z) : bool := msg_length m <=? capacity.

(** What the caller gets of message [m]. *)
Definition delivered (m : slot) (capacity : Z) (o : outputs) : Z * outputs :=
  let n := Z.to_nat (msg_length m) in
  let seq := (fun _ => sequence m) <$> out_sequence o in
  if fits m capacity
  then (0, Outputs ((fun r => take n (payload m) ++ drop n r) <$> out_response o)
             (Some (msg_length m)) seq)
  else (- EMSGSIZE, Outputs (out_response o) (Some (msg_length m)) seq).

Lemma delivered_result m capacity o :
  (delivered m capacity o).1 = if fits m capacity then 0 else - EMSGSIZE.
Proof. unfold delivered. by destruct (fits m capacity). Qed.

Section Receiving.
Context {L : Type} `{LinuxLaws L}.
Context (fuel : nat) (fuel_positive : (0 < fuel)%nat).
Implicit Types (s : client L) (p : private) (q : list slot).

Lemma copy_message_spec m capacity o s :
  valid_response m -> buffers capacity o ->
  copy_message m capacity o s = Some (delivered m capacity o, s).
Proof using H0.
  clear fuel_positive.
  intros (_ & Hlen & Hpay) (_ & Hc & Hr). unfold copy_message, delivered, fits.
  cbn [out_response out_length].
  destruct (capacity <? msg_length m) eqn:Ef.
  { by replace (msg_length m <=? capacity) with false by lia. }
  replace (msg_length m <=? capacity) with true by lia.
  destruct (0 <? msg_length m) eqn:E0.
  - destruct Hr as (r & Hr & Hr'); [lia|]. rewrite Hr.
    unfold memcpy. rewrite read_bytes_Some by lia. cbn [mbind option_bind drop].
    rewrite drop_0, write_front by (rewrite length_take; lia). run_st.
    rewrite length_take, Nat.min_l by lia. done.
  - assert (msg_length m = 0) as -> by lia. run_st. do 2 f_equal.
    by destruct (out_response o).
Qed.

Lemma holds_os s s' p q :
  holds s p q -> rtos s' = rtos s ->
  v_events (view (os s')) = v_events (view (os s)) -> holds s' p q.
Proof using H0. clear fuel_positive. intros [? ? ? ? ?] Er Ev. split; try done; [by rewrite Er|by rewrite Ev]. Qed.

Lemma holds_handle s p q :
  holds s p q -> exists h, rtos s = Some h /\ private_data h = Some p.
Proof using Type.
  clear fuel_positive.
  intros Hh. pose proof (holds_private _ _ _ Hh) as Hp.
  destruct (rtos s) as [h|]; [|done]. by exists h.
Qed.

Lemma receive_next s p q m rest :
  holds s p q -> v_responses (view (os s)) = m :: rest -> valid_response m ->
  exists o, receive_from_kernel_locked 0 s = Some ((0, Some m), set_os o s) /\
    view o = set_responses rest (view (os s)).
Proof using H0.
  clear fuel_positive.
  intros Hh Hr (Hs & Hl & _). destruct (holds_handle _ _ _ Hh) as (h & Eh & _).
  unfold receive_from_kernel_locked, call. run_st. rewrite Eh. run_st.
  destruct (view_receive (os s) (fd h) (Transfer 0 zero_slot) m rest Hr) as [E V].
  destruct (ioctl_receive _ _ _) as [r o]; cbn [fst snd] in *. subst r.
  exists o. split; [|done]. cbn [message]. run_st.
  replace (_ || _) with false by lia. done.
Qed.

Lemma receive_nothing s p q :
  holds s p q -> v_responses (view (os s)) = [] ->
  exists o, receive_from_kernel_locked 0 s = Some ((- EAGAIN, None), set_os o s) /\
    view o = view (os s).
Proof using H0.
  clear fuel_positive.
  intros Hh Hr. destruct (holds_handle _ _ _ Hh) as (h & Eh & _).
  unfold receive_from_kernel_locked, call. run_st. rewrite Eh. run_st.
  destruct (view_receive_empty (os s) (fd h) (Transfer 0 zero_slot) Hr eq_refl) as [E V].
  destruct (ioctl_receive _ _ _) as [r o]; cbn [fst snd] in *. subst r.
  by exists o.
Qed.

Lemma holds_waited s p q o :
  holds s p q -> waited (view (os s)) (view o) -> holds (set_os o s) p q.
Proof using H0.
  clear fuel_positive. intros Hh (c & a & l & _ & _ & V).
  apply (holds_os s); [done|done|]. cbn [os set_os]. by rewrite V.
Qed.

(** A handle ready for the receive path, with [q] retained. *)
Record readable s p q : Prop := {
  readable_holds : holds s p q;
  readable_available : shared_memory_available (rtos s) = true;
  readable_unlocked : v_rx_held (view (os s)) = false;
}.

(** The messages a reader will see, oldest first. *)
Definition readable_messages s q : list slot := q ++ v_responses (view (os s)).

Lemma deliver_pending m capacity o s p q :
  holds s p (m :: q) -> valid_response m -> buffers capacity o ->
  exists s' p',
    deliver fuel true m capacity o s = Some (delivered m capacity o, s') /\
    holds s' p' (if fits m capacity then q else m :: q) /\
    unrelated p p' (view (os s)) (view (os s')) /\ (fd <$> rtos s') = (fd <$> rtos s).
Proof using fuel_positive H0.
  intros Hh Hm Hb. unfold deliver. unfold mbind at 1, st_bind at 1.
  rewrite (copy_message_spec m capacity o s Hm Hb).
  destruct (delivered m capacity o) as [ret o'] eqn:Ed.
  pose proof (delivered_result m capacity o) as Er. rewrite Ed in Er. cbn [fst] in Er.
  subst ret. destruct (fits m capacity); cbn [andb negb];
    change (0 =? - EMSGSIZE) with false; change (- EMSGSIZE =? - EMSGSIZE) with true;
    cbn [negb].
  - destruct (remove_spec fuel fuel_positive s p (m :: q) 0 Hh ltac:(cbn [length]; lia))
      as (l & o1 & E & Hh' & V). change (Z.of_nat 0) with 0 in E. cbn [delete list_delete] in *.
    unfold mbind, st_bind. rewrite E. eexists _, _. split_and!; [done|exact Hh'| |].
    + split; [done|]. cbn [os with_queue set_os]. rewrite V. by eexists.
    + unfold with_queue, with_private. destruct (rtos s) eqn:E1; cbn; [done|]. by rewrite E1.
  - exists s, p. split_and!; [done|done|apply unrelated_refl|done].
Qed.

Lemma deliver_received m capacity o s p :
  holds s p [] -> valid_response m -> buffers capacity o ->
  exists s' p',
    deliver fuel false m capacity o s = Some (delivered m capacity o, s') /\
    holds s' p' (if fits m capacity then [] else [m]) /\
    unrelated p p' (view (os s)) (view (os s')) /\ (fd <$> rtos s') = (fd <$> rtos s).
Proof using fuel_positive H0.
  intros Hh Hm Hb. unfold deliver. unfold mbind at 1, st_bind at 1.
  rewrite (copy_message_spec m capacity o s Hm Hb).
  destruct (delivered m capacity o) as [ret o'] eqn:Ed.
  pose proof (delivered_result m capacity o) as Er. rewrite Ed in Er. cbn [fst] in Er.
  subst ret. destruct (fits m capacity); cbn [andb negb];
    change (0 =? - EMSGSIZE) with false; change (- EMSGSIZE =? - EMSGSIZE) with true;
    cbn [negb].
  - exists s, p. split_and!; [done|done|apply unrelated_refl|done].
  - destruct (retain_room fuel fuel_positive s p [] m Hh ltac:(cbn [length]; lia))
      as (p' & l & o1 & E & -> & Hh' & V). cbn [app] in *.
    unfold mbind, st_bind. rewrite E. eexists _, _. split_and!; [done|exact Hh'| |].
    + split; [done|]. cbn [os with_queue set_os]. rewrite V. by eexists.
    + unfold with_queue, with_private. destruct (rtos s) eqn:E1; cbn; [done|]. by rewrite E1.
Qed.

(** The result of taking [rx_lock]. *)
Lemma lock_rx s p q :
  readable s p q ->
  exists o, call (pthread_mutex_lock rx_lock) s = Some (0, set_os o s) /\
    view o = set_held rx_lock true (view (os s)) /\ holds (set_os o s) p q.
Proof using H0.
  clear fuel_positive.
  intros [Hh _ Hl]. destruct (view_lock (os s) rx_lock Hl) as [E V].
  unfold call, zoom. destruct (pthread_mutex_lock _ _) as [r o]; cbn [fst snd] in *. subst r.
  exists o. split_and!; [done|done|]. apply (holds_os s); [done|done|].
  cbn [os set_os]. by rewrite V.
Qed.

Lemma call_unlock l s :
  call (pthread_mutex_unlock l) s = Some (tt, set_os (pthread_mutex_unlock l (os s)).2 s).
Proof using H0. clear fuel_positive. unfold call, zoom. by destruct (pthread_mutex_unlock l (os s)) as [[] o]. Qed.

Lemma lock_step l s p q :
  holds s p q -> v_held l (view (os s)) = false ->
  exists o, call (pthread_mutex_lock l) s = Some (0, set_os o s) /\
    view o = set_held l true (view (os s)) /\ holds (set_os o s) p q.
Proof using H0.
  clear fuel_positive.
  intros Hh Hl. destruct (view_lock (os s) l Hl) as [E V].
  unfold call, zoom. destruct (pthread_mutex_lock _ _) as [r o]; cbn [fst snd] in *. subst r.
  exists o. split_and!; [done|done|]. apply (holds_os s); [done|done|].
  cbn [os set_os]. rewrite V. by destruct l.
Qed.

Lemma unlock_step l s p q :
  holds s p q ->
  exists o, call (pthread_mutex_unlock l) s = Some (tt, set_os o s) /\
    view o = set_held l false (view (os s)) /\ holds (set_os o s) p q.
Proof using H0.
  clear fuel_positive.
  intros Hh. exists (pthread_mutex_unlock l (os s)).2. rewrite call_unlock.
  split_and!; [done|apply view_unlock|]. apply (holds_os s); [done|done|].
  cbn [os set_os]. rewrite view_unlock. by destruct l.
Qed.

Lemma available_fd s s' p p' q q' :
  holds s p q -> holds s' p' q' -> (fd <$> rtos s') = (fd <$> rtos s) ->
  shared_memory_enabled p' = shared_memory_enabled p ->
  shared_memory_available (rtos s') = shared_memory_available (rtos s).
Proof using H0.
  clear fuel_positive.
  intros Hh Hh' Ef Es. destruct (holds_handle _ _ _ Hh) as (h & E & Ep).
  destruct (holds_handle _ _ _ Hh') as (h' & E' & Ep').
  rewrite E, E' in Ef. injection Ef as Ef. unfold shared_memory_available.
  by rewrite E, E', Ef, Ep, Ep', Es.
Qed.

(** What receiving leaves alone of the sending side. *)
Definition same_side s s' : Prop :=
  v_peer (view (os s')) = v_peer (view (os s)) /\
  v_tx_held (view (os s')) = v_tx_held (view (os s)).

(** One pass of the receive loop under the lock. *)
Lemma receive_pass s p q m rest capacity o :
  holds s p q -> readable_messages s q = m :: rest ->
  Forall valid_response (m :: rest) -> buffers capacity o ->
  exists s' p' q',
    receive_locked fuel capacity o s = Some (delivered m capacity o, s') /\
    holds s' p' q' /\
    readable_messages s' q' = (if fits m capacity then rest else m :: rest) /\
    (fd <$> rtos s') = (fd <$> rtos s) /\
    shared_memory_enabled p' = shared_memory_enabled p /\
    v_rx_held (view (os s')) = v_rx_held (view (os s)) /\
    v_in_flight (view (os s')) = v_in_flight (view (os s)) /\
    same_side s s' /\ (fits m capacity = true -> q' = tail q).
Proof using fuel_positive H0.
  intros Hh Hm Hv Hb. inversion_clear Hv as [|? ? Hvm _].
  unfold receive_locked.
  unfold mbind at 1, st_bind at 1. rewrite (get_private_eq s p q Hh).
  rewrite (holds_count _ _ _ Hh). unfold readable_messages in *.
  destruct q as [|m0 q]; cbn [length app] in *.
  - change (0 <? Z.of_nat 0) with false. cbn iota.
    destruct (receive_next s p [] m rest Hh Hm Hvm) as (o1 & E & V).
    assert (Hh1 : holds (set_os o1 s) p []).
    { apply (holds_os s); [done|done|]. cbn [os set_os]. by rewrite V. }
    destruct (deliver_received m capacity o (set_os o1 s) p Hh1 Hvm Hb) as
      (s' & p' & Ed & Hh' & [Hu [e Hv]] & Hf).
    run_st. rewrite E. run_st. change (0 =? 0) with true. cbn beta iota. rewrite Ed. injection Hu as ? ? ? ? ?.
    exists s', p', (if fits m capacity then [] else [m]).
    unfold same_side. rewrite Hv. cbn [os set_os] in *. rewrite V. split_and!; try done.
    + by destruct (fits m capacity).
    + by intros ->.
  - injection Hm as -> <-. replace (0 <? _) with true by lia.
    destruct (deliver_pending m capacity o s p q Hh Hvm Hb) as
      (s' & p' & Ed & Hh' & [Hu [e Hv]] & Hf).
    pose proof Hh as [_ [free Ea] _ _ _]. rewrite Ea. cbn [app lookup list_lookup].
    run_st. run_st. change (0 =? 0) with true. cbn beta iota. run_st. rewrite Ed. injection Hu as ? ? ? ? ?.
    exists s', p', (if fits m capacity then q else m :: q).
    unfold same_side. rewrite Hv. split_and!; try done.
    + by destruct (fits m capacity).
    + by intros ->.
Qed.

Lemma receive_pass_nothing s p capacity o :
  holds s p [] -> v_responses (view (os s)) = [] ->
  exists o', receive_locked fuel capacity o s = Some ((- EAGAIN, o), set_os o' s) /\
    view o' = view (os s).
Proof.
  intros Hh Hr. destruct (receive_nothing s p [] Hh Hr) as (o1 & E & V).
  unfold receive_locked. run_st. rewrite (get_private_eq s p [] Hh).
  rewrite (holds_count _ _ _ Hh). change (0 <? Z.of_nat (length [])) with false.
  cbn beta iota. rewrite E. by exists o1.
Qed.

(** From the entry of [sg2002_rtos_message_receive] to its first attempt, and from
    a final attempt to its result. *)
Lemma receive_entry capacity o timeout_ms s p q :
  readable s p q -> buffers capacity o -> 0 <= timeout_ms <= UINT32_MAX ->
  exists o2 c, view o2 = set_held rx_lock true (set_clock c (view (os s))) /\
    holds (set_os o2 s) p q /\
    forall ret o' s1, receive_locked fuel capacity o (set_os o2 s) = Some ((ret, o'), s1) ->
      transient ret = false \/ (ret = - EAGAIN /\ timeout_ms = 0) ->
      sg2002_rtos_message_receive fuel capacity o timeout_ms s =
        Some ((ret, o'), set_os (pthread_mutex_unlock rx_lock (os s1)).2 s1).
Proof using fuel_positive H0.
  intros [Hh Ha Hl] Hb Ht.
  destruct (timeout_deadline_spec s timeout_ms Ht) as (d & o1 & c & Ed & Hc & V1 & _).
  assert (Hr1 : readable (set_os o1 s) p q).
  { split; [|done|cbn [os set_os]; by rewrite V1].
    apply holds_waited; [done|]. rewrite V1. by apply waited_clock. }
  destruct (lock_rx _ _ _ Hr1) as (o2 & E2 & V2 & Hh2). cbn [os set_os] in V2, Hh2.
  rewrite V1 in V2. exists o2, c. split_and!; [done|done|]. intros ret o' s1 E Hret.
  unfold sg2002_rtos_message_receive, has_channel.
  unfold mbind at 1, st_bind at 1. rewrite Ed. run_st. cbn [rtos set_os]. rewrite Ha.
  cbn [negb]. rewrite buffers_guard by done.
  destruct fuel as [|k] eqn:Ek; [lia|]. cbn [receive_loop].
  unfold mbind, st_bind, mret, st_ret. rewrite E2. change (negb (0 =? 0)) with false.
  cbn beta iota. change (set_os o2 (set_os o1 s)) with (set_os o2 s). rewrite E.
  rewrite call_unlock. destruct Hret as [->|[-> ->]]; [done|].
  change (transient (- EAGAIN)) with true. cbn [negb]. done.
Qed.

(** Receiving at the first attempt. *)
Lemma receive_oldest_spec capacity o timeout_ms s p q :
  readable s p q -> Forall valid_response (readable_messages s q) ->
  buffers capacity o -> 0 <= timeout_ms <= UINT32_MAX ->
  match readable_messages s q with
  | m :: rest =>
      exists s' p' q',
        sg2002_rtos_message_receive fuel capacity o timeout_ms s =
          Some (delivered m capacity o, s') /\
        readable s' p' q' /\
        readable_messages s' q' = (if fits m capacity then rest else m :: rest) /\
        v_in_flight (view (os s')) = v_in_flight (view (os s)) /\
        same_side s s' /\ (fits m capacity = true -> q' = tail q)
  | [] =>
      timeout_ms = 0 ->
      exists s',
        sg2002_rtos_message_receive fuel capacity o timeout_ms s =
          Some ((- EAGAIN, o), s') /\
        readable s' p q /\ readable_messages s' q = [] /\
        v_in_flight (view (os s')) = v_in_flight (view (os s)) /\ same_side s s'
  end.
Proof using fuel_positive H0.
  intros Hr Hv Hb Ht. pose proof Hr as [Hh Ha Hl].
  destruct (receive_entry capacity o timeout_ms s p q Hr Hb Ht) as (o2 & c & V2 & Hh2 & Hrun).
  assert (Em : readable_messages (set_os o2 s) q = readable_messages s q).
  { unfold readable_messages. cbn [os set_os]. by rewrite V2. }
  assert (Hun : forall s1 p1 q1, holds s1 p1 q1 ->
    shared_memory_available (rtos s1) = true ->
    readable (set_os (pthread_mutex_unlock rx_lock (os s1)).2 s1) p1 q1).
  { intros s1 p1 q1 H1 A1. split; [|done|cbn [os set_os]; by rewrite view_unlock].
    apply (holds_os s1); [done|done|]. cbn [os set_os]. by rewrite view_unlock. }
  destruct (readable_messages s q) as [|m rest] eqn:E.
  - intros ->. unfold readable_messages in *. apply app_eq_nil in E as [-> E].
    destruct (receive_pass_nothing (set_os o2 s) p capacity o Hh2 Em) as (o3 & E3 & V3).
    rewrite (Hrun _ _ _ E3) by by right. eexists. split; [done|].
    unfold same_side.
    split; [apply Hun; [|done]|]; cbn [os set_os app] in *; rewrite ?view_unlock, ?V3, ?V2.
    + apply (holds_os (set_os o2 s)); [done|done|]. cbn [os set_os]. by rewrite V3.
    + done.
  - destruct (receive_pass (set_os o2 s) p q m rest capacity o Hh2 Em Hv Hb) as
      (s' & p' & q' & E3 & Hh' & Hm' & Hf & Hs & _ & Hi & Hside & Hq').
    destruct (delivered m capacity o) as [ret o'] eqn:Ed.
    rewrite (Hrun _ _ _ E3).
    + exists (set_os (pthread_mutex_unlock rx_lock (os s')).2 s'), p', q'.
      split; [done|]. split; [apply Hun; [done|]|].
      * by rewrite (available_fd _ _ _ _ _ _ Hh Hh' Hf Hs).
      * unfold readable_messages in *. cbn [os set_os] in *. rewrite view_unlock.
        split; [exact Hm'|]. unfold same_side in *. cbn [os set_os] in *.
        rewrite view_unlock. destruct Hside as [Hp1 Hp2].
        change (v_in_flight (set_held rx_lock false ?v)) with (v_in_flight v).
        change (v_peer (set_held rx_lock false ?v)) with (v_peer v).
        change (v_tx_held (set_held rx_lock false ?v)) with (v_tx_held v).
        by rewrite Hi, Hp1, Hp2, V2.
    + left. pose proof (delivered_result m capacity o) as Er. rewrite Ed in Er.
      cbn [fst] in Er. subst ret. by destruct (fits m capacity).
Qed.

(** C9: receiving loses nothing and hands out the oldest message. With [m] the
    oldest of the retained responses followed by those in the kernel's ring,
    [sg2002_rtos_message_receive] returns it at the first attempt, whatever the
    timeout: with its length and sequence number, its bytes at the front of the
    buffer and the rest of the buffer unchanged, and [m] alone is gone. When it
    does not fit the capacity the result is -EMSGSIZE with the length and sequence
    number, nothing is written, and every message is still there in order, [m]
    first. With no message and no timeout the result is -EAGAIN. The lock is free
    afterwards and nothing outside the buffers is touched. *)
Theorem receive_oldest capacity o timeout_ms s p q :
  readable s p q -> Forall valid_response (readable_messages s q) ->
  buffers capacity o -> 0 <= timeout_ms <= UINT32_MAX ->
  match readable_messages s q with
  | m :: rest =>
      exists s' p' q',
        sg2002_rtos_message_receive fuel capacity o timeout_ms s =
          Some (delivered m capacity o, s') /\
        readable s' p' q' /\
        readable_messages s' q' = (if fits m capacity then rest else m :: rest) /\
        v_in_flight (view (os s')) = v_in_flight (view (os s))
  | [] =>
      timeout_ms = 0 ->
      exists s',
        sg2002_rtos_message_receive fuel capacity o timeout_ms s =
          Some ((- EAGAIN, o), s') /\
        readable s' p q /\ readable_messages s' q = [] /\
        v_in_flight (view (os s')) = v_in_flight (view (os s))
  end.
Proof using fuel_positive H0.
  intros Hr Hv Hb Ht.
  pose proof (receive_oldest_spec capacity o timeout_ms s p q Hr Hv Hb Ht) as Hspec.
  destruct (readable_messages s q) as [|m rest].
  - intros E. destruct (Hspec E) as (s' & E' & Hr' & Hm' & Hi & _). by exists s'.
  - destruct Hspec as (s' & p' & q' & E' & Hr' & Hm' & Hi & _). by exists s', p', q'.
Qed.

End Receiving.

(** *** A handle on the concrete system *)

(** An open handle with [q] retained and [responses] in the kernel's ring. *)
Definition demo_private (q : list slot) : private :=
  Private 4 1 SG2002_RTOS_BATCH_UNKNOWN SG2002_RTOS_BATCH_UNKNOWN 1
    (q ++ drop (length q) zeroed_pending) (Z.of_nat (length q)).

Definition demo_client (q responses : list slot) : client Sim.t :=
  Client (Some (Handle 3 (Some (demo_private q))))
    (Sim.set_view (set_events {[ 4 := length q ]}
        (OsView ∅ responses [] (Peer 7 true Sim.ping) false false 0))
      (Sim.booted SG2002_RTOS_SHM_FEATURES 1 [])).

Lemma demo_holds q responses :
  (length q <= 64)%nat -> holds (demo_client q responses) (demo_private q) q.
Proof.
  intros Hq. split; cbn [demo_client demo_private rtos os pending pending_count pending_fd];
    try done.
  - by eexists.
  - rewrite length_app, length_drop. unfold zeroed_pending. rewrite length_replicate.
    unfold SG2002_RTOS_SHM_SLOT_COUNT. lia.
Qed.

Definition demo_slot (seq : Z) (bytes : list Z) : slot :=
  Slot seq (Z.of_nat (length bytes)) (bytes ++ drop (length bytes) zero_payload).

Definition demo_ops : list pending_op :=
  [Retain (demo_slot 8 [1]); Retain (demo_slot 9 [2]); TakeSequence 9; TakeOldest].

Lemma retained_fifo_witness :
  (0 < 5)%nat /\
  holds (demo_client [demo_slot 6 [3]] []) (demo_private [demo_slot 6 [3]])
    [demo_slot 6 [3]] /\
  (exists s' p',
    run_ops 5 demo_ops (demo_client [demo_slot 6 [3]] []) =
      Some ((spec_ops demo_ops [demo_slot 6 [3]]).1, s') /\
    holds s' p' (spec_ops demo_ops [demo_slot 6 [3]]).2 /\
    unrelated (demo_private [demo_slot 6 [3]]) p'
      (view (os (demo_client [demo_slot 6 [3]] []))) (view (os s'))) /\
  (spec_ops demo_ops [demo_slot 6 [3]]).2 = [demo_slot 8 [1]].
Proof.
  assert (Hh : holds (demo_client [demo_slot 6 [3]] []) (demo_private [demo_slot 6 [3]])
    [demo_slot 6 [3]]) by (apply demo_holds; cbn; lia).
  split_and!; [lia|exact Hh| |vm_compute; reflexivity].
  exact (retained_fifo 5 ltac:(lia) demo_ops _ _ _ Hh).
Defined.

Lemma demo_slot_valid seq bytes :
  seq <> 0 -> (length bytes <= 1018)%nat -> valid_response (demo_slot seq bytes).
Proof.
  intros Hs Hb. unfold demo_slot. split_and!; cbn [sequence msg_length payload];
    change SG2002_RTOS_SHM_PAYLOAD_SIZE with 1018; [done|lia|lia|].
  rewrite length_app, length_drop. unfold zero_payload. rewrite length_replicate.
  change SG2002_RTOS_SHM_PAYLOAD_SIZE with 1018. lia.
Qed.

Lemma demo_readable q responses :
  (length q <= 64)%nat -> readable (demo_client q responses) (demo_private q) q.
Proof. intros Hq. split; [by apply demo_holds|done|done]. Qed.

Definition demo_buffers : outputs := Outputs (Some [9; 9; 9; 9]) (Some 0) (Some 0).

Lemma demo_buffers_ok : buffers 4 demo_buffers.
Proof. split_and!; [done|lia|]. intros _. by exists [9; 9; 9; 9]. Qed.

Lemma receive_oldest_witness :
  let s := demo_client [demo_slot 6 [3]] [demo_slot 8 [1; 2]] in
  let q := [demo_slot 6 [3]] in
  (0 < 5)%nat /\ readable s (demo_private q) q /\
  Forall valid_response (readable_messages s q) /\ buffers 4 demo_buffers /\
  delivered (demo_slot 6 [3]) 4 demo_buffers =
    (0, Outputs (Some [3; 9; 9; 9]) (Some 1) (Some 6)) /\
  exists s' p' q',
    sg2002_rtos_message_receive 5 4 demo_buffers 0 s =
      Some (delivered (demo_slot 6 [3]) 4 demo_buffers, s') /\
    readable s' p' q' /\ readable_messages s' q' = [demo_slot 8 [1; 2]] /\
    v_in_flight (view (os s')) = v_in_flight (view (os s)).
Proof.
  intros s q.
  assert (Hr : readable s (demo_private q) q) by (apply demo_readable; cbn; lia).
  assert (Hv : Forall valid_response (readable_messages s q)).
  { apply Forall_cons. split; [by apply demo_slot_valid; [done|cbn; lia]|].
    apply Forall_singleton. by apply demo_slot_valid; [done|cbn; lia]. }
  split_and!; [lia|exact Hr|exact Hv|exact demo_buffers_ok|vm_compute; reflexivity|].
  exact (receive_oldest 5 ltac:(lia) 4 demo_buffers 0 s _ q Hr Hv demo_buffers_ok
           ltac:(unfold UINT32_MAX; lia)).
Defined.
