(* ===== verification/LinuxCall.v ===== *)
(** * Synchronous calls of the Linux client library

    [sg2002_rtos_message_call] returns the response to its own request, keeps those
    of other requests, and ends in time. *)

From S2P Require Import Prelude Protocol Shm App LinuxOs LinuxSim LinuxRtos.
From S2P Require Import LinuxTime LinuxRtosSpec.
Local Open Scope Z_scope.

(** ** Synchronous calls *)

Lemma first_with_None seq q :
  first_with seq q = None <-> Forall (fun m => sequence m <> seq) q.
Proof.
  induction q as [|m q IH]; cbn [first_with]; [by split; [constructor|]|].
  rewrite Forall_cons, <- IH. destruct (sequence m =? seq) eqn:E.
  - split; [done|]. intros [? _]. lia.
  - destruct (first_with seq q); cbn; split; try done.
    + by intros [_ ?].
    + intros _. split; [lia|done].
Qed.

(** A request as it is handed to the kernel, with its number. *)
Definition request_slot (seq : Z) (request : list Z) (request_length : Z) : slot :=
  let n := Z.to_nat request_length in
  Slot seq request_length (take n request ++ drop n zero_payload).

Section Calls.
Context {L : Type} `{LinuxLaws L}.
Context (fuel : nat) (fuel_positive : (2 < fuel)%nat).
Implicit Types (s : client L) (p : private) (q : list slot).

Lemma fuel_positive' : (0 < fuel)%nat.
Proof using fuel_positive. lia. Qed.

(** What a step of a call leaves alone; time may pass. *)
Definition same_handle s s' p p' : Prop :=
  (fd <$> rtos s') = (fd <$> rtos s) /\
  shared_memory_enabled p' = shared_memory_enabled p /\
  v_rx_held (view (os s')) = v_rx_held (view (os s)) /\
  v_tx_held (view (os s')) = v_tx_held (view (os s)) /\
  v_clock (view (os s)) <= v_clock (view (os s')).

Lemma same_handle_trans s1 s2 s3 p1 p2 p3 :
  same_handle s1 s2 p1 p2 -> same_handle s2 s3 p2 p3 -> same_handle s1 s3 p1 p3.
Proof using Type.
  clear fuel_positive. intros (E1 & E2 & E3 & E4 & E5) (F1 & F2 & F3 & F4 & F5).
  split_and!; try congruence. lia.
Qed.

Lemma same_handle_unrelated s s' p p' :
  unrelated p p' (view (os s)) (view (os s')) -> (fd <$> rtos s') = (fd <$> rtos s) ->
  same_handle s s' p p' /\ outstanding (view (os s')) = outstanding (view (os s)) /\
  v_responses (view (os s')) = v_responses (view (os s)).
Proof using Type.
  clear fuel_positive. intros [E [e Ev]] Ef. injection E as ? ? ? ? ?.
  unfold same_handle, outstanding. by rewrite Ev.
Qed.

Lemma same_handle_waited s p o :
  waited (view (os s)) (view o) -> same_handle s (set_os o s) p p.
Proof using Type.
  clear fuel_positive. intros (c & a & l & Hc & _ & V). unfold same_handle.
  cbn [os set_os]. by rewrite V.
Qed.

Lemma same_handle_deadline s s' p p' timeout_ms deadline :
  same_handle s s' p p' -> deadline_ok timeout_ms deadline (view (os s)) ->
  deadline_ok timeout_ms deadline (view (os s')).
Proof using Type.
  clear fuel_positive. intros (_ & _ & _ & _ & Hc) [?|?]; [by left|right]. lia.
Qed.

(** Waiting for the kernel: a response becomes readable, or the deadline passes. *)
Lemma wait_for_response s p q timeout_ms deadline remaining :
  holds s p q -> outstanding (view (os s)) <> [] ->
  deadline_ok timeout_ms deadline (view (os s)) ->
  exists o r remaining',
    wait_for_kernel_events fuel POLLIN timeout_ms deadline remaining s =
      Some ((r, remaining'), set_os o s) /\
    waited (view (os s)) (view o) /\
    ((r = 0 /\ v_responses (view o) <> []) \/
     (r = - ETIMEDOUT /\ timeout_ms < UINT32_MAX /\ deadline <= v_clock (view o))).
Proof using fuel_positive H0.
  intros Hh Ho Hd. destruct (holds_handle _ _ _ Hh) as (h & Eh & _).
  unfold wait_for_kernel_events. run_st. rewrite Eh. run_st.
  replace (timeout_ms =? 0) with false by (destruct Hd as [[-> _]|?]; [done|lia]).
  apply kernel_poll_spec; [done|done|].
  pose proof (turns_bound timeout_ms deadline (view (os s))). lia.
Qed.

Lemma retain_step s p q m :
  holds s p q -> (length q < 64)%nat ->
  exists s' p', retain_pending fuel m s = Some (0, s') /\ holds s' p' (q ++ [m]) /\
    same_handle s s' p p' /\ outstanding (view (os s')) = outstanding (view (os s)) /\
    v_responses (view (os s')) = v_responses (view (os s)).
Proof using fuel_positive H0.
  intros Hh Hq. destruct (run_op_spec fuel fuel_positive' (Retain m) s p q Hh)
    as (s' & p' & Hr). cbn [run_op spec_op] in Hr.
  change (Z.to_nat SG2002_RTOS_SHM_SLOT_COUNT) with 64%nat in Hr.
  rewrite decide_True in Hr by lia. destruct Hr as (E & Hh' & Hu & Hf).
  exists s', p'. split; [|split; [done|by apply same_handle_unrelated]].
  unfold mbind, st_bind in E. destruct (retain_pending fuel m s) as [[ret s1]|]; [|done].
  by injection E as -> ->.
Qed.

Lemma receive_step s p q m rest :
  holds s p q -> v_responses (view (os s)) = m :: rest -> valid_response m ->
  exists o, receive_from_kernel_locked 0 s = Some ((0, Some m), set_os o s) /\
    holds (set_os o s) p q /\ same_handle s (set_os o s) p p /\
    v_responses (view o) = rest /\ v_in_flight (view o) = v_in_flight (view (os s)).
Proof using H0.
  clear fuel_positive. intros Hh Hr Hm.
  destruct (receive_next s p q m rest Hh Hr Hm) as (o & E & V).
  exists o. unfold same_handle. cbn [os set_os]. rewrite V. split_and!; try done.
  apply (holds_os s); [done|done|]. cbn [os set_os]. by rewrite V.
Qed.

(** *** The receive loop *)

Lemma take_nothing s p q seq :
  holds s p q -> Forall (fun x => sequence x <> seq) q ->
  take_pending_sequence fuel seq s = Some ((0, None), s).
Proof using fuel_positive H0.
  intros Hh Hq. pose proof (take_sequence_spec fuel fuel_positive' s p q seq Hh) as Ht.
  by rewrite (proj2 (first_with_None seq q) Hq) in Ht.
Qed.

(** The loop goes on in state [s'], or ends with the deadline passed. *)
Definition continues (n : nat) (timeout_ms deadline seq : Z)
    (result : option (Z * option slot * client L)) s' : Prop :=
  (exists remaining,
     result = call_receive fuel n timeout_ms deadline remaining seq s') \/
  (timeout_ms < UINT32_MAX /\ deadline <= v_clock (view (os s')) /\
   result = Some ((- ETIMEDOUT, None), s')).

(** One turn with no response there: it waits. *)
Lemma call_receive_wait seq n s p q timeout_ms deadline remaining :
  holds s p q -> Forall (fun x => sequence x <> seq) q ->
  v_responses (view (os s)) = [] -> outstanding (view (os s)) <> [] ->
  deadline_ok timeout_ms deadline (view (os s)) ->
  exists o,
    waited (view (os s)) (view o) /\ holds (set_os o s) p q /\
    ((timeout_ms < UINT32_MAX /\ deadline <= v_clock (view o) /\
      call_receive fuel (S n) timeout_ms deadline remaining seq s =
        Some ((- ETIMEDOUT, None), set_os o s)) \/
     (v_responses (view o) <> [] /\ exists remaining',
      call_receive fuel (S n) timeout_ms deadline remaining seq s =
        call_receive fuel n timeout_ms deadline remaining' seq (set_os o s))).
Proof using fuel_positive H0.
  intros Hh Hq Hr Ho Hd. pose proof (take_nothing s p q seq Hh Hq) as Ht.
  destruct (receive_nothing s p q Hh Hr) as (o1 & E1 & V1).
  assert (Hh1 : holds (set_os o1 s) p q).
  { apply (holds_os s); [done|done|]. cbn [os set_os]. by rewrite V1. }
  destruct (wait_for_response (set_os o1 s) p q timeout_ms deadline remaining Hh1) as
    (o & r & rem & E & W & Hor); [cbn [os set_os]; by rewrite V1..|].
  cbn [os set_os] in W. pose proof (holds_waited _ _ _ o Hh1 W) as Hh2.
  rewrite V1 in W. exists o. split; [done|]. split; [exact Hh2|].
  cbn [call_receive]. unfold mbind, st_bind, mret, st_ret. rewrite Ht. cbn beta iota.
  change (0 <? 0) with false. cbn beta iota. rewrite E1. cbn beta iota.
  change (transient (- EAGAIN)) with true. cbn beta iota. rewrite E.
  destruct Hor as [[-> Hne]|(-> & Hlt & Hc)]; [right|by left]. split; [done|]. by exists rem.
Qed.

(** One turn with a response to another request: it is retained. *)
Lemma call_receive_other seq n s p q x rest timeout_ms deadline remaining :
  holds s p q -> Forall (fun x => sequence x <> seq) q -> (length q < 64)%nat ->
  v_responses (view (os s)) = x :: rest -> valid_response x -> sequence x <> seq ->
  deadline_ok timeout_ms deadline (view (os s)) ->
  exists s' p',
    continues n timeout_ms deadline seq
      (call_receive fuel (S n) timeout_ms deadline remaining seq s) s' /\
    holds s' p' (q ++ [x]) /\ same_handle s s' p p' /\
    v_responses (view (os s')) = rest /\
    x :: outstanding (view (os s')) = outstanding (view (os s)).
Proof using fuel_positive H0.
  intros Hh Hq Hl Hr Hx Hne Hd. pose proof (take_nothing s p q seq Hh Hq) as Ht.
  destruct (receive_step s p q x rest Hh Hr Hx) as (o & E & Hh1 & Hs1 & Hr1 & Hi1).
  destruct (retain_step (set_os o s) p q x Hh1 Hl) as (s2 & p2 & E2 & Hh2 & Hs2 & Ho2 & Hr2).
  assert (Hout : x :: outstanding (view (os s2)) = outstanding (view (os s))).
  { rewrite Ho2. cbn [os set_os]. unfold outstanding. by rewrite Hr1, Hi1, Hr. }
  assert (Hs : same_handle s s2 p p2) by by eapply same_handle_trans.
  cbn [os set_os] in Hr2. rewrite Hr1 in Hr2.
  unfold continues. cbn [call_receive]. unfold mbind, st_bind. rewrite Ht. cbn beta iota.
  change (0 <? 0) with false. cbn beta iota. rewrite E. cbn beta iota.
  change (transient 0) with false. change (negb (0 =? 0)) with false. cbn beta iota.
  unfold lift, mret, st_ret. cbn beta iota.
  replace (sequence x =? seq) with false by lia. rewrite E2.
  change (negb (0 =? 0)) with false. cbn beta iota.
  destruct Hd as [[-> ->]|(Hlt & Hdl & _)].
  - exists s2, p2. change (negb (0 =? 0)) with false. cbn beta iota.
    split; [left; by eexists|done].
  - replace (deadline =? 0) with false by lia. cbn [negb].
    destruct (monotonic_spec s2) as (c & o3 & E3 & _ & Hc & V3). rewrite E3.
    assert (W : waited (view (os s2)) (view o3)) by (rewrite V3; by apply waited_clock).
    exists (set_os o3 s2), p2. split.
    + destruct (deadline <=? c) eqn:El; [right|left; by eexists].
      split; [lia|]. cbn [os set_os]. rewrite V3. cbn [v_clock set_clock]. split; [lia|done].
    + split; [by apply holds_waited|]. cbn [os set_os].
      split; [eapply same_handle_trans; [exact Hs|by apply same_handle_waited]|].
      rewrite (waited_outstanding _ _ W), V3. done.
Qed.

(** The last turn. *)
Lemma call_receive_own_response seq n s p q m rest timeout_ms deadline remaining :
  holds s p q -> Forall (fun x => sequence x <> seq) q ->
  v_responses (view (os s)) = m :: rest -> valid_response m -> sequence m = seq ->
  exists o,
    call_receive fuel (S n) timeout_ms deadline remaining seq s =
      Some ((0, Some m), set_os o s) /\
    holds (set_os o s) p q /\ same_handle s (set_os o s) p p /\
    m :: outstanding (view o) = outstanding (view (os s)).
Proof using fuel_positive H0.
  intros Hh Hq Hr Hm Hseq. pose proof (take_nothing s p q seq Hh Hq) as Ht.
  destruct (receive_step s p q m rest Hh Hr Hm) as (o & E & Hh1 & Hs1 & Hr1 & Hi1).
  exists o. split_and!; [|done|done|unfold outstanding; by rewrite Hr1, Hi1, Hr].
  cbn [call_receive]. unfold mbind, st_bind. rewrite Ht. cbn beta iota.
  change (0 <? 0) with false. cbn beta iota. rewrite E. cbn beta iota.
  change (transient 0) with false. change (negb (0 =? 0)) with false. cbn beta iota.
  unfold lift, mret, st_ret. cbn beta iota. by replace (sequence m =? seq) with true by lia.
Qed.

(** How the loop ends, when [pre] are the responses before the one to this call,
    [m], and [post] those after it: with [m], all of [pre] retained; or at the
    deadline, with the part of [pre] received so far retained and the rest still to
    be received. *)
Definition received s p q pre m post (timeout_ms deadline : Z)
    (result : option (Z * option slot * client L)) : Prop :=
  exists s' p', same_handle s s' p p' /\
    ((result = Some ((0, Some m), s') /\ holds s' p' (q ++ pre) /\
      outstanding (view (os s')) = post) \/
     (timeout_ms < UINT32_MAX /\ deadline <= v_clock (view (os s')) /\
      result = Some ((- ETIMEDOUT, None), s') /\
      exists pre1 pre2, pre = pre1 ++ pre2 /\ holds s' p' (q ++ pre1) /\
        outstanding (view (os s')) = pre2 ++ m :: post)).

Lemma received_later s s1 p p1 q pre m post timeout_ms deadline result :
  same_handle s s1 p p1 -> received s1 p1 q pre m post timeout_ms deadline result ->
  received s p q pre m post timeout_ms deadline result.
Proof using Type.
  clear fuel_positive. intros Hs (s' & p' & Hs' & Hr). exists s', p'.
  split; [by eapply same_handle_trans|done].
Qed.

Lemma received_cons s p q x pre m post timeout_ms deadline result :
  received s p (q ++ [x]) pre m post timeout_ms deadline result ->
  received s p q (x :: pre) m post timeout_ms deadline result.
Proof using Type.
  clear fuel_positive. intros (s' & p' & Hs' & Hr). exists s', p'. split; [done|].
  destruct Hr as [(-> & Hh & Ho)|(Ht & Hc & -> & pre1 & pre2 & -> & Hh & Ho)];
    rewrite <- app_assoc in Hh; [by left|right].
  split_and!; [done|done|done|]. by exists (x :: pre1), pre2.
Qed.

Lemma call_receive_spec seq m post timeout_ms deadline n : forall pre s p q remaining,
  holds s p q -> Forall (fun x => sequence x <> seq) q ->
  deadline_ok timeout_ms deadline (view (os s)) ->
  outstanding (view (os s)) = pre ++ m :: post ->
  Forall valid_response (pre ++ [m]) -> Forall (fun x => sequence x <> seq) pre ->
  sequence m = seq -> (length (q ++ pre) <= 64)%nat ->
  (2 * length pre + (if decide (v_responses (view (os s)) = []) then 2 else 1) <= n)%nat ->
  received s p q pre m post timeout_ms deadline
    (call_receive fuel n timeout_ms deadline remaining seq s).
Proof using fuel_positive H0.
  induction n as [|n IH]; intros pre s p q remaining Hh Hq Hd Ho Hv Hne Hm Hl Hn;
    [by destruct (decide _); lia|].
  destruct (v_responses (view (os s))) as [|x rest] eqn:Er.
  - rewrite decide_True in Hn by done.
    destruct (call_receive_wait seq n s p q timeout_ms deadline remaining Hh Hq Er) as
      (o & W & Hh1 & Hor); [rewrite Ho; by destruct pre|done|].
    pose proof (same_handle_waited s p o W) as Hs1.
    apply (received_later s (set_os o s) p p); [done|].
    destruct Hor as [(Ht & Hc & ->)|[Hr1 [rem ->]]].
    + exists (set_os o s), p. split; [by split_and!|]. right.
      split_and!; [done|done|done|]. exists [], pre. rewrite app_nil_r. cbn [os set_os].
      by rewrite (waited_outstanding _ _ W).
    + apply IH; try done; cbn [os set_os].
      * by eapply waited_deadline.
      * by rewrite (waited_outstanding _ _ W).
      * rewrite decide_False by done. lia.
  - rewrite decide_False in Hn by done. pose proof Ho as Ho'. unfold outstanding in Ho'.
    rewrite Er in Ho'. destruct pre as [|y pre]; cbn [app length] in *;
      injection Ho' as -> _; inversion_clear Hv as [|? ? Hx Hv'].
    + destruct (call_receive_own_response seq n s p q m rest timeout_ms deadline remaining
        Hh Hq Er Hx Hm) as (o & E & Hh' & Hs' & Ho').
      rewrite Ho in Ho'. injection Ho' as Ho'.
      exists (set_os o s), p. split; [done|]. left. by rewrite app_nil_r.
    + inversion_clear Hne as [|? ? Hy Hne']. rewrite length_app in Hl. cbn [length] in Hl.
      destruct (call_receive_other seq n s p q y rest timeout_ms deadline remaining Hh Hq
        ltac:(lia) Er Hx Hy Hd) as (s2 & p2 & Hgo & Hh2 & Hs2 & _ & Ho2).
      rewrite Ho in Ho2. injection Ho2 as Ho2.
      apply received_cons, (received_later s s2 p p2); [done|].
      destruct Hgo as [[rem ->]|(Ht & Hc & ->)].
      * apply IH; try done.
        -- apply Forall_app. by split; [|apply Forall_singleton].
        -- by eapply same_handle_deadline.
        -- rewrite !length_app. cbn [length]. lia.
        -- destruct (decide _); lia.
      * exists s2, p2. split; [by split_and!|]. right. split_and!; [done|done|done|].
        exists [], pre. by rewrite app_nil_r.
Qed.

(** *** Sending *)

(** The request buffer holds the bytes it is said to hold. *)
Definition sendable (request : list Z) (request_length : Z) : Prop :=
  0 <= request_length <= SG2002_RTOS_SHM_PAYLOAD_SIZE /\
  request_length <= Z.of_nat (length request).

Lemma send_locked_spec request request_length old s p q :
  holds s p q -> sendable request request_length ->
  let pr := v_peer (view (os s)) in
  v_can_send pr = true -> v_next_sequence pr <> 0 ->
  let m := request_slot (v_next_sequence pr) request request_length in
  exists o next,
    message_send_locked (Some request) request_length 0 (Some old) s =
      Some ((0, Some (v_next_sequence pr)), set_os o s) /\
    view o = set_peer next (set_in_flight
      (v_in_flight (view (os s)) ++ [v_answer pr m]) (view (os s))) /\
    holds (set_os o s) p q /\ exists d t, o = (ioctl_send d t (os s)).2.
Proof using H0.
  clear fuel_positive.
  intros Hh (Hl & Hb) pr Hc Hn m. destruct (holds_handle _ _ _ Hh) as (h & Eh & _).
  unfold message_send_locked. rewrite !bool_decide_eq_false_2 by done.
  rewrite andb_false_r. replace (_ <? request_length) with false by lia. cbn [orb].
  assert (Ep : (if 0 <? request_length
     then request0 ← lift (Some request);
          lift (memcpy zero_payload 0 request0 0 (Z.to_nat request_length))
     else mret zero_payload) s = Some (payload m, s)).
  { destruct (0 <? request_length) eqn:E0.
    - unfold mbind, st_bind, lift, mret, st_ret. cbn beta iota.
      unfold memcpy. rewrite read_bytes_Some by lia. cbn [mbind option_bind drop].
      rewrite drop_0, write_front.
      + rewrite length_take, Nat.min_l by lia. done.
      + rewrite length_take. unfold zero_payload. rewrite length_replicate. lia.
    - assert (request_length = 0) as -> by lia. run_st. do 2 f_equal. }
  unfold mbind at 1, st_bind at 1. rewrite Ep. run_st. rewrite Eh. run_st.
  destruct (view_send (os s) (fd h) (Transfer 0 (Slot 0 request_length (payload m))) Hc Hn)
    as (E & next & V).
  unfold call, zoom. cbn [message msg_length payload transfer_timeout_ms] in *.
  destruct (ioctl_send _ _ _) as [r o] eqn:Eo; cbn [fst snd] in *. subst r.
  subst pr. cbn [message sequence]. rewrite (proj2 (Z.eqb_neq _ 0) Hn).
  exists o, next. split_and!; [done|exact V| |by eexists _, _; rewrite Eo].
  apply (holds_os s); [done|done|]. cbn [os set_os]. by rewrite V.
Qed.

(** The first loop of a call, when the ring has room. *)
Lemma call_send_spec request request_length timeout_ms deadline remaining n s p q :
  holds s p q -> sendable request request_length ->
  let pr := v_peer (view (os s)) in
  v_can_send pr = true -> v_next_sequence pr <> 0 ->
  v_rx_held (view (os s)) = false -> v_tx_held (view (os s)) = false ->
  let m := request_slot (v_next_sequence pr) request request_length in
  exists o next,
    call_send fuel (S n) (Some request) request_length timeout_ms deadline remaining 0 s =
      Some ((None, v_next_sequence pr, remaining), set_os o s) /\
    view o = set_held rx_lock true (set_peer next (set_in_flight
      (v_in_flight (view (os s)) ++ [v_answer pr m]) (view (os s)))) /\
    holds (set_os o s) p q.
Proof using H0.
  clear fuel_positive.
  intros Hh Hreq pr Hc Hn Hrx Htx m. cbn [call_send].
  destruct (lock_step rx_lock s p q Hh Hrx) as (o1 & E1 & V1 & H1).
  unfold mbind, st_bind. rewrite E1. change (negb (0 =? 0)) with false. cbn beta iota.
  destruct (lock_step tx_lock (set_os o1 s) p q H1) as (o2 & E2 & V2 & H2).
  { cbn [os set_os]. rewrite V1. exact Htx. }
  rewrite E2. change (negb (0 =? 0)) with false. cbn beta iota.
  change (set_os o2 (set_os o1 s)) with (set_os o2 s) in *. cbn [os set_os] in V2.
  destruct (send_locked_spec request request_length 0 (set_os o2 s) p q H2 Hreq) as
    (o3 & next & E3 & V3 & H3 & _); cbn [os set_os] in *; rewrite ?V2, ?V1 in *; [done..|].
  rewrite E3. cbn beta iota. unfold lift, mret, st_ret. cbn beta iota.
  destruct (unlock_step tx_lock (set_os o3 s) p q H3) as (o4 & E4 & V4 & H4).
  change (set_os o3 (set_os o2 s)) with (set_os o3 s). rewrite E4.
  change (0 =? 0) with true. cbn beta iota.
  exists o4, next. split_and!; [done| |done].
  cbn [os set_os] in V4. rewrite V4, V3. unfold set_held, set_peer, set_in_flight.
  cbn. f_equal. symmetry. exact Htx.
Qed.

(** *** The whole call *)

(** A handle on which a call can be made: both locks free, room in the request
    ring, valid responses, none of them with the number of the next request, and
    space to retain them all. *)
Record callable s p q : Prop := {
  callable_readable : readable s p q;
  callable_tx : v_tx_held (view (os s)) = false;
  callable_room : v_can_send (v_peer (view (os s))) = true;
  callable_sequence : v_next_sequence (v_peer (view (os s))) <> 0;
  callable_valid : Forall valid_response (outstanding (view (os s)));
  callable_fresh :
    Forall (fun x => sequence x <> v_next_sequence (v_peer (view (os s))))
      (q ++ outstanding (view (os s)));
  callable_space : (length (q ++ outstanding (view (os s))) <= 64)%nat;
}.

(** The firmware's answer to the request. *)
Definition answer_to (v : os_view) (request : list Z) (request_length : Z) : slot :=
  v_answer (v_peer v)
    (request_slot (v_next_sequence (v_peer v)) request request_length).

(** What the caller gets of [answer]. *)
Definition answered (answer : slot) (o : outputs) : outputs :=
  let n := Z.to_nat (msg_length answer) in
  Outputs ((fun r => take n (payload answer) ++ drop n r) <$> out_response o)
    (Some (msg_length answer)) (out_sequence o).

(** The call up to its receive loop, and from the end of the loop to its result. *)
Lemma message_call_run request request_length capacity o timeout_ms s p q :
  readable s p q -> v_tx_held (view (os s)) = false ->
  v_can_send (v_peer (view (os s))) = true ->
  v_next_sequence (v_peer (view (os s))) <> 0 ->
  sendable request request_length -> buffers capacity o ->
  0 < timeout_ms <= UINT32_MAX ->
  let v := view (os s) in
  let run := sg2002_rtos_message_call fuel (Some request) request_length capacity o
               timeout_ms s in
  exists o2 d c next,
    view o2 = set_held rx_lock true (set_peer next (set_in_flight
      (v_in_flight v ++ [answer_to v request request_length]) (set_clock c v))) /\
    holds (set_os o2 s) p q /\ deadline_ok timeout_ms d (view o2) /\
    (timeout_ms < UINT32_MAX -> v_clock v + timeout_ms <= d) /\
    (let received := call_receive fuel fuel timeout_ms d timeout_ms
                       (v_next_sequence (v_peer v)) (set_os o2 s) in
     (forall m s3, received = Some ((0, Some m), s3) -> valid_response m ->
        fits m capacity = true ->
        run = Some ((0, answered m o), set_os (pthread_mutex_unlock rx_lock (os s3)).2 s3)) /\
     (forall ret s3, received = Some ((ret, None), s3) -> ret <> 0 ->
        run = Some ((ret, o), set_os (pthread_mutex_unlock rx_lock (os s3)).2 s3))).
Proof using fuel_positive H0.
  intros [Hh Ha Hrx] Htx Hroom Hseq Hreq Hb Ht v run.
  destruct (timeout_deadline_spec s timeout_ms ltac:(lia))
    as (d & o1 & c & Ed & Hc & V1 & Hd & Hdl).
  assert (Hh1 : holds (set_os o1 s) p q).
  { apply holds_waited; [done|]. rewrite V1. by apply waited_clock. }
  assert (exists k, fuel = S k) as [k Ek] by (exists (fuel - 1)%nat; lia).
  destruct (call_send_spec request request_length timeout_ms d timeout_ms k (set_os o1 s) p q
    Hh1 Hreq) as (o2 & next & Es & V2 & H2); cbn [os set_os]; rewrite ?V1; try done.
  cbn [os set_os] in Es, V2. rewrite V1 in Es, V2. rewrite <- Ek in Es.
  exists o2, d, c, next. split; [exact V2|]. split; [done|].
  split. { destruct (Hd ltac:(lia)) as [?|Hd']; [by left|right]. rewrite V1 in Hd'.
           rewrite V2. exact Hd'. }
  split. { intros Hlt. apply Hdl. lia. }
  unfold run, sg2002_rtos_message_call, has_channel.
  unfold mbind, st_bind, gets, mret, st_ret.
  rewrite Ha. cbn [negb]. rewrite buffers_guard by done. cbn iota. rewrite Ed, Es.
  change (set_os o2 (set_os o1 s)) with (set_os o2 s). cbn beta iota.
  change (v_next_sequence (v_peer (set_clock c (view (os s)))))
    with (v_next_sequence (v_peer v)). split.
  - intros m s3 Er Hm Hf. rewrite Er. cbn beta iota.
    change (0 =? 0) with true. unfold lift, mret, st_ret. cbn beta iota.
    rewrite (copy_message_spec m capacity _ s3 Hm) by done.
    unfold delivered. rewrite Hf. cbn beta iota. by rewrite call_unlock.
  - intros ret s3 Er Hret. rewrite Er. cbn beta iota.
    rewrite (proj2 (Z.eqb_neq ret 0) Hret). cbn beta iota. by rewrite call_unlock.
Qed.

(** After the final unlock. *)
Lemma unlocked_readable s s3 p p3 q q3 :
  shared_memory_available (rtos s) = true -> holds s p q -> holds s3 p3 q3 ->
  (fd <$> rtos s3) = (fd <$> rtos s) ->
  shared_memory_enabled p3 = shared_memory_enabled p ->
  let s' := set_os (pthread_mutex_unlock rx_lock (os s3)).2 s3 in
  readable s' p3 q3 /\ v_tx_held (view (os s')) = v_tx_held (view (os s3)) /\
  outstanding (view (os s')) = outstanding (view (os s3)) /\
  v_clock (view (os s')) = v_clock (view (os s3)).
Proof using H0.
  clear fuel_positive. intros Ha Hh H3 Hf Hen s'.
  destruct (unlock_step rx_lock s3 p3 q3 H3) as (o4 & E4 & V4 & H4).
  rewrite call_unlock in E4. injection E4 as E4.
  unfold s'. cbn [os set_os]. rewrite E4, V4. split; [|done].
  split; [exact H4| |cbn [os set_os]; by rewrite V4].
  cbn [rtos set_os]. by rewrite (available_fd s s3 p p3 q q3 Hh H3 Hf Hen).
Qed.

(** C3: a synchronous call ends with the firmware's answer to its own request or at
    its deadline, and takes nothing from anyone else. The request is numbered by
    the kernel and its answer arrives at some later time, after any number of other
    responses. The call returns 0 with the answer's length and bytes, and then
    every other response, those retained before and those that arrived meanwhile,
    is retained in order of arrival; or, only with a finite timeout, it returns
    -ETIMEDOUT with the caller's variables unchanged, and then the clock shows that
    all of [timeout_ms] has passed since the call, and those responses and the answer
    are all still to be read, in order. Both locks are free. *)
Theorem message_call_answered request request_length capacity o timeout_ms s p q :
  callable s p q -> sendable request request_length -> buffers capacity o ->
  0 < timeout_ms <= UINT32_MAX ->
  let v := view (os s) in
  let answer := answer_to v request request_length in
  valid_response answer -> sequence answer = v_next_sequence (v_peer v) ->
  fits answer capacity = true ->
  (2 * length (outstanding v) + 2 <= fuel)%nat ->
  exists result s' p' q',
    sg2002_rtos_message_call fuel (Some request) request_length capacity o timeout_ms s =
      Some (result, s') /\
    readable s' p' q' /\ v_tx_held (view (os s')) = false /\
    ((result = (0, answered answer o) /\
      q' = q ++ outstanding v /\ outstanding (view (os s')) = []) \/
     (timeout_ms < UINT32_MAX /\ v_clock v + timeout_ms <= v_clock (view (os s')) /\
      result = (- ETIMEDOUT, o) /\
      q' ++ outstanding (view (os s')) = q ++ outstanding v ++ [answer])).
Proof using fuel_positive H0.
  intros [Hr Htx Hroom Hseq Hval Hfresh Hspace] Hreq Hb Ht v answer Hans Hnum Hfits Hfuel.
  pose proof Hr as [Hh Ha Hrx]. apply Forall_app in Hfresh as [Hfq Hfo].
  destruct (message_call_run request request_length capacity o timeout_ms s p q Hr Htx
    Hroom Hseq Hreq Hb Ht) as (o2 & d & c & next & V2 & H2 & Hd & Hdl & Hok & Herr).
  assert (Ho2 : outstanding (view o2) = outstanding v ++ [answer]).
  { rewrite V2. unfold outstanding. cbn. by rewrite app_assoc. }
  assert (Htx2 : v_tx_held (view o2) = false) by by rewrite V2.
  destruct (call_receive_spec (v_next_sequence (v_peer v)) answer [] timeout_ms d fuel
              (outstanding v) (set_os o2 s) p q timeout_ms) as (s3 & p3 & Hs3 & Hor); try done.
  { apply Forall_app. by split; [|apply Forall_singleton]. }
  { destruct (decide _); lia. }
  destruct Hs3 as (Hf & Hen & _ & Htx3 & _). cbn [os rtos set_os] in Hf, Htx3.
  rewrite Htx2 in Htx3.
  destruct Hor as [(Er & H3 & Ho3)|(Hlt & Hc & Er & pre1 & pre2 & Epre & H3 & Ho3)];
    (edestruct (unlocked_readable s s3 p p3 q) as (Hr' & Htx' & Ho' & Hck); [done..|]);
    eexists _, _, p3, _; (split; [|split; [exact Hr'|split; [by rewrite Htx'|]]]).
  - by apply Hok.
  - left. by rewrite Ho', Ho3.
  - by apply Herr.
  - right. split_and!; [done|rewrite Hck; subst v; specialize (Hdl Hlt); lia|done|].
    by rewrite Ho', Ho3, Epre, <- !app_assoc.
Qed.

(** The bound on retained responses shows. With 64 responses retained, a
    synchronous call that receives a response of another request ends with
    -ENOBUFS, and that response is neither retained nor any longer in the kernel:
    it is lost to every reader. The others are kept, and the lock is free. *)
Theorem call_drops_response_when_full request request_length capacity o timeout_ms s p q
    x rest :
  readable s p q -> length q = 64%nat ->
  v_tx_held (view (os s)) = false -> v_can_send (v_peer (view (os s))) = true ->
  let seq := v_next_sequence (v_peer (view (os s))) in
  seq <> 0 -> sendable request request_length -> buffers capacity o ->
  0 < timeout_ms <= UINT32_MAX ->
  v_responses (view (os s)) = x :: rest -> valid_response x ->
  Forall (fun m => sequence m <> seq) (x :: q) ->
  exists s',
    sg2002_rtos_message_call fuel (Some request) request_length capacity o timeout_ms s =
      Some ((- ENOBUFS, o), s') /\
    readable s' p q /\
    outstanding (view (os s')) = rest ++ v_in_flight (view (os s)) ++
      [answer_to (view (os s)) request request_length].
Proof using fuel_positive H0.
  intros Hr Hq Htx Hroom seq Hseq Hreq Hb Ht Hx Hvx Hfresh. pose proof Hr as [Hh Ha Hrx].
  inversion_clear Hfresh as [|? ? Hne Hfq].
  destruct (message_call_run request request_length capacity o timeout_ms s p q Hr Htx
    Hroom Hseq Hreq Hb Ht) as (o2 & d & c & next & V2 & H2 & _ & _ & _ & Herr).
  assert (Hr2 : v_responses (view (os (set_os o2 s))) = x :: rest).
  { cbn [os set_os]. rewrite V2. exact Hx. }
  destruct (receive_step (set_os o2 s) p q x rest H2 Hr2 Hvx)
    as (o3 & E3 & H3 & (Hf & Hen & _) & Hr3 & Hi3).
  pose proof (take_nothing (set_os o2 s) p q seq H2 Hfq) as Hn.
  destruct (unlocked_readable s (set_os o3 (set_os o2 s)) p p q q Ha Hh H3 Hf Hen)
    as (Hr' & _ & Ho' & _).
  eexists. split; [apply Herr; [|done]|split; [exact Hr'|]].
  - assert (exists k, fuel = S k) as [k Ek] by (exists (fuel - 1)%nat; lia).
    rewrite Ek at 2. cbn [call_receive]. unfold mbind at 1, st_bind at 1. fold seq. rewrite Hn.
    cbn beta iota. change (0 <? 0) with false. cbn beta iota.
    unfold mbind, st_bind. rewrite E3. cbn beta iota.
    change (transient 0) with false. change (negb (0 =? 0)) with false.
    unfold lift, mret, st_ret. cbn beta iota.
    replace (sequence x =? seq) with false by lia.
    by rewrite (retain_full fuel _ p q x H3 Hq).
  - rewrite Ho'. unfold outstanding. cbn [os set_os] in *. rewrite Hr3, Hi3, V2. done.
Qed.

(** Sending at the first attempt. *)
Lemma message_send_spec request request_length timeout_ms old s p q :
  readable s p q -> v_tx_held (view (os s)) = false ->
  let v := view (os s) in
  v_can_send (v_peer v) = true -> v_next_sequence (v_peer v) <> 0 ->
  sendable request request_length -> 0 <= timeout_ms <= UINT32_MAX ->
  exists s',
    sg2002_rtos_message_send fuel (Some request) request_length timeout_ms (Some old) s =
      Some ((0, Some (v_next_sequence (v_peer v))), s') /\
    readable s' p q /\ v_tx_held (view (os s')) = false /\
    v_responses (view (os s')) = v_responses v /\
    outstanding (view (os s')) = outstanding v ++ [answer_to v request request_length] /\
    exists d t o, v_peer (view o) = v_peer v /\ outstanding (view o) = outstanding v /\
      v_peer (view (os s')) = v_peer (view (ioctl_send d t o).2).
Proof using fuel_positive H0.
  intros [Hh Ha Hrx] Htx v Hroom Hseq Hreq Ht.
  destruct (timeout_deadline_spec s timeout_ms Ht) as (d & o1 & c & Ed & Hc & V1 & _ & _).
  assert (Hh1 : holds (set_os o1 s) p q).
  { apply holds_waited; [done|]. rewrite V1. by apply waited_clock. }
  destruct (lock_step tx_lock (set_os o1 s) p q Hh1) as (o2 & E2 & V2 & H2).
  { cbn [os set_os]. by rewrite V1. }
  change (set_os o2 (set_os o1 s)) with (set_os o2 s) in *. cbn [os set_os] in V2.
  rewrite V1 in V2.
  destruct (send_locked_spec request request_length old (set_os o2 s) p q H2 Hreq)
    as (o3 & next & E3 & V3 & H3 & dd & tt' & Eo); cbn [os set_os] in *; rewrite ?V2 in *;
    [done..|].
  destruct (unlock_step tx_lock (set_os o3 s) p q H3) as (o4 & E4 & V4 & H4).
  cbn [os set_os] in V4. assert (Vp : v_peer (view o4) = v_peer (view o3)) by by rewrite V4.
  rewrite V3 in V4. exists (set_os o4 s).
  split; [|split; [split; [exact H4|exact Ha|cbn [os set_os]; by rewrite V4]|]].
  - unfold sg2002_rtos_message_send, has_channel. unfold mbind at 1, st_bind at 1. rewrite Ed.
    unfold mbind, st_bind, gets, mret, st_ret. cbn [rtos set_os]. rewrite Ha. cbn [negb].
    destruct fuel as [|k] eqn:Ek; [lia|]. cbn [send_loop]. unfold mbind, st_bind, mret, st_ret.
    rewrite E2. change (negb (0 =? 0)) with false. cbn beta iota. rewrite E3.
    cbn beta iota. change (set_os o3 (set_os o2 s)) with (set_os o3 s). rewrite E4. done.
  - cbn [os set_os]. split_and!; [by rewrite V4|by rewrite V4| |].
    + rewrite V4. unfold outstanding. cbn. by rewrite app_assoc.
    + exists dd, tt', o2. rewrite V2, <- Eo, <- Vp. done.
Qed.

(** C31: an asynchronous send. With room in the request ring, and any timeout,
    [sg2002_rtos_message_send] returns 0 at once and the number the kernel gave to
    the request, whose answer is then outstanding after those of earlier requests;
    what is retained and what is already readable is untouched, and the lock is
    free. *)
Theorem message_send_numbers request request_length timeout_ms old s p q :
  readable s p q -> v_tx_held (view (os s)) = false ->
  let v := view (os s) in
  v_can_send (v_peer v) = true -> v_next_sequence (v_peer v) <> 0 ->
  sendable request request_length -> 0 <= timeout_ms <= UINT32_MAX ->
  exists s',
    sg2002_rtos_message_send fuel (Some request) request_length timeout_ms (Some old) s =
      Some ((0, Some (v_next_sequence (v_peer v))), s') /\
    readable s' p q /\ v_tx_held (view (os s')) = false /\
    v_responses (view (os s')) = v_responses v /\
    outstanding (view (os s')) = outstanding v ++ [answer_to v request request_length].
Proof using fuel_positive H0.
  intros Hr Htx v Hroom Hseq Hreq Ht.
  destruct (message_send_spec request request_length timeout_ms old s p q Hr Htx Hroom Hseq
    Hreq Ht) as (s' & E & Hr' & Htx' & Hresp & Ho & _). by exists s'.
Qed.

End Calls.

(** A PING of 42 while responses 5 and 6 of other requests are waiting. *)
Definition demo_ping : list Z := 0x61 :: le_bytes 4 42.
Definition demo_answer : list Z := 0x61 :: le_bytes 4 (Z.lxor 42 SG2002_RTOS_PING_XOR).
Definition demo_reply : outputs := Outputs (Some (replicate 5 0)) (Some 0) None.
Definition demo_others : list slot := [demo_slot 5 [1]; demo_slot 6 [2; 3]].

Lemma message_call_answered_witness :
  let s := demo_client [demo_slot 4 [9]] demo_others in
  let p := demo_private [demo_slot 4 [9]] in
  let v := view (os s) in
  let answer := answer_to v demo_ping 5 in
  (2 < 9)%nat /\ callable s p [demo_slot 4 [9]] /\ sendable demo_ping 5 /\
  buffers 5 demo_reply /\ 0 < 1000 <= UINT32_MAX /\
  valid_response answer /\ sequence answer = 7 /\
  fits answer 5 = true /\ answered answer demo_reply = Outputs (Some demo_answer) (Some 5) None /\
  exists result s' p' q',
    sg2002_rtos_message_call 9 (Some demo_ping) 5 5 demo_reply 1000 s = Some (result, s') /\
    readable s' p' q' /\ v_tx_held (view (os s')) = false /\
    ((result = (0, answered answer demo_reply) /\
      q' = [demo_slot 4 [9]] ++ outstanding v /\ outstanding (view (os s')) = []) \/
     (1000 < UINT32_MAX /\ v_clock v + 1000 <= v_clock (view (os s')) /\
      result = (- ETIMEDOUT, demo_reply) /\
      q' ++ outstanding (view (os s')) = [demo_slot 4 [9]] ++ outstanding v ++ [answer])).
Proof.
  intros s p v answer.
  assert (Hc : callable s p [demo_slot 4 [9]]).
  { split; [by apply demo_readable; cbn; lia|done|done|done| | |vm_compute; lia].
    - repeat (apply Forall_cons; split; [by apply demo_slot_valid; [done|cbn; lia]|]).
      by apply Forall_nil.
    - repeat (apply Forall_cons; split; [done|]). by apply Forall_nil. }
  assert (Hs : sendable demo_ping 5) by by split_and!; vm_compute.
  assert (Hb : buffers 5 demo_reply).
  { split_and!; [done|lia|]. intros _. by exists (replicate 5 0). }
  assert (Ht : 0 < 1000 <= UINT32_MAX) by (unfold UINT32_MAX; lia).
  assert (Hv : valid_response answer) by by split_and!; vm_compute.
  split_and!; [lia|exact Hc|exact Hs|exact Hb|lia|apply Ht|exact Hv|done|done
    |vm_compute; reflexivity|].
  exact (message_call_answered 9 ltac:(lia) demo_ping 5 5 demo_reply 1000 s p _ Hc Hs Hb Ht
           Hv eq_refl eq_refl ltac:(vm_compute; lia)).
Defined.

Lemma call_drops_response_when_full_witness :
  let q := replicate 64 (demo_slot 5 [1]) in
  let s := demo_client q demo_others in
  (2 < 9)%nat /\ readable s (demo_private q) q /\ length q = 64%nat /\
  v_tx_held (view (os s)) = false /\ v_can_send (v_peer (view (os s))) = true /\
  v_next_sequence (v_peer (view (os s))) <> 0 /\ sendable demo_ping 5 /\
  buffers 5 demo_reply /\ 0 < 1000 <= UINT32_MAX /\ valid_response (demo_slot 5 [1]) /\
  exists s',
    sg2002_rtos_message_call 9 (Some demo_ping) 5 5 demo_reply 1000 s =
      Some ((- ENOBUFS, demo_reply), s') /\
    readable s' (demo_private q) q /\
    outstanding (view (os s')) =
      [demo_slot 6 [2; 3]] ++ [] ++ [answer_to (view (os s)) demo_ping 5].
Proof.
  intros q s.
  assert (Hr : readable s (demo_private q) q) by (apply demo_readable; cbn; lia).
  assert (Hs : sendable demo_ping 5) by by split_and!; vm_compute.
  assert (Hb : buffers 5 demo_reply).
  { split_and!; [done|lia|]. intros _. by exists (replicate 5 0). }
  assert (Ht : 0 < 1000 <= UINT32_MAX) by (unfold UINT32_MAX; lia).
  assert (Hv : valid_response (demo_slot 5 [1])) by by split_and!; vm_compute.
  split_and!; [lia|exact Hr|done|done|done|done|exact Hs|exact Hb|lia|apply Ht|exact Hv|].
  apply (call_drops_response_when_full 9 ltac:(lia) demo_ping 5 5 demo_reply 1000 s _ q
           (demo_slot 5 [1]) [demo_slot 6 [2; 3]]); try done.
  apply Forall_cons. split; [done|]. by apply Forall_replicate.
Defined.

Lemma message_send_numbers_witness :
  let q := [demo_slot 4 [9]] in
  let s := demo_client q demo_others in
  (2 < 9)%nat /\ readable s (demo_private q) q /\ sendable demo_ping 5 /\
  0 <= 0 <= UINT32_MAX /\
  exists s',
    sg2002_rtos_message_send 9 (Some demo_ping) 5 0 (Some 0) s = Some ((0, Some 7), s') /\
    readable s' (demo_private q) q /\ v_tx_held (view (os s')) = false /\
    v_responses (view (os s')) = demo_others /\
    outstanding (view (os s')) =
      outstanding (view (os s)) ++ [answer_to (view (os s)) demo_ping 5].
Proof.
  intros q s.
  assert (Hr : readable s (demo_private q) q) by (apply demo_readable; cbn; lia).
  assert (Hs : sendable demo_ping 5) by by split_and!; vm_compute.
  assert (Ht : 0 <= 0 <= UINT32_MAX) by (unfold UINT32_MAX; lia).
  split_and!; [lia|exact Hr|exact Hs|lia|apply Ht|].
  exact (message_send_numbers 9 ltac:(lia) demo_ping 5 0 0 s (demo_private q) q Hr eq_refl
           eq_refl ltac:(done) Hs Ht).
Defined.
