(* ===== verification/LinuxLog.v ===== *)
(** * Whose response a synchronous call returns

    No law is assumed of the system here: the kernel may answer anything, at any time
    and in any order. The system is run with a record of what passes between the client
    library and the kernel: the requests accepted, with their numbers, and the messages
    received. [sg2002_rtos_message_call] returns only what this record, or the responses
    retained before the call, accounts for. *)

From S2P Require Import Prelude Protocol Shm Cmdqu LinuxOs LinuxSim LinuxRtos.
From S2P Require Import LinuxRtosSpec LinuxCall.
Local Open Scope Z_scope.

(** ** A system with a record of its messages *)

(** A request as it was handed to the kernel and the number it was given, or a message
    as the kernel delivered it. *)
Inductive event := Sent (request : slot) (number : Z) | Received (m : slot).

Record logged (L : Type) := Logged { base : L; events : list event }.
Arguments Logged {L}.
Arguments base {L}.
Arguments events {L}.

(** An operation of the system, with the events of its result. *)
Definition logging {L A} (f : L -> A * L) (new : A -> list event)
    (o : logged L) : A * logged L :=
  let '(a, b) := f (base o) in (a, Logged b (events o ++ new a)).

Definition unlogged {L A} (f : L -> A * L) (o : logged L) : A * logged L :=
  let '(a, b) := f (base o) in (a, Logged b (events o)).

Definition sent_event (t : transfer) (r : sys transfer) : list event :=
  match r with Ok reply => [Sent (message t) (sequence (message reply))] | Err _ => [] end.
Definition received_event (r : sys transfer) : list event :=
  match r with Ok reply => [Received (message reply)] | Err _ => [] end.

#[export] Instance logged_linux {L} `{Linux L} : Linux (logged L) := {|
  os_open := fun path => unlogged (os_open path);
  os_close := fun d => unlogged (os_close d);
  os_calloc := unlogged os_calloc;
  os_free := unlogged os_free;
  os_eventfd := unlogged os_eventfd;
  os_read := fun d => unlogged (os_read d);
  os_write := fun d v => unlogged (os_write d v);
  os_poll := fun l ms => unlogged (os_poll l ms);
  os_clock := unlogged os_clock;
  pthread_mutex_init := fun l => unlogged (pthread_mutex_init l);
  pthread_mutex_destroy := fun l => unlogged (pthread_mutex_destroy l);
  pthread_mutex_lock := fun l => unlogged (pthread_mutex_lock l);
  pthread_mutex_unlock := fun l => unlogged (pthread_mutex_unlock l);
  ioctl_acquire := fun d => unlogged (ioctl_acquire d);
  ioctl_send := fun d t => logging (ioctl_send d t) (sent_event t);
  ioctl_receive := fun d t => logging (ioctl_receive d t) received_event;
  ioctl_submit_batch := fun d b l => unlogged (ioctl_submit_batch d b l);
  ioctl_reap_batch := fun d b l => unlogged (ioctl_reap_batch d b l);
  ioctl_send_wait := fun d c => unlogged (ioctl_send_wait d c);
|}.

Definition requests (l : list event) : list (slot * Z) :=
  omap (fun e => match e with Sent m n => Some (m, n) | Received _ => None end) l.
Definition receipts (l : list event) : list slot :=
  omap (fun e => match e with Sent _ _ => None | Received m => Some m end) l.

(** The responses retained in a handle. *)
Definition retained (r : option handle) : list slot :=
  match private_of r with
  | Some p => take (Z.to_nat (pending_count p)) (pending p)
  | None => []
  end.

Section AnySystem.
Context {L : Type} `{Linux L}.
Context (fuel : nat).
Implicit Types (s : client (logged L)) (l : list event).
Local Abbreviation M := (ST (client (logged L))).

(** From [s] to [s'] the messages of [l] passed, and every response now retained is one
    of [new] or was retained before. *)
Definition moves l (new : list slot) s s' : Prop :=
  events (os s') = events (os s) ++ l /\
  forall m, m ∈ retained (rtos s') -> m ∈ new \/ m ∈ retained (rtos s).

(** What is newly retained was received on the way. *)
Definition accounts l s s' : Prop := moves l (receipts l) s s'.

Definition silent {A} (m : M A) : Prop :=
  forall s a s', m s = Some (a, s') -> accounts [] s s'.

Lemma accounts_refl s : accounts [] s s.
Proof using Type. split; [by rewrite app_nil_r|by right]. Qed.

Lemma accounts_trans l1 l2 s1 s2 s3 :
  accounts l1 s1 s2 -> accounts l2 s2 s3 -> accounts (l1 ++ l2) s1 s3.
Proof using Type.
  intros [E1 R1] [E2 R2]. split; [by rewrite E2, E1, app_assoc|].
  intros m Hm. unfold receipts. rewrite omap_app, elem_of_app.
  destruct (R2 m Hm) as [?|[?|?]%R1]; auto.
Qed.

(** Nothing said on the way in, or on the way out. *)
Lemma accounts_after l s1 s2 s3 : accounts [] s1 s2 -> accounts l s2 s3 -> accounts l s1 s3.
Proof using Type. apply (accounts_trans [] l). Qed.

Lemma accounts_before l s1 s2 s3 : accounts l s1 s2 -> accounts [] s2 s3 -> accounts l s1 s3.
Proof using Type. intros H1 H2. rewrite <- (app_nil_r l). by eapply accounts_trans. Qed.

Lemma silent_ret {A} (a : A) : silent (mret a).
Proof using Type. intros s b s' [= <- <-]. apply accounts_refl. Qed.

Lemma silent_bind {A B} (m : M A) (f : A -> M B) :
  silent m -> (forall a, silent (f a)) -> silent (x ← m; f x).
Proof using Type.
  intros Hm Hf s b s' E. step_to E a s1 F. eapply accounts_after; [by eapply Hm|].
  by eapply Hf.
Qed.

Lemma silent_gets {A} (f : client (logged L) -> A) : silent (gets f).
Proof using Type. intros s b s' [= <- <-]. apply accounts_refl. Qed.

Lemma silent_undefined {A} : silent (undefined : M A).
Proof using Type. done. Qed.

Lemma silent_lift {A} (x : option A) : silent (lift x : M A).
Proof using Type. destruct x; [apply silent_ret|done]. Qed.

Lemma silent_call {A} (f : L -> A * L) : silent (call (unlogged f)).
Proof using Type.
  intros s a s' E. unfold call, zoom, unlogged in E.
  destruct (f (base (os s))) as [b o]. injection E as <- <-.
  split; [by rewrite app_nil_r|by right].
Qed.

Create HintDb silent.
#[local] Hint Resolve silent_ret silent_gets silent_undefined silent_lift silent_call : silent.

(** Take a computation apart down to the system's operations. *)
Ltac silent_steps :=
  repeat (intros; match goal with
    | |- silent (_ ≫= _) => apply silent_bind
    | |- silent (call _) => apply silent_call
    | |- silent (let '(_, _) := ?x in _) => destruct x
    | |- silent (match ?x with _ => _ end) => destruct x
    | _ => solve [eauto with silent]
    end).

Lemma silent_event_write n d : silent (event_write n d).
Proof using Type. induction n; cbn [event_write]; silent_steps. Qed.
Lemma silent_event_read n d : silent (event_read n d).
Proof using Type. induction n; cbn [event_read]; silent_steps. Qed.
#[local] Hint Resolve silent_event_write silent_event_read : silent.

Lemma silent_signal : silent (pending_event_signal fuel).
Proof using Type. unfold pending_event_signal, get_private. silent_steps. Qed.
Lemma silent_consume : silent (pending_event_consume fuel).
Proof using Type. unfold pending_event_consume, get_private. silent_steps. Qed.
Lemma silent_clock : silent monotonic_milliseconds.
Proof using Type. unfold monotonic_milliseconds. silent_steps. Qed.
#[local] Hint Resolve silent_signal silent_consume silent_clock : silent.

Lemma silent_gets_available : silent has_channel.
Proof using Type. unfold has_channel. silent_steps. Qed.
Lemma silent_deadline timeout_ms : silent (timeout_deadline timeout_ms).
Proof using Type. unfold timeout_deadline. silent_steps. Qed.
Lemma silent_remaining timeout_ms deadline remaining :
  silent (update_remaining timeout_ms deadline remaining).
Proof using Type. unfold update_remaining. silent_steps. Qed.
#[local] Hint Resolve silent_deadline silent_remaining : silent.

Lemma silent_kernel_poll d events timeout_ms deadline n : forall remaining,
  silent (kernel_poll n d events timeout_ms deadline remaining).
Proof using Type. induction n; cbn [kernel_poll]; silent_steps. Qed.
#[local] Hint Resolve silent_kernel_poll : silent.

Lemma silent_wait events timeout_ms deadline remaining :
  silent (wait_for_kernel_events fuel events timeout_ms deadline remaining).
Proof using Type. unfold wait_for_kernel_events. silent_steps. Qed.
Lemma silent_copy m capacity o : silent (copy_message m capacity o).
Proof using Type. unfold copy_message. silent_steps. Qed.
#[local] Hint Resolve silent_wait silent_copy : silent.

(** *** The retained responses *)

Lemma get_private_inv s p s' :
  get_private s = Some (p, s') -> s' = s /\ private_of (rtos s) = Some p.
Proof using Type.
  unfold get_private. intros E. step_inv E. injection Step as <- <-.
  destruct (private_of _) as [q|]; [|done]. by injection E as -> <-.
Qed.

Lemma put_private_inv p s s' u :
  put_private p s = Some (u, s') -> os s' = os s /\ private_of (rtos s') = Some p.
Proof using Type.
  unfold put_private. intros E. step_inv E. injection Step as <- <-.
  destruct (rtos s) as [h|]; [|done]. by injection E as _ <-.
Qed.

Lemma put_private_moves new p q s s' u :
  private_of (rtos s) = Some p -> put_private q s = Some (u, s') ->
  (forall m, m ∈ take (Z.to_nat (pending_count q)) (pending q) ->
     m ∈ new \/ m ∈ take (Z.to_nat (pending_count p)) (pending p)) ->
  moves [] new s s'.
Proof using Type.
  intros Ep E Hin. apply put_private_inv in E as [Eo Eq].
  split; [by rewrite Eo, app_nil_r|]. unfold retained. by rewrite Ep, Eq.
Qed.

Lemma elem_of_take_mono {A} (l : list A) (i n : nat) x :
  (i <= n)%nat -> x ∈ take i l -> x ∈ take n l.
Proof using Type.
  intros Hi (j & Hx & Hj)%elem_of_take. apply elem_of_take. exists j. split; [done|lia].
Qed.

Lemma elem_of_close_gap (l : list slot) (i n : nat) m :
  (i < n)%nat -> m ∈ take n (close_gap l i n) -> m ∈ take (S n) l.
Proof using Type.
  intros Hi Hm. unfold close_gap in Hm. apply elem_of_take in Hm as (j & Hm & Hj).
  apply lookup_app_Some in Hm as [Hm|[_ Hm]].
  { apply (elem_of_take_mono l i); [lia|]. by eapply list_elem_of_lookup_2. }
  rewrite length_take in *. apply lookup_app_Some in Hm as [Hm|[Hge Hm]].
  - apply lookup_take_Some in Hm as [Hm Hlt]. rewrite lookup_drop in Hm.
    apply elem_of_take. eexists. split; [exact Hm|lia].
  - rewrite length_take, length_drop in *. rewrite lookup_drop in Hm.
    apply lookup_lt_Some in Hm. lia.
Qed.

Lemma silent_remove i : 0 <= i -> silent (remove_pending fuel i).
Proof using Type.
  intros Hi s a s' E. unfold remove_pending in E. step_inv E.
  apply get_private_inv in Step as [-> Ep]. destruct (pending_count p <=? i) eqn:Ec.
  { injection E as _ <-. apply accounts_refl. }
  step_inv E. apply (put_private_moves [] p) in Step; [|done|].
  - eapply accounts_after; [exact Step|]. step_inv E. injection E as _ <-.
    by eapply silent_consume.
  - cbn [pending_count pending set_pending]. intros m Hm. right.
    destruct (i <? pending_count p - 1) eqn:El.
    + apply elem_of_close_gap in Hm; [|lia].
      by replace (Z.to_nat (pending_count p)) with (S (Z.to_nat (pending_count p - 1))) by lia.
    + eapply elem_of_take_mono; [|exact Hm]. lia.
Qed.

Lemma retain_moves m s r s' : retain_pending fuel m s = Some (r, s') -> moves [] [m] s s'.
Proof using Type.
  unfold retain_pending. intros E. step_inv E. apply get_private_inv in Step as [-> Ep].
  destruct (_ <=? _); [injection E as _ <-; split; [by rewrite app_nil_r|by right]|].
  step_inv E. unfold array_store in Step.
  destruct ((0 <=? pending_count p) && _) eqn:Eb; [|done]. injection Step as <- <-.
  step_to E u1 s1 F1. apply (put_private_moves [m] p) in F1; [|done|].
  2: { cbn [pending_count pending set_pending]. intros x Hx.
    replace (Z.to_nat (pending_count p + 1)) with (S (Z.to_nat (pending_count p))) in Hx by lia.
    apply elem_of_take in Hx as (j & Hx & Hj).
    destruct (decide (j = Z.to_nat (pending_count p))) as [->|Hne].
    - rewrite list_lookup_insert_eq in Hx by lia. injection Hx as <-. left. set_solver.
    - rewrite list_lookup_insert_ne in Hx by done. right. apply elem_of_take.
      exists j. split; [done|lia]. }
  step_to E ret s2 F2. apply silent_signal in F2 as [E1 R1].
  assert (Hm : moves [] [m] s s2).
  { destruct F1 as [E0 R0]. split; [by rewrite E1, E0, !app_nil_r|].
    intros x [Hx|Hx]%R1; [by apply elem_of_nil in Hx|by apply R0]. }
  destruct (negb _); [|by injection E as _ <-].
  step_to E p2 s3 F3. apply get_private_inv in F3 as [-> Ep1]. step_to E u2 s4 F4.
  apply (put_private_moves [] p2) in F4 as [E2 R2]; [|done|].
  - injection E as _ <-. destruct Hm as [E0 R0].
    split; [by rewrite E2, E0, !app_nil_r|].
    intros x [Hx|Hx]%R2; [by apply elem_of_nil in Hx|by apply R0].
  - cbn. intros x Hx. right. eapply elem_of_take_mono; [|exact Hx]. lia.
Qed.

Lemma find_sequence_own (l : list slot) seq js i x :
  find_sequence l js seq = Some (i, x) -> l !! i = Some x /\ i ∈ js /\ sequence x = seq.
Proof using Type.
  induction js as [|j js IH]; cbn [find_sequence]; [done|].
  destruct (l !! j) as [y|] eqn:Ej; [|done]. destruct (sequence y =? seq) eqn:Ey; cbn [negb].
  - intros [= <- <-]. split_and!; [done|by left|lia].
  - intros (? & ? & ?)%IH. split_and!; [done|by right|done].
Qed.

(** What is taken was retained, and has the number asked for. *)
Lemma take_sequence_own seq s s' r m :
  take_pending_sequence fuel seq s = Some ((r, m), s') ->
  accounts [] s s' /\
  (0 < r -> exists x, m = Some x /\ sequence x = seq /\ x ∈ retained (rtos s)).
Proof using Type.
  unfold take_pending_sequence. intros E. step_inv E.
  apply get_private_inv in Step as [-> Ep].
  destruct (find_sequence _ _ _) as [[i x]|] eqn:Ef.
  - step_inv E. apply silent_remove in Step; [|lia].
    apply find_sequence_own in Ef as (Ex & Hi & Hs).
    destruct (negb _); injection E as <- <- <-; (split; [done|]); [done|].
    intros _. exists x. split_and!; [done|done|]. unfold retained. rewrite Ep.
    apply elem_of_take. exists i. split; [done|]. apply elem_of_seq in Hi. lia.
  - injection E as <- _ <-. split; [apply accounts_refl|lia].
Qed.

(** *** Sending and receiving *)

(** The payload sent for a caller's request. *)
Definition carries (request : option (list Z)) (request_length : Z) (bytes : list Z) : Prop :=
  0 < request_length -> exists r, request = Some r /\
    bytes = take (Z.to_nat request_length) r ++ drop (Z.to_nat request_length) zero_payload.

Lemma request_bytes request request_length s s' bytes :
  (if 0 <? request_length
   then request ← lift request;
        lift (memcpy zero_payload 0 request 0 (Z.to_nat request_length))
   else mret zero_payload) s = Some (bytes, s') ->
  s' = s /\ carries request request_length bytes.
Proof using Type.
  unfold carries. destruct (0 <? request_length) eqn:El; [|intros [= _ <-]; split; [done|lia]].
  destruct request as [r|]; [|done]. unfold mbind, st_bind, lift at 1, mret, st_ret.
  cbn beta iota. unfold memcpy, read_bytes. case_decide; [|done].
  cbn [mbind option_bind drop]. unfold write_bytes. case_decide; [|done].
  intros [= <- <-]. split; [done|]. intros _. exists r. split; [done|].
  cbn [take app]. rewrite drop_0 in *. rewrite length_take, Nat.min_l by lia. done.
Qed.

(** One request was accepted and numbered [seq], or none. *)
Definition one_request request request_length (seq : Z) l : Prop :=
  exists bytes, carries request request_length bytes /\ seq <> 0 /\
    requests l = [(Slot 0 request_length bytes, seq)].

Lemma receive_own s s' ret m :
  receive_from_kernel_locked 0 s = Some ((ret, m), s') ->
  exists l, accounts l s s' /\ requests l = [] /\ forall x, m = Some x -> x ∈ receipts l.
Proof using Type.
  unfold receive_from_kernel_locked. intros E. step_inv E. injection Step as <- <-.
  step_inv E. destruct (rtos s) as [h0|] eqn:Er; [|done]. injection Step as <- <-.
  step_inv E. unfold call, zoom in Step. cbn [ioctl_receive logged_linux] in Step.
  unfold logging in Step. destruct (ioctl_receive _ _ _) as [[t|e] o'] eqn:Es;
    injection Step as <- <-.
  - exists [Received (message t)].
    destruct (_ || _); injection E as _ <- <-; (split; [split; [done|by right]|]);
      (split; [done|]); intros x [= <-]. cbn. set_solver.
  - injection E as _ <- <-. exists []. split; [split; [done|by right]|done].
Qed.

(** Retaining a message received on the way. *)
Lemma accounts_retain l s s1 m r s' :
  accounts l s s1 -> m ∈ receipts l -> retain_pending fuel m s1 = Some (r, s') ->
  accounts l s s'.
Proof using Type.
  intros [E1 R1] Hm Hr. apply retain_moves in Hr as [E2 R2].
  split; [by rewrite E2, E1, app_nil_r|].
  intros x Hx. apply R2 in Hx as [->%list_elem_of_singleton|Hx]; [by left|by apply R1].
Qed.

Lemma call_receive_own timeout_ms deadline seq n : forall remaining s s' m,
  call_receive fuel n timeout_ms deadline remaining seq s = Some ((0, m), s') ->
  exists l x, m = Some x /\ sequence x = seq /\ accounts l s s' /\ requests l = [] /\
    (x ∈ receipts l \/ x ∈ retained (rtos s)).
Proof using Type.
  induction n as [|n IH]; intros remaining s s' m; [done|].
  cbn [call_receive]. intros E. step_to E p1 s1 F1. destruct p1 as [pending_result m1].
  apply take_sequence_own in F1 as [A1 Htaken].
  destruct (pending_result <? 0) eqn:En; [injection E as ? _ _; lia|].
  destruct (0 <? pending_result) eqn:Ep.
  { injection E as <- <-. destruct Htaken as (x & -> & Hx & Hin); [lia|].
    exists [], x. split_and!; auto. }
  step_to E p2 s2 F2. destruct p2 as [ret m2]. apply receive_own in F2 as (l & A2 & R2 & Hm).
  pose proof (accounts_after _ _ _ _ A1 A2) as A.
  assert (Hgo : forall s7 remaining1,
    accounts l s s7 ->
    call_receive fuel n timeout_ms deadline remaining1 seq s7 = Some ((0, m), s') ->
    exists l x, m = Some x /\ sequence x = seq /\ accounts l s s' /\ requests l = [] /\
      (x ∈ receipts l \/ x ∈ retained (rtos s))).
  { intros s7 remaining1 A7 E7. apply IH in E7 as (l' & x & -> & Hx & A' & R' & Hin).
    exists (l ++ l'), x. split_and!; [done|done|by eapply accounts_trans| |].
    - unfold requests in *. by rewrite omap_app, R2, R'.
    - unfold receipts. rewrite omap_app, elem_of_app.
      destruct Hin as [?|Hin]; [auto|]. destruct (proj2 A7 x Hin); auto. }
  destruct (transient ret).
  { step_to E p3 s3 F3. destruct p3 as [ret3 rem3]. apply silent_wait in F3.
    destruct (ret3 =? 0) eqn:E3; cbn [negb] in E; [|injection E as ? _ _; lia].
    eapply Hgo; [|exact E]. by eapply accounts_before. }
  destruct (ret =? 0) eqn:E0; cbn [negb] in E; [|injection E as ? _ _; lia].
  step_inv E. destruct m2 as [x|]; [|done]. injection Step as <- <-.
  specialize (Hm x eq_refl). destruct (sequence x =? seq) eqn:Es.
  { injection E as <- <-. exists l, x. split_and!; auto. lia. }
  step_to E r4 s4 F4. apply (accounts_retain l s) in F4; [|done|done].
  destruct (r4 =? 0) eqn:Ez; cbn [negb] in E; [|injection E as ? _ _; lia].
  destruct (deadline =? 0); cbn [negb] in E; [eapply Hgo; [exact F4|exact E]|].
  step_to E now s5 F5. apply silent_clock in F5. destruct (deadline <=? now); [done|].
  eapply Hgo; [|exact E]. exact (accounts_before _ _ _ _ F4 F5).
Qed.

Context (send_errno : forall d t (o : L) e, (ioctl_send d t o).1 = Err e -> 0 < e).

Lemma send_locked_own request request_length old s s' ret seq :
  message_send_locked request request_length 0 old s = Some ((ret, seq), s') ->
  exists l, accounts l s s' /\
    ((ret = 0 /\ exists n, seq = Some n /\ one_request request request_length n l) \/
     (ret <> 0 /\ (transient ret = true -> requests l = []))).
Proof using send_errno.
  unfold message_send_locked. destruct (_ || _).
  { intros [= <- _ <-]. exists []. split; [apply accounts_refl|by right]. }
  intros E. step_to E bytes s1 Step. apply request_bytes in Step as [-> Hb].
  step_inv E. injection Step as <- <-. step_inv E.
  destruct (rtos s) as [h0|]; [|done]. injection Step as <- <-.
  step_inv E. unfold call, zoom in Step. cbn [ioctl_send logged_linux] in Step.
  unfold logging in Step.
  match type of Step with context [ioctl_send ?d ?x ?o] =>
    pose proof (send_errno d x o) as He;
    destruct (ioctl_send d x o) as [[t|e] o'] eqn:Es end;
    injection Step as <- <-.
  - exists (sent_event (Transfer 0 (Slot 0 request_length bytes)) (Ok t)).
    destruct (sequence (message t) =? 0) eqn:E0; injection E as <- <- <-;
      (split; [split; [done|by right]|]).
    + right. done.
    + left. split; [done|]. eexists. split; [done|]. exists bytes. split_and!; [done|lia|done].
  - injection E as <- <- <-. exists []. split; [split; [done|by right]|]. right.
    specialize (He e eq_refl). split; [lia|done].
Qed.

Lemma one_request_later request request_length seq l1 l2 :
  requests l1 = [] -> one_request request request_length seq l2 ->
  one_request request request_length seq (l1 ++ l2).
Proof using Type.
  intros E1 (bytes & Hb & Hs & E2). exists bytes. split_and!; [done|done|].
  unfold requests in *. by rewrite omap_app, E1, E2.
Qed.

Lemma silent_lock k : silent (call (pthread_mutex_lock k)).
Proof using Type. apply silent_call. Qed.
Lemma silent_unlock k : silent (call (pthread_mutex_unlock k)).
Proof using Type. apply silent_call. Qed.

Lemma call_send_own request request_length timeout_ms deadline n :
  forall remaining seq s s' seq' remaining',
  call_send fuel n request request_length timeout_ms deadline remaining seq s =
    Some ((None, seq', remaining'), s') ->
  exists l, accounts l s s' /\ one_request request request_length seq' l.
Proof using send_errno.
  induction n as [|n IH]; intros remaining seq s s' seq' remaining'; [done|].
  cbn [call_send]. intros E. step_to E r1 s1 F1. apply silent_lock in F1.
  destruct (negb _); [done|]. step_to E r2 s2 F2. apply silent_lock in F2.
  destruct (negb _); [by step_inv E|].
  step_to E p3 s3 F3. destruct p3 as [ret seq1].
  apply send_locked_own in F3 as (l1 & A1 & Hsent).
  step_to E n3 s4 F4. apply silent_lift in F4 as Q4. step_to E u5 s5 F5.
  apply silent_unlock in F5.
  assert (A : accounts l1 s s5).
  { eapply accounts_after; [exact F1|]. eapply accounts_after; [exact F2|].
    eapply accounts_before; [|exact F5]. by eapply accounts_before. }
  clear F1 F2 A1 Q4 F5. destruct (ret =? 0) eqn:E0.
  { injection E as <- _ <-. exists l1. split; [done|].
    destruct Hsent as [(_ & k & -> & Hk)|[? _]]; [by injection F4 as <- _|lia]. }
  destruct (transient ret) eqn:Et; cbn [negb] in E; [|by step_inv E].
  assert (R1 : requests l1 = []).
  { destruct Hsent as [[-> _]|[_ Hr]]; [done|by apply Hr]. }
  step_to E p6 s6 F6. destruct p6 as [ret2 m].
  apply receive_own in F6 as (l2 & A2 & R2 & Hm).
  assert (R : requests (l1 ++ l2) = []).
  { unfold requests in *. by rewrite omap_app, R1, R2. }
  pose proof (accounts_trans _ _ _ _ _ A A2) as A12.
  assert (Hgo : forall s7 remaining1,
    accounts (l1 ++ l2) s s7 ->
    call_send fuel n request request_length timeout_ms deadline remaining1 n3 s7 =
      Some ((None, seq', remaining'), s') ->
    exists l, accounts l s s' /\ one_request request request_length seq' l).
  { intros s7 remaining1 A7 E7. apply IH in E7 as (l & Al & Hl).
    exists ((l1 ++ l2) ++ l). split; [by eapply accounts_trans|].
    by apply one_request_later. }
  destruct (ret2 =? 0).
  - step_inv E. destruct m as [x|]; [|done]. injection Step as <- <-.
    step_to E r7 s7 F7. apply (accounts_retain (l1 ++ l2) s) in F7; [|exact A12|].
    2: { unfold receipts. rewrite omap_app, elem_of_app. right. by apply Hm. }
    step_to E v8 s8 F8. apply silent_unlock in F8.
    destruct (negb _); [done|]. eapply Hgo; [|exact E].
    exact (accounts_before _ _ _ _ F7 F8).
  - destruct (transient ret2); cbn [negb] in E; [|by step_inv E].
    step_to E u7 s7 F7. apply silent_unlock in F7. step_to E p8 s8 F8.
    destruct p8 as [ret3 rem3]. apply silent_wait in F8.
    destruct (negb _); [done|]. eapply Hgo; [|exact E].
    eapply accounts_before; [|exact F8]. exact (accounts_before _ _ _ _ A12 F7).
Qed.

Lemma call_send_error request request_length timeout_ms deadline n :
  forall remaining seq s s' ret seq' remaining',
  call_send fuel n request request_length timeout_ms deadline remaining seq s =
    Some ((Some ret, seq', remaining'), s') -> ret <> 0.
Proof using Type.
  induction n as [|n IH]; intros remaining seq s s' ret seq' remaining'; [done|].
  cbn [call_send]. intros E. step_inv E. destruct (z =? 0) eqn:Ez; cbn [negb] in E;
    [|injection E as <- _ _ _; lia].
  step_inv E. destruct (z0 =? 0) eqn:Ez0; cbn [negb] in E;
    [|step_inv E; injection E as <- _ _ _; lia].
  step_inv E. destruct p as [r1 seq1]. step_inv E. step_inv E.
  destruct (r1 =? 0) eqn:E0; [done|].
  destruct (transient r1); cbn [negb] in E; [|step_inv E; injection E as <- _ _ _; lia].
  step_inv E. destruct p as [r2 m]. destruct (r2 =? 0) eqn:E2.
  - step_inv E. step_inv E. step_inv E. match type of E with context [negb (?x =? 0)] =>
      destruct (x =? 0) eqn:Ex end; cbn [negb] in E;
      [by eapply IH|injection E as <- _ _ _; lia].
  - destruct (transient r2); cbn [negb] in E; [|step_inv E; injection E as <- _ _ _; lia].
    step_inv E. step_inv E. destruct p as [r3 rem3].
    destruct (r3 =? 0) eqn:E3; cbn [negb] in E; [by eapply IH|injection E as <- _ _ _; lia].
Qed.

(** What a successful copy of [m] leaves in the caller's variables. *)
Definition copied (m : slot) (capacity : Z) (o o' : outputs) : Prop :=
  msg_length m <= capacity /\ out_length o' = Some (msg_length m) /\
  out_sequence o' = out_sequence o /\
  out_response o' =
    if 0 <? msg_length m
    then r ← out_response o; memcpy r 0 (payload m) 0 (Z.to_nat (msg_length m))
    else out_response o.

Lemma copy_message_ok m capacity o s s' o' :
  copy_message m capacity (Outputs (out_response o) (out_length o) None) s =
    Some ((0, o'), s') ->
  copied m capacity o
    (Outputs (out_response o') (out_length o') (out_sequence o)).
Proof using Type.
  unfold copy_message. cbn [out_response out_length out_sequence].
  destruct (capacity <? msg_length m) eqn:Ec; [done|]. intros E.
  unfold copied. cbn [out_response out_length out_sequence].
  destruct (0 <? msg_length m).
  - destruct (out_response o) as [r|]; [|done]. cbn [mbind option_bind].
    destruct (memcpy _ _ _ _ _) as [r'|]; [|done].
    injection E as <- _. split_and!; try done. lia.
  - injection E as <- _. split_and!; try done. lia.
Qed.

(** C8: whatever the system answers, in whatever order and at whatever time, a call
    that reports success has had exactly one request accepted, of the caller's bytes,
    and hands out, unchanged, a message that carries the number the kernel gave to that
    request, and that the kernel delivered during the call or that was retained before
    it: the response to another request is never returned in its place. The bytes
    handed out fit the caller's buffer. *)
Theorem call_response_is_own request request_length capacity o timeout_ms s s' o' :
  sg2002_rtos_message_call fuel request request_length capacity o timeout_ms s =
    Some ((0, o'), s') ->
  exists l bytes seq m,
    events (os s') = events (os s) ++ l /\
    carries request request_length bytes /\ seq <> 0 /\
    requests l = [(Slot 0 request_length bytes, seq)] /\
    sequence m = seq /\ (m ∈ receipts l \/ m ∈ retained (rtos s)) /\
    copied m capacity o o'.
Proof using send_errno.
  unfold sg2002_rtos_message_call. intros E. step_to E available s0 F0.
  apply silent_gets_available in F0. destruct (negb _); [done|]. destruct (_ || _); [done|].
  step_to E deadline s1 F1. apply silent_deadline in F1.
  step_to E p2 s2 F2. destruct p2 as [[[ret|] seq] remaining].
  { injection E as -> _ _. by apply call_send_error in F2. }
  apply call_send_own in F2 as (l1 & A2 & bytes & Hb & Hs & R1).
  step_to E p3 s3 F3. destruct p3 as [ret m].
  step_to E p4 s4 F4. destruct p4 as [ret' o2]. step_to E u5 s5 F5.
  apply silent_unlock in F5. injection E as -> -> <-.
  destruct (ret =? 0) eqn:Er; [|by injection F4 as -> _ _].
  assert (ret = 0) as -> by lia.
  apply call_receive_own in F3 as (l2 & x & -> & Hx & A3 & R2 & Hin).
  unfold mbind at 1, st_bind at 1, lift, mret at 1, st_ret in F4. cbn beta iota in F4.
  step_to F4 p6 s6 Ec. destruct p6 as [r3 o3]. injection F4 as -> <- ->.
  pose proof (silent_copy _ _ _ _ _ _ Ec) as A4. apply copy_message_ok in Ec.
  pose proof (accounts_after _ _ _ _ (accounts_after _ _ _ _ F0 F1) A2) as A.
  pose proof (accounts_trans _ _ _ _ _ A A3) as [E12 _].
  destruct A4 as [E4 _], F5 as [E5 _]. exists (l1 ++ l2), bytes, seq, x.
  split_and!; try done.
  - by rewrite E5, E4, E12, !app_nil_r.
  - unfold requests in *. by rewrite omap_app, R1, R2.
  - unfold receipts. rewrite omap_app, elem_of_app.
    destruct Hin as [?|Hin]; [auto|]. destruct (proj2 A x Hin); auto.
Qed.

End AnySystem.

Lemma sim_send_errno : forall d t (o : Sim.t) e, (ioctl_send d t o).1 = Err e -> 0 < e.
Proof.
  intros d t o e. cbn. unfold Sim.send. destruct (v_can_send _); [done|]. by intros [= <-].
Qed.

(** The PING of LinuxCall.v, with a response retained and two waiting, on the simulated
    system with an empty record. *)
Definition demo_logged : client (logged Sim.t) :=
  let s := demo_client [demo_slot 4 [9]] demo_others in
  Client (rtos s) (Logged (os s) []).

Lemma call_response_is_own_witness :
  let o' := Outputs (Some demo_answer) (Some 5) None in
  exists s',
    sg2002_rtos_message_call 9 (Some demo_ping) 5 5 demo_reply 60000 demo_logged =
      Some ((0, o'), s') /\
    exists l bytes seq m,
      events (os s') = events (os demo_logged) ++ l /\
      carries (Some demo_ping) 5 bytes /\ seq <> 0 /\
      requests l = [(Slot 0 5 bytes, seq)] /\
      sequence m = seq /\ (m ∈ receipts l \/ m ∈ retained (rtos demo_logged)) /\
      copied m 5 demo_reply o'.
Proof.
  intros o'.
  destruct (sg2002_rtos_message_call 9 (Some demo_ping) 5 5 demo_reply 60000 demo_logged)
    as [[[r o1] s']|] eqn:E; [|by vm_compute in E].
  assert (Hr : (r, o1) = (0, o')).
  { transitivity (default (0, o') (fst <$>
      sg2002_rtos_message_call 9 (Some demo_ping) 5 5 demo_reply 60000 demo_logged));
      [by rewrite E|by vm_compute]. }
  injection Hr as -> ->. exists s'. split; [done|].
  exact (call_response_is_own 9 sim_send_errno _ _ _ _ _ _ _ _ E).
Defined.
