(* ===== verification/LinuxOpen.v ===== *)
(** * Opening and closing a handle of the Linux client library

    Every path of [sg2002_rtos_open] either fails and gives back all it took, or
    succeeds with a handle that owns exactly its descriptors, its allocation and
    its mutexes; [sg2002_rtos_close] gives those back. *)

From S2P Require Import Prelude Shm LinuxOs LinuxSim LinuxRtos LinuxRtosSpec.
Local Open Scope Z_scope.

(** What the process owns once it also owns handle [h]. *)
Definition handle_resources (h : handle) (r : resources) : resources :=
  match private_data h with
  | None => set_fds ({[fd h]} ∪ r_fds r) r
  | Some p =>
      Resources ({[pending_fd p]} ∪ ({[fd h]} ∪ r_fds r)) (r_allocations r + 1) true true
  end.

(** A handle [sg2002_rtos_open] may return. *)
Definition owns (h : handle) (r : resources) : Prop :=
  0 <= fd h /\ (fd h ∉ r_fds r) /\
  match private_data h with
  | None => True
  | Some p => (pending_fd p ∉ r_fds r) /\ pending_fd p <> fd h
  end.

Lemma close_again (d : Z) (F : gset Z) : d ∉ F -> ({[d]} ∪ F) ∖ {[d]} = F.
Proof. set_solver. Qed.

Section Handles.
Context {L : Type} `{LinuxResources L}.
Implicit Types (s : client L) (h : handle).

Lemma call_eq {A} (f : L -> A * L) s :
  call f s = Some ((f (os s)).1, set_os (f (os s)).2 s).
Proof. unfold call, zoom. by destruct (f (os s)). Qed.

(** The outcome of [open] that leaves nothing behind. *)
Definition failed s (result : option (Z * client L)) : Prop :=
  exists ret s', result = Some (ret, s') /\ ret < 0 /\ rtos s' = rtos s /\
    owned (os s') = owned (os s).

(** The outcome that returns handle [h]. *)
Definition succeeded s (result : option (Z * client L)) : Prop :=
  exists s' h, result = Some (0, s') /\ rtos s' = Some h /\ owns h (owned (os s)) /\
    owned (os s') = handle_resources h (owned (os s)).

Definition outcome s (result : option (Z * client L)) : Prop :=
  failed s result \/ succeeded s result.

(** Closing the one descriptor opened so far. *)
Lemma failed_close s o d ret :
  owned o = set_fds ({[d]} ∪ r_fds (owned (os s))) (owned (os s)) ->
  d ∉ r_fds (owned (os s)) -> ret < 0 ->
  failed s ((call (os_close d);; mret ret) (set_os o s)).
Proof.
  intros Ho Hd Hret. unfold mbind, st_bind. rewrite call_eq.
  eexists ret, _. split_and!; [done|done|done|]. cbn [os set_os].
  rewrite owned_close, Ho. destruct (owned (os s)); cbn in *.
  by rewrite close_again.
Qed.

(** One system call of a sequence. *)
Ltac call_step := unfold mbind at 1, st_bind at 1; rewrite call_eq; cbn [os set_os].

(** The bookkeeping of what is owned. *)
Ltac owned_eq :=
  unfold add_allocations, set_fds, set_mutex in *; cbn [r_fds r_allocations r_tx r_rx] in *;
  rewrite ?close_again by done; f_equal; lia.

Lemma open_private_outcome s o d info F n :
  owned (os s) = Resources F n false false ->
  owned o = Resources ({[d]} ∪ F) n false false -> 0 <= d -> d ∉ F ->
  outcome s (open_private d info (set_os o s)).
Proof.
  intros Hs Ho Hd HF. unfold open_private. call_step.
  pose proof (owned_calloc o) as Hc.
  destruct (os_calloc o) as [[] o1]; cbn [fst snd negb] in *; cycle 1.
  { left. apply (failed_close s o1); rewrite ?Hc, ?Ho, ?Hs; done. }
  call_step. destruct (owned_init tx_lock o1) as [Ht Hto].
  destruct (pthread_mutex_init tx_lock o1) as [ret o2]; cbn [fst snd] in *.
  destruct (ret =? 0) eqn:Er; cbn [negb]; cycle 1.
  { left. call_step. apply (failed_close s (os_free o2).2); [|by rewrite Hs|lia].
    rewrite owned_free, Hto, Hc, Ho, Hs. owned_eq. }
  call_step. destruct (owned_init rx_lock o2) as [Hr Hro].
  destruct (pthread_mutex_init rx_lock o2) as [ret2 o3]; cbn [fst snd] in *.
  destruct (ret2 =? 0) eqn:Er2; cbn [negb]; cycle 1.
  { left. call_step. call_step.
    apply (failed_close s (os_free (pthread_mutex_destroy tx_lock o3).2).2);
      [|by rewrite Hs|lia].
    rewrite owned_free, owned_destroy, Hro, Hto, Hc, Ho, Hs. owned_eq. }
  call_step. pose proof (owned_eventfd o3) as He.
  destruct (os_eventfd o3) as [[e|e] o4]; cbn [fst snd opened] in *;
    rewrite Hro, Hto, Hc, Ho in He; destruct He as [He1 He2].
  - right. destruct He2 as [He2 Ho4]. cbn [set_mutex add_allocations r_fds] in He2.
    eexists _, _. split; [reflexivity|]. split; [reflexivity|]. cbn [os set_os set_rtos].
    apply not_elem_of_union in He2 as [He3 He2].
    split; [|rewrite Ho4, Hs; done]. unfold owns. cbn [fd private_data pending_fd].
    rewrite Hs. cbn [r_fds]. split_and!; [done|done|done|].
    intros ->. by apply He3, elem_of_singleton.
  - left. call_step. call_step. call_step.
    apply (failed_close s (os_free (pthread_mutex_destroy tx_lock
      (pthread_mutex_destroy rx_lock o4).2).2).2); [|by rewrite Hs|lia].
    rewrite owned_free, !owned_destroy, He2, Hs. owned_eq.
Qed.

Lemma open_outcome path s F n :
  owned (os s) = Resources F n false false ->
  outcome s (sg2002_rtos_open path s).
Proof.
  intros Hs. unfold sg2002_rtos_open. unfold mbind at 1, st_bind at 1. cbn [gets].
  assert (Hfail : forall ret o, ret < 0 -> owned o = owned (os s) ->
    failed s (Some (ret, set_os o s))) by (intros; by eexists _, _).
  assert (Hself : set_os (os s) s = s) by by destruct s.
  destruct (rtos s) as [h|] eqn:Er; [|left; rewrite <- Hself at 2; by apply Hfail].
  destruct (0 <=? fd h); [left; rewrite <- Hself at 2; by apply Hfail|].
  call_step. pose proof (owned_open (default SG2002_RTOS_DEVICE_PATH path) (os s)) as Ho.
  destruct (os_open _ (os s)) as [[d|e] o]; cbn [fst snd opened] in *; cycle 1.
  { left. destruct Ho as [? Ho]. apply (Hfail (- e) o); [lia|done]. }
  destruct Ho as (Hd & HF & Ho). rewrite Hs in Ho, HF. cbn [r_fds set_fds] in Ho, HF.
  call_step. destruct (owned_acquire d o) as [Ha Hae].
  destruct (ioctl_acquire d o) as [[info|e] o1]; cbn [fst snd] in *.
  - destruct (info_is_valid info); cbn [negb].
    + apply (open_private_outcome s o1 d info F n); [done| |done|done].
      by rewrite Ha, Ho.
    + left. apply (failed_close s o1); [|by rewrite Hs|done]. by rewrite Ha, Ho, Hs.
  - specialize (Hae e eq_refl). destruct (negb (acquire_fallback e)).
    + left. apply (failed_close s o1); [|by rewrite Hs|lia]. by rewrite Ha, Ho, Hs.
    + right. eexists _, _. split; [reflexivity|]. split; [reflexivity|]. cbn [os set_os set_rtos].
      split; [by rewrite Hs|]. by rewrite Ha, Ho, Hs.
Qed.

Lemma close_returns s h r :
  rtos s = Some h -> owns h r -> r_tx r = false -> r_rx r = false ->
  owned (os s) = handle_resources h r ->
  exists s', sg2002_rtos_close s = Some (tt, s') /\
    rtos s' = Some (Handle (-1) None) /\ owned (os s') = r.
Proof.
  intros Er (Hd & HF & Hp) Htx Hrx Ho. destruct r as [F n tx rx]. cbn in Htx, Hrx. subst.
  unfold sg2002_rtos_close. unfold mbind at 1, st_bind at 1. cbn [gets]. rewrite Er.
  replace (fd h <? 0) with false by lia. call_step.
  unfold handle_resources in Ho. destruct (private_data h) as [p|].
  - unfold mbind at 1, st_bind at 1. do 3 call_step. rewrite call_eq. cbn [os set_os].
    eexists. split_and!; [done|done|]. cbn [os set_os set_rtos modify].
    destruct Hp as [Hp Hne]. cbn [r_fds r_allocations] in *.
    rewrite owned_free, !owned_destroy, !owned_close, Ho.
    unfold add_allocations, set_fds, set_mutex. cbn. f_equal; [set_solver|lia].
  - eexists. split_and!; [done|done|]. cbn [os set_os set_rtos modify].
    rewrite owned_close, Ho. cbn in *. by rewrite close_again.
Qed.

(** C14: a handle leaks nothing. On every path, [sg2002_rtos_open] returns a result.
    A failure is negative, leaves the caller's handle as it was, and gives back
    every descriptor, allocation and mutex taken on the way. A success is 0 and
    leaves a handle owning its device descriptor and, with shared memory, its event
    descriptor, its allocation and its two mutexes, all distinct from what was
    there before; [sg2002_rtos_close] then gives back exactly these and marks the
    handle closed. *)
Theorem open_close_leaks_nothing path s :
  r_tx (owned (os s)) = false -> r_rx (owned (os s)) = false ->
  exists ret s', sg2002_rtos_open path s = Some (ret, s') /\
    (ret <> 0 -> ret < 0 /\ rtos s' = rtos s /\ owned (os s') = owned (os s)) /\
    (ret = 0 -> exists h, rtos s' = Some h /\ owns h (owned (os s)) /\
       owned (os s') = handle_resources h (owned (os s)) /\
       exists s'', sg2002_rtos_close s' = Some (tt, s'') /\
         rtos s'' = Some (Handle (-1) None) /\ owned (os s'') = owned (os s)).
Proof.
  intros Htx Hrx. destruct (owned (os s)) as [F n tx rx] eqn:Hs. cbn in Htx, Hrx. subst.
  destruct (open_outcome path s F n Hs) as [(ret & s' & E & Hret & Hr & Ho)|
    (s' & h & E & Hr & Hown & Ho)]; rewrite Hs in *.
  - exists ret, s'. split_and!; [done|done|lia].
  - exists 0, s'. split_and!; [done|done|]. intros _. exists h.
    split_and!; [done|done|done|]. by apply close_returns with h.
Qed.

End Handles.

(** ** A fresh handle is ready *)

Section Ready.
Context {L : Type} `{LinuxResources L, !LinuxLaws L}.
Implicit Types (s : client L) (h : handle).

Lemma call_inv {A} (f : L -> A * L) s r s1 :
  call f s = Some (r, s1) -> r = (f (os s)).1 /\ s1 = set_os (f (os s)).2 s.
Proof. rewrite call_eq. by intros [= <- <-]. Qed.

Lemma open_private_ready d info s s' :
  0 <= d -> open_private d info s = Some (0, s') ->
  exists p, rtos s' = Some (Handle d (Some p)) /\ holds s' p [] /\
    shared_memory_available (rtos s') = true /\
    exists e, view (os s') = set_events e (view (os s)).
Proof.
  intros Hd. unfold open_private. intros E.
  step_inv E. apply call_inv in Step as [-> ->].
  destruct (negb _); [by step_inv E|].
  step_inv E. apply call_inv in Step as [-> ->].
  match type of E with context [?x =? 0] => destruct (x =? 0) eqn:E1 end;
    cbn [negb] in E; cycle 1.
  { step_inv E. step_inv E. injection E as E _. cbn [os set_os] in *. lia. }
  step_inv E. apply call_inv in Step as [-> ->].
  match type of E with context [?x =? 0] => destruct (x =? 0) eqn:E2 end;
    cbn [negb] in E; cycle 1.
  { step_inv E. step_inv E. step_inv E. injection E as E _. cbn [os set_os] in *. lia. }
  step_inv E. apply call_inv in Step as [-> ->]. cbn [os set_os] in E.
  match type of E with context [os_eventfd ?o] =>
    pose proof (view_eventfd o) as V; pose proof (owned_eventfd o) as Ho;
    destruct (os_eventfd o) as [[e|e] o4] end; cbn [fst snd opened] in *.
  - injection E as <-. cbn [rtos os set_os set_rtos].
    rewrite !view_mutex_init, view_calloc in V.
    eexists. split; [reflexivity|]. split; [|split].
    + split; cbn [pending pending_count pending_fd]; try done.
      * by eexists.
      * cbn [os set_os set_rtos]. rewrite V. cbn. by rewrite lookup_insert_eq.
    + unfold shared_memory_available. cbn [fd private_data shared_memory_enabled].
      by replace (d <? 0) with false by lia.
    + rewrite V. by eexists.
  - do 4 step_inv E. injection E as E _. lia.
Qed.

(** Handle state [p] of [s'] is fresh: nothing is retained, and of what the library
    sees of the system [s] only the event counters have changed. *)
Definition fresh_handle s s' p : Prop :=
  readable s' p [] /\ exists e, view (os s') = set_events e (view (os s)).

(** A freshly opened handle with shared memory is ready for messages: it reports
    the channel available, retains nothing, its event descriptor counts nothing,
    and the responses waiting in the kernel are untouched. *)
Theorem open_ready path s s' p :
  sg2002_rtos_open path s = Some (0, s') -> private_of (rtos s') = Some p ->
  v_rx_held (view (os s)) = false -> fresh_handle s s' p.
Proof.
  unfold sg2002_rtos_open. intros E Hp Hrx. step_inv E. injection Step as <- <-.
  destruct (rtos s) as [h|]; [|done]. destruct (0 <=? fd h); [done|].
  step_inv E. apply call_inv in Step as [-> ->].
  pose proof (owned_open (default SG2002_RTOS_DEVICE_PATH path) (os s)) as Ho.
  pose proof (view_open (default SG2002_RTOS_DEVICE_PATH path) (os s)) as V.
  destruct (os_open _ (os s)) as [[d|e] o]; cbn [fst snd opened] in *;
    [|destruct Ho; injection E as E _; lia].
  destruct Ho as [Hd _]. step_inv E. apply call_inv in Step as [-> ->].
  cbn [os set_os] in E. pose proof (owned_acquire d o) as [_ Ha].
  pose proof (view_acquire d o) as V1.
  destruct (ioctl_acquire d o) as [[info|e] o1]; cbn [fst snd] in *.
  - destruct (negb _); [by step_inv E|].
    apply open_private_ready in E as (p' & Er & Hh & Hs & e & V2); [|done].
    rewrite Er in Hp. injection Hp as ->. cbn [os set_os] in V2. rewrite V1, V in V2.
    split; [|by exists e]. split; [done|done|]. rewrite V2. exact Hrx.
  - specialize (Ha e eq_refl). destruct (negb _); step_inv E.
    + injection E as E _. lia.
    + injection E as <-. injection Step as _ <-. by cbn in Hp.
Qed.

End Ready.

(** A closed handle on a system with memory for one allocation. *)
Definition demo_closed (memory : Z) : client Sim.t :=
  Client (Some (Handle (-1) None)) (Sim.booted SG2002_RTOS_SHM_FEATURES memory []).

Lemma open_close_leaks_nothing_witness :
  (fst <$> sg2002_rtos_open None (demo_closed 0)) = Some (- ENOMEM) /\
  (fst <$> sg2002_rtos_open None (demo_closed 1)) = Some 0 /\
  r_tx (owned (os (demo_closed 1))) = false /\ r_rx (owned (os (demo_closed 1))) = false /\
  exists ret s', sg2002_rtos_open None (demo_closed 1) = Some (ret, s') /\
    (ret <> 0 -> ret < 0 /\ rtos s' = rtos (demo_closed 1) /\
       owned (os s') = owned (os (demo_closed 1))) /\
    (ret = 0 -> exists h, rtos s' = Some h /\ owns h (owned (os (demo_closed 1))) /\
       owned (os s') = handle_resources h (owned (os (demo_closed 1))) /\
       exists s'', sg2002_rtos_close s' = Some (tt, s'') /\
         rtos s'' = Some (Handle (-1) None) /\
         owned (os s'') = owned (os (demo_closed 1))).
Proof.
  split_and!; [vm_compute; reflexivity|vm_compute; reflexivity|done|done|].
  exact (open_close_leaks_nothing None (demo_closed 1) eq_refl eq_refl).
Defined.

Lemma open_ready_witness :
  exists s' p, sg2002_rtos_open None (demo_closed 1) = Some (0, s') /\
    private_of (rtos s') = Some p /\
    v_rx_held (view (os (demo_closed 1))) = false /\
    fresh_handle (demo_closed 1) s' p.
Proof.
  destruct (sg2002_rtos_open None (demo_closed 1)) as [[r s']|] eqn:E;
    [|by vm_compute in E].
  assert (Hr : r = 0).
  { transitivity (default 0 (fst <$> sg2002_rtos_open None (demo_closed 1)));
      [by rewrite E|by vm_compute]. }
  subst r. destruct (private_of (rtos s')) as [p|] eqn:Ep.
  - exists s', p. split; [done|]. split; [done|]. split; [done|].
    exact (open_ready None (demo_closed 1) s' p E Ep eq_refl).
  - exfalso. assert (Hb : bool_decide (private_of (rtos s') = None) = false).
    { transitivity (default false ((fun '(_, s') => bool_decide (private_of (rtos s') = None))
        <$> sg2002_rtos_open None (demo_closed 1))); [by rewrite E|by vm_compute]. }
    by rewrite bool_decide_eq_true_2 in Hb.
Defined.
