(* ===== verification/LinuxBatch.v ===== *)
(** * Batches of the Linux client library

    [sg2002_rtos_message_reap_batch] serves the responses retained by synchronous
    calls before it asks the kernel. *)

From S2P Require Import Prelude Shm LinuxOs LinuxSim LinuxRtos LinuxTime LinuxRtosSpec.
Local Open Scope Z_scope.

Section Reaping.
Context {L : Type} `{LinuxLaws L}.
Context (fuel : nat) (fuel_positive : (0 < fuel)%nat).
Implicit Types (s : client L) (p : private) (q : list slot).

Lemma take_oldest_op s p q :
  holds s p q ->
  exists s' p', take_pending_oldest fuel s =
      Some ((match q with [] => (0, None) | m :: _ => (1, Some m) end), s') /\
    holds s' p' (tail q) /\ unrelated p p' (view (os s)) (view (os s')) /\
    (fd <$> rtos s') = (fd <$> rtos s).
Proof using fuel_positive H0.
  intros Hh. destruct (run_op_spec fuel fuel_positive TakeOldest s p q Hh)
    as (s' & p' & Hr). exists s', p'. by destruct q as [|m q]; cbn [spec_op run_op tail] in *.
Qed.

(** The first loop: [prefix] has been filled, [rest] is the caller's array after it. *)
Lemma reap_pending_spec k : forall (prefix rest : list slot) s p q,
  holds s p q -> (k <= length rest)%nat ->
  exists s' p',
    reap_pending fuel (seq (length prefix) k) (prefix ++ rest) (Z.of_nat (length prefix)) s =
      Some ((0, prefix ++ take k q ++ drop (length (take k q)) rest,
             Z.of_nat (length prefix + length (take k q))), s') /\
    holds s' p' (drop k q) /\ unrelated p p' (view (os s)) (view (os s')) /\
    (fd <$> rtos s') = (fd <$> rtos s).
Proof using fuel_positive H0.
  induction k as [|k IH]; intros prefix rest s p q Hh Hk; cbn [seq reap_pending].
  { exists s, p. rewrite take_0, drop_0. cbn [length app]. rewrite drop_0, Nat.add_0_r.
    split_and!; [done|done|apply unrelated_refl|done]. }
  destruct (take_oldest_op s p q Hh) as (s1 & p1 & E & Hh1 & Hu1 & Hf1).
  unfold mbind, st_bind. rewrite E. destruct q as [|m q]; cbn [tail] in Hh1.
  - cbn. exists s1, p1. rewrite Nat.add_0_r, drop_0. by split_and!.
  - destruct rest as [|x rest]; [cbn [length] in Hk; lia|]. cbn beta iota.
    unfold store_message. rewrite array_store_prefix. unfold lift, mret, st_ret.
    cbn beta iota. change (1 <? 0) with false. change (1 =? 0) with false. cbn beta iota.
    cbn [length] in Hk. destruct (IH (prefix ++ [m]) rest s1 p1 q Hh1 ltac:(lia))
      as (s2 & p2 & E2 & Hh2 & Hu2 & Hf2).
    rewrite length_app in E2. cbn [length] in E2.
    replace (length prefix + 1)%nat with (S (length prefix)) in E2 by lia.
    replace (Z.of_nat (length prefix) + 1) with (Z.of_nat (S (length prefix))) by lia.
    exists s2, p2. rewrite E2. cbn [take drop length]. rewrite <- app_assoc.
    split_and!; [|done|by eapply unrelated_trans|by rewrite Hf2].
    do 3 f_equal. lia.
Qed.

(** The caller's array with the oldest [k] messages of [q] in front. *)
Definition reaped (k : nat) (q messages : list slot) : list slot :=
  take k q ++ drop (length (take k q)) messages.

(** C34: a batch is served from the retained responses first. With [q] retained and
    not empty, [sg2002_rtos_message_reap_batch] of [count] messages returns 0 at
    once, whatever the timeout, with the oldest [min count |q|] of them in order at
    the front of the caller's array, the rest of the array unchanged, and that
    number in [*completed]; exactly those are no longer retained, the responses in
    the kernel stay there, and the lock is free. *)
Theorem reap_batch_retained_first messages count c timeout_ms s p q :
  readable s p q -> q <> [] -> 1 <= count <= SG2002_RTOS_SHM_SLOT_COUNT ->
  count <= Z.of_nat (length messages) -> 0 <= timeout_ms <= UINT32_MAX ->
  let k := Z.to_nat count in
  exists s' p',
    sg2002_rtos_message_reap_batch fuel (Some messages) count (Some c) timeout_ms s =
      Some ((0, Some (reaped k q messages),
             Some (Z.of_nat (length (take k q)))), s') /\
    readable s' p' (drop k q) /\
    v_responses (view (os s')) = v_responses (view (os s)) /\
    v_in_flight (view (os s')) = v_in_flight (view (os s)).
Proof using fuel_positive H0.
  intros Hr Hq Hc Hm Ht k. pose proof Hr as [Hh Ha Hl].
  destruct (timeout_deadline_spec s timeout_ms Ht) as (d & o1 & c1 & Ed & Hc1 & V1 & _).
  assert (Hh1 : holds (set_os o1 s) p q).
  { apply holds_waited; [done|]. rewrite V1. by apply waited_clock. }
  destruct (lock_step rx_lock (set_os o1 s) p q Hh1) as (o2 & E2 & V2 & Hh2).
  { cbn [os set_os]. by rewrite V1. }
  destruct (reap_pending_spec k [] messages (set_os o2 (set_os o1 s)) p q Hh2 ltac:(lia))
    as (s3 & p3 & E3 & Hh3 & [Hu [e V3]] & Hf3). cbn [length app Nat.add] in E3.
  destruct (unlock_step rx_lock s3 p3 _ Hh3) as (o4 & E4 & V4 & Hh4).
  exists (set_os o4 s3), p3. cbn [os set_os] in *. split.
  - unfold sg2002_rtos_message_reap_batch, has_channel.
    unfold mbind at 1, st_bind at 1. rewrite Ed. unfold mbind, st_bind, gets, mret, st_ret.
    cbn [rtos set_os fmap option_fmap option_map]. rewrite Ha. cbn [negb].
    replace ((count =? 0) || _) with false by lia.
    destruct fuel as [|n] eqn:En; [lia|]. cbn [batch_loop].
    unfold mbind, st_bind. rewrite E2. change (negb (0 =? 0)) with false. cbn beta iota.
    unfold reap_batch_locked, mbind, st_bind. fold k. change (seq 0 k) with (seq 0 k).
    change (Z.of_nat 0) with 0 in E3. rewrite E3. change (0 <? 0) with false. cbn beta iota.
    replace (0 <? Z.of_nat (length (take k q))) with true; cycle 1.
    { rewrite length_take. destruct q; [done|]. cbn [length]. lia. }
    unfold mret, st_ret. rewrite E4. done.
  - injection Hu as Hfd Hen _ _ _. rewrite V4. split_and!; [split; [exact Hh4| |]| |].
    + cbn [rtos set_os]. rewrite (available_fd s s3 p p3 q _ Hh Hh3 Hf3 Hen). exact Ha.
    + cbn [os set_os]. by rewrite V4.
    + cbn. rewrite V3, V2, V1. done.
    + cbn. rewrite V3, V2, V1. done.
Qed.

End Reaping.

Lemma reap_batch_retained_first_witness :
  let q := [demo_slot 5 [1]; demo_slot 6 [2]; demo_slot 7 [3]] in
  let s := demo_client q [demo_slot 8 [4]] in
  let messages := replicate 2 zero_slot in
  (0 < 5)%nat /\ readable s (demo_private q) q /\ q <> [] /\
  1 <= 2 <= SG2002_RTOS_SHM_SLOT_COUNT /\ 2 <= Z.of_nat (length messages) /\
  exists s' p',
    sg2002_rtos_message_reap_batch 5 (Some messages) 2 (Some 0) 0 s =
      Some ((0, Some [demo_slot 5 [1]; demo_slot 6 [2]], Some 2), s') /\
    readable s' p' [demo_slot 7 [3]] /\
    v_responses (view (os s')) = v_responses (view (os s)) /\
    v_in_flight (view (os s')) = v_in_flight (view (os s)).
Proof.
  intros q s messages.
  assert (Hr : readable s (demo_private q) q) by (apply demo_readable; cbn; lia).
  split_and!; [lia|exact Hr|done|lia|done|cbn; lia|].
  exact (reap_batch_retained_first 5 ltac:(lia) messages 2 0 0 s _ q Hr ltac:(done)
           ltac:(unfold SG2002_RTOS_SHM_SLOT_COUNT; lia) ltac:(cbn; lia)
           ltac:(unfold UINT32_MAX; lia)).
Defined.
