(* ===== verification/LinuxRemote.v ===== *)
(** * Commands from the Linux client to the firmware's handlers

    The 32-bit calls of the client library, over the command queue and over shared
    memory, against the application handlers of App.v: what a caller of the library
    on Linux gets, and what happens on the device the firmware drives. *)

From S2P Require Import Prelude Protocol Shm Gpio App ShmTransport Cmdqu.
From S2P Require Import LinuxOs LinuxSim LinuxRtos LinuxTime LinuxRtosSpec LinuxCall.
Local Open Scope Z_scope.

(** The kernel's SEND_WAIT and the firmware behind it, for a SYSTEM command that the
    application handles. A call that succeeds brings the handler's answer, in the reply
    Linux expects (CommMain.v shows the firmware's half); one that fails, because of a
    signal, a lack of memory, a command in the way or a reply that comes too late, has
    executed the command or not. [device] is what the firmware drives; [reply_after]
    how many milliseconds the reply to a command sent now takes, when it can be sent
    and will be answered. A reply within [mstime] is in time; an [mstime] of 65535 is
    without limit. *)
Class RemoteFirmware (O W : Type) `{Linux O} `{Mmio W} := {
  device : O -> W;
  reply_after : O -> option Z;
  send_wait_executed d c v w o :
    ip_id c = ip_value IP_SYSTEM ->
    sg2002_rtos_app_handle (cmd_id c) (Some (param_ptr c)) (device o) =
      (APP_HANDLED, Some v, w) ->
    match (ioctl_send_wait d c o).1 with
    | Ok reply =>
        (exists b, reply = Cmdqu (ip_id c) (cmd_id c) b (Valid 0 1) v) /\
        device (ioctl_send_wait d c o).2 = w
    | Err e =>
        0 < e /\ (device (ioctl_send_wait d c o).2 = device o \/
                  device (ioctl_send_wait d c o).2 = w)
    end;
  send_wait_in_time d c v w o t :
    ip_id c = ip_value IP_SYSTEM ->
    sg2002_rtos_app_handle (cmd_id c) (Some (param_ptr c)) (device o) =
      (APP_HANDLED, Some v, w) ->
    reply_after o = Some t -> mstime c = 65535 \/ t < mstime c ->
    exists reply, (ioctl_send_wait d c o).1 = Ok reply;
}.

(** A firmware that answers each command before the library's default timeout. *)
Class PromptFirmware (O W : Type) `{RemoteFirmware O W} :=
  replies_promptly o : exists t, reply_after (W := W) o = Some t /\ t < SG2002_RTOS_DEFAULT_TIMEOUT_MS.

(** An open handle without shared memory. *)
Definition mailbox_handle {L} (s : client L) : Prop :=
  exists h, rtos s = Some h /\ 0 <= fd h /\ private_data h = None.

Section Mailbox.
Context {L : Type} `{Linux L}.
Context (fuel : nat).
Implicit Types (s : client L).

(** The word a 32-bit call hands to SEND_WAIT. *)
Definition mailbox_request (command request timeout_ms : Z) : cmdqu_t :=
  Cmdqu (ip_value IP_SYSTEM) command 1 (Valid (timeout_ms mod 256) (timeout_ms / 256)) request.

(** What the call makes of the kernel's answer. *)
Definition mailbox_result (command old : Z) (answer : sys cmdqu_t) : Z * option Z :=
  match answer with
  | Err e => (- e, Some old)
  | Ok reply =>
      if decide (ip_id reply = ip_value IP_SYSTEM /\ cmd_id reply = command /\
                 resv reply = Valid 0 1)
      then (0, Some (param_ptr reply)) else (- EPROTO, Some old)
  end.

Definition command_in_range (command timeout_ms : Z) : Prop :=
  0 < timeout_ms /\ SG2002_RTOS_CMD_FIRST <= command <= SG2002_RTOS_CMD_LAST.

#[export] Instance command_in_range_dec command timeout_ms :
  Decision (command_in_range command timeout_ms).
Proof. unfold command_in_range. apply _. Defined.

(** What [sg2002_rtos_call] does over the command queue, on any kernel. *)
Lemma call_over_mailbox command request timeout_ms old d s :
  mailbox_handle s -> fd <$> rtos s = Some d -> command_in_range command timeout_ms ->
  let answer := ioctl_send_wait d (mailbox_request command request timeout_ms) (os s) in
  sg2002_rtos_call fuel command request timeout_ms (Some old) s =
    Some (mailbox_result command old answer.1, set_os answer.2 s).
Proof.
  intros (h & Er & Hd & Hp) Ed [Ht Hc] answer. unfold sg2002_rtos_call.
  rewrite Er in Ed. injection Ed as <-.
  unfold mbind at 1, st_bind at 1. cbn [gets]. rewrite Er.
  replace (fd h <? 0) with false by lia. replace (timeout_ms =? 0) with false by lia.
  cbn [orb]. replace ((command <? _) || _) with false by lia.
  assert (Hn : shared_memory_available (Some h) = false).
  { cbn. rewrite Hp. by destruct (fd h <? 0). }
  rewrite Hn.
  assert (Hm : command mod 2 ^ 7 = command).
  { unfold SG2002_RTOS_CMD_FIRST, SG2002_RTOS_CMD_LAST in Hc. lia. }
  rewrite Hm. unfold mbind, st_bind, call, zoom. cbn beta iota. subst answer.
  unfold mailbox_request. destruct (ioctl_send_wait _ _ _) as [[c|e] o']; cbn [fst snd];
    [|done].
  unfold mailbox_result. destruct c as [ip cmd b [lv rv] v].
  cbn [ip_id cmd_id resv linux_valid rtos_valid param_ptr]. case_decide as Hd'.
  - destruct Hd' as (-> & -> & [= -> ->]). by rewrite !Z.eqb_refl.
  - destruct (ip =? _) eqn:E1; [|done]. destruct (cmd =? _) eqn:E2; [|done].
    destruct (lv =? 0) eqn:E3; [|done]. destruct (rv =? 1) eqn:E4; [|done].
    exfalso. apply Hd'. split_and!; [lia|lia|f_equal; lia].
Qed.

(** C24: a 32-bit call over the command queue. On an open handle without shared memory,
    for every command 0x60 to 0x7e, any argument and any non-zero timeout, the word
    handed to the kernel is exactly that command, with the timeout as its [mstime], and
    on any kernel the call returns what [mailbox_result] says of its answer: the value
    of a reply that is one to this command, -EPROTO for any other reply, the negative
    error otherwise, the result variable then unchanged. With the firmware behind the
    kernel, a reply that comes within the timeout (or at all, with 65535) is returned:
    0 and exactly what [sg2002_rtos_app_handle] answers, the device changed exactly as
    the handler changes it; a call that fails has executed the command or left the
    device as it was. A command outside the range, a zero timeout or a missing result
    variable is -EINVAL and nothing is sent. *)
Theorem call_reaches_firmware command request timeout_ms response s :
  mailbox_handle s -> in_range 16 timeout_ms ->
  match response with
  | Some old =>
      if bool_decide (command_in_range command timeout_ms)
      then exists d,
        fd <$> rtos s = Some d /\
        let sent := mailbox_request command request timeout_ms in
        let answer := ioctl_send_wait d sent (os s) in
        let result := mailbox_result command old answer.1 in
        mstime sent = timeout_ms /\
        sg2002_rtos_call fuel command request timeout_ms response s =
          Some (result, set_os answer.2 s) /\
        forall (W : Type) (MW : Mmio W) (FW : RemoteFirmware L W), exists v (w : W),
          sg2002_rtos_app_handle command (Some request) (device (os s)) =
            (APP_HANDLED, Some v, w) /\
          (result = (0, Some v) /\ device answer.2 = w \/
           result.1 < 0 /\ result.2 = Some old /\
             (device answer.2 = device (os s) \/ device answer.2 = w)) /\
          (forall t, reply_after (W := W) (os s) = Some t -> timeout_ms = 65535 \/ t < timeout_ms ->
             result = (0, Some v))
      else
        sg2002_rtos_call fuel command request timeout_ms response s =
          Some ((- EINVAL, response), s)
  | None =>
      sg2002_rtos_call fuel command request timeout_ms response s =
        Some ((- EINVAL, response), s)
  end.
Proof.
  intros Hm Ht. destruct response as [old|]; cycle 1.
  { unfold sg2002_rtos_call. unfold mbind at 1, st_bind at 1. cbn [gets].
    by destruct (rtos s). }
  pose proof Hm as (h & Er & Hd & _). case_bool_decide as Hr.
  - exists (fd h). split; [by rewrite Er|]. cbv zeta.
    assert (Hms : mstime (mailbox_request command request timeout_ms) = timeout_ms).
    { unfold mstime; cbn. lia. }
    split; [exact Hms|].
    split; [apply call_over_mailbox; [exact Hm|by rewrite Er|exact Hr]|].
    intros W HM HR. destruct (app_handle_in_range command request (device (os s)) (proj2 Hr))
      as (v & w & Ha). exists v, w. split; [done|].
    set (sent := mailbox_request command request timeout_ms) in *.
    pose proof (send_wait_executed (fd h) sent v w (os s) eq_refl Ha) as He.
    assert (Hok : forall reply, (ioctl_send_wait (fd h) sent (os s)).1 = Ok reply ->
      mailbox_result command old (Ok reply) = (0, Some v)).
    { intros reply E. rewrite E in He. destruct He as ((b & ->) & _).
      unfold mailbox_result. by rewrite decide_True. }
    split.
    + destruct (ioctl_send_wait (fd h) sent (os s)).1 as [reply|e].
      * left. split; [by apply Hok|]. apply He.
      * right. cbn. destruct He as [He Hw]. split_and!; [lia|done|exact Hw].
    + intros t Hrt Hlt. rewrite <- Hms in Hlt.
      destruct (send_wait_in_time (fd h) sent v w (os s) t eq_refl Ha Hrt Hlt) as [reply E].
      rewrite E. by apply Hok.
  - unfold command_in_range in Hr. unfold sg2002_rtos_call, in_range in *.
    unfold mbind at 1, st_bind at 1. cbn [gets]. rewrite Er.
    replace (fd h <? 0) with false by lia.
    destruct (timeout_ms =? 0) eqn:E0; [done|]. cbn [orb].
    by replace ((command <? _) || _) with true by lia.
Qed.

End Mailbox.

Section Remote.
Context {L W : Type} `{PromptFirmware L W}.
Context (fuel : nat).
Implicit Types (s : client L).

(** With a prompt firmware, the calls with the default timeout are answered. *)
Lemma call_answered command request old v w s :
  mailbox_handle s -> SG2002_RTOS_CMD_FIRST <= command <= SG2002_RTOS_CMD_LAST ->
  sg2002_rtos_app_handle command (Some request) (device (os s)) =
    (APP_HANDLED, Some v, w) ->
  exists o, sg2002_rtos_call fuel command request SG2002_RTOS_DEFAULT_TIMEOUT_MS (Some old) s =
      Some ((0, Some v), set_os o s) /\ device o = w.
Proof.
  intros Hm Hc Ha. pose proof Hm as (h & Er & Hd & _).
  set (sent := mailbox_request command request SG2002_RTOS_DEFAULT_TIMEOUT_MS).
  exists (ioctl_send_wait (fd h) sent (os s)).2.
  rewrite (call_over_mailbox fuel command request _ old (fd h)) by (done || by rewrite Er).
  destruct (replies_promptly (os s)) as (t & Et & Hlt).
  pose proof (send_wait_executed (fd h) sent v w (os s) eq_refl Ha) as He.
  destruct (send_wait_in_time (fd h) sent v w (os s) t eq_refl Ha Et (or_intror Hlt))
    as [reply E].
  fold sent. rewrite E in He |- *. destruct He as ((b & ->) & Hw). split; [|exact Hw].
  unfold mailbox_result. by rewrite decide_True.
Qed.

(** The GPIO commands as the handler executes them. *)
Lemma handle_gpio_set pin level (w : W) :
  is_u16 pin -> in_range 1 level ->
  sg2002_rtos_app_handle (command_value SG2002_RTOS_CMD_GPIO_SET)
    (Some (SG2002_RTOS_GPIO_ENCODE pin level)) w =
  if gpio_is_valid pin
  then (APP_HANDLED, Some level, gpio_direction_output pin level w)
  else (APP_HANDLED, Some SG2002_RTOS_RESPONSE_INVALID_ARGUMENT, w).
Proof.
  intros Hp Hl. destruct (gpio_word_fields pin level Hp Hl) as [Epin Elevel].
  unfold sg2002_rtos_app_handle.
  change (command_of _) with (Some SG2002_RTOS_CMD_GPIO_SET). cbv iota beta zeta.
  rewrite Epin, Elevel. destruct (gpio_is_valid pin); cbn [negb]; [|done].
  word_unfold. by assert (level = 0 \/ level = 1) as [-> | ->] by lia.
Qed.

Lemma handle_gpio_get pin (w : W) :
  is_u16 pin ->
  sg2002_rtos_app_handle (command_value SG2002_RTOS_CMD_GPIO_GET)
    (Some (SG2002_RTOS_GPIO_ENCODE pin 0)) w =
  if gpio_is_valid pin
  then (APP_HANDLED, Some (gpio_get_value pin w).1, (gpio_get_value pin w).2)
  else (APP_HANDLED, Some SG2002_RTOS_RESPONSE_INVALID_ARGUMENT, w).
Proof.
  intros Hp. destruct (gpio_word_fields pin 0 Hp ltac:(done)) as [Epin _].
  unfold sg2002_rtos_app_handle.
  change (command_of _) with (Some SG2002_RTOS_CMD_GPIO_GET). cbv iota beta zeta.
  rewrite Epin. destruct (gpio_is_valid pin) eqn:Ev; cbn [negb]; [|done].
  unfold gpio_get_value. rewrite Ev. cbn [negb].
  destruct (mmio_read_32 _ _) as [level w']. cbn [fst snd]. by destruct (negb _).
Qed.

Lemma gpio_level_bit pin (w : W) :
  (gpio_get_value pin w).1 = 0 \/ (gpio_get_value pin w).1 = 1.
Proof.
  unfold gpio_get_value. destruct (negb (gpio_is_valid pin)); [by left|].
  destruct (mmio_read_32 _ _) as [level w']. cbn. destruct (negb _); auto.
Qed.

(** The operations of the library over the command queue. *)
Lemma operations_over_mailbox pin level word old s :
  mailbox_handle s -> is_u16 pin ->
  let w := device (os s) in
  (in_range 1 level -> exists o,
     sg2002_rtos_gpio_set fuel pin level s =
       Some (if gpio_is_valid pin then 0 else - EINVAL, set_os o s) /\
     device o = if gpio_is_valid pin then gpio_direction_output pin level w else w) /\
  (level <> 0 -> level <> 1 ->
     sg2002_rtos_gpio_set fuel pin level s = Some (- EINVAL, s)) /\
  (exists o,
     sg2002_rtos_gpio_get fuel pin (Some old) s =
       Some (if gpio_is_valid pin then (0, Some (gpio_get_value pin w).1)
             else (- EINVAL, Some old), set_os o s) /\
     device o = if gpio_is_valid pin then (gpio_get_value pin w).2 else w) /\
  (exists o,
     sg2002_rtos_get_info fuel (Some old) s =
       Some ((0, Some SG2002_RTOS_INFO_VALUE), set_os o s) /\ device o = w) /\
  (exists o,
     sg2002_rtos_ping fuel word (Some old) s =
       Some ((0, Some (Z.lxor word SG2002_RTOS_PING_XOR)), set_os o s) /\ device o = w).
Proof.
  intros Hm Hp w.
  assert (Hcall : forall command request v w',
    SG2002_RTOS_CMD_FIRST <= command <= SG2002_RTOS_CMD_LAST ->
    sg2002_rtos_app_handle command (Some request) w = (APP_HANDLED, Some v, w') ->
    forall old, exists o, sg2002_rtos_call fuel command request
        SG2002_RTOS_DEFAULT_TIMEOUT_MS (Some old) s = Some ((0, Some v), set_os o s) /\
      device o = w').
  { intros command request v w' Hc Ha old'. by apply call_answered. }
  split_and!.
  - intros Hl. pose proof (handle_gpio_set pin level w Hp Hl) as Ha.
    unfold sg2002_rtos_gpio_set. word_unfold.
    replace (negb (level =? 0) && negb (level =? 1)) with false by lia.
    unfold mbind, st_bind. destruct (gpio_is_valid pin);
      destruct (Hcall (command_value SG2002_RTOS_CMD_GPIO_SET) _ _ _ ltac:(done) Ha 0) as (o & E & Ho); rewrite E; exists o;
      (split; [|exact Ho]); [|done].
    cbn. by assert (level = 0 \/ level = 1) as [-> | ->] by lia.
  - intros H0' H1'. unfold sg2002_rtos_gpio_set.
    by replace (negb (level =? 0) && negb (level =? 1)) with true by lia.
  - pose proof (handle_gpio_get pin w Hp) as Ha. unfold sg2002_rtos_gpio_get.
    unfold mbind, st_bind. destruct (gpio_is_valid pin);
      destruct (Hcall (command_value SG2002_RTOS_CMD_GPIO_GET) _ _ _ ltac:(done) Ha 0) as (o & E & Ho); rewrite E; exists o;
      (split; [|exact Ho]); [|done].
    cbn. destruct (gpio_level_bit pin w) as [-> | ->]; done.
  - destruct (Hcall (command_value SG2002_RTOS_CMD_GET_INFO) 0 SG2002_RTOS_INFO_VALUE w
      ltac:(done) eq_refl 0) as (o & E & Ho).
    exists o. split; [|done]. unfold sg2002_rtos_get_info, mbind, st_bind. by rewrite E.
  - apply (Hcall (command_value SG2002_RTOS_CMD_PING)); done.
Qed.

(** C13: the operations of the library mean what they say. With a firmware that answers
    within the default timeout, on an open handle without shared memory and for any
    16-bit pin: [sg2002_rtos_gpio_set] with 0 or 1 drives
    exactly that pin to that level and returns 0, or returns -EINVAL without
    touching the device when the pin is no line of a bank; [sg2002_rtos_gpio_get]
    returns the level the driver reads, or -EINVAL; [sg2002_rtos_get_info] returns
    the firmware's capability word, which is valid; [sg2002_rtos_ping] returns the
    word xor 0x5a5aa5a5. A level other than 0 and 1 is -EINVAL and nothing is
    sent. *)
Theorem client_operations pin level word old s :
  mailbox_handle s -> is_u16 pin ->
  let w := device (os s) in
  (in_range 1 level -> exists o,
     sg2002_rtos_gpio_set fuel pin level s =
       Some (if gpio_is_valid pin then 0 else - EINVAL, set_os o s) /\
     device o = if gpio_is_valid pin then gpio_direction_output pin level w else w) /\
  (level <> 0 -> level <> 1 ->
     sg2002_rtos_gpio_set fuel pin level s = Some (- EINVAL, s)) /\
  (exists o,
     sg2002_rtos_gpio_get fuel pin (Some old) s =
       Some (if gpio_is_valid pin then (0, Some (gpio_get_value pin w).1)
             else (- EINVAL, Some old), set_os o s) /\
     device o = if gpio_is_valid pin then (gpio_get_value pin w).2 else w) /\
  (exists o,
     sg2002_rtos_get_info fuel (Some old) s =
       Some ((0, Some SG2002_RTOS_INFO_VALUE), set_os o s) /\ device o = w) /\
  (exists o,
     sg2002_rtos_ping fuel word (Some old) s =
       Some ((0, Some (Z.lxor word SG2002_RTOS_PING_XOR)), set_os o s) /\ device o = w).
Proof. apply operations_over_mailbox. Qed.

End Remote.

(** ** Over shared memory *)

Section SharedMemoryCall.
Context {L W : Type} `{LinuxLaws L} `{Mmio W}.
Context (fuel : nat) (fuel_positive : (2 < fuel)%nat).
Implicit Types (s : client L).

(** The five bytes of a value message are what the handler reads and answers. *)
Lemma spec_reply_value command request (w : W) :
  SG2002_RTOS_CMD_FIRST <= command <= SG2002_RTOS_CMD_LAST -> is_u32 request ->
  exists v w',
    sg2002_rtos_app_handle command (Some request) w = (APP_HANDLED, Some v, w') /\
    is_u32 v /\
    spec_reply (value_message command request) w = (Some (value_message command v), w').
Proof.
  intros Hc Hr. destruct (app_handle_in_range command request w Hc) as (v & w' & E).
  exists v, w'. split; [done|].
  split; [by eapply app_handle_value_range|]. unfold spec_reply, value_message.
  replace (negb _) with false by lia. destruct (command =? _) eqn:Ee.
  - assert (command = command_value SG2002_RTOS_CMD_ECHO) as -> by lia.
    by injection E as <- <-.
  - rewrite decide_True by done. by rewrite le_value_u32, E by done.
Qed.

(** The slot the firmware puts in the response ring for a value message. *)
Lemma spec_response_value seq command request (w : W) :
  SG2002_RTOS_CMD_FIRST <= command <= SG2002_RTOS_CMD_LAST -> is_u32 request ->
  exists v w',
    sg2002_rtos_app_handle command (Some request) w = (APP_HANDLED, Some v, w') /\
    is_u32 v /\
    spec_response (request_slot seq (value_message command request) 5) w =
      (Slot seq 5 (value_message command v ++ drop 5 zero_payload), w').
Proof.
  intros Hc Hr. destruct (spec_reply_value command request w Hc Hr) as (v & w' & E & Hv & Es).
  exists v, w'. split_and!; [done|done|].
  unfold spec_response, request_slot. cbn [msg_length payload sequence].
  change (Z.to_nat 5) with (length (value_message command request)).
  rewrite take_app_length', firstn_all by (by rewrite firstn_all). by rewrite Es.
Qed.

(** From the result of the message to that of the call. *)
Lemma call_over_channel command request timeout_ms old s r s' :
  shared_memory_available (rtos s) = true ->
  SG2002_RTOS_CMD_FIRST <= command <= SG2002_RTOS_CMD_LAST -> 0 < timeout_ms ->
  sg2002_rtos_message_call fuel (Some (value_message command request)) 5 5
    (Outputs (Some (replicate 5 0)) (Some 0) None) timeout_ms s = Some (r, s') ->
  (forall v, is_u32 v ->
     r = (0, Outputs (Some (value_message command v)) (Some 5) None) ->
     sg2002_rtos_call fuel command request timeout_ms (Some old) s =
       Some ((0, Some v), s')) /\
  (forall ret o, r = (ret, o) -> ret <> 0 ->
     sg2002_rtos_call fuel command request timeout_ms (Some old) s =
       Some ((ret, Some old), s')).
Proof.
  intros Ha Hc Ht E. unfold sg2002_rtos_call, mbind, st_bind, gets.
  destruct (rtos s) as [h|] eqn:Er; [|done]. rewrite Ha.
  assert (Hfd : (fd h <? 0) = false) by (unfold shared_memory_available in Ha; by destruct (fd h <? 0)).
  rewrite Hfd. replace (timeout_ms =? 0) with false by lia. cbn [orb].
  replace ((command <? _) || _) with false by lia.
  change SG2002_RTOS_VALUE_MESSAGE_SIZE with 5. change (Z.to_nat 5) with 5%nat.
  rewrite E. split.
  - intros v Hv ->. change (negb (0 =? 0)) with false. cbn beta iota.
    unfold lift, mret, st_ret. cbn [out_response out_length value_message lookup list_lookup
      SG2002_RTOS_VALUE_MESSAGE_COMMAND_OFFSET].
    change (negb (5 =? 5)) with false. rewrite Z.eqb_refl. cbn [negb orb].
    rewrite read_bytes_Some by (cbn; lia).
    unfold SG2002_RTOS_VALUE_MESSAGE_VALUE_OFFSET.
    change (drop 1 (value_message command v)) with (le_bytes 4 v).
    rewrite firstn_all2 by (by rewrite le_bytes_length). by rewrite le_value_u32.
  - intros ret o -> Hret. by rewrite (proj2 (Z.eqb_neq ret 0) Hret).
Qed.

(** The answer the kernel will deliver to these bytes is what the firmware's
    transport makes of them with its device in state [w]. *)
Definition served_by (w : W) (v : os_view) (bytes : list Z) : Prop :=
  answer_to v bytes 5 =
    (spec_response (request_slot (v_next_sequence (v_peer v)) bytes 5) w).1.

(** C4: a 32-bit call over shared memory, from the caller on Linux to the handler in
    the firmware and back. When the response the kernel delivers for the request is
    the one the firmware's transport makes of it with its device in state [w], the
    call returns 0 and exactly what [sg2002_rtos_app_handle] answers to that command
    and argument, with the responses of other requests retained; or, when the clock
    shows that all of [timeout_ms] has passed since the call, it returns -ETIMEDOUT
    with the result variable unchanged and every response, the answer included, still
    to be read. *)
Theorem call_over_shared_memory command request timeout_ms old (w : W) s p q :
  callable s p q -> SG2002_RTOS_CMD_FIRST <= command <= SG2002_RTOS_CMD_LAST ->
  is_u32 request -> in_range 16 timeout_ms -> timeout_ms <> 0 ->
  let v := view (os s) in
  let bytes := value_message command request in
  served_by w v bytes ->
  (2 * length (outstanding v) + 2 <= fuel)%nat ->
  exists value w' result s' p' q',
    sg2002_rtos_app_handle command (Some request) w = (APP_HANDLED, Some value, w') /\
    sg2002_rtos_call fuel command request timeout_ms (Some old) s = Some (result, s') /\
    readable s' p' q' /\ v_tx_held (view (os s')) = false /\
    ((result = (0, Some value) /\
      q' = q ++ outstanding v /\ outstanding (view (os s')) = []) \/
     (v_clock v + timeout_ms <= v_clock (view (os s')) /\
      result = (- ETIMEDOUT, Some old) /\
      q' ++ outstanding (view (os s')) = q ++ outstanding v ++ [answer_to v bytes 5])).
Proof using fuel_positive H0.
  intros Hcall Hc Hr Ht Ht0 v bytes Hans Hfuel. unfold served_by in Hans. word_unfold.
  destruct (spec_response_value (v_next_sequence (v_peer v)) command request w Hc Hr)
    as (value & w' & E & Hv & Es). fold bytes in Es. rewrite Es in Hans. cbn [fst] in Hans.
  set (o := Outputs (Some (replicate 5 0)) (Some 0) None).
  destruct (message_call_answered fuel fuel_positive bytes 5 5 o timeout_ms s p q Hcall)
    as (r & s' & p' & q' & Em & Hread & Htx & Hor); try done.
  { split_and!; [done|lia|]. intros _. by exists (replicate 5 0). }
  { unfold UINT32_MAX. lia. }
  { fold v. rewrite Hans. split_and!; [apply Hcall|done|done|]. cbn [payload].
    rewrite length_app, length_drop, length_zero_payload. done. }
  { fold v. by rewrite Hans. }
  { fold v. by rewrite Hans. }
  destruct (call_over_channel command request timeout_ms old s r s') as [Hok Herr];
    [apply Hcall|done|lia|exact Em|].
  fold v in Hor. rewrite Hans in Hor.
  destruct Hor as [(-> & -> & Ho)|(Hlt & Hck & -> & Ho)].
  - exists value, w', (0, Some value), s', p', (q ++ outstanding v).
    split_and!; try done; [|by left]. by apply Hok.
  - exists value, w', (- ETIMEDOUT, Some old), s', p', q'. rewrite Hans.
    split_and!; try done; [|by right]. by eapply Herr.
Qed.

End SharedMemoryCall.

(** ** The simulated system with the firmware behind it *)

Module SimBoard.

Definition t : Type := Sim.t * RegisterBank.t.

Definition on_sim {A} (f : Sim.t -> A * Sim.t) (o : t) : A * t :=
  let '(a, s) := f o.1 in (a, (s, o.2)).

(** The firmware's reply to a SYSTEM command of the application takes 1 ms. *)
Definition send_wait (c : cmdqu_t) (o : t) : sys cmdqu_t * t :=
  match sg2002_rtos_app_handle (cmd_id c) (Some (param_ptr c)) o.2 with
  | (APP_HANDLED, Some v, w) =>
      (if 1 <? mstime c
       then Ok (Cmdqu (ip_id c) (cmd_id c) (block c) (Valid 0 1) v) else Err ETIMEDOUT,
       (o.1, w))
  | _ => (Err ETIMEDOUT, o)
  end.

#[global] Instance linux : Linux t := {|
  os_open := fun path => on_sim (os_open path);
  os_close := fun d => on_sim (os_close d);
  os_calloc := on_sim os_calloc;
  os_free := on_sim os_free;
  os_eventfd := on_sim os_eventfd;
  os_read := fun d => on_sim (os_read d);
  os_write := fun d v => on_sim (os_write d v);
  os_poll := fun l ms => on_sim (os_poll l ms);
  os_clock := on_sim os_clock;
  pthread_mutex_init := fun l => on_sim (pthread_mutex_init l);
  pthread_mutex_destroy := fun l => on_sim (pthread_mutex_destroy l);
  pthread_mutex_lock := fun l => on_sim (pthread_mutex_lock l);
  pthread_mutex_unlock := fun l => on_sim (pthread_mutex_unlock l);
  ioctl_acquire := fun d => on_sim (ioctl_acquire d);
  ioctl_send := fun d tr => on_sim (ioctl_send d tr);
  ioctl_receive := fun d tr => on_sim (ioctl_receive d tr);
  ioctl_submit_batch := fun d b l => on_sim (ioctl_submit_batch d b l);
  ioctl_reap_batch := fun d b l => on_sim (ioctl_reap_batch d b l);
  ioctl_send_wait := fun _ => send_wait;
|}.

#[global] Instance firmware : RemoteFirmware t RegisterBank.t.
Proof.
  refine {| device := (snd : t -> RegisterBank.t); reply_after := fun _ => Some 1 |}.
  - intros d c v w o _ Ha. change (ioctl_send_wait d c o) with (send_wait c o).
    unfold send_wait. rewrite Ha. destruct (1 <? mstime c); cbn.
    + split; [by eexists|done].
    + split; [unfold ETIMEDOUT; lia|by right].
  - intros d c v w o t _ Ha [= <-] Ht. change (ioctl_send_wait d c o) with (send_wait c o).
    unfold send_wait. rewrite Ha. replace (1 <? mstime c) with true by lia. by eexists.
Defined.

#[global] Instance prompt : PromptFirmware t RegisterBank.t.
Proof. intros o. by exists 1. Qed.

End SimBoard.

(** A handle opened on a kernel without shared memory, line 10 of bank B low. *)
Definition demo_remote : client SimBoard.t :=
  Client (Some (Handle 3 None)) (Sim.booted 0 1 [], demo_device).

Lemma demo_remote_handle : mailbox_handle demo_remote.
Proof. by exists (Handle 3 None). Qed.

Lemma call_reaches_firmware_witness :
  mailbox_handle demo_remote /\ in_range 16 100 /\
  exists v w o,
    sg2002_rtos_app_handle 0x61 (Some 42) (device (os demo_remote)) =
      (APP_HANDLED, Some v, w) /\
    sg2002_rtos_call 1 0x61 42 100 (Some 0) demo_remote =
      Some ((0, Some v), set_os o demo_remote).
Proof.
  assert (Ht : in_range 16 100) by (unfold in_range; lia).
  split; [exact demo_remote_handle|]. split; [exact Ht|].
  destruct (call_reaches_firmware 1 0x61 42 100 (Some 0) demo_remote demo_remote_handle Ht)
    as (d & _ & _ & E & Hf).
  destruct (Hf _ _ SimBoard.firmware) as (v & w & Ha & _ & Hv).
  eexists v, w, _. split; [exact Ha|].
  rewrite <- (Hv 1 eq_refl (or_intror eq_refl)). exact E.
Defined.

(** With a timeout of 1 ms the reply comes too late, and the command was executed. *)
Example call_times_out :
  fst <$> sg2002_rtos_call 1 0x61 42 1 (Some 0) demo_remote = Some (- ETIMEDOUT, Some 0).
Proof. reflexivity. Qed.

Lemma client_operations_witness :
  mailbox_handle demo_remote /\ is_u16 0xb0a /\ in_range 1 1 /\ gpio_is_valid 0xb0a = true /\
  exists o,
    sg2002_rtos_gpio_set 1 0xb0a 1 demo_remote = Some (0, set_os o demo_remote) /\
    device o = gpio_direction_output 0xb0a 1 (device (os demo_remote)).
Proof.
  assert (Hp : is_u16 0xb0a) by (unfold in_range; lia).
  assert (Hl : in_range 1 1) by (unfold in_range; lia).
  split_and!; [exact demo_remote_handle|exact Hp|exact Hl|reflexivity|].
  exact (proj1 (client_operations 1 0xb0a 1 0 0 demo_remote demo_remote_handle Hp) Hl).
Defined.

(** A handle with shared memory, whose peer answers as the firmware's transport does
    with line 10 of bank B low. *)
Definition demo_served : client Sim.t :=
  let s := demo_client [demo_slot 4 [9]] demo_others in
  set_os (Sim.set_view
    (set_peer (Peer 7 true (fun m => (spec_response m demo_device).1))
       (Sim.sim_view (os s))) (os s)) s.

Lemma demo_served_callable :
  callable demo_served (demo_private [demo_slot 4 [9]]) [demo_slot 4 [9]].
Proof.
  assert (Hr : readable (demo_client [demo_slot 4 [9]] demo_others)
    (demo_private [demo_slot 4 [9]]) [demo_slot 4 [9]]) by (apply demo_readable; cbn; lia).
  split; [|done|done|done| | |vm_compute; lia].
  - destruct Hr as [Hh _ _]. split; [|done|done].
    by apply (holds_os (demo_client [demo_slot 4 [9]] demo_others)).
  - repeat (apply Forall_cons; split; [by apply demo_slot_valid; [done|cbn; lia]|]).
    by apply Forall_nil.
  - repeat (apply Forall_cons; split; [done|]). by apply Forall_nil.
Qed.

Lemma call_over_shared_memory_witness :
  let p := demo_private [demo_slot 4 [9]] in
  let q := [demo_slot 4 [9]] in
  let bytes := value_message 0x61 42 in
  callable demo_served p q /\ is_u32 42 /\ in_range 16 1000 /\
  served_by demo_device (view (os demo_served)) bytes /\
  exists value w' result s' p' q',
    sg2002_rtos_app_handle 0x61 (Some 42) demo_device = (APP_HANDLED, Some value, w') /\
    sg2002_rtos_call 9 0x61 42 1000 (Some 0) demo_served = Some (result, s') /\
    readable s' p' q' /\ v_tx_held (view (os s')) = false /\
    ((result = (0, Some value) /\
      q' = q ++ outstanding (view (os demo_served)) /\ outstanding (view (os s')) = []) \/
     (v_clock (view (os demo_served)) + 1000 <= v_clock (view (os s')) /\
      result = (- ETIMEDOUT, Some 0) /\
      q' ++ outstanding (view (os s')) =
        q ++ outstanding (view (os demo_served)) ++
          [answer_to (view (os demo_served)) bytes 5])).
Proof.
  intros p q bytes. pose proof demo_served_callable as Hc.
  assert (Hr : is_u32 42) by (unfold in_range; lia).
  assert (Ht : in_range 16 1000) by (unfold in_range; lia).
  split_and!; [exact Hc|exact Hr|exact Ht|reflexivity|].
  exact (call_over_shared_memory 9 ltac:(lia) 0x61 42 1000 0 demo_device demo_served p q Hc
           ltac:(unfold SG2002_RTOS_CMD_FIRST, SG2002_RTOS_CMD_LAST; lia) Hr Ht
           ltac:(lia) eq_refl ltac:(vm_compute; lia)).
Defined.
