(* ===== verification/BoardInit.v ===== *)
(** * Board initialisation in U-Boot: [src/configs/*/u-boot/cvi_board_init.c]

    Each board's [cvi_board_init] selects the functions of its pads; that of the
    LicheeRV Nano also resets the wireless module and lights the display. Registers
    are reached through [Mmio] (Gpio.v). [PINMUX_CONFIG] is a macro of the vendor's
    headers: an operation of the class [Soc], its arguments the tokens of the call.
    [spin] is one turn of a busy loop, during which the hardware goes on: its first
    argument lists the values the turn computes and assigns, which take its time. *)

From S2P Require Import Prelude Gpio.
Local Open Scope Z_scope.

Class Soc (W : Type) `{Mmio W} := {
  PINMUX_CONFIG : string -> string -> W -> W;
  spin : list Z -> W -> W;
}.

(** What can be observed of a board: the writes, the turns of busy loops and the
    pads configured, in order; and the function each pad has. *)
Inductive event :=
| Wrote (address value : Z) | Spun | Configured (pad function : string).

Class SocLaws (W : Type) `{Soc W} (storage : Z -> Prop)
    `{!StorageRegisters W storage} := {
  history : W -> list event;
  history_read w a : history (mmio_read_32 w a).2 = history w;
  history_write w a v : history (mmio_write_32 w a v) = history w ++ [Wrote a v];
  history_spin l w : history (spin l w) = history w ++ [Spun];
  history_pinmux w p f : history (PINMUX_CONFIG p f w) = history w ++ [Configured p f];
  register_spin l w a : storage a -> register (spin l w) a = register w a;
  register_pinmux w p f a : storage a -> register (PINMUX_CONFIG p f w) a = register w a;
  pad_function : W -> string -> option string;
  pad_configured w p f q :
    pad_function (PINMUX_CONFIG p f w) q =
      if decide (q = p) then Some f else pad_function w q;
}.

(** ** The delay loop *)

Section Delay.
Context {W : Type} `{Soc W}.

(** One turn: twenty divisions, whose results are assigned to a local that is never
    read (the function is compiled without optimisation), and [loop--]. *)
Definition suck_loop_divisors : list Z :=
  [99; 77; 55; 33; 11; 999; 777; 555; 333; 111; 9999; 7777; 5555; 3333; 1111;
   99999; 77777; 55555; 33333; 11111].

Definition suck_loop_body (loop : Z) (w : W) : Z * W :=
  (u64 (loop - 1), spin ((fun d => loop / d) <$> suck_loop_divisors) w).

(** [while (loop > 0)]; [None] when [fuel] turns were not enough. *)
Fixpoint suck_loop_while (fuel : nat) (loop : Z) (w : W) : option W :=
  if 0 <? loop then
    match fuel with
    | O => None
    | S fuel => let '(loop, w) := suck_loop_body loop w in suck_loop_while fuel loop w
    end
  else Some w.

(** The fuel is the value of the counter. *)
Definition suck_loop (loop : Z) (w : W) : option W :=
  let loop := u64 (u64 (loop * 50) * 100) in
  suck_loop_while (Z.to_nat loop) loop w.

End Delay.

(** ** The boards *)

Section Boards.
Context {W : Type} `{Soc W}.

(** [val = mmio_read_32(a); val = f(val); mmio_write_32(a, val)]. *)
Definition update_register (a : Z) (f : Z -> Z) (w : W) : W :=
  let '(val, w) := mmio_read_32 w a in mmio_write_32 w a (f val).

Definition set_bit (n : Z) (val : Z) : Z := Z.lor val (u32 (Z.shiftl 1 n)).
Definition clear_bit (n : Z) (val : Z) : Z := Z.land val (u32 (Z.lnot (Z.shiftl 1 n))).

Definition write_all (l : list (Z * Z)) (w : W) : W :=
  List.fold_left (fun w '(a, v) => mmio_write_32 w a v) l w.

Definition pinmux_all (l : list (string * string)) (w : W) : W :=
  List.fold_left (fun w '(p, f) => PINMUX_CONFIG p f w) l w.

(** *** LicheeRV Nano *)

Definition wifi_power_low (w : W) : W :=
  let w := mmio_write_32 w 0x0300104C 0x3 in
  let w := update_register 0x03020004 (set_bit 26) w in
  update_register 0x03020000 (clear_bit 26) w.

Definition wifi_power_high (w : W) : W := update_register 0x03020000 (set_bit 26) w.

Definition wifi_sdio_pinmux : list (Z * Z) :=
  [(0x030010D0, 0x0); (0x030010D4, 0x0); (0x030010D8, 0x0); (0x030010DC, 0x0);
   (0x030010E0, 0x0); (0x030010E4, 0x0)].

Definition lcd_backlight (w : W) : W :=
  let w := mmio_write_32 w 0x030010EC 0x3 in
  let w := update_register 0x03021004 (set_bit 0) w in
  update_register 0x03021000 (set_bit 0) w.

Definition camera_and_touch : list (Z * Z) :=
  [(0x0300116C, 0x5); (0x03001090, 0x5); (0x03001098, 0x5);
   (0x03001084, 0x3); (0x03001088, 0x3); (0x05027078, 0x11); (0x0502707c, 0x11)].

Definition maixcam_i2c : list (Z * Z) := [(0x0300105C, 0x3); (0x03001060, 0x3)].

(** What follows the reset. [maixcam]: whether [MAIXCAM] is defined. *)
Definition bring_up (maixcam : bool) (w : W) : option W :=
  let w := write_all wifi_sdio_pinmux w in
  let w := PINMUX_CONFIG "SD0_PWR_EN" "XGPIOA_14" w in
  let w := mmio_write_32 w 0x030010A4 0x0 in
  let w := lcd_backlight w in
  let w := write_all camera_and_touch w in
  let w := if maixcam then write_all maixcam_i2c w else w in
  suck_loop 100 w.

Definition licheervnano_board_init (maixcam : bool) (w : W) : option (Z * W) :=
  w ← suck_loop 200 (wifi_power_low w);
  w ← bring_up maixcam (wifi_power_high w);
  Some (0, w).

(** *** Duo 256M *)

Definition duo256_pinmux : list (string * string) :=
  [("PAD_MIPI_TXM1", "IIC2_SDA"); ("PAD_MIPI_TXP1", "IIC2_SCL");
   ("PAD_MIPI_TXP0", "CAM_MCLK0"); ("PAD_MIPI_TXP2", "XGPIOC_17");
   ("IIC0_SCL", "UART1_TX"); ("IIC0_SDA", "UART1_RX");
   ("JTAG_CPU_TMS", "PWM_7"); ("JTAG_CPU_TCK", "PWM_6");
   ("SD1_D2", "IIC1_SCL"); ("SD1_D1", "IIC1_SDA");
   ("SD1_CLK", "SPI2_SCK"); ("SD1_CMD", "SPI2_SDO");
   ("SD1_D0", "SPI2_SDI"); ("SD1_D3", "SPI2_CS_X");
   ("SD0_PWR_EN", "XGPIOA_14"); ("SPK_EN", "XGPIOA_15");
   ("EMMC_CMD", "XGPIOA_23"); ("EMMC_DAT1", "XGPIOA_24");
   ("EMMC_CLK", "XGPIOA_22"); ("EMMC_DAT0", "XGPIOA_25");
   ("EMMC_DAT3", "XGPIOA_27"); ("EMMC_DAT2", "XGPIOA_26");
   ("PWR_SEQ2", "PWR_GPIO_4"); ("PWR_GPIO2", "PWR_GPIO_2");
   ("ADC1", "XGPIOB_3"); ("USB_VBUS_DET", "XGPIOB_6")].

Definition duo256_board_init (w : W) : Z * W := (0, pinmux_all duo256_pinmux w).

(** *** Duo S *)

Definition duos_pinmux : list (string * string) :=
  [("CAM_MCLK0", "CAM_MCLK0"); ("IIC3_SCL", "IIC3_SCL"); ("IIC3_SDA", "IIC3_SDA");
   ("PAD_MIPIRX4P", "XGPIOC_3"); ("PAD_MIPIRX4N", "XGPIOC_2");
   ("IIC0_SDA", "XGPIOA_29");
   ("VIVO_D8", "SPI3_SDO"); ("VIVO_D7", "SPI3_SDI"); ("VIVO_D6", "SPI3_SCK");
   ("VIVO_D5", "SPI3_CS_X");
   ("USB_VBUS_EN", "XGPIOB_5"); ("AUX0", "XGPIOA_30");
   ("CLK32K", "PWR_GPIO_10"); ("UART2_RX", "UART4_RX"); ("UART2_TX", "UART4_TX");
   ("UART2_CTS", "UART4_CTS"); ("UART2_RTS", "UART4_RTS");
   ("JTAG_CPU_TCK", "XGPIOA_18"); ("JTAG_CPU_TMS", "XGPIOA_19");
   ("JTAG_CPU_TRST", "XGPIOA_20"); ("IIC0_SCL", "XGPIOA_28");
   ("PWR_WAKEUP0", "PWR_GPIO_6"); ("PWR_BUTTON1", "PWR_GPIO_8")].

(** Without its console message. *)
Definition set_rtc_register_for_power (w : W) : W := mmio_write_32 w 0x050260D0 0x7.

Definition duos_board_init (w : W) : Z * W :=
  (0, set_rtc_register_for_power (pinmux_all duos_pinmux w)).

End Boards.

(** ** A concrete board: a register bank, its pads and what happened *)

Module RecordedBoard.

Record t := Board {
  bank : RegisterBank.t;
  pads : gmap string string;
  events : list event;
}.

Definition record (e : event) (b : t) : t := Board (bank b) (pads b) (events b ++ [e]).

#[global] Instance mmio : Mmio t := {|
  mmio_read_32 := fun b a =>
    ((mmio_read_32 (bank b) a).1, Board (mmio_read_32 (bank b) a).2 (pads b) (events b));
  mmio_write_32 := fun b a v =>
    Board (mmio_write_32 (bank b) a v) (pads b) (events b ++ [Wrote a v]);
|}.

#[global] Instance soc : Soc t := {|
  PINMUX_CONFIG := fun p f b =>
    Board (bank b) (<[p := f]> (pads b)) (events b ++ [Configured p f]);
  spin := fun _ => record Spun;
|}.

#[global] Instance storage : StorageRegisters t (fun _ => True).
Proof.
  refine {| register := fun b => register (bank b) |}; try done; cbn; intros.
  - by rewrite lookup_insert_eq.
  - by rewrite lookup_insert_ne.
Defined.

#[global] Instance laws : SocLaws t (fun _ => True).
Proof.
  refine {| history := events; pad_function := fun b p => pads b !! p |}; try done.
  intros b p f q. cbn. case_decide as Hq.
  - subst. by rewrite lookup_insert_eq.
  - by rewrite lookup_insert_ne.
Defined.

End RecordedBoard.

(** ** Lemmas *)

(** Rewriting with this, rather than reducing, keeps the delays unevaluated. *)
Lemma option_bind_some {A B} (a : A) (f : A -> option B) : (x ← Some a; f x) = f a.
Proof. done. Qed.

(** The divisors of a turn: 9, 7, 5, 3 and 1 times the numbers 11, 111, 1111 and
    11111. *)
Definition turn_divisors : list Z :=
  flat_map (fun n => (fun d => d * ((10 ^ n - 1) / 9)) <$> [9; 7; 5; 3; 1]) [2; 3; 4; 5].

(** The turns of a counter going down from [n] to 0, each with its divisions. *)
Fixpoint count_down {W} `{Soc W} (n : nat) (w : W) : W :=
  match n with
  | O => w
  | S n' => count_down n' (spin ((fun d => Z.of_nat n / d) <$> turn_divisors) w)
  end.

Section DelayLemmas.
Context {W : Type} `{Soc W}.

Lemma suck_loop_while_spec fuel : forall loop (w : W),
  is_u64 loop ->
  suck_loop_while fuel loop w =
    if decide (Z.to_nat loop <= fuel)%nat
    then Some (count_down (Z.to_nat loop) w) else None.
Proof.
  induction fuel as [|fuel IH]; intros loop w Hl; cbn [suck_loop_while].
  - destruct (0 <? loop) eqn:E; case_decide; try done; unfold in_range in *; try lia.
    by replace (Z.to_nat loop) with 0%nat by lia.
  - destruct (0 <? loop) eqn:E; cycle 1.
    { unfold in_range in *. rewrite decide_True by lia.
      by replace (Z.to_nat loop) with 0%nat by lia. }
    unfold suck_loop_body. change suck_loop_divisors with turn_divisors.
    rewrite (wrap_small 64 (loop - 1)) by (unfold in_range in *; lia).
    rewrite IH by (unfold in_range in *; lia).
    replace (Z.to_nat loop) with (S (Z.to_nat (loop - 1))) by lia.
    cbn [count_down]. replace (Z.of_nat (S (Z.to_nat (loop - 1)))) with loop by lia.
    do 2 case_decide; try done; lia.
Qed.

Lemma suck_loop_iter loop (w : W) :
  suck_loop loop w = Some (count_down (Z.to_nat (u64 (loop * 5000))) w).
Proof.
  unfold suck_loop.
  assert (E : u64 (u64 (loop * 50) * 100) = u64 (loop * 5000)).
  { unfold wrap. rewrite Z.mul_mod_idemp_l by lia. f_equal. lia. }
  rewrite E, suck_loop_while_spec by (apply wrap_range; lia). by rewrite decide_True.
Qed.

End DelayLemmas.

Section BoardLemmas.
Context {W : Type} {storage : Z -> Prop} `{SocLaws W storage}.
Implicit Types (w : W).

(** [w'] comes from [w] by the events [l], which write at least what is in [changes]
    and leave every other storage register alone. *)
Definition did (l : list event) (changes : list Z) w w' : Prop :=
  history w' = history w ++ l /\
  (forall a, storage a -> (a ∉ changes) -> register w' a = register w a).

Lemma did_trans l1 l2 c1 c2 w1 w2 w3 :
  did l1 c1 w1 w2 -> did l2 c2 w2 w3 -> did (l1 ++ l2) (c1 ++ c2) w1 w3.
Proof.
  intros [E1 R1] [E2 R2]. split; [by rewrite E2, E1, app_assoc|].
  intros a Sa Ha. rewrite not_elem_of_app in Ha. by rewrite R2, R1 by tauto.
Qed.

Lemma write_did a v w :
  storage a ->
  did [Wrote a v] [a] w (mmio_write_32 w a v) /\ register (mmio_write_32 w a v) a = v.
Proof.
  intros Sa. split; [|by apply register_write]. split; [apply history_write|].
  intros b Sb Hb. apply register_write_frame; [done|]. set_solver.
Qed.

(** A register outside the storage the theorem looks at. *)
Lemma write_other_did a v w : did [Wrote a v] [a] w (mmio_write_32 w a v).
Proof.
  split; [apply history_write|]. intros b Sb Hb.
  apply register_write_frame; [done|]. set_solver.
Qed.

Lemma update_did a f w :
  storage a ->
  let v := f (register w a) in
  did [Wrote a v] [a] w (update_register a f w) /\
  register (update_register a f w) a = v.
Proof.
  intros Sa v. unfold update_register. pose proof (register_read w a Sa) as Er.
  pose proof (register_read_frame w a) as Ef. pose proof (history_read w a) as Eh.
  destruct (mmio_read_32 w a) as [val w1]. cbn [fst snd] in *. subst val.
  destruct (write_did a (f (register w a)) w1 Sa) as [[E R] V].
  split; [|exact V]. split; [by rewrite E, Eh|]. intros b Sb Hb. by rewrite R, Ef.
Qed.

Lemma write_all_did l : forall w,
  did ((fun '(a, v) => Wrote a v) <$> l) l.*1 w (write_all l w).
Proof.
  induction l as [|[a v] l IH]; intros w.
  - split; [by rewrite app_nil_r|done].
  - apply (did_trans [_] _ [_] _ _ (mmio_write_32 w a v)); [apply write_other_did|apply IH].
Qed.

Lemma pinmux_did p f w : did [Configured p f] [] w (PINMUX_CONFIG p f w).
Proof. split; [apply history_pinmux|]. intros. by apply register_pinmux. Qed.

Lemma spins_did n : forall w, did (replicate n Spun) [] w (count_down n w).
Proof.
  induction n as [|n IH]; intros w; [split; [by rewrite app_nil_r|done]|].
  cbn [replicate count_down]. eapply (did_trans [Spun] _ [] []); [|apply IH].
  split; [apply history_spin|]. intros. by apply register_spin.
Qed.

Lemma pinmux_all_pads l : forall w p,
  pad_function (pinmux_all l w) p =
    match List.find (fun pf => bool_decide (pf.1 = p)) (rev l) with
    | Some pf => Some pf.2
    | None => pad_function w p
    end.
Proof.
  induction l as [|[q f] l IH] using rev_ind; intros w p; [done|].
  unfold pinmux_all. rewrite List.fold_left_app, rev_app_distr. cbn.
  rewrite pad_configured. case_decide as Hp.
  - subst. by rewrite bool_decide_eq_true_2.
  - rewrite bool_decide_eq_false_2 by done. apply IH.
Qed.

Lemma pinmux_all_did l : forall w,
  did ((fun '(p, f) => Configured p f) <$> l) [] w (pinmux_all l w).
Proof.
  induction l as [|[p f] l IH]; intros w.
  - split; [by rewrite app_nil_r|done].
  - apply (did_trans [_] _ [] [] _ (PINMUX_CONFIG p f w)); [apply pinmux_did|apply IH].
Qed.

End BoardLemmas.

(** Searching a table from its end. *)
Lemma find_unlisted (l : list (string * string)) p :
  (p ∉ l.*1) -> List.find (fun pf => bool_decide (pf.1 = p)) (rev l) = None.
Proof.
  intros Hp. destruct (List.find _ (rev l)) as [pf|] eqn:E; [|done].
  apply List.find_some in E as [Hin Hd%bool_decide_eq_true]. exfalso. apply Hp.
  rewrite <- Hd. apply list_elem_of_fmap_2, list_elem_of_In, List.in_rev, Hin.
Qed.

Lemma find_listed (l : list (string * string)) p f :
  NoDup l.*1 -> (p, f) ∈ l ->
  List.find (fun pf => bool_decide (pf.1 = p)) (rev l) = Some (p, f).
Proof.
  intros Hd Hin. destruct (List.find _ (rev l)) as [[q g]|] eqn:E.
  - apply List.find_some in E as [Hin' Hq%bool_decide_eq_true]. cbn in Hq. subst q.
    apply List.in_rev, list_elem_of_In in Hin'.
    f_equal. apply list_elem_of_lookup in Hin as [i Hi], Hin' as [j Hj].
    assert (i = j) as ->; [|congruence].
    eapply NoDup_lookup; [exact Hd| |]; rewrite list_lookup_fmap;
      [rewrite Hi|rewrite Hj]; done.
  - exfalso. eapply List.find_none in E; [|apply List.in_rev; rewrite rev_involutive;
      by apply list_elem_of_In].
    by rewrite bool_decide_eq_true_2 in E.
Qed.

Lemma set_bit_testbit n val i :
  0 <= n < 32 -> 0 <= i < 32 ->
  Z.testbit (set_bit n val) i = if i =? n then true else Z.testbit val i.
Proof.
  intros Hn Hi. unfold set_bit. rewrite Z.lor_spec, pin_mask_bit by done.
  rewrite (Z.eqb_sym n i). destruct (i =? n); by btauto.
Qed.

Lemma clear_bit_testbit n val i :
  0 <= n < 32 -> 0 <= i < 32 ->
  Z.testbit (clear_bit n val) i = if i =? n then false else Z.testbit val i.
Proof.
  intros Hn Hi. unfold clear_bit. rewrite Z.land_spec. unfold wrap.
  rewrite Z.mod_pow2_bits_low, Z.lnot_spec, Z.shiftl_1_l, Z.pow2_bits_eqb by lia.
  rewrite (Z.eqb_sym n i). destruct (i =? n); by btauto.
Qed.

(** ** Properties *)

(** C33: the delay loop ends, after exactly [loop * 5000] turns of its body modulo
    2^64: with that much fuel, or more, the loop returns, the counter having gone down
    to 0 by ones, and each turn having done the twenty divisions of the counter by the
    [turn_divisors], in their order, and nothing else; with less it has not ended. *)
Theorem suck_loop_ends {W} `{Soc W} loop (fuel : nat) (w : W) :
  let turns := Z.to_nat (u64 (loop * 5000)) in
  length turn_divisors = 20%nat /\
  suck_loop loop w = Some (count_down turns w) /\
  suck_loop_while fuel (u64 (loop * 5000)) w =
    if decide (turns <= fuel)%nat then Some (count_down turns w) else None.
Proof.
  split; [done|]. split; [apply suck_loop_iter|]. apply suck_loop_while_spec, wrap_range. lia.
Qed.

(** A word that differs from [old] at bit [n] at most, and has [b] there. *)
Definition bit_becomes (n : Z) (b : bool) (old new : Z) : Prop :=
  forall i, 0 <= i < 32 -> Z.testbit new i = if i =? n then b else Z.testbit old i.

Lemma set_bit_becomes n val : 0 <= n < 32 -> bit_becomes n true val (set_bit n val).
Proof. intros Hn i Hi. by apply set_bit_testbit. Qed.

Lemma clear_bit_becomes n val : 0 <= n < 32 -> bit_becomes n false val (clear_bit n val).
Proof. intros Hn i Hi. by apply clear_bit_testbit. Qed.

Definition GPIOA_DATA : Z := 0x03020000.
Definition GPIOA_DIRECTION : Z := 0x03020004.
Definition GPIOB_DATA : Z := 0x03021000.
Definition GPIOB_DIRECTION : Z := 0x03021004.

Definition gpio_registers : list Z :=
  [GPIOA_DATA; GPIOA_DIRECTION; GPIOB_DATA; GPIOB_DIRECTION].

(** Writes to the registers of bank A. *)
Definition drives_bank_a (e : event) : bool :=
  match e with
  | Wrote a _ => (a =? GPIOA_DATA) || (a =? GPIOA_DIRECTION)
  | _ => false
  end.

Lemma spins_drive_nothing n : forallb (negb ∘ drives_bank_a) (replicate n Spun) = true.
Proof. by induction n. Qed.

(** Membership in a concrete list. *)
Ltac by_deciding := apply (bool_decide_unpack _); vm_compute; exact I.

Section NanoProof.
Context {W : Type} {storage : Z -> Prop} `{SocLaws W storage}.
Context (storage_gpio : Forall storage gpio_registers).
Implicit Types (w : W).

Lemma gpio_storage a : a ∈ gpio_registers -> storage a.
Proof using storage_gpio. by apply Forall_forall. Qed.

(** A register of [gpio_registers] outside what was changed. *)
Ltac same D := rewrite (proj2 D) by (by_deciding || (apply gpio_storage; by_deciding)).

(** Line [n] of a bank becomes an output at a new level. *)
Lemma drive_line_did (f : Z -> Z) n pad data dir w :
  data ∈ gpio_registers -> dir ∈ gpio_registers ->
  (data ∉ [pad; dir]) -> (dir ∉ [pad; data]) ->
  let w' := update_register data f (update_register dir (set_bit n) (mmio_write_32 w pad 3)) in
  let v := set_bit n (register w dir) in
  let level := f (register w data) in
  did [Wrote pad 3; Wrote dir v; Wrote data level] [pad; dir; data] w w' /\
  register w' dir = v /\ register w' data = level.
Proof using storage_gpio.
  intros S1%gpio_storage S2%gpio_storage N1 N2 w' v level. subst w'.
  pose proof (write_other_did pad 3 w) as D1. set (w1 := mmio_write_32 w pad 3) in *.
  destruct (update_did dir (set_bit n) w1 S2) as [D2 V2].
  set (w2 := update_register dir (set_bit n) w1) in *.
  destruct (update_did data f w2 S1) as [D3 V3].
  set (w3 := update_register data f w2) in *.
  apply not_elem_of_cons in N1 as [N1 N1'], N2 as [N2 N2'].
  rewrite (proj2 D1) in D2, V2 by (done || (rewrite list_elem_of_singleton; done)).
  rewrite (proj2 D2), (proj2 D1) in D3, V3 by (done || (rewrite list_elem_of_singleton; done)).
  split; [exact (did_trans _ _ _ _ _ _ _ D1 (did_trans _ _ _ _ _ _ _ D2 D3))|].
  split; [|exact V3]. by rewrite (proj2 D3).
Qed.

Lemma wifi_low_did w :
  let w' := wifi_power_low w in
  let dir := set_bit 26 (register w GPIOA_DIRECTION) in
  let low := clear_bit 26 (register w GPIOA_DATA) in
  did [Wrote 0x0300104C 0x3; Wrote GPIOA_DIRECTION dir; Wrote GPIOA_DATA low]
    [0x0300104C; GPIOA_DIRECTION; GPIOA_DATA] w w' /\
  register w' GPIOA_DIRECTION = dir /\ register w' GPIOA_DATA = low.
Proof using storage_gpio. apply drive_line_did; by_deciding. Qed.

Lemma backlight_did w :
  let w' := lcd_backlight w in
  let dir := set_bit 0 (register w GPIOB_DIRECTION) in
  let high := set_bit 0 (register w GPIOB_DATA) in
  did [Wrote 0x030010EC 0x3; Wrote GPIOB_DIRECTION dir; Wrote GPIOB_DATA high]
    [0x030010EC; GPIOB_DIRECTION; GPIOB_DATA] w w' /\
  register w' GPIOB_DIRECTION = dir /\ register w' GPIOB_DATA = high.
Proof using storage_gpio. apply drive_line_did; by_deciding. Qed.

Lemma bring_up_did maixcam w :
  exists w' l, bring_up maixcam w = Some w' /\ history w' = history w ++ l /\
    forallb (negb ∘ drives_bank_a) l = true /\
    register w' GPIOA_DATA = register w GPIOA_DATA /\
    register w' GPIOA_DIRECTION = register w GPIOA_DIRECTION /\
    register w' GPIOB_DATA = set_bit 0 (register w GPIOB_DATA) /\
    register w' GPIOB_DIRECTION = set_bit 0 (register w GPIOB_DIRECTION).
Proof using storage_gpio.
  unfold bring_up. rewrite suck_loop_iter.
  generalize (Z.to_nat (u64 (100 * 5000))) as turns. intros turns.
  pose proof (write_all_did wifi_sdio_pinmux w) as D1. set (w1 := write_all _ w) in *.
  pose proof (pinmux_did "SD0_PWR_EN" "XGPIOA_14" w1) as D2. set (w2 := PINMUX_CONFIG _ _ w1) in *.
  pose proof (write_other_did 0x030010A4 0x0 w2) as D3. set (w3 := mmio_write_32 w2 _ _) in *.
  destruct (backlight_did w3) as (D4 & V1 & V2). set (w4 := lcd_backlight w3) in *.
  pose proof (write_all_did camera_and_touch w4) as D5. set (w5 := write_all _ w4) in *.
  pose proof (write_all_did (if maixcam then maixcam_i2c else []) w5) as D6.
  replace (if maixcam then write_all maixcam_i2c w5 else w5)
    with (write_all (if maixcam then maixcam_i2c else []) w5) by by destruct maixcam.
  set (w6 := write_all (if maixcam then maixcam_i2c else []) w5) in *.
  pose proof (spins_did turns w6) as D7.
  set (w7 := count_down _ w6) in *.
  pose proof (did_trans _ _ _ _ _ _ _ D1 (did_trans _ _ _ _ _ _ _ D2 D3)) as Da.
  pose proof (did_trans _ _ _ _ _ _ _ D5 (did_trans _ _ _ _ _ _ _ D6 D7)) as Dc.
  pose proof (did_trans _ _ _ _ _ _ _ Da (did_trans _ _ _ _ _ _ _ D4 Dc)) as D.
  eexists w7, _. split; [done|]. split; [exact (proj1 D)|]. split.
  - rewrite !forallb_app, spins_drive_nothing. by destruct maixcam.
  - split_and!; destruct maixcam.
    1-4: same D; done.
    all: same Dc; rewrite ?V1, ?V2; same Da; done.
Qed.

(** C32: the LicheeRV Nano resets its wireless module and turns its display on. With
    the GPIO registers plain storage, [cvi_board_init] returns 0 having made line 26
    of bank A an output and then driven it low, for exactly 1000000 turns of the
    delay loop, and high; nothing else drives the bank. At the end that line is an
    output at high level, line 0 of bank B (the backlight) too, and every other line
    of the two banks has the level and direction it had. *)
Theorem nano_board_init maixcam w :
  exists w' pad dir low high after,
    licheervnano_board_init maixcam w = Some (0, w') /\
    history w' = history w ++
      [pad; Wrote GPIOA_DIRECTION dir; Wrote GPIOA_DATA low] ++
      replicate (Z.to_nat 1000000) Spun ++ [Wrote GPIOA_DATA high] ++ after /\
    forallb (negb ∘ drives_bank_a) (pad :: after) = true /\
    Z.testbit dir 26 = true /\ bit_becomes 26 false (register w GPIOA_DATA) low /\
    bit_becomes 26 true (register w GPIOA_DATA) (register w' GPIOA_DATA) /\
    bit_becomes 26 true (register w GPIOA_DIRECTION) (register w' GPIOA_DIRECTION) /\
    bit_becomes 0 true (register w GPIOB_DATA) (register w' GPIOB_DATA) /\
    bit_becomes 0 true (register w GPIOB_DIRECTION) (register w' GPIOB_DIRECTION).
Proof using storage_gpio.
  unfold licheervnano_board_init. rewrite suck_loop_iter.
  assert (Et : u64 (200 * 5000) = 1000000) by reflexivity. rewrite Et. clear Et.
  rewrite option_bind_some. generalize (Z.to_nat 1000000) as turns. intros turns.
  destruct (wifi_low_did w) as (D1 & V1 & V2). set (w1 := wifi_power_low w) in *.
  pose proof (spins_did turns w1) as D2. set (w2 := count_down turns w1) in *.
  destruct (update_did GPIOA_DATA (set_bit 26) w2) as [D3 V3];
    [apply gpio_storage; by_deciding|].
  change (update_register GPIOA_DATA (set_bit 26) w2) with (wifi_power_high w2) in *.
  set (w3 := wifi_power_high w2) in *.
  destruct (bring_up_did maixcam w3) as (w4 & l & E & Hh & Hl & R1 & R2 & R3 & R4).
  rewrite E, option_bind_some. clear E.
  assert (Hd : register w3 GPIOA_DIRECTION = set_bit 26 (register w GPIOA_DIRECTION)).
  { same D3. same D2. exact V1. }
  assert (Hw : register w2 GPIOA_DATA = clear_bit 26 (register w GPIOA_DATA)).
  { same D2. exact V2. }
  assert (Hb : forall a, a ∈ [GPIOB_DATA; GPIOB_DIRECTION] ->
    register w3 a = register w a).
  { intros a [->|[->|[]%elem_of_nil]%elem_of_cons]%elem_of_cons;
      same D3; same D2; same D1; done. }
  eexists w4, _, _, _, _, l. split; [done|]. split.
  { rewrite Hh, (proj1 D3), (proj1 D2), (proj1 D1), <- !app_assoc. done. }
  split; [exact Hl|]. split; [by rewrite set_bit_testbit by lia|].
  split; [by apply clear_bit_becomes|].
  rewrite R1, V3, R2, R3, R4, Hd, Hw, !Hb by by_deciding.
  split_and!; try (by apply set_bit_becomes).
  intros i Hi. rewrite set_bit_testbit, clear_bit_testbit by lia.
  by destruct (i =? 26).
Qed.

End NanoProof.

(** Each board gives every pad of its table the function listed for it, and
    leaves the other pads alone; no pad is listed twice, nor one function for two
    pads. On the Duo S the power register of the real-time clock is then 7. *)
Theorem pads_configured {W} {storage : Z -> Prop} `{SocLaws W storage} (w : W) :
  storage 0x050260D0 ->
  let configured l (w' : W) :=
    NoDup l.*1 /\ NoDup l.*2 /\
    (forall p f, (p, f) ∈ l -> pad_function w' p = Some f) /\
    (forall p, (p ∉ l.*1) -> pad_function w' p = pad_function w p) in
  (exists w', duo256_board_init w = (0, w') /\ configured duo256_pinmux w') /\
  (exists w1 w', duos_board_init w = (0, w') /\ configured duos_pinmux w1 /\
     w' = mmio_write_32 w1 0x050260D0 0x7 /\ register w' 0x050260D0 = 0x7).
Proof.
  intros Hs configured.
  assert (Hc : forall l, NoDup l.*1 -> NoDup l.*2 -> configured l (pinmux_all l w)).
  { intros l Hd Hf. split_and!; [done|done| |]; intros p.
    - intros f Hin. rewrite pinmux_all_pads. by rewrite (find_listed l p f).
    - intros Hp. rewrite pinmux_all_pads. by rewrite find_unlisted. }
  split.
  - eexists. split; [reflexivity|]. apply Hc; by_deciding.
  - eexists _, _. split; [reflexivity|]. split; [apply Hc; by_deciding|].
    split; [done|]. by apply register_write.
Qed.

(** The witnesses run on a recorded board on which line 3 of bank A is a high
    output. *)
Definition demo_board : RecordedBoard.t :=
  RecordedBoard.Board {[ GPIOA_DATA := 8; GPIOA_DIRECTION := 8 ]} ∅ [].

Lemma nano_board_init_witness :
  Forall (fun _ : Z => True) gpio_registers /\
  exists w' pad dir low high after,
    licheervnano_board_init true demo_board = Some (0, w') /\
    history w' = history demo_board ++
      [pad; Wrote GPIOA_DIRECTION dir; Wrote GPIOA_DATA low] ++
      replicate (Z.to_nat 1000000) Spun ++ [Wrote GPIOA_DATA high] ++ after /\
    forallb (negb ∘ drives_bank_a) (pad :: after) = true /\
    Z.testbit dir 26 = true /\ bit_becomes 26 false (register demo_board GPIOA_DATA) low /\
    bit_becomes 26 true (register demo_board GPIOA_DATA) (register w' GPIOA_DATA) /\
    bit_becomes 26 true (register demo_board GPIOA_DIRECTION)
      (register w' GPIOA_DIRECTION) /\
    bit_becomes 0 true (register demo_board GPIOB_DATA) (register w' GPIOB_DATA) /\
    bit_becomes 0 true (register demo_board GPIOB_DIRECTION)
      (register w' GPIOB_DIRECTION).
Proof.
  assert (Hs : Forall (fun _ : Z => True) gpio_registers) by by repeat constructor.
  split; [exact Hs|]. exact (nano_board_init Hs true demo_board).
Defined.

Lemma pads_configured_witness :
  pad_function (duo256_board_init demo_board).2 "SPK_EN" = Some "XGPIOA_15" /\
  exists w', duo256_board_init demo_board = (0, w') /\
    (forall p, (p ∉ duo256_pinmux.*1) -> pad_function w' p = pad_function demo_board p).
Proof.
  split; [vm_compute; reflexivity|].
  destruct (pads_configured (storage := fun _ => True) demo_board I)
    as [(w' & E & _ & _ & _ & Hp) _].
  exists w'. split; [exact E|exact Hp].
Defined.
