(* ===== verification/Strtoul.v ===== *)
(** * Numbers on the command line

    [strtoul(text, &end, 0)] of the C library, with which the tools under [tools/]
    read their arguments: white space, an optional sign, the prefixes of octal and
    hexadecimal numbers, the longest run of digits, saturation at [ULONG_MAX] (64
    bits on the target). *)

From Stdlib Require Import Ascii String.
From S2P Require Import Prelude.
Local Open Scope Z_scope.

Definition ULONG_MAX : Z := 2 ^ 64 - 1.

Definition code (c : ascii) : Z := Z.of_N (N_of_ascii c).

(** [isspace] in the C locale. *)
Definition is_space (c : ascii) : bool :=
  (code c =? 32) || ((9 <=? code c) && (code c <=? 13)).

Fixpoint skip_space (s : string) : string :=
  match s with
  | String c s' => if is_space c then skip_space s' else s
  | EmptyString => s
  end.

(** The digits of a base up to 36. *)
Definition digit_value (base : Z) (c : ascii) : option Z :=
  let d :=
    if (48 <=? code c) && (code c <=? 57) then code c - 48
    else if (65 <=? code c) && (code c <=? 90) then code c - 55
    else if (97 <=? code c) && (code c <=? 122) then code c - 87
    else base in
  if d <? base then Some d else None.

(** The number read so far and what follows the digits. *)
Fixpoint scan (base acc : Z) (s : string) : Z * string :=
  match s with
  | String c s' =>
      match digit_value base c with
      | Some d => scan base (acc * base + d) s'
      | None => (acc, s)
      end
  | EmptyString => (acc, s)
  end.

Definition starts_digit (base : Z) (s : string) : bool :=
  match s with
  | String c _ => match digit_value base c with Some _ => true | None => false end
  | EmptyString => false
  end.

Definition sign (s : string) : bool * string :=
  match s with
  | String "-" s' => (true, s')
  | String "+" s' => (false, s')
  | _ => (false, s)
  end.

(** Base 0: the base the text asks for, and where its digits start. *)
Definition base_of (s : string) : Z * string :=
  match s with
  | String "0" s' =>
      match s' with
      | String "x" h | String "X" h => if starts_digit 16 h then (16, h) else (8, s)
      | _ => (8, s)
      end
  | _ => (10, s)
  end.

(** The value and [*end]. *)
Definition strtoul (text : string) : Z * string :=
  let '(negative, s) := sign (skip_space text) in
  let '(base, s) := base_of s in
  if negb (starts_digit base s) then (0, text)
  else
    let '(value, rest) := scan base 0 s in
    (if ULONG_MAX <? value then ULONG_MAX
     else if negative then u64 (- value) else value, rest).

(** [text[0] == '\0' || end == NULL || *end != '\0']: the text is not one number. *)
Definition not_a_number (text rest : string) : bool :=
  bool_decide (text = ""%string) || bool_decide (rest <> ""%string).

(** ** Writing numbers *)

Definition digit (d : Z) : ascii :=
  ascii_of_N (Z.to_N (if d <? 10 then d + 48 else d + 87)).

(** The digits of [z], most significant first, before [s]. *)
Fixpoint digits (n : nat) (base z : Z) (s : string) : string :=
  let s := String (digit (z mod base)) s in
  match n with
  | O => s
  | S n => if z / base =? 0 then s else digits n base (z / base) s
  end.

(** A number as [printf] writes it with [%u], [%#o] or [%#x]. *)
Definition numeral (base z : Z) : string :=
  let s := digits 63 base z ""%string in
  if z =? 0 then s
  else if base =? 16 then String "0" (String "x" s)
  else if base =? 8 then String "0" s
  else s.

(** ** Lemmas *)

Lemma digit_value_digit base d :
  2 <= base <= 16 -> 0 <= d < base -> digit_value base (digit d) = Some d.
Proof.
  intros Hb Hd. unfold digit_value, digit, code.
  rewrite N_ascii_embedding by (case_tests; lia).
  destruct (d <? 10) eqn:E; rewrite Z2N.id by lia.
  - replace (_ && _) with true by lia.
    replace (_ <? base) with true by lia. f_equal. lia.
  - replace ((48 <=? _) && _) with false by lia.
    replace ((65 <=? _) && _) with false by lia.
    replace ((97 <=? _) && _) with true by lia.
    replace (_ <? base) with true by lia. f_equal. lia.
Qed.

Lemma scan_stop base acc s : starts_digit base s = false -> scan base acc s = (acc, s).
Proof. destruct s as [|c s]; [done|]. cbn. by destruct (digit_value base c). Qed.

(** Scanning the digits of [z] appends them to the number read so far. *)
Lemma scan_digits base n : forall z acc s,
  2 <= base <= 16 -> 0 <= z < base ^ Z.of_nat (S n) ->
  exists k, 0 <= k /\ z < base ^ (k + 1) /\
    scan base acc (digits n base z s) = scan base (acc * base ^ (k + 1) + z) s.
Proof.
  induction n as [|n IH]; intros z acc s Hb Hz; cbn [digits].
  - exists 0. change (Z.of_nat 1) with 1 in Hz. change (0 + 1) with 1.
    rewrite Z.pow_1_r in *. split_and!; try lia. cbn [scan].
    rewrite (Z.mod_small z), digit_value_digit by lia. done.
  - assert (Hm : 0 <= z mod base < base) by (apply Z.mod_pos_bound; lia).
    destruct (z / base =? 0) eqn:E.
    + exists 0. assert (Hs : z < base) by (apply Z.eqb_eq, Z.div_small_iff in E; lia).
      change (0 + 1) with 1. rewrite Z.pow_1_r. split_and!; try lia. cbn [scan].
      rewrite Z.mod_small, digit_value_digit by lia. done.
    + assert (Hq : 0 <= z / base < base ^ Z.of_nat (S n)).
      { split; [apply Z.div_pos; lia|]. apply Z.div_lt_upper_bound; [lia|].
        rewrite Nat2Z.inj_succ, Z.pow_succ_r in Hz by lia. lia. }
      destruct (IH (z / base) acc (String (digit (z mod base)) s) Hb Hq)
        as (k & Hk & Hlt & Es).
      exists (k + 1). rewrite Es. cbn [scan]. rewrite digit_value_digit by lia.
      pose proof (Z.div_mod z base ltac:(lia)) as Ez.
      rewrite (Z.pow_add_r base (k + 1) 1), Z.pow_1_r by lia.
      split_and!; [lia|nia|]. f_equal. nia.
Qed.

Lemma digits_start n base z s :
  2 <= base <= 16 -> 0 <= z ->
  exists d rest, digits n base z s = String (digit d) rest /\ 0 <= d < base /\
    (z <> 0 -> z < base ^ Z.of_nat (S n) -> d <> 0).
Proof.
  intros Hb. revert z s. induction n as [|n IH]; intros z s Hz; cbn [digits].
  - exists (z mod base), s. split; [done|]. split; [apply Z.mod_pos_bound; lia|].
    intros Hn Hlt. change (Z.of_nat 1) with 1 in Hlt. rewrite Z.pow_1_r in Hlt.
    rewrite Z.mod_small; lia.
  - destruct (z / base =? 0) eqn:E.
    + exists (z mod base), s. split; [done|]. split; [apply Z.mod_pos_bound; lia|].
      intros Hn _. rewrite Z.mod_small; [done|]. apply Z.eqb_eq, Z.div_small_iff in E; lia.
    + destruct (IH (z / base) (String (digit (z mod base)) s)) as (d & rest & Ed & Hd & Hnz);
        [apply Z.div_pos; lia|].
      exists d, rest. split; [done|]. split; [done|]. intros _ Hlt. apply Hnz; [lia|].
      rewrite Nat2Z.inj_succ, Z.pow_succ_r in Hlt by lia.
      apply Z.div_lt_upper_bound; lia.
Qed.

(** What the first digit decides. *)
Lemma digit_first d : 0 <= d < 16 ->
  is_space (digit d) = false /\ digit d <> "-"%char /\ digit d <> "+"%char /\
  digit d <> "x"%char /\ digit d <> "X"%char /\ (d <> 0 -> digit d <> "0"%char).
Proof.
  intros Hd.
  assert (d = 0 \/ d = 1 \/ d = 2 \/ d = 3 \/ d = 4 \/ d = 5 \/ d = 6 \/ d = 7 \/ d = 8 \/
    d = 9 \/ d = 10 \/ d = 11 \/ d = 12 \/ d = 13 \/ d = 14 \/ d = 15) as Hd' by lia.
  repeat destruct Hd' as [->|Hd']; try subst d; by split_and!.
Qed.

(** [strtoul] of a text that starts with a digit. *)
Lemma strtoul_digit c s :
  is_space c = false -> c <> "-"%char -> c <> "+"%char ->
  strtoul (String c s) =
    let '(base, s') := base_of (String c s) in
    if negb (starts_digit base s') then (0, String c s)
    else
      let '(value, rest) := scan base 0 s' in
      (if ULONG_MAX <? value then ULONG_MAX else value, rest).
Proof.
  intros Hs Hm Hp. unfold strtoul. cbn [skip_space]. rewrite Hs.
  assert (E : sign (String c s) = (false, String c s)).
  { destruct c as [[] [] [] [] [] [] [] []]; try done; exfalso; by (apply Hm || apply Hp). }
  rewrite E. destruct (base_of (String c s)) as [base s'].
  by destruct (negb _), (scan base 0 s').
Qed.

(** A number below 2^64 written in decimal, octal or hexadecimal is
    read back as itself, to the end of the text; one that is larger, up to 64 digits,
    is read as the largest 64-bit number. *)
Lemma strtoul_numeral base z :
  base = 8 \/ base = 10 \/ base = 16 -> 0 <= z < base ^ 64 ->
  strtoul (numeral base z) = (Z.min z ULONG_MAX, ""%string) /\
  not_a_number (numeral base z) (strtoul (numeral base z)).2 = false.
Proof.
  intros Hbase Hz. assert (Hb : 8 <= base <= 16) by lia.
  assert (E : strtoul (numeral base z) = (Z.min z ULONG_MAX, ""%string) /\
              numeral base z <> ""%string); cycle 1.
  { destruct E as [E Hn]. rewrite E. split; [done|]. unfold not_a_number. cbn [snd].
    by rewrite !bool_decide_eq_false_2 by (done || tauto). }
  destruct (scan_digits base 63 z 0 ""%string) as (k & Hk & Hlt & Es); [lia|exact Hz|].
  cbn [scan] in Es. rewrite Z.mul_0_l, Z.add_0_l in Es.
  destruct (digits_start 63 base z ""%string) as (d & rest & Ed & Hd & Hnz); [lia|lia|].
  specialize (fun H => Hnz H (proj2 Hz)).
  destruct (digit_first d ltac:(lia)) as (F1 & F2 & F3 & F4 & F5 & F6).
  unfold numeral. destruct (z =? 0) eqn:E0.
  { assert (z = 0) as -> by lia. destruct Hbase as [ -> | [ -> | -> ]]; split; done. }
  assert (Hstart : starts_digit base (digits 63 base z "") = true).
  { rewrite Ed. cbn [starts_digit]. by rewrite digit_value_digit by lia. }
  assert (Hmin : (if ULONG_MAX <? z then ULONG_MAX else z) = Z.min z ULONG_MAX)
    by (destruct (ULONG_MAX <? z) eqn:?; lia).
  destruct Hbase as [ -> | [ -> | -> ]]; cbn [Z.eqb Pos.eqb]; (split; [|by rewrite ?Ed]).
  - rewrite strtoul_digit by done.
    assert (Eb : base_of (String "0" (digits 63 8 z "")) = (8, String "0" (digits 63 8 z ""))).
    { rewrite Ed. cbn. destruct (digit d) as [[] [] [] [] [] [] [] []]; done. }
    rewrite Eb. cbn [starts_digit scan]. change (digit_value 8 "0") with (Some 0).
    cbn [negb]. rewrite Z.mul_0_l, Z.add_0_r, Es. cbn beta iota. by rewrite Hmin.
  - rewrite Ed in *. rewrite strtoul_digit by done.
    assert (Eb : base_of (String (digit d) rest) = (10, String (digit d) rest)).
    { specialize (F6 (Hnz ltac:(lia))). cbn.
      destruct (digit d) as [[] [] [] [] [] [] [] []]; done. }
    rewrite Eb, Hstart. cbn [negb]. rewrite Es. cbn beta iota. by rewrite Hmin.
  - rewrite strtoul_digit by done. cbn [base_of]. rewrite Hstart, Hstart. cbn [negb].
    rewrite Es. cbn beta iota. by rewrite Hmin.
Qed.

(** A number is never negative, nor more than 64 bits. *)
Lemma scan_nonneg base s : forall acc,
  0 <= base -> 0 <= acc -> 0 <= (scan base acc s).1.
Proof.
  induction s as [|c s IH]; intros acc Hb Ha; cbn [scan]; [done|].
  destruct (digit_value base c) as [d|] eqn:E; [|done]. apply IH; [done|].
  assert (0 <= d).
  { unfold digit_value in E. destruct (_ <? base); [|done]. injection E as <-.
    case_tests. }
  nia.
Qed.

Lemma strtoul_range text : is_u64 (strtoul text).1.
Proof.
  unfold strtoul. destruct (sign _) as [negative s].
  assert (Hb : 0 <= (base_of s).1).
  { unfold base_of. repeat case_match; by cbn. }
  destruct (base_of s) as [base s']. destruct (negb _); [by cbn; unfold in_range|].
  pose proof (scan_nonneg base s' 0 Hb ltac:(lia)) as Hn.
  destruct (scan base 0 s') as [value rest]. cbn [fst] in *.
  destruct (ULONG_MAX <? value) eqn:E; [by unfold in_range, ULONG_MAX|].
  destruct negative; [apply wrap_range; lia|]. unfold ULONG_MAX in *. word_lia.
Qed.
