(* ===== verification/RtosCmd.v ===== *)
(** * The command-line client: [tools/rtos-cmd.c]

    [main] opens the device, performs one operation of the library and reports it.
    [argv] includes the program's name. The result is the exit status and what was
    printed, as data ([report]) instead of text. [exit(2)] leaves the handle to the
    system, as in C. *)

From Stdlib Require Import String.
From S2P Require Import Prelude Protocol Gpio App Strtoul Cmdqu.
From S2P Require Import LinuxOs LinuxSim LinuxRtos LinuxOpen LinuxRemote.
Local Open Scope Z_scope.

Inductive report :=
| PrintUsage
| PrintInvalid (text : string)
| PrintError (operation : string) (error : Z)
| PrintInfo (major minor capabilities raw : Z)
| PrintPing (command input result expected : Z)
| PrintPin (pin value : Z).

(** [None]: the message "invalid value", then [exit(2)]. *)
Definition parse_u32 (text : string) : option Z :=
  let '(value, rest) := strtoul text in
  if not_a_number text rest || (UINT32_MAX <? value) then None else Some value.

(** The conversion of a [uint32_t] to [int]. *)
Definition to_int (value : Z) : Z :=
  if value <=? INT_MAX then value else value - 2 ^ 32.

Definition SG2002_RTOS_INITIALIZER : handle := Handle (-1) None.

Section Main.
Context {L : Type} `{Linux L}.
Context (fuel : nat).
Local Abbreviation M := (ST (client L)).

Definition report_error (operation : string) (error : Z) : Z * list report :=
  (1, [PrintError operation error]).

Definition usage : Z * list report := (2, [PrintUsage]).
Definition invalid (text : string) : Z * list report := (2, [PrintInvalid text]).

(** [inl]: the process has exited. [inr]: [ret] and what was printed. *)
Definition run_info (argc : Z) : M ((Z * list report) + (Z * list report)) :=
  if negb (argc =? 2) then mret (inl usage)
  else
    '(ret, info) ← sg2002_rtos_get_info fuel (Some 0);
    info ← lift info;
    mret (inr (ret,
      if ret =? 0
      then [PrintInfo (SG2002_RTOS_INFO_MAJOR info) (SG2002_RTOS_INFO_MINOR info)
              (SG2002_RTOS_INFO_CAPABILITIES info) info]
      else [])).

Definition run_ping (argc : Z) (argv : list string) :
    M ((Z * list report) + (Z * list report)) :=
  if negb (argc =? 3) then mret (inl usage)
  else
    text ← lift (argv !! 2%nat);
    match parse_u32 text with
    | None => mret (inl (invalid text))
    | Some input =>
        '(ret, result) ← sg2002_rtos_ping fuel input (Some 0);
        result ← lift result;
        let expected := Z.lxor input SG2002_RTOS_PING_XOR in
        let ret := if (ret =? 0) && negb (result =? expected) then - EPROTO else ret in
        mret (inr (ret,
          if ret =? 0
          then [PrintPing (command_value SG2002_RTOS_CMD_PING) input result expected]
          else []))
    end.

Definition UINT16_MAX : Z := 2 ^ 16 - 1.

Definition run_gpio_set (argc : Z) (argv : list string) :
    M ((Z * list report) + (Z * list report)) :=
  if negb (argc =? 4) then mret (inl usage)
  else
    text ← lift (argv !! 2%nat);
    match parse_u32 text with
    | None => mret (inl (invalid text))
    | Some pin =>
        if UINT16_MAX <? pin then mret (inl usage)
        else
          let pin := u16 pin in
          text ← lift (argv !! 3%nat);
          match parse_u32 text with
          | None => mret (inl (invalid text))
          | Some value =>
              let value := to_int value in
              ret ← sg2002_rtos_gpio_set fuel pin value;
              mret (inr (ret, if ret =? 0 then [PrintPin pin value] else []))
          end
    end.

Definition run_gpio_get (argc : Z) (argv : list string) :
    M ((Z * list report) + (Z * list report)) :=
  if negb (argc =? 3) then mret (inl usage)
  else
    text ← lift (argv !! 2%nat);
    match parse_u32 text with
    | None => mret (inl (invalid text))
    | Some pin =>
        if UINT16_MAX <? pin then mret (inl usage)
        else
          let pin := u16 pin in
          '(ret, value) ← sg2002_rtos_gpio_get fuel pin (Some 0);
          value ← lift value;
          mret (inr (ret, if ret =? 0 then [PrintPin pin value] else []))
    end.

Definition run_command (command : string) (argc : Z) (argv : list string) :
    M ((Z * list report) + (Z * list report)) :=
  if bool_decide (command = "info"%string) then run_info argc
  else if bool_decide (command = "ping"%string) then run_ping argc argv
  else if bool_decide (command = "gpio-set"%string) then run_gpio_set argc argv
  else if bool_decide (command = "gpio-get"%string) then run_gpio_get argc argv
  else mret (inl usage).

Definition main (argv : list string) : M (Z * list report) :=
  let argc := Z.of_nat (List.length argv) in
  modify (set_rtos SG2002_RTOS_INITIALIZER);;
  if argc <? 2 then mret usage
  else
    ret ← sg2002_rtos_open None;
    if negb (ret =? 0)
    then mret (report_error (String.append "open " SG2002_RTOS_DEVICE_PATH) ret)
    else
      command ← lift (argv !! 1%nat);
      ended ← run_command command argc argv;
      match ended with
      | inl exited => mret exited
      | inr (ret, printed) =>
          sg2002_rtos_close;;
          mret (if negb (ret =? 0)
                then let '(status, error) := report_error command ret in
                     (status, printed ++ error)
                else (0, printed))
      end.

End Main.

(** ** Reading arguments *)

(** C37: numbers on the command line. [parse_u32] accepts every 32-bit number written
    in decimal, octal or hexadecimal as that number, refuses larger ones of up to
    64 digits, refuses the empty text, and whatever it accepts is a 32-bit number. *)
Theorem parse_u32_numeral base z text :
  base = 8 \/ base = 10 \/ base = 16 -> 0 <= z < base ^ 64 ->
  parse_u32 (numeral base z) = (if z <=? UINT32_MAX then Some z else None) /\
  parse_u32 "" = None /\
  (forall v, parse_u32 text = Some v -> is_u32 v).
Proof.
  intros Hb Hz. destruct (strtoul_numeral base z Hb Hz) as [E En].
  unfold parse_u32. split_and!.
  - rewrite E in *. cbn [snd] in En. rewrite En. cbn [orb].
    destruct (z <=? UINT32_MAX) eqn:Ez.
    + rewrite Z.min_l by (unfold ULONG_MAX, UINT32_MAX in *; lia).
      by replace (UINT32_MAX <? z) with false by lia.
    + by replace (UINT32_MAX <? Z.min z ULONG_MAX) with true
        by (unfold ULONG_MAX, UINT32_MAX in *; lia).
  - done.
  - intros v. pose proof (strtoul_range text) as Hr.
    destruct (strtoul text) as [value rest]. cbn [fst] in Hr.
    destruct (not_a_number text rest); [done|]. cbn [orb].
    destruct (UINT32_MAX <? value) eqn:Ev; [done|]. intros [= <-].
    unfold UINT32_MAX in *. word_lia.
Qed.

Lemma parse_u32_numeral_witness :
  16 = 8 \/ 16 = 10 \/ 16 = 16 /\ 0 <= 0xb0a < 16 ^ 64 /\
  numeral 16 0xb0a = "0xb0a"%string /\ parse_u32 "0xb0a" = Some 0xb0a.
Proof.
  right; right. split; [reflexivity|]. split; [lia|]. split; [vm_compute; reflexivity|].
  exact (proj1 (parse_u32_numeral 16 0xb0a "" (or_intror (or_intror eq_refl)) ltac:(lia))).
Defined.

(** ** What a command line does

    The exit status, the report and the device afterwards, for a firmware whose
    device is in state [w]. *)

Section Spec.
Context {W : Type} `{Mmio W}.

Definition with_number (text : string) (w : W) (f : Z -> Z * list report * W) :
    Z * list report * W :=
  match parse_u32 text with Some n => f n | None => (invalid text, w) end.

Definition with_pin (text : string) (w : W) (f : Z -> Z * list report * W) :
    Z * list report * W :=
  with_number text w (fun pin => if UINT16_MAX <? pin then (usage, w) else f pin).

Definition refused (operation : string) (w : W) : Z * list report * W :=
  (report_error operation (- EINVAL), w).

Definition spec_main (argv : list string) (w : W) : Z * list report * W :=
  match argv with
  | [_; command] =>
      if bool_decide (command = "info"%string)
      then (0, [PrintInfo (SG2002_RTOS_INFO_MAJOR SG2002_RTOS_INFO_VALUE)
                  (SG2002_RTOS_INFO_MINOR SG2002_RTOS_INFO_VALUE)
                  (SG2002_RTOS_INFO_CAPABILITIES SG2002_RTOS_INFO_VALUE)
                  SG2002_RTOS_INFO_VALUE], w)
      else (usage, w)
  | [_; command; text] =>
      if bool_decide (command = "ping"%string) then
        with_number text w (fun n =>
          let answer := Z.lxor n SG2002_RTOS_PING_XOR in
          (0, [PrintPing (command_value SG2002_RTOS_CMD_PING) n answer answer], w))
      else if bool_decide (command = "gpio-get"%string) then
        with_pin text w (fun pin =>
          if gpio_is_valid pin
          then let '(level, w) := gpio_get_value pin w in (0, [PrintPin pin level], w)
          else refused command w)
      else (usage, w)
  | [_; command; text; level] =>
      if bool_decide (command = "gpio-set"%string) then
        with_pin text w (fun pin =>
          with_number level w (fun value =>
            if (value <=? 1) && gpio_is_valid pin
            then (0, [PrintPin pin value], gpio_direction_output pin value w)
            else refused command w))
      else (usage, w)
  | _ => (usage, w)
  end.

End Spec.

(** Opening and closing the device do not reach the firmware. *)
Class QuietDevice (O W : Type) `{RemoteFirmware O W} := {
  device_open path o : device (os_open path o).2 = device o;
  device_acquire d o : device (ioctl_acquire d o).2 = device o;
  device_close d o : device (os_close d o).2 = device o;
}.

(** The device file opens, and the kernel has no shared memory. *)
Definition mailbox_kernel {O} `{Linux O} (o : O) : Prop :=
  exists d e o1 o2, os_open SG2002_RTOS_DEVICE_PATH o = (Ok d, o1) /\ 0 <= d /\
    ioctl_acquire d o1 = (Err e, o2) /\ acquire_fallback e = true.

Section CommandLine.
Context {L W : Type} `{PromptFirmware L W, !QuietDevice L W}.
Context (fuel : nat).
Implicit Types (s : client L).

Lemma open_mailbox s :
  mailbox_kernel (os s) -> rtos s = Some SG2002_RTOS_INITIALIZER ->
  exists s', sg2002_rtos_open None s = Some (0, s') /\ mailbox_handle s' /\
    device (os s') = device (os s).
Proof.
  intros (d & e & o1 & o2 & Eo & Hd & Ea & He) Hs. unfold sg2002_rtos_open.
  unfold mbind at 1, st_bind at 1. cbn [gets]. rewrite Hs.
  change (0 <=? fd SG2002_RTOS_INITIALIZER) with false. cbn beta iota.
  pose proof (device_open SG2002_RTOS_DEVICE_PATH (os s)) as D1. rewrite Eo in D1.
  pose proof (device_acquire d o1) as D2. rewrite Ea in D2. cbn [snd] in *.
  unfold mbind at 1, st_bind at 1, call, zoom. cbn [default]. rewrite Eo. cbn beta iota.
  unfold mbind at 1, st_bind at 1. cbn [os set_os]. rewrite Ea. cbn beta iota.
  rewrite He. cbn [negb].
  exists (set_rtos (Handle d None) (set_os o2 (set_os o1 s))).
  split; [done|]. split; [|cbn [os set_os set_rtos]; congruence].
  by exists (Handle d None).
Qed.

Lemma close_mailbox s :
  mailbox_handle s ->
  exists s', sg2002_rtos_close s = Some (tt, s') /\
    rtos s' = Some SG2002_RTOS_INITIALIZER /\ device (os s') = device (os s).
Proof.
  intros (h & Er & Hd & Hp). unfold sg2002_rtos_close.
  unfold mbind at 1, st_bind at 1. cbn [gets]. rewrite Er.
  replace (fd h <? 0) with false by lia. rewrite Hp.
  unfold mbind, st_bind, call, zoom.
  pose proof (device_close (fd h) (os s)) as D. destruct (os_close (fd h) (os s)) as [u o].
  eexists. split; [done|]. split; [done|exact D].
Qed.

(** How a command ends: exiting at once, or with the handle still to be closed. *)
Definition ended (command : string) (r : (Z * list report) + (Z * list report)) :
    Z * list report :=
  match r with
  | inl e => e
  | inr (ret, printed) =>
      if negb (ret =? 0)
      then ((report_error command ret).1, printed ++ (report_error command ret).2)
      else (0, printed)
  end.

Definition runs (m : ST (client L) ((Z * list report) + (Z * list report)))
    (command : string) s (result : Z * list report * W) : Prop :=
  exists r o, m s = Some (r, set_os o s) /\ (ended command r, device o) = result.

Lemma bind_lift {A B} (a : A) (f : A -> ST (client L) B) : (x ← lift (Some a); f x) = f a.
Proof. done. Qed.

Lemma runs_exit command s r :
  runs (mret (inl r)) command s (r, device (os s)).
Proof. exists (inl r), (os s). split; [by destruct s|done]. Qed.

Lemma parse_u32_range text n : parse_u32 text = Some n -> is_u32 n.
Proof.
  unfold parse_u32. pose proof (strtoul_range text) as Hr.
  destruct (strtoul text) as [value rest]. cbn [fst] in Hr.
  destruct (_ || _) eqn:E; [done|]. intros [= <-]. unfold UINT32_MAX in *. word_lia.
Qed.

Lemma info_runs s :
  mailbox_handle s ->
  runs (run_info fuel 2) "info" s (spec_main [""; "info"]%string (device (os s))).
Proof.
  intros Hm. unfold run_info. change (negb (2 =? 2)) with false. cbn beta iota.
  destruct (operations_over_mailbox fuel 0 0 0 0 s Hm ltac:(done))
    as (_ & _ & _ & (o & E & Hd) & _).
  eexists _, o. unfold mbind, st_bind. rewrite E. cbn [lift mret st_ret].
  split; [reflexivity|]. cbn. by rewrite Hd.
Qed.

Lemma ping_runs s argv text :
  mailbox_handle s -> argv !! 2%nat = Some text ->
  runs (run_ping fuel 3 argv) "ping" s
    (spec_main [""; "ping"; text]%string (device (os s))).
Proof.
  intros Hm Ht. unfold run_ping. change (negb (3 =? 3)) with false. cbn beta iota.
  rewrite Ht, bind_lift. unfold spec_main, with_number.
  rewrite bool_decide_eq_true_2 by done.
  destruct (parse_u32 text) as [n|]; [|apply runs_exit].
  destruct (operations_over_mailbox fuel 0 0 n 0 s Hm ltac:(done))
    as (_ & _ & _ & _ & (o & E & Hd)).
  eexists _, o. unfold mbind, st_bind. rewrite E. cbn [lift mret st_ret].
  split; [reflexivity|]. cbn. rewrite Z.eqb_refl. cbn. by rewrite Hd.
Qed.

Lemma gpio_get_runs s argv text :
  mailbox_handle s -> argv !! 2%nat = Some text ->
  runs (run_gpio_get fuel 3 argv) "gpio-get" s
    (spec_main [""; "gpio-get"; text]%string (device (os s))).
Proof.
  intros Hm Ht. unfold run_gpio_get. change (negb (3 =? 3)) with false. cbn beta iota.
  rewrite Ht, bind_lift. unfold spec_main, with_pin, with_number.
  rewrite bool_decide_eq_false_2, bool_decide_eq_true_2 by done.
  destruct (parse_u32 text) as [pin|] eqn:Ep; [|apply runs_exit].
  destruct (UINT16_MAX <? pin) eqn:E16; [apply runs_exit|].
  apply parse_u32_range in Ep.
  assert (Hp : is_u16 pin) by (unfold UINT16_MAX in *; word_lia).
  rewrite (wrap_small 16) by done.
  destruct (operations_over_mailbox fuel pin 0 0 0 s Hm Hp) as (_ & _ & (o & E & Hd) & _).
  unfold runs, mbind, st_bind. rewrite E. destruct (gpio_is_valid pin).
  - eexists _, o. split; [reflexivity|]. cbn. rewrite Hd.
    by destruct (gpio_get_value pin (device (os s))).
  - eexists _, o. split; [reflexivity|]. cbn. by rewrite Hd.
Qed.

Lemma gpio_set_runs s argv text level :
  mailbox_handle s -> argv !! 2%nat = Some text -> argv !! 3%nat = Some level ->
  runs (run_gpio_set fuel 4 argv) "gpio-set" s
    (spec_main [""; "gpio-set"; text; level]%string (device (os s))).
Proof.
  intros Hm Ht Hl. unfold run_gpio_set. change (negb (4 =? 4)) with false. cbn beta iota.
  rewrite Ht, bind_lift. unfold spec_main, with_pin, with_number.
  rewrite bool_decide_eq_true_2 by done.
  destruct (parse_u32 text) as [pin|] eqn:Ep; [|apply runs_exit].
  destruct (UINT16_MAX <? pin) eqn:E16; [apply runs_exit|].
  rewrite Hl, bind_lift.
  destruct (parse_u32 level) as [value|] eqn:Ev; [|apply runs_exit].
  apply parse_u32_range in Ep, Ev.
  assert (Hp : is_u16 pin) by (unfold UINT16_MAX in *; word_lia).
  rewrite (wrap_small 16) by done. word_unfold.
  destruct (operations_over_mailbox fuel pin (to_int value) 0 0 s Hm Hp) as (Hok & Hno & _).
  unfold runs, mbind, st_bind. destruct (value <=? 1) eqn:E1; cbn [andb].
  - assert (Ei : to_int value = value) by (unfold to_int, INT_MAX; case_tests).
    rewrite Ei in *. destruct Hok as (o & E & Hd); [unfold in_range; lia|].
    rewrite E. exists (inr (if gpio_is_valid pin then (0, [PrintPin pin value]) else (- EINVAL, []))), o.
    destruct (gpio_is_valid pin); cbn; by rewrite Hd.
  - rewrite Hno by (unfold to_int, INT_MAX; case_tests).
    exists (inr (- EINVAL, [])), (os s). split; [by destruct s|done].
Qed.

Lemma wrong_count_runs s (b : bool) m command :
  b = true -> runs (if b then mret (inl usage) else m) command s (usage, device (os s)).
Proof. intros ->. apply runs_exit. Qed.

(** Only a wrong command line exits at once, and always with status 2. *)
Definition exits_at_once (m : ST (client L) ((Z * list report) + (Z * list report))) : Prop :=
  forall s r s', m s = Some (inl r, s') -> r.1 = 2.

Lemma mret_exits r : r.1 = 2 -> exits_at_once (mret (inl r)).
Proof. by intros Hr s r' s' [= <- _]. Qed.

Lemma run_command_exits command argc argv : exits_at_once (run_command fuel command argc argv).
Proof.
  assert (Hb : forall A (m : ST (client L) A) f, (forall a, exits_at_once (f a)) ->
    exits_at_once (x ← m; f x)).
  { intros A m f Hf s r s' E. step_inv E. by eapply Hf. }
  assert (Hr : forall r, exits_at_once (mret (inr r))) by by intros r s r' s'.
  unfold run_command, run_info, run_ping, run_gpio_set, run_gpio_get.
  repeat first
    [ apply Hr | by apply mret_exits | apply Hb; intros ?
    | match goal with |- exits_at_once (match ?x with _ => _ end) => destruct x end ].
Qed.

(** The command after a successful open. *)
Lemma run_command_spec s name command args :
  mailbox_handle s ->
  let argv := name :: command :: args in
  runs (run_command fuel command (Z.of_nat (List.length argv)) argv) command s
    (spec_main argv (device (os s))).
Proof.
  intros Hm argv. subst argv. unfold run_command.
  destruct (bool_decide (command = "info"%string)) eqn:Ei;
    [|destruct (bool_decide (command = "ping"%string)) eqn:Eg;
      [|destruct (bool_decide (command = "gpio-set"%string)) eqn:Es;
        [|destruct (bool_decide (command = "gpio-get"%string)) eqn:Et]]].
  - apply bool_decide_eq_true in Ei as ->. destruct args as [|x args].
    + by apply info_runs.
    + unfold spec_main. destruct args as [|y [|]];
        rewrite ?(bool_decide_eq_false_2 ("info"%string = _)) by done;
        apply wrong_count_runs; cbn [List.length]; lia.
  - apply bool_decide_eq_true in Eg as ->. destruct args as [|x [|y args]].
    + by apply wrong_count_runs.
    + by apply ping_runs.
    + unfold spec_main. destruct args;
        rewrite ?(bool_decide_eq_false_2 ("ping"%string = _)) by done;
        apply wrong_count_runs; cbn [List.length]; lia.
  - apply bool_decide_eq_true in Es as ->. destruct args as [|x [|y [|z args]]];
      try by apply wrong_count_runs.
    + by apply gpio_set_runs.
    + unfold spec_main. apply wrong_count_runs. cbn [List.length]. lia.
  - apply bool_decide_eq_true in Et as ->. destruct args as [|x [|y args]].
    + by apply wrong_count_runs.
    + by apply gpio_get_runs.
    + unfold spec_main. destruct args;
        rewrite ?(bool_decide_eq_false_2 ("gpio-get"%string = _)) by done;
        apply wrong_count_runs; cbn [List.length]; lia.
  - unfold spec_main. destruct args as [|x [|y [|]]]; rewrite ?Ei, ?Eg, ?Es, ?Et;
      apply runs_exit.
Qed.

(** C22: the command-line client does what its usage says. On a kernel without shared
    memory and with a firmware that answers within the default timeout, for every
    argument vector, [main] ends with the exit status, the report
    and the effect on the device that [spec_main] lists: "info", "ping <n>",
    "gpio-get <pin>" and "gpio-set <pin> <0|1>" report the firmware's answer with
    status 0, and [gpio-set] drives exactly the pin; a pin that is no line, or a
    level other than 0 and 1, is status 1 and changes nothing; an unknown command, a
    wrong number of arguments, a text that is no number or too large is status 2 and
    changes nothing. With status 0 and 1 the handle has been closed. *)
Theorem command_line argv s :
  mailbox_kernel (os s) ->
  let '(status, printed, w) := spec_main argv (device (os s)) in
  exists s', main fuel argv s = Some ((status, printed), s') /\ device (os s') = w /\
    (status <> 2 -> rtos s' = Some SG2002_RTOS_INITIALIZER).
Proof.
  intros Hk. unfold main. unfold mbind at 1, st_bind at 1. cbn [modify].
  set (s0 := set_rtos SG2002_RTOS_INITIALIZER s).
  destruct argv as [|name [|command args]]; [by exists s0..|].
  replace (Z.of_nat _ <? 2) with false by (cbn [List.length]; lia).
  destruct (open_mailbox s0 Hk eq_refl) as (s1 & E1 & Hm & D1).
  change (device (os s0)) with (device (os s)) in D1.
  destruct (run_command_spec s1 name command args Hm) as (r & o & E2 & Er). rewrite D1 in Er.
  destruct (spec_main _ _) as [[status printed] w]. injection Er as Er Ew.
  unfold mbind at 1, st_bind at 1. rewrite E1. change (negb (0 =? 0)) with false.
  cbn beta iota. cbn [lookup list_lookup]. rewrite bind_lift.
  unfold mbind at 1, st_bind at 1. rewrite E2.
  destruct r as [[st pr]|[ret pr]]; cbn [ended] in Er; cbn beta iota.
  { injection Er as -> ->. exists (set_os o s1). split; [done|]. split; [exact Ew|].
    intros Hne. by apply run_command_exits in E2. }
  destruct (close_mailbox (set_os o s1)) as (s2 & E3 & Hr & Hd); [exact Hm|].
  unfold mbind, st_bind. rewrite E3. exists s2.
  cbn [os set_os] in Hd. rewrite Hd, Ew. split; [|done].
  destruct (negb (ret =? 0)); by injection Er as <- <-.
Qed.

End CommandLine.

#[global] Instance simboard_quiet : QuietDevice SimBoard.t RegisterBank.t.
Proof.
  split; [intros path o|intros d o|intros d o]; destruct o as [o w].
  - done.
  - cbn. unfold SimBoard.on_sim. cbn. by destruct (Sim.features o =? 0).
  - done.
Qed.

(** A kernel without shared memory, line 10 of bank B low. *)
Definition demo_shell : client SimBoard.t :=
  Client None (Sim.booted 0 1 [], demo_device).

Definition demo_argv : list string := ["rtos-cmd"; "gpio-set"; "0xb0a"; "1"]%string.

Lemma command_line_witness :
  mailbox_kernel (os demo_shell) /\
  exists s', main 1 demo_argv demo_shell = Some ((0, [PrintPin 0xb0a 1]), s') /\
    device (os s') = gpio_direction_output 0xb0a 1 demo_device /\
    (0 <> 2 -> rtos s' = Some SG2002_RTOS_INITIALIZER).
Proof.
  assert (Hk : mailbox_kernel (os demo_shell)).
  { eexists _, _, _, _. split; [vm_compute; reflexivity|]. split; [lia|].
    split; vm_compute; reflexivity. }
  split; [exact Hk|]. exact (command_line 1 demo_argv demo_shell Hk).
Defined.
