(* ===== verification/Bench.v ===== *)
(** * The round-trip benchmark: [tools/rtos-bench.c]

    Requests with a known answer are sent either one at a time or with up to a
    window of them outstanding, each answer is checked and timed, and the latencies
    are sorted for percentiles. Computations of a windowed phase run on the client of
    the library and the phase's variables. Access outside an array and signed
    overflow are [None]. *)

From Stdlib Require Import String.
From stdpp Require Import sorting.
From S2P Require Import Prelude Protocol Shm Strtoul.
From S2P Require Import LinuxOs LinuxRtos.
Local Open Scope Z_scope.

Definition EDEADLK : Z := 35.
Definition EOVERFLOW : Z := 75.
Definition ENOTCONN : Z := 107.

Definition DEFAULT_SAMPLES : Z := 2000.
Definition DEFAULT_WARMUP : Z := 100.
Definition MAX_SAMPLES : Z := 1000000.
Definition CMDQU_BYTES_PER_ROUND_TRIP : Z := 16.
Definition VALUE_BYTES_PER_ROUND_TRIP : Z := 8.
Definition SHM_BYTES_PER_ROUND_TRIP : Z := SG2002_RTOS_SHM_SLOT_SIZE * 2.
Definition MAX_ECHO_DATA_BYTES : Z := SG2002_RTOS_SHM_PAYLOAD_SIZE - 1.

(** [struct timespec]. *)
Record timespec := Timespec { tv_sec : Z; tv_nsec : Z }.

(** What the tools use beside the library: the raw monotonic clock, and memory for
    the samples. *)
Class BenchSystem (O : Type) `{Linux O} := {
  clock_gettime : O -> sys timespec * O;
  calloc : Z -> Z -> O -> bool * O;
  free : O -> unit * O;
}.

Record window_ticket := Ticket {
  ticket_sequence : Z;
  ticket_seed : Z;
  ticket_start : timespec;
  active : bool;
}.

Record window_stats := WindowStats {
  max_in_flight : Z;
  send_eagain : Z;
  receive_eagain : Z;
  poll_wakeups : Z;
  submit_calls : Z;
  reap_calls : Z;
}.

(** ** Arguments: [None] is [exit(2)] *)

Definition parse_count (text : string) : option Z :=
  let '(value, rest) := strtoul text in
  if not_a_number text rest || (value =? 0) || (MAX_SAMPLES <? value)
  then None else Some value.

Definition parse_payload_size (text : string) : option Z :=
  let '(value, rest) := strtoul text in
  if not_a_number text rest || (MAX_ECHO_DATA_BYTES <? value) then None else Some value.

Definition parse_window (text : string) : option Z :=
  let '(value, rest) := strtoul text in
  if not_a_number text rest || (value =? 0) || (SG2002_RTOS_SHM_SLOT_COUNT <? value)
  then None else Some value.

(** ** Samples *)

(** An [int64_t] result. *)
Definition s64 (z : Z) : option Z :=
  if (- 2 ^ 63 <=? z) && (z <? 2 ^ 63) then Some z else None.

Definition elapsed_ns (start stop : timespec) : option Z :=
  seconds ← s64 (tv_sec stop - tv_sec start);
  nanoseconds ← s64 (tv_nsec stop - tv_nsec start);
  scaled ← s64 (seconds * 1000000000);
  total ← s64 (scaled + nanoseconds);
  Some (u64 total).

Definition compare_u64 (a b : Z) : Z := Z.b2z (b <? a) - Z.b2z (a <? b).

(** [qsort(samples, count, sizeof(uint64_t), compare_u64)]. *)
Definition compares (a b : Z) : Prop := compare_u64 a b <= 0.

#[global] Instance compares_dec : RelDecision compares.
Proof. intros a b. unfold compares. apply _. Defined.

Definition qsort (count : Z) (samples : list Z) : list Z :=
  merge_sort compares (take (Z.to_nat count) samples) ++ drop (Z.to_nat count) samples.

Definition percentile (samples : list Z) (count percent : Z) : option Z :=
  let rank := u64 (u64 (percent * count) + 99) / 100 in
  let rank := if rank =? 0 then 1 else rank in
  samples !! Z.to_nat (rank - 1).

(** ** Requests and their answers *)

(** [for (index = ..; ..; index++) request[index] = (uint8_t)(seed + index * 17U)] *)
Fixpoint fill_echo (indices : list nat) (seed : Z) (request : list Z) : option (list Z) :=
  match indices with
  | [] => Some request
  | i :: indices =>
      request ← array_store request (Z.of_nat i) (u8 (u32 (seed + u32 (Z.of_nat i * 17))));
      fill_echo indices seed request
  end.

(** The request buffer and the length. *)
Definition build_request (request : list Z) (echo_data_bytes seed : Z) :
    option (list Z * Z) :=
  if echo_data_bytes =? 0 then
    request ← array_store request (Z.of_nat SG2002_RTOS_VALUE_MESSAGE_COMMAND_OFFSET)
                (command_value SG2002_RTOS_CMD_PING);
    request ← write_bytes request SG2002_RTOS_VALUE_MESSAGE_VALUE_OFFSET (le_bytes 4 seed);
    Some (request, SG2002_RTOS_VALUE_MESSAGE_SIZE)
  else
    let request_length := u16 (echo_data_bytes + 1) in
    request ← array_store request 0 (command_value SG2002_RTOS_CMD_ECHO);
    request ← fill_echo (seq 1 (Z.to_nat request_length - 1)) seed request;
    Some (request, request_length).

Fixpoint check_echo (indices : list nat) (seed : Z) (response : list Z) : option Z :=
  match indices with
  | [] => Some 0
  | i :: indices =>
      byte ← response !! i;
      if negb (byte =? u8 (u32 (seed + u32 (Z.of_nat i * 17)))) then Some (- EPROTO)
      else check_echo indices seed response
  end.

(** [memcpy(&value, response + 1, 4)] in [validate_response]; [||] does not evaluate
    its second operand when the first holds. *)
Definition validate_response (response : list Z) (response_length echo_data_bytes seed : Z) :
    option Z :=
  if echo_data_bytes =? 0 then
    if negb (response_length =? SG2002_RTOS_VALUE_MESSAGE_SIZE) then Some (- EPROTO)
    else
      command ← response !! SG2002_RTOS_VALUE_MESSAGE_COMMAND_OFFSET;
      if negb (command =? command_value SG2002_RTOS_CMD_PING) then Some (- EPROTO)
      else
        value ← read_bytes response SG2002_RTOS_VALUE_MESSAGE_VALUE_OFFSET 4;
        Some (if le_value value =? Z.lxor seed SG2002_RTOS_PING_XOR then 0 else - EPROTO)
  else
    let expected_length := u16 (echo_data_bytes + 1) in
    if negb (response_length =? expected_length) then Some (- EPROTO)
    else
      command ← response !! 0%nat;
      if negb (command =? command_value SG2002_RTOS_CMD_ECHO) then Some (- EPROTO)
      else check_echo (seq 1 (Z.to_nat expected_length - 1)) seed response.

(** ** Tickets: the index of the array element, or [None] for [NULL] *)

Definition find_ticket (tickets : list window_ticket) (sequence : Z) : option nat :=
  fst <$> list_find (fun t => active t = true /\ ticket_sequence t = sequence) tickets.

Definition find_free_ticket (tickets : list window_ticket) : option nat :=
  fst <$> list_find (fun t => active t = false) tickets.

(** The variables of [run_windowed_phase]; [latency] may be [NULL]. *)
Record phase := Phase {
  tickets : list window_ticket;
  messages : list slot;
  submitted : Z;
  completed : Z;
  in_flight : Z;
  latency : option (list Z);
  latency_sum : Z;
  stats : window_stats;
}.

Definition set_tickets (t : list window_ticket) (p : phase) : phase :=
  Phase t (messages p) (submitted p) (completed p) (in_flight p) (latency p)
    (latency_sum p) (stats p).
Definition set_messages (m : list slot) (p : phase) : phase :=
  Phase (tickets p) m (submitted p) (completed p) (in_flight p) (latency p)
    (latency_sum p) (stats p).
Definition set_latency (l : option (list Z)) (sum : Z) (p : phase) : phase :=
  Phase (tickets p) (messages p) (submitted p) (completed p) (in_flight p) l sum (stats p).
Definition set_stats (s : window_stats) (p : phase) : phase :=
  Phase (tickets p) (messages p) (submitted p) (completed p) (in_flight p) (latency p)
    (latency_sum p) s.

Definition count_reap_call (s : window_stats) : window_stats :=
  WindowStats (max_in_flight s) (send_eagain s) (receive_eagain s) (poll_wakeups s)
    (submit_calls s) (u64 (reap_calls s + 1)).
Definition count_submit_call (s : window_stats) : window_stats :=
  WindowStats (max_in_flight s) (send_eagain s) (receive_eagain s) (poll_wakeups s)
    (u64 (submit_calls s + 1)) (reap_calls s).
Definition count_receive_eagain (s : window_stats) : window_stats :=
  WindowStats (max_in_flight s) (send_eagain s) (u64 (receive_eagain s + 1))
    (poll_wakeups s) (submit_calls s) (reap_calls s).
Definition count_send_eagain (s : window_stats) : window_stats :=
  WindowStats (max_in_flight s) (u64 (send_eagain s + 1)) (receive_eagain s)
    (poll_wakeups s) (submit_calls s) (reap_calls s).
Definition count_wakeup (s : window_stats) : window_stats :=
  WindowStats (max_in_flight s) (send_eagain s) (receive_eagain s)
    (u64 (poll_wakeups s + 1)) (submit_calls s) (reap_calls s).
Definition observe_in_flight (n : Z) (s : window_stats) : window_stats :=
  WindowStats (if max_in_flight s <? n then n else max_in_flight s) (send_eagain s)
    (receive_eagain s) (poll_wakeups s) (submit_calls s) (reap_calls s).

(** [ticket->active = 0; ( *in_flight)--; ( *completed)++;] *)
Definition retire (i : nat) (t : window_ticket) (p : phase) : phase :=
  Phase (<[i := Ticket (ticket_sequence t) (ticket_seed t) (ticket_start t) false]> (tickets p))
    (messages p) (submitted p) (u32 (completed p + 1)) (u32 (in_flight p - 1))
    (latency p) (latency_sum p) (stats p).

Section Phase.
Context {L : Type} `{BenchSystem L}.
Context (fuel : nat).
Local Abbreviation P := (ST (client L * phase)).

Definition lib {A} (m : ST (client L) A) : P A := fun s =>
  match m s.1 with
  | Some (a, c) => Some (a, (c, s.2))
  | None => None
  end.

Definition vars : P phase := gets snd.
Definition update (f : phase -> phase) : P unit := modify (fun s => (s.1, f s.2)).

(** The slot a received message is written to; the pointers are not [NULL]. *)
Definition slot_of_outputs (o : outputs) : option slot :=
  bytes ← out_response o; n ← out_length o; seq ← out_sequence o; Some (Slot seq n bytes).

Definition complete_response (message : slot) (echo_data_bytes : Z) : P Z :=
  stop ← lib (call clock_gettime);
  match stop with
  | Err e => mret (- e)
  | Ok stop =>
      p ← vars;
      match find_ticket (tickets p) (sequence message) with
      | None => mret (- EPROTO)
      | Some i =>
          t ← lift (tickets p !! i);
          ret ← lift (validate_response (payload message) (msg_length message)
                        echo_data_bytes (ticket_seed t));
          if negb (ret =? 0) then mret ret
          else
            (match latency p with
             | None => mret tt
             | Some l =>
                 ns ← lift (elapsed_ns (ticket_start t) stop);
                 l ← lift (array_store l (completed p) ns);
                 update (set_latency (Some l) (u64 (latency_sum p + ns)))
             end);;
            update (retire i t);;
            mret 0
      end
  end.

(** The responses [messages[index]], until one is refused. *)
Fixpoint complete_all (indices : list nat) (echo_data_bytes : Z) : P Z :=
  match indices with
  | [] => mret 0
  | i :: indices =>
      p ← vars;
      m ← lift (messages p !! i);
      ret ← complete_response m echo_data_bytes;
      if negb (ret =? 0) then mret ret else complete_all indices echo_data_bytes
  end.

(** The call that reaps, and how many messages it brought. *)
Definition reap (use_batch : bool) : P (Z * Z) :=
  p ← vars;
  if use_batch then
    '(ret, l, reaped) ← lib (sg2002_rtos_message_reap_batch fuel (Some (messages p))
                               (u16 (in_flight p)) (Some 0) 0);
    l ← lift l; reaped ← lift reaped;
    update (set_messages l);;
    mret (ret, reaped)
  else
    m ← lift (messages p !! 0%nat);
    '(ret, o) ← lib (sg2002_rtos_message_receive fuel SG2002_RTOS_SHM_PAYLOAD_SIZE
                       (Outputs (Some (payload m)) (Some (msg_length m)) (Some (sequence m))) 0);
    m ← lift (slot_of_outputs o);
    update (set_messages (<[0%nat := m]> (messages p)));;
    mret (ret, if ret =? 0 then 1 else 0).

(** The first inner loop. [inl ret]: [goto out]; [inr progressed] otherwise. *)
Fixpoint reap_loop (n : nat) (use_batch : bool) (echo_data_bytes : Z) (progressed : bool) :
    P (Z + bool) :=
  p ← vars;
  if negb (0 <? in_flight p) then mret (inr progressed)
  else
    match n with
    | O => undefined
    | S n =>
        update (fun p => set_stats (count_reap_call (stats p)) p);;
        '(ret, reaped) ← reap use_batch;
        if ret =? - EAGAIN then
          update (fun p => set_stats (count_receive_eagain (stats p)) p);;
          mret (inr progressed)
        else if negb (ret =? 0) then mret (inl ret)
        else
          ret ← complete_all (seq 0 (Z.to_nat reaped)) echo_data_bytes;
          if negb (ret =? 0) then mret (inl ret)
          else reap_loop n use_batch echo_data_bytes true
    end.

(** [messages[index]] becomes the request with this seed. *)
Fixpoint build_all (indices : list nat) (echo_data_bytes seed : Z) : P unit :=
  match indices with
  | [] => mret tt
  | i :: indices =>
      '(request, n) ← lift (build_request zero_payload echo_data_bytes
                              (u32 (seed + Z.of_nat i)));
      p ← vars;
      l ← lift (array_store (messages p) (Z.of_nat i) (Slot 0 n request));
      update (set_messages l);;
      build_all indices echo_data_bytes seed
  end.

(** The call that submits, and how many messages it took. *)
Definition submit (use_batch : bool) (submit_count : Z) : P (Z * Z) :=
  p ← vars;
  if use_batch then
    '(ret, l, now) ← lib (sg2002_rtos_message_submit_batch fuel (Some (messages p))
                            submit_count (Some 0) 0);
    l ← lift l; now ← lift now;
    update (set_messages l);;
    mret (ret, now)
  else
    m ← lift (messages p !! 0%nat);
    '(ret, seq) ← lib (sg2002_rtos_message_send fuel (Some (payload m)) (msg_length m) 0
                         (Some (sequence m)));
    seq ← lift seq;
    update (set_messages (<[0%nat := set_sequence seq m]> (messages p)));;
    mret (ret, if ret =? 0 then 1 else 0).

(** Tickets for the messages taken; [seed] is [seed_base + submitted]. *)
Fixpoint issue_tickets (indices : list nat) (seed : Z) (start : timespec) : P Z :=
  match indices with
  | [] => mret 0
  | i :: indices =>
      p ← vars;
      m ← lift (messages p !! i);
      match find_ticket (tickets p) (sequence m) with
      | Some _ => mret (- EPROTO)
      | None =>
          match find_free_ticket (tickets p) with
          | None => mret (- EOVERFLOW)
          | Some k =>
              update (set_tickets
                (<[k := Ticket (sequence m) (u32 (seed + Z.of_nat i)) start true]> (tickets p)));;
              issue_tickets indices seed start
          end
      end
  end.

(** [submitted += now; in_flight += now;] and the largest [in_flight]. *)
Definition account_submitted (now : Z) (p : phase) : phase :=
  let n := u32 (in_flight p + now) in
  Phase (tickets p) (messages p) (u32 (submitted p + now)) (completed p) n (latency p)
    (latency_sum p) (observe_in_flight n (stats p)).

(** The second inner loop. *)
Fixpoint submit_loop (n : nat) (count echo_data_bytes seed_base window : Z)
    (use_batch progressed : bool) : P (Z + bool) :=
  p ← vars;
  if negb ((submitted p <? count) && (in_flight p <? window)) then mret (inr progressed)
  else
    match n with
    | O => undefined
    | S n =>
        let submit_count := if use_batch then u16 (window - in_flight p) else 1 in
        let remaining := u32 (count - submitted p) in
        let submit_count := if remaining <? submit_count then u16 remaining else submit_count in
        let seed := u32 (seed_base + submitted p) in
        build_all (seq 0 (Z.to_nat submit_count)) echo_data_bytes seed;;
        start ← lib (call clock_gettime);
        match start with
        | Err e => mret (inl (- e))
        | Ok start =>
            update (fun p => set_stats (count_submit_call (stats p)) p);;
            '(ret, now) ← submit use_batch submit_count;
            if ret =? - EAGAIN then
              update (fun p => set_stats (count_send_eagain (stats p)) p);;
              mret (inr progressed)
            else if negb (ret =? 0) then mret (inl ret)
            else
              ret ← issue_tickets (seq 0 (Z.to_nat now)) seed start;
              if negb (ret =? 0) then mret (inl ret)
              else
                update (account_submitted now);;
                submit_loop n count echo_data_bytes seed_base window use_batch true
        end
    end.

(** [Some ret]: [goto out]. *)
Definition wait_turn (count window : Z) : P (option Z) :=
  p ← vars;
  let events := Z.lor (if 0 <? in_flight p then POLLIN else 0)
    (if (submitted p <? count) && (in_flight p <? window) then POLLOUT else 0) in
  if events =? 0 then mret (Some (- EDEADLK))
  else
    '(ret, revents) ← lib (sg2002_rtos_wait fuel events (Some 0) SG2002_RTOS_DEFAULT_TIMEOUT_MS);
    revents ← lift revents;
    if ret <? 0 then mret (if ret =? - EINTR then None else Some ret)
    else if ret =? 0 then mret (Some (- ETIMEDOUT))
    else
      update (fun p => set_stats (count_wakeup (stats p)) p);;
      mret (if negb (Z.land revents POLLNVAL =? 0) then Some (- EBADF)
            else if negb (Z.land revents (Z.lor POLLERR POLLHUP) =? 0)
            then Some (- ENOTCONN)
            else if Z.land revents events =? 0 then Some (- EIO) else None).

Fixpoint window_loop (n : nat) (count echo_data_bytes seed_base window : Z)
    (use_batch : bool) : P Z :=
  p ← vars;
  if negb (completed p <? count) then mret 0
  else
    match n with
    | O => undefined
    | S n =>
        let again := window_loop n count echo_data_bytes seed_base window use_batch in
        r ← reap_loop fuel use_batch echo_data_bytes false;
        match (r : Z + bool) with
        | inl ret => mret ret
        | inr progressed =>
            r ← submit_loop fuel count echo_data_bytes seed_base window use_batch progressed;
            match (r : Z + bool) with
            | inl ret => mret ret
            | inr progressed =>
                p ← vars;
                if completed p =? count then mret 0
                else if progressed then again
                else
                  r ← wait_turn count window;
                  match r with Some ret => mret ret | None => again end
            end
        end
    end.

Definition zero_stats : window_stats := WindowStats 0 0 0 0 0 0.
Definition zero_ticket : window_ticket := Ticket 0 0 (Timespec 0 0) false.

Definition initial_phase (latency : option (list Z)) : phase :=
  let n := Z.to_nat SG2002_RTOS_SHM_SLOT_COUNT in
  Phase (replicate n zero_ticket) (replicate n zero_slot) 0 0 0 latency 0 zero_stats.

(** The caller passes no [NULL] but [latency]. The result: [ret] and the variables,
    from which [*latency_sum], [*completed_out] and [*stats] are read. *)
Definition run_windowed_phase (count echo_data_bytes seed_base window : Z)
    (use_batch : bool) (latency : option (list Z)) : ST (client L) (Z * phase) := fun c =>
  match window_loop fuel count echo_data_bytes seed_base window use_batch
          (c, initial_phase latency) with
  | Some (ret, (c, p)) => Some ((ret, p), c)
  | None => None
  end.

End Phase.

(** ** The command line *)

Record config := Config {
  requested : Z;
  warmup : Z;
  echo_data_bytes : Z;
  window : Z;
  use_batch : bool;
}.

(** [argv[i]] read by [parse], or the default. *)
Definition argument (argv : list string) (i : nat) (default : Z)
    (parse : string -> option Z) : option Z :=
  match argv !! i with Some text => parse text | None => Some default end.

Definition parse_mode (argv : list string) : option bool :=
  match argv !! 5%nat with
  | None => Some false
  | Some text =>
      if bool_decide (text = "batch"%string) then Some true
      else if bool_decide (text = "split"%string) then Some false else None
  end.

(** [None]: exit status 2. *)
Definition parse_arguments (argv : list string) : option config :=
  if 6 <? Z.of_nat (List.length argv) then None
  else
    requested ← argument argv 1 DEFAULT_SAMPLES parse_count;
    warmup ← argument argv 2 DEFAULT_WARMUP parse_count;
    echo ← argument argv 3 0 parse_payload_size;
    window ← argument argv 4 0 parse_window;
    use_batch ← parse_mode argv;
    Some (Config requested warmup echo window use_batch).

(** What is printed, without the rates and the mean, which are floating point, and the
    lines that are the same for every run or repeat another. *)
Record latency_report := LatencyReport {
  latency_min : Z;
  latency_p50 : Z;
  latency_p95 : Z;
  latency_p99 : Z;
  latency_max : Z;
}.

Record bench_report := BenchReport {
  path : string;
  transport : string;
  mode : string;
  batch_backend : string;
  window_requested : Z;
  max_in_flight_observed : Z;
  window_report : window_stats;
  transport_bytes_per_round_trip : Z;
  message_bytes_per_round_trip : Z;
  application_bytes_per_round_trip : Z;
  echo_data_bytes_each_direction : Z;
  warmup_requested : Z;
  samples_requested : Z;
  samples_completed : Z;
  failures : Z;
  elapsed : Z;
  total_latency : Z;
  latency_ns : option latency_report;
}.

Section Main.
Context {L : Type} `{BenchSystem L}.
Context (fuel : nat).
Local Abbreviation M := (ST (client L)).

(** [ret] and [*ping_result]. *)
Definition run_transaction (echo_data_bytes seed ping_result : Z) : M (Z * Z) :=
  if echo_data_bytes =? 0 then
    '(ret, result) ← sg2002_rtos_ping fuel seed (Some ping_result);
    result ← lift result;
    mret (if negb (ret =? 0) then ret
          else if result =? Z.lxor seed SG2002_RTOS_PING_XOR then 0 else - EPROTO, result)
  else
    let request_length := u16 (echo_data_bytes + 1) in
    request ← lift (array_store zero_payload 0 (command_value SG2002_RTOS_CMD_ECHO));
    request ← lift (fill_echo (seq 1 (Z.to_nat request_length - 1)) seed request);
    '(ret, o) ← sg2002_rtos_message_call fuel (Some request) request_length
      SG2002_RTOS_SHM_PAYLOAD_SIZE (Outputs (Some zero_payload) (Some 0) None)
      SG2002_RTOS_DEFAULT_TIMEOUT_MS;
    if negb (ret =? 0) then mret (ret, ping_result)
    else
      n ← lift (out_length o);
      if negb (n =? request_length) then mret (- EPROTO, ping_result)
      else
        response ← lift (out_response o);
        sent ← lift (read_bytes request 0 (Z.to_nat request_length));
        received ← lift (read_bytes response 0 (Z.to_nat request_length));
        if bool_decide (sent = received) then mret (0, 0)
        else mret (- EPROTO, ping_result).

(** A clock that answers; what [main] does not check. *)
Definition clock_raw : M timespec :=
  now ← call clock_gettime;
  match now with Ok t => mret t | Err _ => undefined end.

(** The synchronous warm-up: [ret] of the first failure, or 0. *)
Fixpoint warm_up (indices : list nat) (echo_data_bytes result : Z) : M (Z * Z) :=
  match indices with
  | [] => mret (0, result)
  | i :: indices =>
      '(ret, result) ← run_transaction echo_data_bytes (u32 (0x13579bdf + Z.of_nat i)) result;
      if negb (ret =? 0) then mret (ret, result)
      else warm_up indices echo_data_bytes result
  end.

(** The synchronous measurement: [failed], the samples, their sum and number. *)
Fixpoint measure (indices : list nat) (echo_data_bytes result : Z) (samples : list Z)
    (sum completed : Z) : M (Z * list Z * Z * Z) :=
  match indices with
  | [] => mret (0, samples, sum, completed)
  | i :: indices =>
      start ← clock_raw;
      '(ret, result) ← run_transaction echo_data_bytes (u32 (0x2468ace0 + Z.of_nat i)) result;
      stop ← clock_raw;
      if negb (ret =? 0) then mret (1, samples, sum, completed)
      else
        ns ← lift (elapsed_ns start stop);
        samples ← lift (array_store samples completed ns);
        measure indices echo_data_bytes result samples (u64 (sum + ns)) (u32 (completed + 1))
  end.

(** [true]: the warm-up succeeded. *)
Definition run_warmup (c : config) : M bool :=
  if 0 <? window c then
    '(ret, p) ← run_windowed_phase fuel (warmup c) (echo_data_bytes c) 0x13579bdf (window c)
                  (use_batch c) None;
    mret ((ret =? 0) && (completed p =? warmup c))
  else
    '(ret, _) ← warm_up (seq 0 (Z.to_nat (warmup c))) (echo_data_bytes c) 0;
    mret (ret =? 0).

(** [failed], the samples, their sum and number, and the statistics. *)
Definition run_measurement (c : config) (samples : list Z) :
    M (Z * list Z * Z * Z * window_stats) :=
  if 0 <? window c then
    '(ret, p) ← run_windowed_phase fuel (requested c) (echo_data_bytes c) 0x2468ace0
                  (window c) (use_batch c) (Some samples);
    samples ← lift (latency p);
    mret (if negb (ret =? 0) then 1 else 0, samples, latency_sum p, completed p, stats p)
  else
    '(failed, samples, sum, done) ← measure (seq 0 (Z.to_nat (requested c)))
                                      (echo_data_bytes c) 0 samples 0 0;
    mret (failed, samples, sum, done, zero_stats).

(** [native_batch] and [failed]. *)
Definition resolve_backend (c : config) (failed : Z) : M (Z * Z) :=
  if (0 <? window c) && use_batch c && (failed =? 0) then
    native ← sg2002_rtos_native_batch_available;
    mret (native, if native <? 0 then failed + 1 else failed)
  else mret (- EAGAIN, failed).

Definition report_latency (samples : list Z) (done : Z) : option (option latency_report) :=
  if 0 <? done then
    min ← samples !! 0%nat;
    p50 ← percentile samples done 50;
    p95 ← percentile samples done 95;
    p99 ← percentile samples done 99;
    max ← samples !! Z.to_nat (done - 1);
    Some (Some (LatencyReport min p50 p95 p99 max))
  else Some None.

Definition backend_name (c : config) (native : Z) : string :=
  if negb (use_batch c) then "not_requested"%string
  else if native =? 1 then "native_ioctl"%string
  else if native =? 0 then "single_ioctl_fallback"%string else "unknown"%string.

Definition path_name (c : config) (shared_memory : bool) (native : Z) : string :=
  if 0 <? window c then
    String.append "userspace_wait_shared_memory_windowed_"
      (String.append
        (if negb (use_batch c) then "split"%string
         else if native =? 1 then "batch_native"%string
         else if native =? 0 then "batch_compat"%string else "batch_unknown"%string)
        "_freertos_round_trip")
  else if shared_memory then "userspace_ioctl_shared_memory_freertos_round_trip"%string
  else "userspace_ioctl_cmdqu_freertos_round_trip"%string.

Definition make_report (c : config) (shared_memory : bool) (native : Z) (s : window_stats)
    (failed total_ns sum done : Z) (l : option latency_report) : bench_report :=
  let echo := echo_data_bytes c in
  BenchReport
    (path_name c shared_memory native)
    (if shared_memory then "shared_memory"%string else "cmdqu"%string)
    (if window c =? 0 then "synchronous"%string
     else if use_batch c then "windowed_batch"%string else "windowed_split"%string)
    (backend_name c native)
    (window c)
    (if 0 <? window c then max_in_flight s else if 0 <? done then 1 else 0)
    s
    (if shared_memory then SHM_BYTES_PER_ROUND_TRIP else CMDQU_BYTES_PER_ROUND_TRIP)
    (if shared_memory
     then if 0 <? echo then (echo + 1) * 2 else SG2002_RTOS_VALUE_MESSAGE_SIZE * 2
     else VALUE_BYTES_PER_ROUND_TRIP)
    (if 0 <? echo then echo * 2 else VALUE_BYTES_PER_ROUND_TRIP)
    echo (warmup c) (requested c) done failed total_ns sum l.

(** After the arguments are read and the device is open. *)
Definition run_bench (c : config) (shared_memory : bool) (samples : list Z) :
    M (Z * option bench_report) :=
  total_start ← clock_raw;
  '(failed, samples, sum, done, s) ← run_measurement c samples;
  total_end ← clock_raw;
  '(native, failed) ← resolve_backend c failed;
  sg2002_rtos_close;;
  total_ns ← lift (elapsed_ns total_start total_end);
  let samples := if 0 <? done then qsort done samples else samples in
  l ← lift (report_latency samples done);
  call free;;
  mret (if (failed =? 0) && (done =? requested c) then 0 else 1,
        Some (make_report c shared_memory native s failed total_ns sum done l)).

(** Status 1 with everything given back. *)
Definition close_and_fail : M (Z * option bench_report) :=
  sg2002_rtos_close;; call free;; mret (1, None).

Definition main (argv : list string) : M (Z * option bench_report) :=
  modify (set_rtos (Handle (-1) None));;
  match parse_arguments argv with
  | None => mret (2, None)
  | Some c =>
      allocated ← call (calloc (requested c) 8);
      if negb allocated then mret (1, None)
      else
        let samples := replicate (Z.to_nat (requested c)) 0 in
        ret ← sg2002_rtos_open None;
        if negb (ret =? 0) then call free;; mret (1, None)
        else
          available ← sg2002_rtos_shared_memory_available;
          let shared_memory := negb (available =? 0) in
          if ((0 <? echo_data_bytes c) || (0 <? window c)) && negb shared_memory
          then close_and_fail
          else
            warm ← run_warmup c;
            if negb warm then close_and_fail else run_bench c shared_memory samples
  end.

End Main.
