(* ===== verification/BenchSpec.v ===== *)
(** * What the benchmark measures

    The answers the benchmark accepts are exactly those the firmware gives
    (App.v), and its percentiles are nearest-rank percentiles of the samples. *)

From Stdlib Require Import String.
From stdpp Require Import sorting.
From S2P Require Import Prelude Protocol Shm Gpio App.
From S2P Require Import LinuxOs LinuxRtos Bench.
Local Open Scope Z_scope.

(** ** Messages *)

(** Byte [i] of an echo request. *)
Definition echo_byte (seed : Z) (i : nat) : Z := u8 (u32 (seed + u32 (Z.of_nat i * 17))).

(** The request of [echo] data bytes with a seed: a PING without data. *)
Definition request_bytes (echo seed : Z) : list Z :=
  if echo =? 0 then value_message (command_value SG2002_RTOS_CMD_PING) seed
  else command_value SG2002_RTOS_CMD_ECHO ::
       (echo_byte seed <$> seq 1 (Z.to_nat echo)).

(** The answer the tool expects. *)
Definition reply_bytes (echo seed : Z) : list Z :=
  if echo =? 0
  then value_message (command_value SG2002_RTOS_CMD_PING)
         (Z.lxor seed SG2002_RTOS_PING_XOR)
  else request_bytes echo seed.

Definition echo_size (echo : Z) : Prop := 0 <= echo <= MAX_ECHO_DATA_BYTES.

Lemma request_bytes_length echo seed :
  echo_size echo ->
  Z.of_nat (length (request_bytes echo seed)) =
    if echo =? 0 then SG2002_RTOS_VALUE_MESSAGE_SIZE else echo + 1.
Proof.
  intros [Hlo Hhi]. unfold request_bytes. destruct (echo =? 0); [done|].
  cbn [length]. rewrite length_fmap, length_seq. lia.
Qed.

Lemma reply_bytes_length echo seed :
  length (reply_bytes echo seed) = length (request_bytes echo seed).
Proof. unfold reply_bytes, request_bytes. by destruct (echo =? 0). Qed.

(** [fill_echo] from position [length pre] on. *)
Lemma fill_echo_spec seed k : forall (pre rest : list Z),
  (k <= length rest)%nat ->
  fill_echo (seq (length pre) k) seed (pre ++ rest) =
    Some (pre ++ (echo_byte seed <$> seq (length pre) k) ++ drop k rest).
Proof.
  induction k as [|k IH]; intros pre rest Hk; cbn [seq fill_echo fmap list_fmap].
  { by rewrite drop_0. }
  destruct rest as [|x rest]; [cbn [length] in Hk; lia|]. cbn [length] in Hk.
  rewrite array_store_prefix. cbn [mbind option_bind].
  fold (echo_byte seed (length pre)).
  specialize (IH (pre ++ [echo_byte seed (length pre)]) rest ltac:(lia)).
  rewrite length_app, Nat.add_1_r in IH. rewrite IH. by rewrite <- !app_assoc.
Qed.

(** The message at the front of the zeroed buffer. *)
Lemma build_request_spec echo seed :
  echo_size echo ->
  let m := request_bytes echo seed in
  build_request zero_payload echo seed =
    Some (m ++ drop (length m) zero_payload, Z.of_nat (length m)).
Proof.
  intros He m. unfold build_request, m, request_bytes.
  destruct (echo =? 0) eqn:E0.
  - cbn [length value_message]. rewrite le_bytes_length. reflexivity.
  - unfold echo_size, MAX_ECHO_DATA_BYTES in He.
    change SG2002_RTOS_SHM_PAYLOAD_SIZE with 1018 in He.
    rewrite (wrap_small 16) by word_lia.
    change (array_store zero_payload 0 (command_value SG2002_RTOS_CMD_ECHO)) with
      (Some ([command_value SG2002_RTOS_CMD_ECHO] ++ tail zero_payload)).
    cbn [mbind option_bind].
    replace (Z.to_nat (echo + 1) - 1)%nat with (Z.to_nat echo) by lia.
    change 1%nat with (length [command_value SG2002_RTOS_CMD_ECHO]) at 1.
    rewrite fill_echo_spec.
    2: { change (length (tail zero_payload)) with 1017%nat. lia. }
    cbn [mbind option_bind length]. rewrite length_fmap, length_seq.
    replace (Z.of_nat (S (Z.to_nat echo))) with (echo + 1) by lia. reflexivity.
Qed.

Lemma check_echo_spec seed k : forall (pre rest : list Z),
  (k <= length rest)%nat ->
  check_echo (seq (length pre) k) seed (pre ++ rest) =
    Some (if decide (take k rest = (echo_byte seed <$> seq (length pre) k)) then 0
          else - EPROTO).
Proof.
  induction k as [|k IH]; intros pre rest Hk; cbn [seq check_echo fmap list_fmap].
  { by rewrite decide_True. }
  destruct rest as [|x rest]; [cbn [length] in Hk; lia|]. cbn [length] in Hk.
  rewrite lookup_app_r, Nat.sub_diag by lia. cbn [lookup list_lookup mbind option_bind take].
  fold (echo_byte seed (length pre)).
  destruct (x =? echo_byte seed (length pre)) eqn:Ex; cbn [negb].
  - specialize (IH (pre ++ [x]) rest ltac:(lia)).
    rewrite length_app, Nat.add_1_r, <- app_assoc in IH. cbn [app] in IH. rewrite IH.
    apply Z.eqb_eq in Ex as ->. do 2 case_decide; try done; exfalso; congruence.
  - rewrite decide_False; [done|]. intros Hx. injection Hx as Hx _.
    apply Z.eqb_neq in Ex. by apply Ex.
Qed.

Lemma value_message_read command value rest :
  is_u32 value -> read_bytes (value_message command value ++ rest) 1 4 = Some (le_bytes 4 value).
Proof. intros Hv. by rewrite read_bytes_Some by (cbn; lia). Qed.

(** Four bytes are determined by the word they make. *)
Lemma le_bytes_value bs :
  is_bytes bs -> le_bytes (length bs) (le_value bs) = bs.
Proof.
  induction bs as [|b bs IH]; intros Hb; [done|]. inversion_clear Hb as [|? ? Hb1 Hb2].
  cbn [length le_value le_bytes]. word_unfold. f_equal; [lia|].
  replace ((b + 256 * le_value bs) / 256) with (le_value bs) by lia. exact (IH Hb2).
Qed.

Lemma value_reply_iff bytes command value :
  is_bytes bytes -> length bytes = 5%nat -> is_u32 value ->
  bytes = value_message command value <->
  exists b data, bytes = b :: data /\ b = command /\ le_value data = value.
Proof.
  intros Hb Hl Hv. split.
  - intros ->. eexists _, _. split; [done|]. split; [done|]. by apply le_value_u32.
  - intros (b & data & -> & -> & <-). unfold value_message. f_equal.
    inversion_clear Hb as [|? ? _ Hd]. cbn [length] in Hl.
    replace 4%nat with (length data) by lia. by rewrite le_bytes_value.
Qed.

(** [validate_response] compares the message with the expected one. *)
Lemma validate_response_spec response n echo seed :
  echo_size echo -> is_u32 seed -> is_bytes response ->
  length response = Z.to_nat SG2002_RTOS_SHM_PAYLOAD_SIZE ->
  validate_response response n echo seed =
    Some (if decide (n = Z.of_nat (length (reply_bytes echo seed)) /\
                     take (Z.to_nat n) response = reply_bytes echo seed)
          then 0 else - EPROTO).
Proof.
  intros He Hs Hb Hl. change (Z.to_nat SG2002_RTOS_SHM_PAYLOAD_SIZE) with 1018%nat in Hl.
  rewrite reply_bytes_length, request_bytes_length by done.
  unfold validate_response, reply_bytes.
  unfold echo_size, MAX_ECHO_DATA_BYTES in He. change SG2002_RTOS_SHM_PAYLOAD_SIZE with 1018 in He.
  destruct (echo =? 0) eqn:E0.
  - change SG2002_RTOS_VALUE_MESSAGE_SIZE with 5 in *.
    destruct (n =? 5) eqn:En; cbn [negb]; [|rewrite decide_False; [done|lia]].
    assert (n = 5) as -> by lia. change (Z.to_nat 5) with 5%nat.
    assert (Hx : is_u32 (Z.lxor seed SG2002_RTOS_PING_XOR)) by (by apply lxor_range).
    destruct response as [|b data]; [done|]. cbn [lookup list_lookup mbind option_bind
      SG2002_RTOS_VALUE_MESSAGE_COMMAND_OFFSET].
    cbn [length] in Hl. unfold SG2002_RTOS_VALUE_MESSAGE_VALUE_OFFSET.
    rewrite read_bytes_Some by (cbn [length]; lia). change (drop 1 (b :: data)) with data.
    cbn [mbind option_bind]. pose proof (value_reply_iff (take 5 (b :: data))
      (command_value SG2002_RTOS_CMD_PING) (Z.lxor seed SG2002_RTOS_PING_XOR)) as Hiff.
    specialize (Hiff ltac:(by apply Forall_take)
      ltac:(rewrite length_take; cbn [length]; lia) Hx).
    cbn [take] in *. destruct (b =? _) eqn:Eb; cbn [negb].
    + f_equal. destruct (le_value (take 4 data) =? _) eqn:Ev.
      * rewrite decide_True; [done|]. split; [done|]. apply Hiff.
        eexists _, _. split; [done|]. lia.
      * rewrite decide_False; [done|]. intros [_ Em]. apply Hiff in Em as (? & ? & Eq & _ & Hv).
        injection Eq as <- <-. lia.
    + rewrite decide_False; [done|]. intros [_ Em]. apply Hiff in Em as (? & ? & Eq & Hb' & _).
      injection Eq as <- _. lia.
  - rewrite (wrap_small 16) by word_lia.
    destruct (n =? echo + 1) eqn:En; cbn [negb]; [|rewrite decide_False; [done|lia]].
    assert (n = echo + 1) as -> by lia.
    destruct response as [|b data]; [done|]. cbn [lookup list_lookup mbind option_bind].
    cbn [length] in Hl. replace (Z.to_nat (echo + 1)) with (S (Z.to_nat echo)) by lia.
    unfold request_bytes. rewrite E0. cbn [take].
    destruct (b =? _) eqn:Eb; cbn [negb].
    + replace (S (Z.to_nat echo) - 1)%nat with (Z.to_nat echo) by lia.
      pose proof (check_echo_spec seed (Z.to_nat echo) [b] data ltac:(lia)) as Hc.
      cbn [length app] in Hc. rewrite Hc. apply Z.eqb_eq in Eb as ->. f_equal.
      destruct (decide (take (Z.to_nat echo) data = _)) as [Et|Et].
      * rewrite decide_True; [done|]. by rewrite Et.
      * rewrite decide_False; [done|]. intros [_ Em]. apply Et. by injection Em.
    + rewrite decide_False; [done|]. intros [_ Em]. injection Em as Em _.
      apply Z.eqb_neq in Eb. by apply Eb.
Qed.

(** The firmware's answer to the request. *)
Lemma request_answered {W} `{Mmio W} echo seed (w : W) :
  echo_size echo -> is_u32 seed ->
  spec_reply (request_bytes echo seed) w = (Some (reply_bytes echo seed), w).
Proof.
  intros He Hs. unfold request_bytes, reply_bytes. destruct (echo =? 0) eqn:E0.
  - unfold spec_reply, value_message. cbn [negb].
    change (negb _) with false. cbn iota.
    change (command_value SG2002_RTOS_CMD_PING =? command_value SG2002_RTOS_CMD_ECHO) with false.
    cbn iota. rewrite decide_True by done. rewrite le_value_u32 by done. reflexivity.
  - unfold request_bytes. rewrite E0. reflexivity.
Qed.

(** ** Properties *)

(** C18: the benchmark accepts exactly the firmware's answer. For every size of echo
    data up to 1017 bytes and every seed, [build_request] writes a message inside the
    zeroed payload, the rest staying zero; the application handler of the firmware
    answers it; and [validate_response] returns 0 for a received message when its
    length and bytes are those of that answer and -EPROTO for every other message,
    without reading outside the payload. *)
Theorem accepts_firmware_answer {W} `{Mmio W} (w : W) response n echo seed :
  echo_size echo -> is_u32 seed -> is_bytes response ->
  length response = Z.to_nat SG2002_RTOS_SHM_PAYLOAD_SIZE ->
  exists m reply,
    build_request zero_payload echo seed =
      Some (m ++ drop (length m) zero_payload, Z.of_nat (length m)) /\
    spec_reply m w = (Some reply, w) /\
    validate_response response n echo seed =
      Some (if decide (n = Z.of_nat (length reply) /\ take (Z.to_nat n) response = reply)
            then 0 else - EPROTO).
Proof.
  intros He Hs Hb Hl. exists (request_bytes echo seed), (reply_bytes echo seed).
  split_and!; [by apply build_request_spec|by apply request_answered|].
  by apply validate_response_spec.
Qed.

Lemma accepts_firmware_answer_witness :
  echo_size 3 /\ is_u32 7 /\
  let response := (0x62 :: [24; 41; 58]) ++ replicate 1014 0 in
  is_bytes response /\
  exists m reply, build_request zero_payload 3 7 =
      Some (m ++ drop (length m) zero_payload, Z.of_nat (length m)) /\
    spec_reply m (∅ : RegisterBank.t) = (Some reply, ∅) /\
    validate_response response 4 3 7 =
      Some (if decide (4 = Z.of_nat (length reply) /\ take (Z.to_nat 4) response = reply)
            then 0 else - EPROTO).
Proof.
  assert (He : echo_size 3) by (unfold echo_size, MAX_ECHO_DATA_BYTES; vm_compute; split; discriminate).
  assert (Hs : is_u32 7) by (unfold in_range; lia).
  split; [exact He|]. split; [exact Hs|]. intros response.
  assert (Hb : is_bytes response) by (apply (bool_decide_unpack _); vm_compute; exact I).
  split; [exact Hb|].
  exact (accepts_firmware_answer (∅ : RegisterBank.t) response 4 3 7 He Hs Hb eq_refl).
Defined.

(** ** Percentiles *)

(** How many of the samples are at most [v]. *)
Definition at_most (v : Z) (samples : list Z) : nat := length (filter (fun x => x <= v) samples).

(** [v] is the nearest-rank percentile: the least sample that at least [percent] per
    cent of the samples do not exceed. *)
Definition nearest_rank (samples : list Z) (percent v : Z) : Prop :=
  let enough y := percent * Z.of_nat (length samples) <= 100 * Z.of_nat (at_most y samples) in
  v ∈ samples /\ enough v /\ forall y, y ∈ samples -> enough y -> v <= y.

Lemma compares_le a b : compares a b <-> a <= b.
Proof. unfold compares, compare_u64. destruct (b <? a) eqn:?, (a <? b) eqn:?; cbn; lia. Qed.

#[export] Instance compares_total : Total compares.
Proof. intros a b. rewrite !compares_le. lia. Qed.

#[export] Instance compares_trans : Transitive compares.
Proof. intros a b c. rewrite !compares_le. lia. Qed.

Lemma sorted_le l : Sorted compares l -> StronglySorted Z.le l.
Proof.
  intros Hs. apply (Sorted_StronglySorted _) in Hs. induction Hs as [|x l _ IH Hx];
    constructor; [done|]. eapply Forall_impl; [exact Hx|]. intros y. by rewrite compares_le.
Qed.

(** Splitting a sorted list at a position. *)
Lemma sorted_split l k v :
  StronglySorted Z.le l -> l !! k = Some v ->
  Forall (fun x => x <= v) (take (S k) l) /\ Forall (fun x => v <= x) (drop k l).
Proof.
  revert k. induction l as [|x l IH]; intros k Hs Hk; [done|].
  apply StronglySorted_inv in Hs as [Hs Hx]. destruct k as [|k].
  - injection Hk as ->. cbn [take drop]. rewrite take_0. split; constructor; try done; try lia.
  - cbn in Hk. destruct (IH k Hs Hk) as [H1 H2]. cbn [take drop].
    split; [|exact H2]. constructor; [|exact H1].
    by apply (Forall_lookup_1 _ _ _ _ Hx Hk).
Qed.

Lemma at_most_app v l1 l2 : at_most v (l1 ++ l2) = (at_most v l1 + at_most v l2)%nat.
Proof. unfold at_most. by rewrite filter_app, length_app. Qed.

Lemma at_most_all v l : Forall (fun x => x <= v) l -> at_most v l = length l.
Proof.
  unfold at_most. induction 1 as [|x l Hx _ IH]; [done|].
  rewrite filter_cons_True by done. cbn [length]. by rewrite IH.
Qed.

Lemma at_most_none v l : Forall (fun x => v < x) l -> at_most v l = 0%nat.
Proof.
  unfold at_most. induction 1 as [|x l Hx _ IH]; [done|].
  by rewrite filter_cons_False by lia.
Qed.

Lemma at_most_bound v l : (at_most v l <= length l)%nat.
Proof. apply length_filter. Qed.

Lemma sorted_rank l k v y :
  StronglySorted Z.le l -> l !! k = Some v ->
  (S k <= at_most v l)%nat /\ ((S k <= at_most y l)%nat -> v <= y).
Proof.
  intros Hs Hk. destruct (sorted_split l k v Hs Hk) as [H1 H2].
  assert (Hl : (k < length l)%nat) by by apply lookup_lt_Some in Hk.
  split.
  - rewrite <- (take_drop (S k) l) at 1. rewrite at_most_app, (at_most_all _ _ H1), length_take.
    lia.
  - intros Hy. destruct (decide (v <= y)) as [|Hlt]; [done|]. exfalso.
    rewrite <- (take_drop k l), at_most_app in Hy.
    rewrite (at_most_none y (drop k l)) in Hy.
    + pose proof (at_most_bound y (take k l)). rewrite length_take in *. lia.
    + eapply Forall_impl; [exact H2|]. cbn. intros. lia.
Qed.

(** The rank [percentile] computes. *)
Definition rank (count percent : Z) : Z := (percent * count + 99) / 100.

Lemma rank_bounds count percent :
  1 <= count -> 1 <= percent <= 100 ->
  1 <= rank count percent <= count /\
  forall n, percent * count <= 100 * n <-> rank count percent <= n.
Proof. intros Hc Hp. unfold rank. split; [|intros n]; nia. Qed.

Lemma percentile_rank samples count percent :
  1 <= count <= UINT32_MAX -> 1 <= percent <= 100 ->
  percentile samples count percent = samples !! Z.to_nat (rank count percent - 1).
Proof.
  intros Hc Hp. unfold percentile. unfold UINT32_MAX in Hc.
  rewrite (wrap_small 64 (percent * count)) by (unfold in_range; nia).
  rewrite wrap_small by (unfold in_range; nia).
  fold (rank count percent). destruct (rank_bounds count percent ltac:(lia) Hp) as [Hr _].
  by replace (rank count percent =? 0) with false by lia.
Qed.

(** The first [count] samples, sorted in place. *)
Lemma qsort_spec count samples :
  0 <= count <= Z.of_nat (length samples) ->
  exists l, qsort count samples = l ++ drop (Z.to_nat count) samples /\
    l ≡ₚ take (Z.to_nat count) samples /\ Z.of_nat (length l) = count /\
    StronglySorted Z.le l.
Proof.
  intros Hc. exists (merge_sort compares (take (Z.to_nat count) samples)).
  pose proof (merge_sort_Permutation compares (take (Z.to_nat count) samples)) as Hp.
  split; [done|]. split; [done|]. split.
  - rewrite (Permutation_length Hp), length_take. lia.
  - apply sorted_le, Sorted_merge_sort. apply _.
Qed.

(** C35: the percentiles are nearest-rank percentiles. After sorting the [count]
    samples taken, which keeps each of them and touches nothing after them,
    [percentile] reads inside the array and returns the least sample that at least
    [percent] per cent of the samples do not exceed. *)
Theorem percentile_nearest_rank samples count percent :
  1 <= count <= Z.of_nat (length samples) -> count <= UINT32_MAX -> 1 <= percent <= 100 ->
  exists l v,
    qsort count samples = l ++ drop (Z.to_nat count) samples /\
    l ≡ₚ take (Z.to_nat count) samples /\ StronglySorted Z.le l /\
    percentile (qsort count samples) count percent = Some v /\
    nearest_rank (take (Z.to_nat count) samples) percent v.
Proof.
  intros Hc Hu Hp. destruct (qsort_spec count samples ltac:(lia)) as (l & E & Hperm & Hl & Hs).
  destruct (rank_bounds count percent ltac:(lia) Hp) as [Hr Hiff].
  set (k := Z.to_nat (rank count percent - 1)).
  destruct (lookup_lt_is_Some_2 l k) as [v Hv]; [lia|].
  exists l, v. split; [done|]. split; [done|]. split; [done|]. split.
  { rewrite percentile_rank, E by lia. fold k. by apply lookup_app_l_Some. }
  assert (Hm : forall y, at_most y (take (Z.to_nat count) samples) = at_most y l).
  { intros y. unfold at_most. by rewrite Hperm. }
  assert (Hn : Z.of_nat (length (take (Z.to_nat count) samples)) = count).
  { by rewrite <- (Permutation_length Hperm). }
  unfold nearest_rank. rewrite Hn, Hm. split_and!.
  - rewrite <- Hperm. by eapply list_elem_of_lookup_2.
  - apply Hiff. destruct (sorted_rank l k v v Hs Hv) as [H1 _]. lia.
  - intros y _ Hy. rewrite Hm in Hy. apply Hiff in Hy.
    apply (sorted_rank l k v y Hs Hv). lia.
Qed.

Lemma percentile_nearest_rank_witness :
  let samples := [5; 1; 4; 2; 3; 9; 9] in
  1 <= 5 <= Z.of_nat (length samples) /\ 5 <= UINT32_MAX /\ 1 <= 50 <= 100 /\
  percentile (qsort 5 samples) 5 50 = Some 3 /\
  exists l v, qsort 5 samples = l ++ drop (Z.to_nat 5) samples /\
    l ≡ₚ take (Z.to_nat 5) samples /\ StronglySorted Z.le l /\
    percentile (qsort 5 samples) 5 50 = Some v /\
    nearest_rank (take (Z.to_nat 5) samples) 50 v.
Proof.
  intros samples.
  assert (H1 : 1 <= 5 <= Z.of_nat (length samples)) by (cbn; lia).
  assert (H2 : 5 <= UINT32_MAX) by (unfold UINT32_MAX; lia).
  split; [exact H1|]. split; [exact H2|]. split; [lia|].
  split; [vm_compute; reflexivity|].
  exact (percentile_nearest_rank samples 5 50 H1 H2 ltac:(lia)).
Defined.
