(* ===== verification/BenchWindow.v ===== *)
(** * The window of the benchmark

    Whatever the system does, a windowed phase of [tools/rtos-bench.c] keeps its
    accounts: the active tickets are the requests outstanding, they have different
    sequence numbers, and there are never more of them than the window. *)

From S2P Require Import Prelude Protocol Shm LinuxOs LinuxSim LinuxRtos.
From S2P Require Import LinuxRtosSpec Bench BenchSpec.
Local Open Scope Z_scope.

(** The tickets in use. *)
Definition live (l : list window_ticket) : list window_ticket :=
  filter (fun t => active t = true) l.

(** ** Tickets *)

Lemma live_app l1 l2 : live (l1 ++ l2) = live l1 ++ live l2.
Proof. apply filter_app. Qed.

Lemma live_cons_true t l : active t = true -> live (t :: l) = t :: live l.
Proof. intros. by apply filter_cons_True. Qed.

Lemma live_cons_false t l : active t = false -> live (t :: l) = live l.
Proof. intros E. apply filter_cons_False. by rewrite E. Qed.

(** Where a ticket is, the array is what is before it, it, and what is after it. *)
Lemma array_split {A} (l : list A) k (x : A) :
  l !! k = Some x ->
  l = take k l ++ x :: drop (S k) l /\
  forall y, <[k := y]> l = take k l ++ y :: drop (S k) l.
Proof.
  intros Hk. split; [by rewrite take_drop_middle|]. intros y. apply insert_take_drop.
  by apply lookup_lt_Some in Hk.
Qed.

(** Retiring a ticket removes it from those in use. *)
Lemma live_retire l k t t' :
  l !! k = Some t -> active t = true -> active t' = false ->
  live l ≡ₚ t :: live (<[k := t']> l).
Proof.
  intros Hk Ha Ha'. destruct (array_split l k t Hk) as [E1 E2]. rewrite (E2 t').
  rewrite E1 at 1. rewrite !live_app, (live_cons_true t), (live_cons_false t') by done.
  by rewrite Permutation_middle.
Qed.

(** Issuing one adds it. *)
Lemma live_issue l k t t' :
  l !! k = Some t -> active t = false -> active t' = true ->
  live (<[k := t']> l) ≡ₚ t' :: live l.
Proof.
  intros Hk Ha Ha'. destruct (array_split l k t Hk) as [E1 E2]. rewrite (E2 t').
  rewrite E1 at 3. rewrite !live_app, (live_cons_false t), (live_cons_true t') by done.
  by rewrite Permutation_middle.
Qed.

Lemma find_ticket_Some l seq k :
  find_ticket l seq = Some k ->
  exists t, l !! k = Some t /\ active t = true /\ ticket_sequence t = seq.
Proof.
  unfold find_ticket. destruct (list_find _ l) as [[j t]|] eqn:E; [|done].
  intros [= <-]. apply list_find_Some in E as (Hj & [Ha Hs] & _). by exists t.
Qed.

Lemma find_ticket_None l seq :
  find_ticket l seq = None -> seq ∉ ticket_sequence <$> live l.
Proof.
  unfold find_ticket. destruct (list_find _ l) as [[j t]|] eqn:E; [done|]. intros _ Hin.
  apply list_find_None in E. apply list_elem_of_fmap in Hin as (t & -> & Hin).
  apply list_elem_of_filter in Hin as [Ha Hin]. rewrite Forall_forall in E.
  by apply (E t Hin).
Qed.

Lemma find_free_Some l k :
  find_free_ticket l = Some k -> exists t, l !! k = Some t /\ active t = false.
Proof.
  unfold find_free_ticket. destruct (list_find _ l) as [[j t]|] eqn:E; [|done].
  intros [= <-]. apply list_find_Some in E as (Hj & Ha & _). by exists t.
Qed.

Lemma find_free_exists l :
  (length (live l) < length l)%nat -> exists k, find_free_ticket l = Some k.
Proof.
  intros Hl. unfold find_free_ticket. destruct (list_find _ l) as [[j t]|] eqn:E; [by eexists|].
  exfalso. apply list_find_None in E.
  enough (live l = l) as El by (rewrite El in Hl; lia). clear Hl.
  induction E as [|t l Ht _ IH]; [done|].
  rewrite live_cons_true by (by destruct (active t)). by rewrite IH.
Qed.

(** ** The invariant *)

Definition distinct (l : list window_ticket) : Prop := NoDup (ticket_sequence <$> live l).

(** The accounts of a phase of [count] requests, [window] at a time. *)
Record accounted (count window : Z) (p : phase) : Prop := {
  accounted_distinct : distinct (tickets p);
  accounted_in_flight : in_flight p = Z.of_nat (length (live (tickets p)));
  accounted_total : in_flight p + completed p = submitted p;
  accounted_completed : 0 <= completed p;
  accounted_submitted : submitted p <= count;
  accounted_window : in_flight p <= window;
  accounted_max : max_in_flight (stats p) <= window;
}.

(** What still holds when the phase stops at an error. *)
Definition bounded (count window : Z) (p : phase) : Prop :=
  0 <= completed p <= count /\ max_in_flight (stats p) <= window.

Lemma accounted_bounded count window p : accounted count window p -> bounded count window p.
Proof. intros [? ? ? ? ? ? ?]. unfold bounded. lia. Qed.

Create HintDb window.

Section Window.
Context {L : Type} `{BenchSystem L}.
Context (fuel : nat) (count window : Z).
Context (count_u32 : count <= UINT32_MAX) (window_small : window <= SG2002_RTOS_SHM_SLOT_COUNT).
(** [batch.completed] is an unsigned field, and [errno] is positive. *)
Context (submit_results : forall d b l (o : L),
  match (ioctl_submit_batch d b l o).1.1 with
  | Ok b' => 0 <= batch_completed b'
  | Err e => 0 < e
  end).
Context (clock_errno : forall (o : L) e, (clock_gettime o).1 = Err e -> 0 < e).
Implicit Types (s : client L * phase).

Local Abbreviation ok s := (accounted count window s.2).

(** A computation that leaves the accounts alone. *)
Definition same_accounts (p p' : phase) : Prop :=
  tickets p' = tickets p /\ in_flight p' = in_flight p /\ completed p' = completed p /\
  submitted p' = submitted p /\ max_in_flight (stats p') = max_in_flight (stats p).

Definition frames {A} (m : ST (client L * phase) A) : Prop :=
  forall s a s', m s = Some (a, s') -> same_accounts s.2 s'.2.

Lemma same_accounts_trans p1 p2 p3 :
  same_accounts p1 p2 -> same_accounts p2 p3 -> same_accounts p1 p3.
Proof. unfold same_accounts. intuition congruence. Qed.

Lemma same_accounts_ok p p' :
  same_accounts p p' -> accounted count window p -> accounted count window p'.
Proof.
  intros (E1 & E2 & E3 & E4 & E5) [D I T C S W X].
  split; rewrite ?E1, ?E2, ?E3, ?E4, ?E5; done.
Qed.

Lemma frames_ret {A} (a : A) : frames (mret a).
Proof. by intros s b s' [= _ <-]. Qed.

Lemma frames_bind {A B} (m : ST _ A) (f : A -> ST _ B) :
  frames m -> (forall a, frames (f a)) -> frames (x ← m; f x).
Proof.
  intros Hm Hf s b s' E. step_to E a s1 F.
  eapply same_accounts_trans; [by eapply Hm|by eapply Hf].
Qed.

Lemma frames_lift {A} (o : option A) : frames (lift o).
Proof. destruct o; [apply frames_ret|done]. Qed.

Lemma frames_lib {A} (m : ST (client L) A) : frames (lib m).
Proof.
  intros [c p] a s' E. unfold lib in E. cbn [fst snd] in *.
  destruct (m c) as [[a' c']|]; [|done]. by injection E as _ <-.
Qed.

Lemma frames_vars : frames vars.
Proof. by intros s a s' [= _ <-]. Qed.

Lemma frames_update (f : phase -> phase) :
  (forall p, same_accounts p (f p)) -> frames (update f).
Proof. intros Hf s a s' [= _ <-]. apply Hf. Qed.

Ltac frames_tac :=
  repeat first
    [ apply frames_ret | apply frames_lift | apply frames_lib | apply frames_vars
    | by apply frames_update | solve [auto with window nocore]
    | match goal with
      | |- frames (mbind _ _) => apply frames_bind; [|intros ?]
      | |- frames (match ?x with _ => _ end) => destruct x
      end ].

Lemma frames_reap use_batch : frames (reap fuel use_batch).
Proof. unfold reap. frames_tac. Qed.

Lemma frames_build_all echo seed indices : frames (build_all indices echo seed).
Proof. induction indices as [|i indices IH]; cbn [build_all]; frames_tac. Qed.

Lemma frames_submit use_batch n : frames (submit fuel use_batch n).
Proof. unfold submit. frames_tac. Qed.

Lemma frames_wait_turn : frames (wait_turn fuel count window).
Proof. unfold wait_turn. frames_tac. Qed.

#[local] Hint Resolve frames_reap frames_build_all frames_submit frames_wait_turn : window.

(** A computation that keeps the accounts in order whatever it returns. *)
Local Abbreviation keeps := (preserves (fun s : client L * phase => ok s)).

Lemma frames_keeps {A} (m : ST _ A) : frames m -> keeps m.
Proof. intros Hm s a s' E. apply same_accounts_ok. by eapply Hm. Qed.

Ltac keeps_tac :=
  repeat first
    [ solve [apply frames_keeps; frames_tac] | solve [auto with window nocore]
    | match goal with
      | |- keeps (mbind _ _) => apply preserves_bind; [|intros ?]
      | |- keeps (match ?x with _ => _ end) => destruct x
      end ].

Lemma retire_accounted p k t :
  tickets p !! k = Some t -> active t = true ->
  accounted count window p -> accounted count window (retire k t p).
Proof using count_u32.
  intros Hk Ha [D I T C S W X].
  pose proof (live_retire (tickets p) k t
    (Ticket (ticket_sequence t) (ticket_seed t) (ticket_start t) false) Hk Ha eq_refl) as Hp.
  pose proof (Permutation_length Hp) as Hl. cbn [length] in Hl. unfold UINT32_MAX in *.
  split; unfold retire; cbn [tickets in_flight completed submitted stats]; try done.
  - unfold distinct in *. rewrite Hp in D. cbn [fmap list_fmap] in D.
    by apply NoDup_cons in D as [_ D].
  - rewrite wrap_small by word_lia. lia.
  - rewrite !wrap_small by word_lia. lia.
  - apply wrap_range. lia.
  - rewrite wrap_small by word_lia. lia.
Qed.

(** Storing the latency of a response. *)
Lemma frames_store_latency start stop p :
  frames (match latency p with
          | None => mret tt
          | Some l =>
              ns ← lift (elapsed_ns start stop);
              l ← lift (array_store l (completed p) ns);
              update (set_latency (Some l) (u64 (latency_sum p + ns)))
          end).
Proof. frames_tac. Qed.

Lemma keeps_complete_response m echo : keeps (complete_response m echo).
Proof using count_u32.
  unfold complete_response. apply preserves_bind; [keeps_tac|]. intros [stop|e]; [|keeps_tac].
  intros s a s' E Hs. step_to E p s1 F. injection F as <- <-.
  destruct (find_ticket _ _) as [k|] eqn:Ef; [|by injection E as _ <-].
  apply find_ticket_Some in Ef as (t & Ht & Ha & _). rewrite Ht in E.
  step_to E t' s1 F. injection F as <- <-. step_to E ret s1 F.
  apply frames_lift in F as F1. apply (same_accounts_ok _ _ F1) in Hs.
  destruct (negb _); [by injection E as _ <-|].
  step_to E u s2 F2. apply frames_store_latency in F2. apply (same_accounts_ok _ _ F2) in Hs.
  step_to E u2 s3 F3. injection F3 as _ <-. injection E as _ <-. cbn [snd].
  apply retire_accounted; [|done|done]. by rewrite (proj1 F2), (proj1 F1).
Qed.

#[local] Hint Resolve keeps_complete_response : window.

Lemma keeps_complete_all echo indices : keeps (complete_all indices echo).
Proof using count_u32.
  induction indices as [|i indices IH]; cbn [complete_all]; keeps_tac.
Qed.

#[local] Hint Resolve keeps_complete_all : window.

Lemma keeps_reap_loop use_batch echo n : forall progressed,
  keeps (reap_loop fuel n use_batch echo progressed).
Proof using count_u32.
  induction n as [|n IH]; intros progressed; cbn [reap_loop]; keeps_tac; done.
Qed.

(** ** Submitting *)

(** Issuing tickets, whether it stops at an error or not. *)
Lemma issue_tickets_spec start seed indices : forall s r s',
  issue_tickets indices seed start s = Some (r, s') -> distinct (tickets s.2) ->
  exists l, s' = (s.1, set_tickets l s.2) /\ distinct l /\
    (r = 0 -> length (live l) = (length (live (tickets s.2)) + length indices)%nat).
Proof.
  induction indices as [|i indices IH]; intros s r s' E Hd; cbn [issue_tickets] in E.
  { injection E as _ <-. exists (tickets s.2). split; [by destruct s as [? []]|].
    split; [done|]. cbn [length]. lia. }
  step_to E p s1 F. injection F as <- <-. step_to E m s1 F.
  destruct (messages s.2 !! i) as [m'|]; [|done]. injection F as <- <-.
  destruct (find_ticket _ _) as [|] eqn:Ef.
  { injection E as <- <-. exists (tickets s.2). split; [by destruct s as [? []]|]. done. }
  destruct (find_free_ticket _) as [k|] eqn:Ek; cycle 1.
  { injection E as <- <-. exists (tickets s.2). split; [by destruct s as [? []]|]. done. }
  apply find_ticket_None in Ef. apply find_free_Some in Ek as (t & Ht & Ha).
  step_to E u s1 F. injection F as _ <-.
  set (t' := Ticket (sequence m') (u32 (seed + Z.of_nat i)) start true) in *.
  pose proof (live_issue (tickets s.2) k t t' Ht Ha eq_refl) as Hp.
  apply IH in E as (l & -> & Hl & Hlen); cbn [fst snd] in *.
  - exists l. split; [done|]. split; [done|]. intros Hr. rewrite (Hlen Hr).
    cbn [tickets set_tickets]. rewrite (Permutation_length Hp). cbn [length]. lia.
  - unfold distinct. cbn [tickets set_tickets]. rewrite Hp. cbn [fmap list_fmap].
    by apply list.NoDup_cons.
Qed.

(** *** How many messages a batch takes *)

Lemma submit_each_bound indices : forall messages timeout_ms index (c : client L) ret l n c',
  submit_each indices messages timeout_ms index c = Some ((ret, l, n), c') ->
  index <= n <= index + Z.of_nat (length indices).
Proof.
  induction indices as [|i indices IH]; intros messages timeout_ms index c ret l n c' E;
    cbn [submit_each length] in *.
  { injection E as _ _ <- _. lia. }
  step_inv E. step_inv E. destruct p as [r1 sq]. destruct (negb _).
  - destruct (_ && _); injection E as _ _ <- _; lia.
  - step_inv E. step_inv E. apply IH in E. lia.
Qed.

Lemma submit_locked_bound messages n completed timeout_ms (c : client L) l k c' :
  submit_batch_locked messages n completed timeout_ms c = Some ((0, l, k), c') ->
  0 <= n -> 0 <= k <= n.
Proof using submit_results.
  unfold submit_batch_locked. intros E Hn. step_inv E. destruct (_ =? _).
  { apply submit_each_bound in E. rewrite length_seq in E. lia. }
  step_inv E. step_inv E. unfold call at 1, zoom in E. step_inv E.
  match type of Step2 with context [ioctl_submit_batch ?d ?b ?m ?o] =>
    pose proof (submit_results d b m o) as Hu;
    destruct (ioctl_submit_batch d b m o) as [[[b'|e] l'] o'] end;
    injection Step2 as <- <-; cbn [fst] in *; cbn beta iota in E.
  - destruct (_ || _) eqn:Eb; [done|].
    destruct (existsb _ _); [done|]. step_inv E. injection E as _ <- _. lia.
  - destruct (negb (e =? ENOTTY)) eqn:Ee.
    + step_inv E. by injection E as ? _ _ _; lia.
    + step_inv E. apply submit_each_bound in E. rewrite length_seq in E. lia.
Qed.

Lemma batch_loop_bound lk events timeout_ms deadline k n : forall messages completed remaining
    (c : client L) l now c',
  batch_loop fuel lk submit_batch_locked k events messages n completed timeout_ms deadline
    remaining c = Some ((0, l, now), c') ->
  0 <= n -> 0 <= now <= n.
Proof using submit_results.
  induction k as [|k IH]; intros messages completed remaining c l now c' E Hn; [done|].
  cbn [batch_loop] in E. step_to E r c1 F1.
  destruct (r =? 0) eqn:Er; cbn [negb] in E; [|injection E as ? _ _ _; lia].
  step_to E x c2 F2. destruct x as [[r2 l2] now2]. step_to E u c3 F3.
  destruct (transient r2); cbn [negb] in E.
  - step_to E y c4 F4. destruct y as [r4 rem].
    destruct (r4 =? 0) eqn:Er4; cbn [negb] in E; [|injection E as ? _ _ _; lia].
    by eapply IH.
  - injection E as -> _ <- _. by eapply submit_locked_bound.
Qed.

(** The call of the benchmark takes at most what it was given. *)
Lemma submit_bound use_batch n s now s' :
  submit fuel use_batch n s = Some ((0, now), s') -> 1 <= n -> 0 <= now <= n.
Proof using submit_results.
  unfold submit. intros E Hn. step_to E p s1 F. injection F as <- <-. destruct use_batch.
  - step_to E x s2 F. destruct x as [[ret l] now']. unfold lib in F.
    destruct (sg2002_rtos_message_submit_batch _ _ _ _ _ _) as [[[[r l'] k] c']|] eqn:Es; [|done].
    injection F as <- <- <- <-. step_to E l1 s2 F2. step_to E now1 s3 F3. step_to E u s4 F4.
    injection E as -> -> _. destruct k as [k|]; [|done]. injection F3 as <- _.
    unfold sg2002_rtos_message_submit_batch in Es. step_to Es d c1 G1. step_to Es a c2 G2.
    destruct (negb a); [done|]. cbn [fmap option_fmap option_map] in Es.
    destruct (_ || _); [done|]. step_to Es f c3 G3. destruct (existsb _ _); [done|].
    step_to Es y c4 G4. destruct y as [[r5 l5] k5]. injection Es as -> <- <- <-.
    eapply batch_loop_bound; [exact G4|lia].
  - step_to E m s2 F. step_to E x s3 F3. destruct x as [ret sq]. step_to E sq' s4 F4.
    step_to E u s5 F5. injection E as -> <- _. cbn. lia.
Qed.

(** *** The second inner loop *)

Lemma submitted_accounted p l now :
  accounted count window p -> distinct l -> 0 <= now ->
  Z.of_nat (length (live l)) = in_flight p + now ->
  submitted p + now <= count -> in_flight p + now <= window ->
  accounted count window (account_submitted now (set_tickets l p)).
Proof using count_u32.
  intros [D I T C S W X] Hl Hn Hlen Hs Hw. unfold UINT32_MAX in *.
  split; unfold account_submitted, observe_in_flight;
    cbn [tickets in_flight completed submitted stats set_tickets max_in_flight];
    rewrite ?wrap_small by word_lia; try done; try lia.
  destruct (_ <? _); lia.
Qed.

(** At a [goto out] the phase may have issued tickets it does not count yet. *)
Lemma set_tickets_bounded l p :
  bounded count window p -> bounded count window (set_tickets l p).
Proof. done. Qed.

Lemma submit_loop_accounted echo seed_base use_batch n : forall progressed s r s',
  submit_loop fuel n count echo seed_base window use_batch progressed s = Some (r, s') ->
  ok s ->
  match r with inl ret => ret <> 0 /\ bounded count window s'.2 | inr _ => ok s' end.
Proof using count_u32 window_small submit_results clock_errno.
  induction n as [|n IH]; intros progressed s r s' E Hs.
  { cbn [submit_loop] in E. step_to E p s1 F. injection F as <- <-.
    destruct (negb _); [by injection E as <- <-|done]. }
  cbn [submit_loop] in E. step_to E p s1 F. injection F as <- <-.
  destruct (negb _) eqn:Ec; [by injection E as <- <-|].
  pose proof Hs as [D I T C S W X].
  set (w := if use_batch then u16 (window - in_flight s.2) else 1) in *.
  assert (Hw : 1 <= w <= window - in_flight s.2).
  { unfold w, SG2002_RTOS_SHM_SLOT_COUNT, UINT32_MAX in *.
    destruct use_batch; rewrite ?wrap_small by word_lia; lia. }
  unfold UINT32_MAX, SG2002_RTOS_SHM_SLOT_COUNT in *.
  rewrite (wrap_small 32 (count - submitted s.2)) in E by word_lia.
  set (k := if count - submitted s.2 <? w then u16 (count - submitted s.2) else w) in *.
  assert (Hk : 1 <= k <= w /\ k <= count - submitted s.2).
  { unfold k. destruct (_ <? w) eqn:El; rewrite ?wrap_small by word_lia; lia. }
  step_to E u1 s1 F1. apply frames_build_all in F1.
  step_to E t s2 F0. pose proof (frames_lib _ _ _ _ F0) as F2.
  pose proof (same_accounts_trans _ _ _ F1 F2) as Fa. apply (same_accounts_ok _ _ Fa) in Hs.
  destruct t as [start|e]; cycle 1.
  { injection E as <- <-. split; [|by apply accounted_bounded].
    assert (0 < e); [|lia]. unfold lib, call, zoom in F0. cbn beta iota in F0.
    pose proof (clock_errno (os s1.1) e) as Hc. destruct (clock_gettime (os s1.1)) as [r' o'].
    injection F0 as -> _. by apply Hc. }
  step_to E u3 s3 F3. apply (frames_update (fun p => set_stats (count_submit_call (stats p)) p)) in F3;
    [|done].
  step_to E x s4 F4. destruct x as [ret now]. pose proof (frames_submit _ _ _ _ _ F4) as F5.
  pose proof (same_accounts_trans _ _ _ Fa (same_accounts_trans _ _ _ F3 F5)) as Fb.
  apply (same_accounts_ok _ _ F3), (same_accounts_ok _ _ F5) in Hs.
  destruct (ret =? - EAGAIN).
  { step_to E u6 s6 F6. injection F6 as _ <-. injection E as <- <-.
    by apply (same_accounts_ok s4.2). }
  destruct (ret =? 0) eqn:Er; cbn [negb] in E; cycle 1.
  { injection E as <- <-. split; [lia|]. by apply accounted_bounded. }
  assert (ret = 0) as -> by lia. apply submit_bound in F4; [|lia].
  step_to E ret2 s7 F7. destruct (issue_tickets_spec _ _ _ _ _ _ F7) as (l & -> & Hl & Hlen);
    [apply Hs|].
  destruct (ret2 =? 0) eqn:Er2; cbn [negb] in E; cycle 1.
  { injection E as <- <-. split; [lia|]. apply set_tickets_bounded. by apply accounted_bounded. }
  step_to E v8 s8 F8. injection F8 as _ <-. apply IH in E; [exact E|]. cbn [snd].
  destruct Fb as (Eb1 & Eb2 & Eb3 & Eb4 & Eb5). pose proof Hs as [_ I' _ _ _ _ _].
  specialize (Hlen ltac:(lia)). rewrite length_seq in Hlen.
  apply submitted_accounted; [exact Hs|exact Hl|lia|lia| |].
  - rewrite Eb4. lia.
  - rewrite Eb2. lia.
Qed.

(** *** The phase *)

Lemma reap_loop_error use_batch echo n : forall progressed s ret s',
  reap_loop fuel n use_batch echo progressed s = Some (inl ret, s') -> ret <> 0.
Proof.
  induction n as [|n IH]; intros progressed s ret s' E; cbn [reap_loop] in E;
    step_to E p s1 F; (destruct (negb _); [done|]); [done|].
  step_to E u s2 F2. step_to E x s3 F3. destruct x as [r k].
  destruct (r =? - EAGAIN); [by step_to E u4 s4 F4|].
  destruct (r =? 0) eqn:Er; cbn [negb] in E; [|by injection E as <- _; lia].
  step_to E r5 s5 F5. destruct (r5 =? 0) eqn:Er5; cbn [negb] in E; [by eapply IH|].
  injection E as <- _. lia.
Qed.

Lemma wait_turn_error s ret s' :
  wait_turn fuel count window s = Some (Some ret, s') -> ret <> 0.
Proof.
  unfold wait_turn. intros E. step_to E p s1 F. destruct (_ =? 0); [by injection E as <- _|].
  step_to E x s2 F2. destruct x as [r rev]. step_to E rv s3 F3.
  destruct (r <? 0) eqn:Er.
  { destruct (_ =? _); [done|]. injection E as <- _. lia. }
  destruct (r =? 0) eqn:E0; [by injection E as <- _|].
  step_to E u s4 F4. repeat (case_match; [by injection E as <- _|]). done.
Qed.

Lemma window_loop_accounted echo seed_base use_batch n : forall s ret s',
  window_loop fuel n count echo seed_base window use_batch s = Some (ret, s') -> ok s ->
  bounded count window s'.2 /\
  (ret = 0 -> ok s' /\ completed s'.2 = count).
Proof using count_u32 window_small submit_results clock_errno.
  assert (Hstop : forall s, ok s -> (completed s.2 <? count) = false ->
    bounded count window s.2 /\ (0 = 0 -> ok s /\ completed s.2 = count)).
  { intros s Hs Hc. pose proof (accounted_bounded _ _ _ Hs) as Hb. split; [done|].
    intros _. split; [done|]. destruct Hb. lia. }
  induction n as [|n IH]; intros s ret s' E Hs; cbn [window_loop] in E;
    step_to E p s1 F; injection F as <- <-;
    (destruct (completed s.2 <? count) eqn:Ec; cbn [negb] in E;
      [|injection E as <- <-; by apply Hstop]); [done|].
  step_to E r s2 F2. destruct r as [r|progressed].
  { injection E as <- <-. apply (keeps_reap_loop _ _ _ _ _ _ _ F2) in Hs as Hs2.
    apply reap_loop_error in F2. split; [by apply accounted_bounded|done]. }
  apply (keeps_reap_loop _ _ _ _ _ _ _ F2) in Hs as Hs2. step_to E r s3 F3.
  apply submit_loop_accounted in F3; [|done]. destruct r as [r|progressed'].
  { injection E as <- <-. by destruct F3. }
  step_to E p s4 F4. injection F4 as <- <-. destruct (completed s3.2 =? count) eqn:Ec3.
  { injection E as <- <-. split; [by apply accounted_bounded|]. intros _. split; [done|lia]. }
  destruct progressed'; [by eapply IH|].
  step_to E r s5 F5. pose proof (frames_wait_turn _ _ _ F5) as F6.
  apply (same_accounts_ok _ _ F6) in F3. destruct r as [r|]; [|by eapply IH].
  injection E as <- <-. apply wait_turn_error in F5. split; [by apply accounted_bounded|done].
Qed.

Lemma live_initial samples : live (tickets (initial_phase samples)) = [].
Proof. reflexivity. Qed.

Lemma initial_accounted samples :
  0 <= count -> 0 <= window -> accounted count window (initial_phase samples).
Proof.
  intros Hc Hw. split; unfold distinct; rewrite ?live_initial; cbn; try done. constructor.
Qed.

(** C19: a windowed phase keeps its window. Whatever the kernel and the firmware
    answer, in both modes: when [run_windowed_phase] returns, it has counted between
    0 and [count] completed requests and never saw more than [window] of them
    outstanding. A result of 0 means that all [count] requests were submitted and
    answered: none is outstanding and no ticket is in use. *)
Theorem windowed_phase_accounts echo seed_base use_batch samples (c : client L) ret p c' :
  0 <= count -> 0 <= window ->
  run_windowed_phase fuel count echo seed_base window use_batch samples c =
    Some ((ret, p), c') ->
  bounded count window p /\
  (ret = 0 -> completed p = count /\ submitted p = count /\ in_flight p = 0 /\
     live (tickets p) = []).
Proof using count_u32 window_small submit_results clock_errno.
  intros Hc Hw E. unfold run_windowed_phase in E.
  destruct (window_loop _ _ _ _ _ _ _ _) as [[r [c2 p2]]|] eqn:El; [|done].
  injection E as <- <- <-. apply window_loop_accounted in El as [Hb Hok];
    [|by apply initial_accounted].
  split; [exact Hb|]. intros Hr. destruct (Hok Hr) as [[D I T C S W X] Hcount].
  cbn [snd] in *. assert (Hl : live (tickets p2) = []) by (apply nil_length_inv; lia).
  split_and!; try done; lia.
Qed.

End Window.

(** ** The concrete system *)

(** The raw clock of LinuxSim.v shows what the other clock showed last. *)
#[global] Instance sim_bench : BenchSystem Sim.t := {|
  clock_gettime := fun o =>
    (Ok (Timespec (Z.min (Sim.now o / 1000) (2 ^ 32 - 1)) (Sim.now o mod 1000 * 10 ^ 6)), o);
  calloc := fun _ _ => os_calloc;
  free := os_free;
|}.

Lemma windowed_phase_accounts_witness :
  3 <= UINT32_MAX /\ 2 <= SG2002_RTOS_SHM_SLOT_COUNT /\
  exists p c',
    run_windowed_phase 20 3 0 5 2 true (Some [0; 0; 0]) (demo_client [] []) =
      Some ((0, p), c') /\
    bounded 3 2 p /\ completed p = 3 /\ live (tickets p) = [].
Proof.
  split; [done|]. split; [done|].
  assert (Hr : (fun r => r.1.1) <$>
    run_windowed_phase 20 3 0 5 2 true (Some [0; 0; 0]) (demo_client [] []) = Some 0)
    by (vm_compute; reflexivity).
  destruct (run_windowed_phase _ _ _ _ _ _ _ _) as [[[ret p] c']|] eqn:E; [|done].
  injection Hr as ->. exists p, c'. split; [done|].
  destruct (windowed_phase_accounts (L := Sim.t) 20 3 2 ltac:(done) ltac:(done)
    (fun d b l o => ltac:(done)) (fun o e => ltac:(done)) _ _ _ _ _ _ _ _
    ltac:(done) ltac:(done) E) as [Hb Hok].
  destruct (Hok eq_refl) as (Hc & _ & _ & Hl). split; [exact Hb|]. split; [exact Hc|exact Hl].
Defined.
