(* ===== verification/BenchRun.v ===== *)
(** * A windowed phase runs to its end

    On a system where the kernel numbers and carries the requests and the firmware's
    transport (ShmTransport.v) answers them, a windowed phase of the benchmark in the
    split mode completes every request, or reports a time-out. *)

From S2P Require Import Prelude Protocol Shm Gpio App ShmTransport.
From S2P Require Import LinuxOs LinuxSim LinuxRtos LinuxTime LinuxRtosSpec LinuxCall.
From S2P Require Import Bench BenchSpec BenchWindow.
Local Open Scope Z_scope.

(** ** The system *)

(** The driver counts its requests with 32 bits and skips 0. *)
Definition number_after (n : Z) : Z := if n =? 2 ^ 32 - 1 then 1 else n + 1.

Definition sane (t : timespec) : Prop := 0 <= tv_sec t < 2 ^ 32 /\ 0 <= tv_nsec t < 10 ^ 9.

(** The raw clock answers with a time. While fewer than 64 requests are outstanding
    the request ring has room. A [poll] for the device and the event descriptor of a
    handle that retains nothing, which no signal interrupts, waits for the device, and
    times out only when there is nothing to read. *)
Class BenchLaws (O : Type) `{LinuxLaws O, !BenchSystem O} := {
  view_clock_gettime o :
    exists t, (clock_gettime o).1 = Ok t /\ sane t /\ view (clock_gettime o).2 = view o;
  view_send_next o d t :
    v_can_send (v_peer (view o)) = true -> v_next_sequence (v_peer (view o)) <> 0 ->
    (S (length (outstanding (view o))) < 64)%nat ->
    v_peer (view (ioctl_send d t o).2) =
      Peer (number_after (v_next_sequence (v_peer (view o)))) true (v_answer (v_peer (view o)));
  view_poll_pending o d e t :
    outstanding (view o) <> [] -> v_events (view o) !! e = Some 0%nat -> -1 <= t ->
    exists c, v_clock (view o) <= c /\
      ((exists arrived later,
          (os_poll [(d, POLLIN); (e, POLLIN)] t o).1 = PollReady [POLLIN; 0] /\
          v_in_flight (view o) = arrived ++ later /\
          (v_responses (view o) ++ arrived) <> [] /\
          view (os_poll [(d, POLLIN); (e, POLLIN)] t o).2 =
            set_clock c (set_in_flight later
              (set_responses (v_responses (view o) ++ arrived) (view o)))) \/
       (0 <= t /\ v_clock (view o) + t <= c /\ v_responses (view o) = [] /\
        (os_poll [(d, POLLIN); (e, POLLIN)] t o).1 = PollTimeout /\
        view (os_poll [(d, POLLIN); (e, POLLIN)] t o).2 = set_clock c (view o)));
}.

(** ** Sequence numbers *)

Definition seq_no (i : Z) : Z := 1 + i mod (2 ^ 32 - 1).

Lemma seq_no_range i : 0 < seq_no i < 2 ^ 32.
Proof. unfold seq_no. pose proof (Z.mod_pos_bound i (2 ^ 32 - 1) ltac:(lia)). lia. Qed.

Lemma seq_no_after i : number_after (seq_no i) = seq_no (i + 1).
Proof.
  unfold number_after, seq_no. rewrite <- (Z.add_mod_idemp_l i 1) by lia.
  pose proof (Z.mod_pos_bound i (2 ^ 32 - 1) ltac:(lia)) as Hb.
  set (m := i mod (2 ^ 32 - 1)) in *. clearbody m.
  destruct (1 + m =? 2 ^ 32 - 1) eqn:E.
  - replace (m + 1) with (2 ^ 32 - 1) by lia. done.
  - rewrite Z.mod_small by lia. lia.
Qed.

Lemma seq_no_inj i j : seq_no i = seq_no j -> Z.abs (i - j) < 2 ^ 32 - 1 -> i = j.
Proof.
  unfold seq_no. intros E Hd. assert (E' : (i - j) mod (2 ^ 32 - 1) = 0).
  { rewrite Zminus_mod. replace (i mod (2 ^ 32 - 1)) with (j mod (2 ^ 32 - 1)) by lia.
    by rewrite Z.sub_diag. }
  apply Z.mod_divide in E' as [k Ek]; [|lia]. assert (k = 0) by nia. lia.
Qed.

(** The numbers of [n] requests, the last of which was number [i - 1]. *)
Definition numbers (i : Z) (n : nat) : list Z :=
  (fun k => seq_no (i - Z.of_nat n + Z.of_nat k)) <$> seq 0 n.

Lemma numbers_NoDup i n : (n <= 64)%nat -> NoDup (numbers i n).
Proof.
  intros Hn. unfold numbers. apply NoDup_fmap_2_strong; [|apply NoDup_seq].
  intros j k Hj%elem_of_seq Hk%elem_of_seq E. apply seq_no_inj in E; lia.
Qed.

Lemma numbers_cons i n : numbers i (S n) = seq_no (i - Z.of_nat (S n)) :: numbers i n.
Proof.
  unfold numbers. cbn [seq fmap list_fmap]. f_equal; [f_equal; lia|].
  rewrite <- fmap_S_seq, <- list_fmap_compose. apply list_fmap_ext. intros k x _.
  cbn. f_equal. lia.
Qed.

Lemma numbers_snoc i n : numbers (i + 1) (S n) = numbers i n ++ [seq_no i].
Proof.
  unfold numbers. rewrite seq_S, fmap_app. cbn [fmap list_fmap]. f_equal.
  - apply list_fmap_ext. intros k x _. f_equal. lia.
  - do 2 f_equal. lia.
Qed.

(** ** The firmware's answer to a ticket's request *)

Section Answers.
Context (echo : Z) (echo_ok : echo_size echo).

Definition response_of (t : window_ticket) : slot :=
  let reply := reply_bytes echo (ticket_seed t) in
  Slot (ticket_sequence t) (Z.of_nat (length reply))
    (reply ++ drop (length reply) zero_payload).

Lemma reply_length seed : (length (reply_bytes echo seed) <= 1018)%nat.
Proof using echo_ok.
  rewrite reply_bytes_length. pose proof (request_bytes_length echo seed echo_ok) as E.
  unfold echo_size, MAX_ECHO_DATA_BYTES in echo_ok.
  change SG2002_RTOS_SHM_PAYLOAD_SIZE with 1018 in *.
  change SG2002_RTOS_VALUE_MESSAGE_SIZE with 5 in *. revert E.
  destruct (echo =? 0); lia.
Qed.

Lemma zero_payload_length : length zero_payload = 1018%nat.
Proof. reflexivity. Qed.

Lemma zero_payload_bytes : is_bytes zero_payload.
Proof. apply Forall_replicate. unfold in_range. lia. Qed.

Lemma echo_byte_range seed i : is_u8 (echo_byte seed i).
Proof. apply wrap_u8_range. Qed.

Lemma request_bytes_bytes seed : is_bytes (request_bytes echo seed).
Proof.
  unfold request_bytes, value_message.
  destruct (echo =? 0); (constructor; [by vm_compute|]).
  - apply le_bytes_range.
  - apply Forall_fmap, Forall_true. intros. apply echo_byte_range.
Qed.

Lemma reply_bytes_bytes seed : is_bytes (reply_bytes echo seed).
Proof.
  unfold reply_bytes. destruct (echo =? 0); [|apply request_bytes_bytes].
  constructor; [by vm_compute|apply le_bytes_range].
Qed.

Lemma response_of_valid t : ticket_sequence t <> 0 -> valid_response (response_of t).
Proof using echo_ok.
  intros Hs. pose proof (reply_length (ticket_seed t)).
  split_and!; cbn [response_of sequence msg_length payload];
    change SG2002_RTOS_SHM_PAYLOAD_SIZE with 1018; [done|lia|lia|].
  rewrite length_app, length_drop, zero_payload_length. lia.
Qed.

(** What the firmware's transport makes of the request the tool sends. *)
Lemma request_response {W} `{Mmio W} (w : W) seq seed start request n :
  is_u32 seed -> build_request zero_payload echo seed = Some (request, n) ->
  (spec_response (request_slot seq request n) w).1 =
    response_of (Ticket seq seed start true) /\
  sendable request n /\ length request = 1018%nat /\ is_bytes request.
Proof using echo_ok.
  intros Hs E. rewrite build_request_spec in E by done. injection E as <- <-.
  set (m := request_bytes echo seed).
  pose proof (reply_length seed) as Hl. rewrite reply_bytes_length in Hl. fold m in Hl.
  assert (Hlen : length (m ++ drop (length m) zero_payload) = 1018%nat).
  { rewrite length_app, length_drop, zero_payload_length. lia. }
  split_and!.
  - unfold spec_response, request_slot. cbn [msg_length payload sequence].
    rewrite Nat2Z.id, (take_app_length m), take_app_length.
    unfold m. rewrite request_answered by done. reflexivity.
  - unfold sendable. rewrite Hlen. change SG2002_RTOS_SHM_PAYLOAD_SIZE with 1018. lia.
  - done.
  - apply Forall_app. split; [apply request_bytes_bytes|].
    apply Forall_drop, zero_payload_bytes.
Qed.

(** The tool accepts it, whatever was in its buffer before. *)
Lemma response_accepted t buffer :
  is_u32 (ticket_seed t) -> length buffer = 1018%nat -> is_bytes buffer ->
  let m := response_of t in
  let n := Z.to_nat (msg_length m) in
  let received := take n (payload m) ++ drop n buffer in
  length received = 1018%nat /\ is_bytes received /\
  validate_response received (msg_length m) echo (ticket_seed t) = Some 0.
Proof using echo_ok.
  intros Hs Hl Hb m n received. pose proof (reply_length (ticket_seed t)) as Hr.
  assert (En : n = length (reply_bytes echo (ticket_seed t))) by apply Nat2Z.id.
  assert (Et : take n (payload m) = reply_bytes echo (ticket_seed t)).
  { rewrite En. cbn [payload m response_of]. by rewrite take_app_length. }
  assert (Hlen : length received = 1018%nat).
  { unfold received. rewrite Et, length_app, length_drop. lia. }
  assert (Hby : is_bytes received).
  { apply Forall_app. rewrite Et. split; [apply reply_bytes_bytes|by apply Forall_drop]. }
  split; [done|]. split; [done|].
  rewrite validate_response_spec by done. rewrite decide_True; [done|]. split; [done|].
  fold n. unfold received. rewrite Et, En. by rewrite take_app_length.
Qed.

End Answers.

(** ** The state of a running phase *)

Section Run.
Context {L W : Type} `{BenchLaws L} `{Mmio W}.
Context (w : W) (echo : Z) (echo_ok : echo_size echo).
Context (count window : Z) (count_u32 : count <= UINT32_MAX)
  (window_bounds : 1 <= window < SG2002_RTOS_SHM_SLOT_COUNT).
Implicit Types (s : client L * phase) (c : client L).

(** What the firmware does with a request. *)
Definition answers (m : slot) : slot := (spec_response m w).1.

(** The client [c] retains nothing and holds no lock, the requests outstanding are the
    last ones numbered, and the firmware answers. *)
Record serving c (responses : list slot) (i : Z) : Prop := {
  serving_handle : exists p, readable c p [];
  serving_tx : v_tx_held (view (os c)) = false;
  serving_peer : v_peer (view (os c)) = Peer (seq_no i) true answers;
  serving_responses : outstanding (view (os c)) = responses;
  serving_numbers : sequence <$> responses = numbers i (length responses);
}.

(** The tickets in use are those of the responses, and the phase's arrays are there. *)
Record ticketed (p : phase) (responses : list slot) : Prop := {
  ticketed_accounts : accounted count window p;
  ticketed_responses : responses ≡ₚ response_of echo <$> live (tickets p);
  ticketed_seeds : Forall (fun t => is_u32 (ticket_seed t)) (live (tickets p));
  ticketed_starts : Forall (fun t => sane (ticket_start t)) (live (tickets p));
  ticketed_size : length (tickets p) = 64%nat;
  ticketed_buffer : exists m l, messages p = m :: l /\
    length (payload m) = 1018%nat /\ is_bytes (payload m);
  ticketed_latency :
    match latency p with Some l => count <= Z.of_nat (length l) | None => True end;
}.

Definition running s : Prop :=
  exists responses i, serving s.1 responses i /\ ticketed s.2 responses.

Lemma ticketed_length p responses :
  ticketed p responses -> Z.of_nat (length responses) = in_flight p.
Proof.
  intros [[_ I _ _ _ _ _] R _ _ _ _ _]. by rewrite (Permutation_length R), length_fmap, I.
Qed.

Lemma ticketed_window p responses :
  ticketed p responses -> (length responses <= 63)%nat.
Proof using window_bounds.
  intros Ht. pose proof (ticketed_length _ _ Ht) as E.
  destruct Ht as [[_ _ _ _ _ X _] _ _ _ _ _ _]. unfold SG2002_RTOS_SHM_SLOT_COUNT in *. lia.
Qed.

Lemma serving_valid c p responses i :
  serving c responses i -> ticketed p responses -> Forall valid_response responses.
Proof using echo_ok.
  intros [_ _ _ _ N] [_ R _ _ _ _ _]. apply Forall_forall. intros m Hm.
  assert (Hs : sequence m ∈ numbers i (length responses)).
  { rewrite <- N. by apply list_elem_of_fmap_2. }
  unfold numbers in Hs. apply list_elem_of_fmap in Hs as (k & Es & _).
  rewrite R in Hm. apply list_elem_of_fmap in Hm as (t & -> & _).
  apply response_of_valid; [done|]. change (ticket_sequence t) with (sequence (response_of echo t)).
  rewrite Es. pose proof (seq_no_range (i - Z.of_nat (length responses) + Z.of_nat k)). lia.
Qed.

Lemma serving_distinct c responses i :
  serving c responses i -> (length responses <= 64)%nat -> NoDup (sequence <$> responses).
Proof. intros [_ _ _ _ N] Hl. rewrite N. by apply numbers_NoDup. Qed.

(** The ticket of a response. *)
Lemma response_ticket p m rest :
  ticketed p (m :: rest) -> NoDup (sequence <$> m :: rest) ->
  exists k t, find_ticket (tickets p) (sequence m) = Some k /\ tickets p !! k = Some t /\
    active t = true /\ response_of echo t = m /\ t ∈ live (tickets p).
Proof.
  intros [_ R _ _ _ _ _] Hd.
  assert (Hin : forall t, t ∈ live (tickets p) -> response_of echo t ∈ m :: rest).
  { intros t Ht. rewrite R. by apply list_elem_of_fmap_2. }
  destruct (find_ticket (tickets p) (sequence m)) as [k|] eqn:Ef.
  - destruct (find_ticket_Some _ _ _ Ef) as (t & Ht & Ha & Es).
    assert (Hl : t ∈ live (tickets p)).
    { apply list_elem_of_filter. split; [done|]. by eapply list_elem_of_lookup_2. }
    exists k, t. split_and!; try done.
    specialize (Hin t Hl). apply list.elem_of_cons in Hin as [->|Hin]; [done|].
    exfalso. cbn [fmap list_fmap] in Hd. apply list.NoDup_cons in Hd as [Hd _]. apply Hd.
    rewrite <- Es. change (ticket_sequence t) with (sequence (response_of echo t)).
    by apply list_elem_of_fmap_2.
  - exfalso. apply find_ticket_None in Ef. apply Ef.
    assert (Hm : m ∈ response_of echo <$> live (tickets p)) by (rewrite <- R; left).
    apply list_elem_of_fmap in Hm as (t & Em & Ht).
    apply list_elem_of_fmap. exists t. by rewrite Em.
Qed.

(** ** Reaping *)

Lemma lib_eq {A} (m : ST (client L) A) c p a c' :
  m c = Some (a, c') -> lib m (c, p) = Some (a, (c', p)).
Proof. intros E. unfold lib. cbn [fst snd]. by rewrite E. Qed.

Lemma elapsed_sane start stop : sane start -> sane stop -> exists ns, elapsed_ns start stop = Some ns.
Proof.
  intros [? ?] [? ?]. unfold elapsed_ns, s64.
  replace (_ && _) with true by lia. cbn [mbind option_bind].
  replace (_ && _) with true by lia. cbn [mbind option_bind].
  replace (_ && _) with true by lia. cbn [mbind option_bind].
  replace (_ && _) with true by lia. by eexists.
Qed.

Lemma clock_serving c responses i :
  serving c responses i ->
  exists t o, call clock_gettime c = Some (Ok t, set_os o c) /\ sane t /\
    view o = view (os c) /\ serving (set_os o c) responses i.
Proof.
  intros [[pr [Hh Ha Hl]] T P R N]. unfold call, zoom.
  destruct (view_clock_gettime (os c)) as (t & E & Ht & V).
  destruct (clock_gettime (os c)) as [r o]; cbn [fst snd] in *. subst r.
  exists t, o. split; [done|]. split; [done|]. split; [done|].
  split; cbn [os set_os]; rewrite ?V; try done.
  exists pr. split; [|done|cbn [os set_os]; by rewrite V].
  apply (holds_os c); [done|done|]. cbn [os set_os]. by rewrite V.
Qed.

(** The tail of [complete_response]: the ticket is retired. *)
Lemma retire_ticketed p m rest k t l sum :
  ticketed p (m :: rest) -> tickets p !! k = Some t -> active t = true ->
  response_of echo t = m ->
  (match l with Some l => count <= Z.of_nat (length l) | None => True end) ->
  ticketed (retire k t (set_latency l sum p)) rest.
Proof using count_u32.
  intros [A R SE ST SI B LA] Hk Ha Hm Hl.
  set (t' := Ticket (ticket_sequence t) (ticket_seed t) (ticket_start t) false).
  pose proof (live_retire (tickets p) k t t' Hk Ha eq_refl) as Hp.
  assert (Hincl : forall x, x ∈ live (<[k:=t']> (tickets p)) -> x ∈ live (tickets p)).
  { intros x Hx. rewrite Hp. by right. }
  split.
  - apply retire_accounted; [done|done|done|].
    by destruct A; split.
  - apply (Permutation_cons_inv (a := m)). rewrite R, Hp. cbn [fmap list_fmap].
    by rewrite Hm.
  - cbn [tickets retire set_latency]. rewrite Forall_forall in *. auto.
  - cbn [tickets retire set_latency]. rewrite Forall_forall in *. auto.
  - cbn [tickets retire set_latency]. by rewrite length_insert.
  - exact B.
  - exact Hl.
Qed.

Lemma complete_own c p m rest i buffer :
  serving c rest i -> ticketed p (m :: rest) -> NoDup (sequence <$> m :: rest) ->
  length buffer = 1018%nat -> is_bytes buffer ->
  let n := Z.to_nat (msg_length m) in
  let received := Slot (sequence m) (msg_length m) (take n (payload m) ++ drop n buffer) in
  exists o p', complete_response received echo (c, p) = Some (0, (set_os o c, p')) /\
    serving (set_os o c) rest i /\ ticketed p' rest /\
    view o = view (os c) /\
    completed p' = completed p + 1 /\ submitted p' = submitted p.
Proof using count_u32 echo_ok H1.
  intros Hs Ht Hd Hl Hb n received.
  destruct (clock_serving c rest i Hs) as (stop & o & Eo & Hstop & V & Hs').
  destruct (response_ticket p m rest Ht Hd) as (k & t & Ef & Ek & Ha & Em & Hin).
  pose proof Ht as [A _ SE ST _ _ LA]. rewrite Forall_forall in SE, ST.
  destruct (elapsed_sane (ticket_start t) stop (ST t Hin) Hstop) as [ns Ens].
  destruct (response_accepted echo echo_ok t buffer (SE t Hin) Hl Hb) as (_ & _ & Hval).
  rewrite Em in Hval.
  assert (Hcount : completed p + 1 <= count).
  { pose proof (ticketed_length _ _ Ht). cbn [length] in *. destruct A. lia. }
  assert (Hc : u32 (completed p + 1) = completed p + 1).
  { apply wrap_small. destruct A. unfold UINT32_MAX in *. word_lia. }
  unfold complete_response. unfold mbind at 1, st_bind at 1. rewrite (lib_eq _ _ _ _ _ Eo).
  unfold mbind at 1, st_bind at 1. cbn [vars gets snd sequence received]. rewrite Ef.
  unfold mbind at 1, st_bind at 1. rewrite Ek. cbn [lift mret st_ret].
  unfold mbind at 1, st_bind at 1. cbn [payload msg_length received]. fold n in Hval. rewrite Hval.
  cbn [lift mret st_ret]. change (negb (0 =? 0)) with false. cbn beta iota.
  destruct (latency p) as [samples|] eqn:El.
  - assert (Hst : exists samples', array_store samples (completed p) ns = Some samples' /\
      length samples' = length samples).
    { unfold array_store. replace (_ && _) with true by (destruct A; lia).
      eexists. split; [done|]. by rewrite length_insert. }
    destruct Hst as (samples' & Est & Hlen).
    exists o, (retire k t (set_latency (Some samples') (u64 (latency_sum p + ns)) p)).
    split.
    { unfold mbind, st_bind. rewrite Ens. cbn [lift mret st_ret]. rewrite Est. done. }
    split; [done|]. split; [apply (retire_ticketed p m); try done; by rewrite Hlen|].
    split; [done|]. split; [exact Hc|done].
  - exists o, (retire k t (set_latency None (latency_sum p) p)).
    split.
    { assert (Ep : set_latency None (latency_sum p) p = p).
      { unfold set_latency. rewrite <- El. by destruct p. }
      by rewrite Ep. }
    split; [done|]. split; [by apply (retire_ticketed p m)|].
    split; [done|]. split; [exact Hc|done].
Qed.

(** Storing a received message in the first slot. *)
Lemma set_buffer_ticketed p responses m :
  ticketed p responses -> length (payload m) = 1018%nat -> is_bytes (payload m) ->
  ticketed (set_messages (<[0%nat := m]> (messages p)) p) responses.
Proof.
  intros [A R SE ST SI (m0 & l & E & _) LA] Hl Hb. split; try done.
  - by destruct A; split.
  - exists m, l. cbn [messages set_messages]. rewrite E. by split_and!.
Qed.

Lemma count_ticketed f p responses :
  (forall st, max_in_flight (f st) = max_in_flight st) ->
  ticketed p responses -> ticketed (set_stats (f (stats p)) p) responses.
Proof.
  intros Hf [A R SE ST SI B LA]. split; try done.
  destruct A. split; try done. cbn [stats set_stats]. by rewrite Hf.
Qed.

(** How far the counts have come. *)
Definition advanced p p' (completions submissions : Z) : Prop :=
  completed p' = completed p + completions /\ submitted p' = submitted p + submissions.

Lemma advanced_trans p1 p2 p3 a1 b1 a2 b2 :
  advanced p1 p2 a1 b1 -> advanced p2 p3 a2 b2 -> advanced p1 p3 (a1 + a2) (b1 + b2).
Proof. unfold advanced. lia. Qed.

(** The ticket of a request just sent. *)
Lemma issue_own c p responses seed start m l :
  ticketed p responses -> messages p = m :: l -> sane start ->
  sequence m ∉ sequence <$> responses -> in_flight p < window -> submitted p < count ->
  let t := Ticket (sequence m) (u32 (seed + 0)) start true in
  exists p', issue_tickets [0%nat] seed start (c, p) = Some (0, (c, p')) /\
    ticketed (account_submitted 1 p') (responses ++ [response_of echo t]) /\
    advanced p (account_submitted 1 p') 0 1.
Proof using count_u32 window_bounds.
  intros Ht Hm Hst Hq Hw Hc t. pose proof (ticketed_window _ _ Ht) as Hwin.
  destruct Ht as [A R SE ST SI B LA]. pose proof (Permutation_length R) as Hlen.
  rewrite length_fmap in Hlen.
  assert (Ef : find_ticket (tickets p) (sequence m) = None).
  { destruct (find_ticket (tickets p) (sequence m)) as [k|] eqn:Ef; [|done]. exfalso. apply Hq.
    destruct (find_ticket_Some _ _ _ Ef) as (x & Hx & Ha & <-).
    change (ticket_sequence x) with (sequence (response_of echo x)).
    apply list_elem_of_fmap_2. rewrite R. apply list_elem_of_fmap_2, list_elem_of_filter.
    split; [done|]. by eapply list_elem_of_lookup_2. }
  destruct (find_free_exists (tickets p)) as [k Ek]; [lia|].
  destruct (find_free_Some _ _ Ek) as (x & Hx & Ha).
  pose proof (live_issue (tickets p) k x t Hx Ha eq_refl) as Hp.
  exists (set_tickets (<[k := t]> (tickets p)) p). split.
  - cbn [issue_tickets]. unfold mbind, st_bind. cbn [vars gets snd]. rewrite Hm.
    cbn [lookup list_lookup lift mret st_ret]. rewrite Ef, Ek. reflexivity.
  - pose proof (accounted_total _ _ _ A) as Hsum. pose proof (accounted_in_flight _ _ _ A) as Hin.
    pose proof (accounted_completed _ _ _ A) as Hcomp.
    split.
    + split; cbn [account_submitted set_tickets tickets messages latency].
      * apply submitted_accounted; [exact count_u32|exact A| |lia| |lia|lia].
        -- unfold distinct. rewrite Hp. cbn [fmap list_fmap]. apply list.NoDup_cons.
           split; [by apply find_ticket_None|apply A].
        -- rewrite (Permutation_length Hp), Hin. cbn [length]. lia.
      * rewrite Hp, R. cbn [fmap list_fmap]. by rewrite Permutation_app_comm.
      * rewrite Hp. by constructor; [apply wrap_u32_range|].
      * rewrite Hp. by constructor.
      * by rewrite length_insert.
      * exact B.
      * exact LA.
    + unfold advanced. cbn [account_submitted set_tickets completed submitted].
      unfold UINT32_MAX in *. rewrite wrap_small by word_lia. lia.
Qed.


Context (fuel : nat) (fuel_enough : (64 < fuel)%nat).

Lemma fuel_positive : (0 < fuel)%nat.
Proof using fuel_enough. lia. Qed.

(** Receiving the oldest response. *)
Lemma reap_one c p m rest infl i :
  serving c (m :: rest ++ infl) i -> ticketed p (m :: rest ++ infl) ->
  v_responses (view (os c)) = m :: rest ->
  exists c' buffer p',
    let n := Z.to_nat (msg_length m) in
    let received := Slot (sequence m) (msg_length m) (take n (payload m) ++ drop n buffer) in
    reap fuel false (c, p) = Some ((0, 1), (c', p')) /\
    serving c' (rest ++ infl) i /\ ticketed p' (m :: rest ++ infl) /\
    v_responses (view (os c')) = rest /\ messages p' !! 0%nat = Some received /\
    length buffer = 1018%nat /\ is_bytes buffer /\
    completed p' = completed p /\ submitted p' = submitted p.
Proof using echo_ok window_bounds fuel_enough H1.
  intros Hs Ht Hr. pose proof (serving_valid _ _ _ _ Hs Ht) as Hv.
  pose proof Ht as [_ R _ _ _ (m0 & l & Em & Hl0 & Hb0) _].
  pose proof Hs as [[pr Hread] T P O N].
  assert (Hi : v_in_flight (view (os c)) = infl).
  { unfold outstanding in O. rewrite Hr in O. by apply (app_inv_head (m :: rest)). }
  set (o := Outputs (Some (payload m0)) (Some (msg_length m0)) (Some (sequence m0))).
  assert (Hbuf : buffers SG2002_RTOS_SHM_PAYLOAD_SIZE o).
  { change SG2002_RTOS_SHM_PAYLOAD_SIZE with 1018. split_and!; [done|lia|].
    intros _. eexists. split; [reflexivity|]. lia. }
  assert (Hv1 : Forall valid_response (readable_messages c [])).
  { unfold readable_messages. rewrite Hr. cbn [app].
    by apply (Forall_app _ (m :: rest) infl) in Hv as [Hv _]. }
  pose proof (receive_oldest_spec fuel fuel_positive SG2002_RTOS_SHM_PAYLOAD_SIZE o 0 c pr []
    Hread Hv1 Hbuf ltac:(unfold UINT32_MAX; lia)) as Hspec.
  unfold readable_messages in Hspec at 1. cbn [app] in Hspec. rewrite Hr in Hspec.
  destruct Hspec as (c' & pr' & q' & E & Hread' & Hm' & Hi' & [Hp Htx] & Hq).
  assert (Hfit : fits m SG2002_RTOS_SHM_PAYLOAD_SIZE = true).
  { inversion_clear Hv as [|? ? (_ & [_ Hle] & _) _]. unfold fits. lia. }
  rewrite Hfit in Hm'. rewrite (Hq Hfit) in *. cbn [tail] in *.
  unfold readable_messages in Hm'. cbn [app] in Hm'.
  set (n := Z.to_nat (msg_length m)).
  set (received := Slot (sequence m) (msg_length m) (take n (payload m) ++ drop n (payload m0))).
  exists c', (payload m0), (set_messages (<[0%nat := received]> (messages p)) p).
  assert (Hrec : length (payload received) = 1018%nat /\ is_bytes (payload received)).
  { assert (Hm : m ∈ response_of echo <$> live (tickets p)) by (rewrite <- R; left).
    apply list_elem_of_fmap in Hm as (t & Hmt & Hin).
    destruct Ht as [_ _ SE _ _ _ _]. rewrite Forall_forall in SE.
    pose proof (response_accepted echo echo_ok t (payload m0) (SE t Hin) Hl0 Hb0) as Hacc.
    rewrite <- Hmt in Hacc. by destruct Hacc as (? & ? & _). }
  split_and!; try done.
  - unfold reap. unfold mbind at 1, st_bind at 1. cbn [vars gets snd]. rewrite Em.
    unfold mbind, st_bind, lift, mret, st_ret. cbn [lookup list_lookup].
    rewrite (lib_eq _ _ _ _ _ E). unfold delivered. rewrite Hfit.
    cbn [slot_of_outputs out_response out_length out_sequence o fmap option_fmap option_map
         mbind option_bind]. unfold update, modify. cbn [fst snd]. reflexivity.
  - split; [by exists pr'|by rewrite Htx|by rewrite Hp| |].
    + unfold outstanding. rewrite Hm', Hi', Hi. done.
    + cbn [fmap list_fmap length] in N. rewrite numbers_cons in N. by injection N.
  - apply set_buffer_ticketed; [exact Ht|apply Hrec..].
  - cbn [messages set_messages]. by rewrite Em.
Qed.

(** A turn of the loop that reaps: the oldest response is taken and completed. *)
Lemma reap_turn n c p m rest infl i progressed :
  serving c (m :: rest ++ infl) i -> ticketed p (m :: rest ++ infl) ->
  v_responses (view (os c)) = m :: rest ->
  exists c' p',
    reap_loop fuel (S n) false echo progressed (c, p) =
      reap_loop fuel n false echo true (c', p') /\
    serving c' (rest ++ infl) i /\ ticketed p' (rest ++ infl) /\
    v_responses (view (os c')) = rest /\ advanced p p' 1 0.
Proof using echo_ok window_bounds count_u32 fuel_enough H1.
  intros Hs Ht Hr. pose proof (ticketed_length _ _ Ht) as Hlen.
  pose proof (ticketed_window _ _ Ht) as Hw.
  pose proof (serving_distinct _ _ _ Hs ltac:(lia)) as Hd. cbn [length] in Hlen.
  assert (Ht1 := count_ticketed count_reap_call p _ (fun _ => eq_refl) Ht).
  destruct (reap_one c _ m rest infl i Hs Ht1 Hr)
    as (c1 & buffer & p1 & E1 & Hs1 & Hp1 & Hr1 & Hm1 & Hl & Hb & Ec & Es).
  destruct (complete_own c1 p1 m (rest ++ infl) i buffer Hs1 Hp1 Hd Hl Hb)
    as (o & p2 & E2 & Hs2 & Hp2 & V2 & Ec2 & Es2).
  exists (set_os o c1), p2. split.
  - cbn [reap_loop]. unfold mbind at 1, st_bind at 1. cbn [vars gets snd].
    replace (0 <? in_flight p) with true by lia. cbn [negb].
    unfold mbind at 1, st_bind at 1. unfold update at 1, modify. cbn [fst snd].
    unfold mbind at 1, st_bind at 1. rewrite E1. cbn beta iota.
    change (0 =? - EAGAIN) with false. change (negb (0 =? 0)) with false. cbn beta iota.
    change (seq 0 (Z.to_nat 1)) with [0%nat]. cbn [complete_all].
    unfold mbind, st_bind, lift, mret, st_ret. cbn [vars gets snd]. rewrite Hm1, E2.
    change (negb (0 =? 0)) with false. cbn beta iota. reflexivity.
  - cbn [os set_os]. rewrite V2. split_and!; try done. unfold advanced.
    cbn [completed submitted set_stats] in *. lia.
Qed.

(** With no response to read the loop ends. *)
Lemma reap_none n c p responses i progressed :
  serving c responses i -> ticketed p responses -> v_responses (view (os c)) = [] ->
  exists c' p',
    reap_loop fuel (S n) false echo progressed (c, p) = Some (inr progressed, (c', p')) /\
    serving c' responses i /\ ticketed p' responses /\
    v_responses (view (os c')) = [] /\ advanced p p' 0 0.
Proof using echo_ok fuel_enough.
  intros Hs Ht Hr. cbn [reap_loop]. unfold mbind at 1, st_bind at 1. cbn [vars gets snd].
  destruct (negb (0 <? in_flight p)) eqn:Ei.
  { exists c, p. split; [done|]. split_and!; try done. unfold advanced. lia. }
  pose proof Hs as [[pr Hread] T P O N].
  pose proof Ht as [_ _ _ _ _ (m0 & l & Em & Hl0 & Hb0) _].
  set (o := Outputs (Some (payload m0)) (Some (msg_length m0)) (Some (sequence m0))).
  assert (Hbuf : buffers SG2002_RTOS_SHM_PAYLOAD_SIZE o).
  { change SG2002_RTOS_SHM_PAYLOAD_SIZE with 1018. split_and!; [done|lia|].
    intros _. eexists. split; [reflexivity|]. lia. }
  assert (Hv : Forall valid_response (readable_messages c [])).
  { unfold readable_messages. by rewrite Hr. }
  pose proof (receive_oldest_spec fuel fuel_positive SG2002_RTOS_SHM_PAYLOAD_SIZE o 0 c pr []
    Hread Hv Hbuf ltac:(unfold UINT32_MAX; lia)) as Hspec.
  unfold readable_messages in Hspec at 1. rewrite Hr in Hspec. cbn [app] in Hspec.
  destruct (Hspec eq_refl) as (c' & E & Hread' & Hm' & Hi' & [Hp Htx]).
  unfold readable_messages in Hm'. cbn [app] in Hm'.
  set (p1 := set_stats (count_reap_call (stats p)) p).
  assert (Ht1 : ticketed p1 responses) by by apply count_ticketed.
  assert (Em1 : messages p1 = m0 :: l) by exact Em.
  assert (Et : set_messages (<[0%nat := m0]> (m0 :: l)) p1 = p1).
  { cbn. rewrite <- Em1. reflexivity. }
  exists c', (set_stats (count_receive_eagain (stats p1)) p1). split.
  - unfold mbind at 1, st_bind at 1. unfold update at 1, modify. cbn [fst snd]. fold p1.
    unfold mbind at 1, st_bind at 1. unfold reap.
    unfold mbind at 1, st_bind at 1. cbn [vars gets snd].
    rewrite Em1. unfold mbind, st_bind. cbn [lookup list_lookup lift mret st_ret].
    rewrite (lib_eq _ _ _ _ _ E). cbn [slot_of_outputs out_response out_length out_sequence o lift mret st_ret mbind option_bind].
    unfold update, modify. cbn [fst snd].
    replace (Slot (sequence m0) (msg_length m0) (payload m0)) with m0 by by destruct m0.
    change (- EAGAIN =? 0) with false. change (- EAGAIN =? - EAGAIN) with true. cbn beta iota.
    rewrite Et. reflexivity.
  - split; [|split; [by apply count_ticketed|split; [done|]]].
    + split; [by exists pr|by rewrite Htx|by rewrite Hp| |done].
      unfold outstanding in *. by rewrite Hm', Hi', <- Hr.
    + unfold advanced. cbn. lia.
Qed.

(** The whole loop: everything readable is completed. *)
Lemma reap_all n : forall rest c p infl i progressed,
  (length rest < n)%nat ->
  serving c (rest ++ infl) i -> ticketed p (rest ++ infl) ->
  v_responses (view (os c)) = rest ->
  exists c' p',
    reap_loop fuel n false echo progressed (c, p) =
      Some (inr (progressed || negb (bool_decide (rest = []))), (c', p')) /\
    serving c' infl i /\ ticketed p' infl /\ v_responses (view (os c')) = [] /\
    advanced p p' (Z.of_nat (length rest)) 0.
Proof using echo_ok window_bounds count_u32 fuel_enough H1.
  induction n as [|n IH]; intros rest c p infl i progressed Hn Hs Ht Hr; [lia|].
  destruct rest as [|m rest].
  - destruct (reap_none n c p infl i progressed Hs Ht Hr) as (c' & p' & E & ? & ? & ? & ?).
    exists c', p'. rewrite E. by destruct progressed.
  - destruct (reap_turn n c p m rest infl i progressed Hs Ht Hr)
      as (c1 & p1 & -> & Hs1 & Ht1 & Hr1 & A1).
    destruct (IH rest c1 p1 infl i true ltac:(cbn in Hn; lia) Hs1 Ht1 Hr1)
      as (c2 & p2 & -> & Hs2 & Ht2 & Hr2 & A2).
    exists c2, p2. split; [by destruct progressed|]. split_and!; try done.
    pose proof (advanced_trans _ _ _ _ _ _ _ A1 A2) as A. cbn [length].
    by replace (Z.of_nat (S (length rest))) with (1 + Z.of_nat (length rest)) by lia.
Qed.


(** ** Submitting *)

Lemma answers_sequence m : sequence (answers m) = sequence m.
Proof.
  unfold answers, spec_response. by destruct (spec_reply _ w) as [[r|] w'].
Qed.

(** A request sent is numbered, and its response is on its way. *)
Lemma send_serving c responses i request n old :
  serving c responses i -> (S (length responses) < 64)%nat -> sendable request n ->
  exists c',
    sg2002_rtos_message_send fuel (Some request) n 0 (Some old) c =
      Some ((0, Some (seq_no i)), c') /\
    serving c' (responses ++ [answers (request_slot (seq_no i) request n)]) (i + 1) /\
    v_responses (view (os c')) = v_responses (view (os c)).
Proof using fuel_enough H1.
  intros [[pr Hread] T P O N] Hlen Hreq.
  pose proof (message_send_spec fuel ltac:(lia) request n 0 old c pr [] Hread T) as Hspec.
  cbn zeta in Hspec. rewrite P in Hspec. cbn [v_can_send v_next_sequence] in Hspec.
  pose proof (seq_no_range i) as Hsq.
  destruct (Hspec eq_refl ltac:(lia) Hreq ltac:(unfold UINT32_MAX; lia))
    as (c' & E & Hread' & T' & Hresp & O' & d & t & o & Vp & Vo & V). clear Hspec.
  exists c'. split; [exact E|]. split; [|exact Hresp].
  assert (Ep : v_peer (view (os c')) = Peer (seq_no (i + 1)) true answers).
  { rewrite V, view_send_next; rewrite ?Vp, ?Vo, ?O; cbn [v_can_send v_next_sequence v_answer];
      [|done|lia|lia]. by rewrite seq_no_after. }
  unfold answer_to in O'. rewrite P in O'. cbn [v_answer v_next_sequence] in O'.
  split; [by exists pr|exact T'|exact Ep|by rewrite O', O|].
  rewrite fmap_app, length_app, N. cbn [fmap list_fmap length].
  rewrite Nat.add_1_r, numbers_snoc, answers_sequence. reflexivity.
Qed.

(** A turn of the loop that submits. *)
Lemma submit_turn n c p responses i seed_base progressed :
  serving c responses i -> ticketed p responses ->
  submitted p < count -> in_flight p < window ->
  exists c' p' m,
    submit_loop fuel (S n) count echo seed_base window false progressed (c, p) =
      submit_loop fuel n count echo seed_base window false true (c', p') /\
    serving c' (responses ++ [m]) (i + 1) /\ ticketed p' (responses ++ [m]) /\
    v_responses (view (os c')) = v_responses (view (os c)) /\ advanced p p' 0 1.
Proof using echo_ok count_u32 window_bounds fuel_enough H1.
  intros Hs Ht Hc Hw. pose proof (ticketed_length _ _ Ht) as Hlen.
  pose proof Ht as [A _ _ _ _ (m0 & l & Em & Hl0 & Hb0) _].
  unfold SG2002_RTOS_SHM_SLOT_COUNT in window_bounds.
  set (seed := u32 (seed_base + submitted p)).
  pose proof (build_request_spec echo (u32 (seed + 0)) echo_ok) as Eb. cbn zeta in Eb.
  set (n0 := Z.of_nat (length (request_bytes echo (u32 (seed + 0))))) in Eb.
  destruct (clock_serving c responses i Hs) as (start & o & Eo & Hst & V & Hs1).
  destruct (request_response echo echo_ok w (seq_no i) (u32 (seed + 0)) start _ n0
    (wrap_u32_range _) Eb) as (Ea & Hreq & Hrl & Hrb).
  set (request := request_bytes echo (u32 (seed + 0)) ++
    drop (length (request_bytes echo (u32 (seed + 0)))) zero_payload) in *.
  set (m1 := Slot 0 n0 request).
  pose proof (set_buffer_ticketed p responses m1 Ht Hrl Hrb) as Ht1.
  pose proof (count_ticketed count_submit_call _ _ (fun _ => eq_refl) Ht1) as Ht2.
  destruct (send_serving (set_os o c) responses i request n0 0 Hs1 ltac:(lia) Hreq)
    as (c2 & E2 & Hs2 & V2).
  set (m2 := Slot (seq_no i) n0 request).
  pose proof (set_buffer_ticketed _ responses m2 Ht2 Hrl Hrb) as Ht3.
  cbn [set_stats set_messages messages] in Ht1, Ht2, Ht3. rewrite Em in Ht1, Ht2, Ht3.
  cbn [insert list_insert] in Ht1, Ht2, Ht3.
  pose proof (serving_distinct _ _ _ Hs2 ltac:(rewrite length_app; cbn [length]; lia)) as Hd.
  rewrite fmap_app in Hd. apply list.NoDup_app in Hd as (_ & Hd & _).
  assert (Hfresh : sequence m2 ∉ sequence <$> responses).
  { intros Hin. apply (Hd _ Hin). unfold answers. rewrite Ea. cbn. left. }
  destruct (issue_own c2 _ responses seed start m2 l Ht3 eq_refl Hst Hfresh)
    as (p3 & E3 & Ht4 & A4); [exact Hw|exact Hc|].
  exists c2, (account_submitted 1 p3), (response_of echo (Ticket (seq_no i) (u32 (seed + 0)) start true)).
  unfold answers in Hs2. rewrite Ea in Hs2. cbn [os set_os] in V2. rewrite V in V2.
  split; [|by split_and!].
  cbn [submit_loop]. unfold mbind at 1, st_bind at 1. cbn [vars gets snd].
  replace ((submitted p <? count) && (in_flight p <? window)) with true by lia. cbn [negb].
  assert (Hr : (u32 (count - submitted p) <? 1) = false).
  { rewrite wrap_small; [lia|]. destruct A. unfold UINT32_MAX in *. word_lia. }
  rewrite Hr. fold seed.
  change (seq 0 (Z.to_nat 1)) with [0%nat]. cbn [build_all].
  unfold mbind at 1, st_bind at 1.
  unfold mbind at 1, st_bind at 1. change (Z.of_nat 0) with 0. rewrite Eb.
  cbn [lift mret st_ret]. cbn beta iota.
  unfold mbind at 1, st_bind at 1. cbn [vars gets snd]. rewrite Em.
  unfold mbind at 1, st_bind at 1. unfold array_store.
  replace ((0 <=? 0) && (0 <? Z.of_nat (length (m0 :: l)))) with true by (cbn [length]; lia).
  cbn [lift mret st_ret insert list_insert Z.to_nat].
  unfold mbind at 1, st_bind at 1, update at 1, modify. cbn [fst snd mret st_ret].
  unfold mbind at 1, st_bind at 1. rewrite (lib_eq _ _ _ _ _ Eo).
  unfold mbind at 1, st_bind at 1, update at 1, modify. cbn [fst snd].
  change (<[Z.to_nat 0:=_]> (m0 :: l)) with (m1 :: l).
  unfold mbind at 1, st_bind at 1. unfold submit. unfold mbind, st_bind.
  cbn [vars gets snd messages set_messages set_stats lookup list_lookup lift mret st_ret
       payload msg_length sequence m1].
  rewrite (lib_eq _ _ _ _ _ E2). cbn [lift mret st_ret]. unfold update, modify. cbn [fst snd].
  cbn [mret st_ret]. change (0 =? - EAGAIN) with false.
  change (negb (0 =? 0)) with false. cbn beta iota.
  change (seq 0 (Z.to_nat (if 0 =? 0 then 1 else 0))) with [0%nat].
  change (<[0%nat:=set_sequence (seq_no i) m1]> (m1 :: l)) with (m2 :: l).
  rewrite E3. reflexivity.
Qed.

(** The whole loop: it ends when every request is sent or the window is full. *)
Lemma submit_all seed_base n : forall c p responses i (progressed : bool),
  (Z.to_nat (window - in_flight p) < n)%nat ->
  serving c responses i -> ticketed p responses ->
  exists c' p' (more : list slot) (j : Z),
    submit_loop fuel n count echo seed_base window false progressed (c, p) =
      Some (inr (progressed || (0 <? j)), (c', p')) /\
    serving c' (responses ++ more) (i + j) /\ ticketed p' (responses ++ more) /\
    v_responses (view (os c')) = v_responses (view (os c)) /\ 0 <= j /\
    advanced p p' 0 j /\ (submitted p' <? count) && (in_flight p' <? window) = false.
Proof using echo_ok count_u32 window_bounds fuel_enough H1.
  induction n as [|n IH]; intros c p responses i progressed Hn Hs Ht; [lia|].
  destruct ((submitted p <? count) && (in_flight p <? window)) eqn:Ec.
  - destruct (submit_turn n c p responses i seed_base progressed Hs Ht)
      as (c1 & p1 & m & -> & Hs1 & Ht1 & V1 & A1); [lia|lia|].
    pose proof (ticketed_length _ _ Ht) as Hl. pose proof (ticketed_length _ _ Ht1) as Hl1.
    rewrite length_app in Hl1. cbn [length] in Hl1.
    destruct (IH c1 p1 _ _ true ltac:(lia) Hs1 Ht1)
      as (c2 & p2 & more & j & -> & Hs2 & Ht2 & V2 & Hj & A2 & Hend).
    exists c2, p2, (m :: more), (1 + j). rewrite <- app_assoc in *. rewrite Z.add_assoc.
    replace (0 <? 1 + j) with true by lia. rewrite orb_true_r. split; [done|].
    split_and!; try done; [by rewrite V2|lia|].
    exact (advanced_trans _ _ _ _ _ _ _ A1 A2).
  - exists c, p, [], 0. rewrite app_nil_r, Z.add_0_r, orb_false_r. cbn [submit_loop].
    unfold mbind, st_bind. cbn [vars gets snd]. rewrite Ec. cbn [negb].
    split_and!; try done. unfold advanced. lia.
Qed.

(** ** Waiting *)

Lemma serving_waited c responses i o :
  serving c responses i -> waited (view (os c)) (view o) -> serving (set_os o c) responses i.
Proof.
  intros [[pr [Hh Ha Hrx]] T P O N] V. pose proof (waited_outstanding _ _ V) as Ho.
  split; cbn [os set_os]; [exists pr; split; [|exact Ha|]| | | |exact N].
  - by apply holds_waited.
  - cbn [os set_os]. by destruct V as (? & ? & ? & _ & _ & ->).
  - by destruct V as (? & ? & ? & _ & _ & ->).
  - by destruct V as (? & ? & ? & _ & _ & ->).
  - by rewrite Ho.
Qed.

(** The poll for the device and the retained responses. *)
Lemma wait_poll_device d e c now :
  outstanding (view (os c)) <> [] -> v_events (view (os c)) !! e = Some 0%nat ->
  v_clock (view (os c)) = now ->
  exists o, waited (view (os c)) (view o) /\
    ((wait_poll fuel [(d, POLLIN); (e, POLLIN)] SG2002_RTOS_DEFAULT_TIMEOUT_MS (now + SG2002_RTOS_DEFAULT_TIMEOUT_MS) SG2002_RTOS_DEFAULT_TIMEOUT_MS c =
        Some (PollReady [POLLIN; 0], set_os o c) /\ v_responses (view o) <> []) \/
     (wait_poll fuel [(d, POLLIN); (e, POLLIN)] SG2002_RTOS_DEFAULT_TIMEOUT_MS (now + SG2002_RTOS_DEFAULT_TIMEOUT_MS) SG2002_RTOS_DEFAULT_TIMEOUT_MS c =
        Some (PollTimeout, set_os o c) /\
      now + SG2002_RTOS_DEFAULT_TIMEOUT_MS <= v_clock (view o) /\ v_responses (view o) = [])).
Proof using fuel_enough H1.
  intros Ho He Hnow. destruct fuel as [|k]; [lia|]. cbn [wait_poll].
  change (poll_timeout SG2002_RTOS_DEFAULT_TIMEOUT_MS) with SG2002_RTOS_DEFAULT_TIMEOUT_MS. unfold mbind, st_bind, mret, st_ret.
  unfold call, zoom.
  destruct (view_poll_pending (os c) d e SG2002_RTOS_DEFAULT_TIMEOUT_MS Ho He ltac:(done)) as (t & Ht & Hp).
  destruct Hp as [(arrived & later & Ep & Ei & Hr & V)|(_ & Hd & Hr & Ep & V)];
    destruct (os_poll _ _ _) as [r o]; cbn [fst snd] in *; subst r; cbn beta iota.
  - exists o. split; [by exists t, arrived, later|]. left. by rewrite V.
  - destruct (monotonic_spec (set_os o c)) as (t' & o' & Em & _ & Ht' & V').
    cbn [os set_os] in *. rewrite V in Ht', V'. cbn [v_clock set_clock] in Ht'. exists o'.
    split; [rewrite V'; apply (waited_clock (view (os c))); lia|]. right.
    change (SG2002_RTOS_DEFAULT_TIMEOUT_MS =? UINT32_MAX) with false. cbn beta iota. rewrite Em.
    rewrite V'. cbn [v_clock v_responses set_clock].
    replace (now + SG2002_RTOS_DEFAULT_TIMEOUT_MS <=? t') with true by lia.
    split_and!; [done|lia|done].
Qed.

(** The wait of the tool that begins in [c] and ends in [c']: a response is there to
    read, or the timeout has passed with none. *)
Definition waited_out c c' : Prop :=
  sg2002_rtos_wait fuel POLLIN (Some 0) SG2002_RTOS_DEFAULT_TIMEOUT_MS c =
    Some ((0, Some 0), c') /\
  v_clock (view (os c)) + SG2002_RTOS_DEFAULT_TIMEOUT_MS <= v_clock (view (os c')) /\
  v_responses (view (os c')) = [].

Lemma wait_device c responses i :
  serving c responses i -> responses <> [] ->
  exists o, waited (view (os c)) (view o) /\
    ((sg2002_rtos_wait fuel POLLIN (Some 0) SG2002_RTOS_DEFAULT_TIMEOUT_MS c =
        Some ((1, Some POLLIN), set_os o c) /\ v_responses (view o) <> []) \/
     waited_out c (set_os o c)).
Proof using fuel_enough H1.
  intros [[pr [Hh Ha _]] _ _ Ho _] Hne. destruct (holds_handle _ _ _ Hh) as (h & Eh & Ep).
  destruct (monotonic_spec c) as (now & o1 & Em & Hnow & Hm & V).
  destruct (wait_poll_device (fd h) (pending_fd pr) (set_os o1 c) now) as (o & HW & Hr);
    cbn [os set_os]; rewrite ?V; [|apply Hh|done|].
  { change (outstanding (set_clock now (view (os c)))) with (outstanding (view (os c))).
    by rewrite Ho. }
  exists o. cbn [os set_os] in HW. rewrite V in HW.
  split; [by eapply waited_trans; [apply (waited_clock _ now)|]|].
  unfold waited_out, sg2002_rtos_wait. unfold mbind, st_bind, gets, mret, st_ret. rewrite Ha.
  cbn [negb fmap option_fmap option_map].
  change ((POLLIN =? 0) || negb (Z.land POLLIN (Z.lnot supported_events) =? 0)) with false.
  change (negb (Z.land POLLIN POLLIN =? 0)) with true.
  change (negb (SG2002_RTOS_DEFAULT_TIMEOUT_MS =? UINT32_MAX)) with true. cbn beta iota.
  rewrite Eh. unfold lift, get_private. unfold mbind, st_bind, gets, mret, st_ret, lift. rewrite (holds_private _ _ _ Hh).
  unfold mret, st_ret. cbn beta iota. rewrite Em.
  rewrite (wrap_small 64) by (unfold SG2002_RTOS_DEFAULT_TIMEOUT_MS; word_lia).
  destruct Hr as [[E Hv]|(E & Hck & Hv)]; rewrite E; [by left|right].
  cbn [os set_os]. split_and!; [reflexivity|lia|exact Hv].
Qed.

(** The phase timed out in [c'] and [p]: requests are still outstanding, and the last
    wait, begun in [c], passed without an answer. *)
Definition timed_out c c' p : Prop :=
  exists responses i, responses <> [] /\ serving c responses i /\ serving c' responses i /\
    ticketed p responses /\ completed p < count /\ waited_out c c'.

(** With requests outstanding and nothing to send, the tool waits until an answer is
    there or the timeout has passed. *)
Lemma wait_serving c p responses i :
  serving c responses i -> ticketed p responses -> responses <> [] ->
  (submitted p <? count) && (in_flight p <? window) = false ->
  exists c' r p',
    wait_turn fuel count window (c, p) = Some (r, (c', p')) /\
    (r = Some (- ETIMEDOUT) /\ timed_out c c' p' \/
     (r = None /\ serving c' responses i /\ ticketed p' responses /\ advanced p p' 0 0 /\
      v_responses (view (os c')) <> [])).
Proof using window_bounds fuel_enough H1.
  intros Hs Ht Hne Hc. pose proof (ticketed_length _ _ Ht) as Hl.
  assert (Hi : (0 <? in_flight p) = true) by (destruct responses; [done|cbn [length] in Hl; lia]).
  unfold wait_turn. unfold mbind at 1, st_bind at 1. cbn [vars gets snd]. rewrite Hi, Hc.
  change (Z.lor POLLIN 0) with POLLIN. change (POLLIN =? 0) with false. cbn beta iota.
  destruct (wait_device c responses i Hs Hne) as (o & HW & [[E Hv]|Hto]);
    [|pose proof (proj1 Hto) as E];
    unfold mbind, st_bind; rewrite (lib_eq _ _ _ _ _ E); cbn [lift mret st_ret].
  - eexists (set_os o c), _, _. split; [reflexivity|]. right. split; [done|].
    split; [by apply serving_waited|]. split; [by apply count_ticketed|].
    split; [unfold advanced; cbn; lia|exact Hv].
  - exists (set_os o c), (Some (- ETIMEDOUT)), p. split; [reflexivity|]. left. split; [done|].
    exists responses, i. split_and!; try done; [by apply serving_waited|].
    pose proof (ticketed_accounts _ _ Ht) as A. destruct A. lia.
Qed.

(** ** The phase *)

(** What is left to do: each request is sent and completed, and a turn that does
    neither is followed by one that completes something. *)
Definition to_do c p : nat :=
  (2 * (Z.to_nat (count - completed p) + Z.to_nat (count - submitted p)) +
   match v_responses (view (os c)) with [] => 1 | _ => 0 end)%nat.

Lemma window_loop_ends seed_base n : forall c p responses i,
  (to_do c p < n)%nat -> serving c responses i -> ticketed p responses ->
  exists ret c' p',
    window_loop fuel n count echo seed_base window false (c, p) = Some (ret, (c', p')) /\
    (ret = 0 /\ completed p' = count \/
     ret = - ETIMEDOUT /\ exists c1, timed_out c1 c' p').
Proof using echo_ok count_u32 window_bounds fuel_enough H1.
  induction n as [|n IH]; intros c p responses i Hn Hs Ht; [lia|].
  pose proof (ticketed_accounts _ _ Ht) as A. pose proof (accounted_submitted _ _ _ A) as Hsub.
  pose proof (accounted_total _ _ _ A) as Htot. pose proof (ticketed_length _ _ Ht) as Hlen.
  pose proof (ticketed_window _ _ Ht) as Hwin.
  cbn [window_loop]. unfold mbind at 1, st_bind at 1. cbn [vars gets snd].
  destruct (completed p <? count) eqn:Ec; cbn [negb]; cycle 1.
  { exists 0, c, p. split; [done|]. left. lia. }
  pose proof (serving_responses _ _ _ Hs) as Ho. unfold outstanding in Ho.
  set (rest := v_responses (view (os c))) in *. set (infl := v_in_flight (view (os c))) in *.
  rewrite <- Ho in Hs, Ht.
  assert (Hrest : (length rest + length infl = length responses)%nat).
  { by rewrite <- Ho, length_app. }
  destruct (reap_all fuel rest c p infl i false ltac:(lia) Hs Ht eq_refl)
    as (c1 & p1 & E1 & Hs1 & Ht1 & V1 & A1).
  unfold mbind at 1, st_bind at 1. rewrite E1. cbn [orb].
  destruct (submit_all seed_base fuel c1 p1 infl i (negb (bool_decide (rest = []))))
    as (c2 & p2 & more & j & E2 & Hs2 & Ht2 & V2 & Hj & A2 & Hend); [|exact Hs1|exact Ht1|].
  { pose proof (ticketed_length _ _ Ht1). unfold SG2002_RTOS_SHM_SLOT_COUNT in *. lia. }
  unfold mbind at 1, st_bind at 1. rewrite E2.
  pose proof (advanced_trans _ _ _ _ _ _ _ A1 A2) as [Ac As].
  pose proof (ticketed_accounts _ _ Ht2) as HA2.
  pose proof (accounted_submitted _ _ _ HA2) as Hsub2.
  pose proof (accounted_total _ _ _ HA2) as Htot2.
  pose proof (ticketed_length _ _ Ht2) as Hlen2.
  unfold mbind at 1, st_bind at 1. cbn [vars gets snd].
  destruct (completed p2 =? count) eqn:Ec2.
  { exists 0, c2, p2. split; [done|]. left. lia. }
  assert (Hv2 : v_responses (view (os c2)) = []) by (by rewrite V2).
  unfold to_do in Hn. fold rest in Hn.
  destruct (negb (bool_decide (rest = [])) || (0 <? j)) eqn:Ep.
  - eapply (IH c2 p2); [|exact Hs2|exact Ht2]. unfold to_do. rewrite Hv2.
    destruct rest as [|m rest]; cbn [length] in *; [|lia].
    rewrite bool_decide_true in Ep by done. cbn [negb orb] in Ep. lia.
  - apply orb_false_iff in Ep as [Er Ej]. apply negb_false_iff, bool_decide_eq_true in Er.
    destruct (wait_serving c2 p2 (infl ++ more) (i + j) Hs2 Ht2) as
      (c3 & r & p3 & E3 & Hr).
    { intros E. rewrite E in Hlen2. cbn [length] in Hlen2. lia. }
    { exact Hend. }
    unfold mbind, st_bind. rewrite E3.
    destruct Hr as [(-> & Hto)|(-> & Hs3 & Ht3 & [Ac3 As3] & Hv3)].
    + exists (- ETIMEDOUT), c3, p3. by eauto.
    + eapply (IH c3 p3); [|exact Hs3|exact Ht3]. unfold to_do.
      destruct (v_responses (view (os c3))) as [|m l]; [done|].
      rewrite Er in *. cbn [length] in *. lia.
Qed.

Lemma initial_ticketed samples :
  0 <= count ->
  match samples with Some l => count <= Z.of_nat (length l) | None => True end ->
  ticketed (initial_phase samples) [].
Proof using window_bounds.
  clear fuel_enough fuel. intros Hc Hl. split.
  - apply initial_accounted; lia.
  - by rewrite live_initial.
  - by rewrite live_initial.
  - by rewrite live_initial.
  - reflexivity.
  - exists zero_slot, (replicate 63 zero_slot). split_and!; [reflexivity|reflexivity|].
    apply zero_payload_bytes.
  - exact Hl.
Qed.

(** C10: a windowed phase of the benchmark comes to its end. On a system that carries
    the requests to the firmware's transport, in the split mode with a window smaller
    than the ring, [run_windowed_phase] returns, whatever the order in which the
    answers arrive, the number of requests and their size: it has completed all of
    them, each answer passing [validate_response], and returns 0; or it returns
    [-ETIMEDOUT] with requests outstanding, its last [sg2002_rtos_wait] having ended, all
    of the library's default timeout after it began, with no answer to read. The loops
    need no more fuel than four turns for a request, and 65 for a window. *)
Theorem windowed_phase_ends seed_base samples c i :
  0 <= count -> (4 * Z.to_nat count + 2 < fuel)%nat -> serving c [] i ->
  match samples with Some l => count <= Z.of_nat (length l) | None => True end ->
  exists ret p c',
    run_windowed_phase fuel count echo seed_base window false samples c = Some ((ret, p), c') /\
    (ret = 0 /\ completed p = count \/
     ret = - ETIMEDOUT /\ completed p < count /\ exists c1 responses j,
       responses <> [] /\ serving c1 responses j /\ serving c' responses j /\
       sg2002_rtos_wait fuel POLLIN (Some 0) SG2002_RTOS_DEFAULT_TIMEOUT_MS c1 =
         Some ((0, Some 0), c') /\
       v_clock (view (os c1)) + SG2002_RTOS_DEFAULT_TIMEOUT_MS <= v_clock (view (os c')) /\
       v_responses (view (os c')) = []).
Proof using echo_ok count_u32 window_bounds fuel_enough H1.
  intros Hc Hf Hs Hl.
  destruct (window_loop_ends seed_base fuel c (initial_phase samples) [] i) as
    (ret & c' & p & E & Hr); [|done|by apply initial_ticketed|].
  { unfold to_do. cbn [initial_phase completed submitted]. rewrite !Z.sub_0_r.
    destruct (v_responses _); lia. }
  exists ret, p, c'. unfold run_windowed_phase. rewrite E. split; [done|].
  destruct Hr as [?|(-> & c1 & responses & j & ? & ? & ? & ? & ? & ? & ? & ?)]; [by left|right].
  split_and!; [done|done|]. by exists c1, responses, j.
Qed.

End Run.

(** ** The concrete system *)

#[global] Instance sim_bench_laws : BenchLaws Sim.t.
Proof.
  split.
  - intros o. eexists. split; [reflexivity|]. split; [|done]. unfold sane. cbn [tv_sec tv_nsec].
    assert (0 <= Sim.now o) by (unfold Sim.now; lia).
    pose proof (Z.mod_pos_bound (Sim.now o) 1000 ltac:(lia)).
    pose proof (Z.div_pos (Sim.now o) 1000 ltac:(lia) ltac:(lia)). lia.
  - intros o d t Hc Hn _. cbn in *. unfold Sim.send. rewrite Hc.
    cbn [fst snd Sim.set_view Sim.sim_view v_peer set_peer set_in_flight].
    unfold Sim.next_peer, number_after. by rewrite Hc.
  - intros o d e t Ho _ Ht. unfold outstanding in Ho. cbn in *. unfold Sim.poll.
    destruct (v_responses (Sim.sim_view o) ++ v_in_flight (Sim.sim_view o)) as [|m l] eqn:E;
      [done|].
    exists (Sim.now o). split; [lia|]. left.
    exists (v_in_flight (Sim.sim_view o)), []. cbn. by rewrite app_nil_r, E.
Defined.

(** A client of the firmware whose line 10 of bank B is low. *)
Definition demo_bench : client Sim.t :=
  let s := demo_client [] [] in
  set_os (Sim.set_view
    (set_peer (Peer 7 true (fun m => (spec_response m demo_device).1))
       (Sim.sim_view (os s))) (os s)) s.

Lemma demo_bench_serving : serving demo_device demo_bench [] 6.
Proof.
  split; [|done|done|done|done]. exists (demo_private []). split; [|done|done].
  by apply (holds_os (demo_client [] [])); [apply demo_holds; cbn; lia| |].
Qed.

Lemma windowed_phase_ends_witness :
  echo_size 3 /\ 3 <= UINT32_MAX /\ 1 <= 2 < SG2002_RTOS_SHM_SLOT_COUNT /\
  (64 < 70)%nat /\ (4 * Z.to_nat 3 + 2 < 70)%nat /\ serving demo_device demo_bench [] 6 /\
  exists ret p c',
    run_windowed_phase 70 3 3 5 2 false (Some [0; 0; 0]) demo_bench = Some ((ret, p), c') /\
    (ret = 0 /\ completed p = 3 \/
     ret = - ETIMEDOUT /\ completed p < 3 /\ exists c1 responses j,
       responses <> [] /\ serving demo_device c1 responses j /\
       serving demo_device c' responses j /\
       sg2002_rtos_wait 70 POLLIN (Some 0) SG2002_RTOS_DEFAULT_TIMEOUT_MS c1 =
         Some ((0, Some 0), c') /\
       v_clock (view (os c1)) + SG2002_RTOS_DEFAULT_TIMEOUT_MS <= v_clock (view (os c')) /\
       v_responses (view (os c')) = []).
Proof.
  assert (He : echo_size 3) by (unfold echo_size; vm_compute; split; congruence).
  assert (Hw : 1 <= 2 < SG2002_RTOS_SHM_SLOT_COUNT) by done.
  pose proof demo_bench_serving as Hs.
  split; [exact He|]. split; [done|]. split; [exact Hw|]. split; [lia|].
  split; [cbn; lia|]. split; [exact Hs|].
  exact (windowed_phase_ends demo_device 3 He 3 2 ltac:(done) Hw 70 ltac:(lia) 5
    (Some [0; 0; 0]) demo_bench 6 ltac:(done) ltac:(cbn; lia) Hs ltac:(done)).
Defined.
