(* ===== verification/ThreadBench.v ===== *)
(** * The benchmark with worker threads: [tools/rtos-thread-bench.c]

    Worker threads each keep one request outstanding; the main thread, the dispatcher,
    submits and reaps for all of them in batches. A worker runs under the phase's lock
    from one wait to the next, so it is a step: [run_worker]. The dispatcher's code is
    written as it is, with a [yield] wherever workers may run, before it holds the lock
    and before a system call it shares with them: then those of the next entry of
    [schedule] take a step each. A wait on a condition variable may end at any step, as
    POSIX allows, so signalling one changes nothing here. Loops without a bound in the
    code take [fuel]; running out of it, signed overflow and access outside an array
    are [None]. *)

From Stdlib Require Import String.
From S2P Require Import Prelude Protocol Shm Strtoul.
From S2P Require Import LinuxOs LinuxRtos Bench.
Local Open Scope Z_scope.

Definition DEFAULT_WORKERS : Z := 1.
Definition DEFAULT_SAMPLES : Z := 100000.
Definition DEFAULT_WARMUP : Z := 8000.
Definition DEFAULT_ECHO_DATA_BYTES : Z := 1017.
Definition MAX_WORKERS : Z := 8.

Inductive worker_state :=
| WORKER_STARTING | WORKER_IDLE | WORKER_READY | WORKER_SUBMITTING | WORKER_IN_FLIGHT
| WORKER_COMPLETE | WORKER_EXITED.

#[global] Instance worker_state_dec : EqDecision worker_state.
Proof. solve_decision. Defined.

(** Where a thread waits: not created, for its first lock, at the start gate, for the
    completion of an operation; or it has returned. *)
Inductive position :=
| not_created | before_lock | at_gate | at_completion (operation : Z) | returned.

#[global] Instance position_dec : EqDecision position.
Proof. solve_decision. Defined.

(** [struct worker], with the thread's position in place of [thread], [completion] and
    the local [operation]. *)
Record worker := Worker {
  thread : position;
  request : slot;
  start : timespec;
  state : worker_state;
  id : Z;
  target : Z;
  issued : Z;
  seed : Z;
  worker_sequence : Z;
}.

(** [struct phase_stats], by what is counted. *)
Record depth_stats := DepthStats { max_ready : Z; max_in_flight : Z; max_outstanding : Z }.
Record submit_stats := SubmitStats {
  send_eagain : Z; submit_calls : Z; submit_successes : Z; submitted_messages : Z;
  max_submit_batch : Z;
}.
Record reap_stats := ReapStats {
  receive_eagain : Z; reap_calls : Z; reap_successes : Z; reaped_messages : Z;
  max_reap_batch : Z;
}.
Record poll_stats := PollStats {
  poll_calls : Z; poll_wakeups : Z; dispatcher_notifications_consumed : Z;
}.
Record phase_stats := PhaseStats {
  depths : depth_stats; submits : submit_stats; reaps : reap_stats; polls : poll_stats;
}.

(** The counters of [struct thread_phase], and its flags. *)
Record counters := Counters {
  completed : Z; started : Z; ready : Z; submitting : Z; in_flight : Z;
}.
Record flags := Flags { go : bool; stop : bool; error : Z }.

(** [struct thread_phase] without the handle, the lock and the condition variables. *)
Record thread_phase := ThreadPhase {
  workers : list worker;
  stats : phase_stats;
  latency : option (list Z);
  latency_sum : Z;
  worker_count : Z;
  total : Z;
  counts : counters;
  seed_base : Z;
  echo_data_bytes : Z;
  wake_fd : Z;
  flags_of : flags;
}.

Definition set_workers (l : list worker) (p : thread_phase) : thread_phase :=
  ThreadPhase l (stats p) (latency p) (latency_sum p) (worker_count p) (total p) (counts p)
    (seed_base p) (echo_data_bytes p) (wake_fd p) (flags_of p).
Definition set_stats (s : phase_stats) (p : thread_phase) : thread_phase :=
  ThreadPhase (workers p) s (latency p) (latency_sum p) (worker_count p) (total p) (counts p)
    (seed_base p) (echo_data_bytes p) (wake_fd p) (flags_of p).
Definition set_latency (l : option (list Z)) (sum : Z) (p : thread_phase) : thread_phase :=
  ThreadPhase (workers p) (stats p) l sum (worker_count p) (total p) (counts p)
    (seed_base p) (echo_data_bytes p) (wake_fd p) (flags_of p).
Definition set_worker_count (n : Z) (p : thread_phase) : thread_phase :=
  ThreadPhase (workers p) (stats p) (latency p) (latency_sum p) n (total p) (counts p)
    (seed_base p) (echo_data_bytes p) (wake_fd p) (flags_of p).
Definition set_counts (c : counters) (p : thread_phase) : thread_phase :=
  ThreadPhase (workers p) (stats p) (latency p) (latency_sum p) (worker_count p) (total p) c
    (seed_base p) (echo_data_bytes p) (wake_fd p) (flags_of p).
Definition set_wake_fd (d : Z) (p : thread_phase) : thread_phase :=
  ThreadPhase (workers p) (stats p) (latency p) (latency_sum p) (worker_count p) (total p)
    (counts p) (seed_base p) (echo_data_bytes p) d (flags_of p).
Definition set_flags (f : flags) (p : thread_phase) : thread_phase :=
  ThreadPhase (workers p) (stats p) (latency p) (latency_sum p) (worker_count p) (total p)
    (counts p) (seed_base p) (echo_data_bytes p) (wake_fd p) f.

Definition set_thread (t : position) (w : worker) : worker :=
  Worker t (request w) (start w) (state w) (id w) (target w) (issued w) (seed w)
    (worker_sequence w).
Definition set_state (s : worker_state) (w : worker) : worker :=
  Worker (thread w) (request w) (start w) s (id w) (target w) (issued w) (seed w)
    (worker_sequence w).
Definition set_worker_sequence (q : Z) (w : worker) : worker :=
  Worker (thread w) (request w) (start w) (state w) (id w) (target w) (issued w) (seed w) q.

(** *** The statistics *)

Definition count_reap_call (s : phase_stats) : phase_stats :=
  let r := reaps s in
  PhaseStats (depths s) (submits s)
    (ReapStats (receive_eagain r) (u64 (reap_calls r + 1)) (reap_successes r)
       (reaped_messages r) (max_reap_batch r)) (polls s).
Definition count_receive_eagain (s : phase_stats) : phase_stats :=
  let r := reaps s in
  PhaseStats (depths s) (submits s)
    (ReapStats (u64 (receive_eagain r + 1)) (reap_calls r) (reap_successes r)
       (reaped_messages r) (max_reap_batch r)) (polls s).
Definition count_reaped (n : Z) (s : phase_stats) : phase_stats :=
  let r := reaps s in
  PhaseStats (depths s) (submits s)
    (ReapStats (receive_eagain r) (reap_calls r) (u64 (reap_successes r + 1))
       (u64 (reaped_messages r + n)) (if max_reap_batch r <? n then n else max_reap_batch r))
    (polls s).
Definition count_submit_call (s : phase_stats) : phase_stats :=
  let b := submits s in
  PhaseStats (depths s)
    (SubmitStats (send_eagain b) (u64 (submit_calls b + 1)) (submit_successes b)
       (submitted_messages b) (max_submit_batch b)) (reaps s) (polls s).
Definition count_send_eagain (s : phase_stats) : phase_stats :=
  let b := submits s in
  PhaseStats (depths s)
    (SubmitStats (u64 (send_eagain b + 1)) (submit_calls b) (submit_successes b)
       (submitted_messages b) (max_submit_batch b)) (reaps s) (polls s).
Definition count_submitted (n : Z) (s : phase_stats) : phase_stats :=
  let b := submits s in
  PhaseStats (depths s)
    (SubmitStats (send_eagain b) (submit_calls b) (u64 (submit_successes b + 1))
       (u64 (submitted_messages b + n))
       (if max_submit_batch b <? n then n else max_submit_batch b)) (reaps s) (polls s).
Definition count_poll (s : phase_stats) : phase_stats :=
  let q := polls s in
  PhaseStats (depths s) (submits s) (reaps s)
    (PollStats (u64 (poll_calls q + 1)) (poll_wakeups q) (dispatcher_notifications_consumed q)).
Definition count_wakeup (s : phase_stats) : phase_stats :=
  let q := polls s in
  PhaseStats (depths s) (submits s) (reaps s)
    (PollStats (poll_calls q) (u64 (poll_wakeups q + 1)) (dispatcher_notifications_consumed q)).
Definition count_notifications (n : Z) (s : phase_stats) : phase_stats :=
  let q := polls s in
  PhaseStats (depths s) (submits s) (reaps s)
    (PollStats (poll_calls q) (poll_wakeups q)
       (u64 (dispatcher_notifications_consumed q + n))).

Definition update_depth_stats (p : thread_phase) : thread_phase :=
  let c := counts p in
  let outstanding := u32 (u32 (ready c + submitting c) + in_flight c) in
  let d := depths (stats p) in
  set_stats (PhaseStats
    (DepthStats
       (if max_ready d <? ready c then ready c else max_ready d)
       (if max_in_flight d <? in_flight c then in_flight c else max_in_flight d)
       (if max_outstanding d <? outstanding then outstanding else max_outstanding d))
    (submits (stats p)) (reaps (stats p)) (polls (stats p))) p.

(** ** Requests *)

(** [None] is [exit(2)]. *)
Definition parse_range (text : string) (minimum maximum : Z) : option Z :=
  let '(value, rest) := strtoul text in
  if not_a_number text rest || (value <? minimum) || (maximum <? value)
  then None else Some value.

Definition worker_target (total workers worker : Z) : Z :=
  u32 (total / workers + (if worker <? total mod workers then 1 else 0)).

(** [elapsed_nanoseconds], [percentile], [build_request] and [validate_response] say
    the same as their counterparts in [tools/rtos-bench.c]. *)
Definition elapsed_nanoseconds (start stop : timespec) : option Z := elapsed_ns start stop.

Definition percentile (samples : list Z) (count percent : Z) : option Z :=
  Bench.percentile samples count percent.

Definition build_request (request : list Z) (echo_data_bytes seed : Z) :
    option (list Z * Z) := Bench.build_request request echo_data_bytes seed.

Definition validate_response (response : slot) (echo_data_bytes seed : Z) : option Z :=
  Bench.validate_response (payload response) (msg_length response) echo_data_bytes seed.

(** The index of the worker, or [None] for [NULL]. *)
Definition find_in_flight_worker (sequence : Z) (p : thread_phase) : option nat :=
  fst <$> list_find (fun w => state w = WORKER_IN_FLIGHT /\ worker_sequence w = sequence)
            (take (Z.to_nat (worker_count p)) (workers p)).

(** What the tool calls beside [tools/rtos-bench.c]'s: threads, the phase's lock and
    condition variables, and an event descriptor that is not a semaphore. *)
Class ThreadSystem (O : Type) `{BenchSystem O} := {
  phase_mutex_init : O -> Z * O;
  phase_mutex_destroy : O -> unit * O;
  phase_mutex_lock : O -> Z * O;
  phase_cond_init : O -> Z * O;
  phase_cond_destroy : O -> unit * O;
  pthread_create : O -> Z * O;
  pthread_join : O -> unit * O;
  eventfd : O -> sys Z * O;
}.

Record world (L : Type) := World {
  client_of : client L;
  phase_of : thread_phase;
  turn : nat;
}.
Arguments World {L}.
Arguments client_of {L}.
Arguments phase_of {L}.
Arguments turn {L}.

Section Threads.
Context {L : Type} `{ThreadSystem L}.
Context (fuel : nat) (schedule : nat -> list nat).
(** The uninitialised arrays [messages[MAX_WORKERS]] on the dispatcher's stack. *)
Context (stack : list slot).
Local Abbreviation T := (ST (world L)).

Definition lib {A} (m : ST (client L) A) : T A := fun s =>
  match m (client_of s) with
  | Some (a, c) => Some (a, World c (phase_of s) (turn s))
  | None => None
  end.
Definition sys_call {A} (f : L -> A * L) : T A := lib (call f).
Definition vars : T thread_phase := gets phase_of.
Definition update (f : thread_phase -> thread_phase) : T unit :=
  modify (fun s => World (client_of s) (f (phase_of s)) (turn s)).
Definition update_worker (i : nat) (f : worker -> worker) : T unit :=
  p ← vars;
  w ← lift (workers p !! i);
  update (set_workers (<[i := f w]> (workers p))).
Definition update_stats (f : phase_stats -> phase_stats) : T unit :=
  update (fun p => set_stats (f (stats p)) p).

(** ** Waking the dispatcher *)

(** [do write(..); while (written < 0 && errno == EINTR)] *)
Fixpoint write_wake (n : nat) : T (sys Z) :=
  match n with
  | O => undefined
  | S n =>
      p ← vars;
      written ← sys_call (os_write (wake_fd p) 1);
      match written with
      | Err e => if e =? EINTR then write_wake n else mret written
      | Ok _ => mret written
      end
  end.

Definition signal_dispatcher : T Z :=
  written ← write_wake fuel;
  mret (match written with
        | Ok n => if n =? 8 then 0 else - EIO
        | Err e => if e =? EAGAIN then 0 else - e
        end).

Fixpoint read_wake (n : nat) : T (sys (Z * Z)) :=
  match n with
  | O => undefined
  | S n =>
      p ← vars;
      received ← sys_call (os_read (wake_fd p));
      match received with
      | Err e => if e =? EINTR then read_wake n else mret received
      | Ok _ => mret received
      end
  end.

(** The second result is [*notifications]. *)
Definition consume_dispatcher_signal (notifications : Z) : T (Z * Z) :=
  received ← read_wake fuel;
  mret (match received with
        | Ok (n, value) => if n =? 8 then (0, value) else (- EIO, notifications)
        | Err e => if e =? EAGAIN then (0, 0) else (- e, notifications)
        end).

Definition fail_phase_locked (error_code : Z) : T unit :=
  update (fun p =>
    let f := flags_of p in
    set_flags (Flags (go f) true
      (if error f =? 0 then if negb (error_code =? 0) then error_code else - EIO
       else error f)) p);;
  p ← vars;
  if 0 <=? wake_fd p then signal_dispatcher;; mret tt else mret tt.

(** ** The workers *)

(** [worker->state = WORKER_EXITED; .. return NULL;] *)
Definition worker_exit (i : nat) : T unit :=
  update_worker i (fun w => set_thread returned (set_state WORKER_EXITED w)).

(** The body of the loop for [operation], to the wait in it. *)
Definition worker_issue (i : nat) (operation : Z) : T unit :=
  p ← vars;
  w ← lift (workers p !! i);
  let seed := u32 (u32 (seed_base p + u32 (operation * worker_count p)) + id w) in
  '(bytes, n) ← lift (build_request zero_payload (echo_data_bytes p) seed);
  update_worker i (fun w =>
    Worker (thread w) (Slot 0 n bytes) (start w) (state w) (id w) (target w) (issued w) seed
      (worker_sequence w));;
  now ← sys_call clock_gettime;
  match now with
  | Err e => fail_phase_locked (- e);; worker_exit i
  | Ok now =>
      update_worker i (fun w =>
        Worker (at_completion operation) (request w) now WORKER_READY (id w) (target w)
          (u32 (issued w + 1)) (ThreadBench.seed w) (worker_sequence w));;
      update (fun p =>
        let c := counts p in
        update_depth_stats (set_counts
          (Counters (completed c) (started c) (u32 (ready c + 1)) (submitting c)
             (in_flight c)) p));;
      ret ← signal_dispatcher;
      if negb (ret =? 0) then fail_phase_locked ret;; worker_exit i else mret tt
  end.

(** The head of the loop. *)
Definition worker_loop (i : nat) (operation : Z) : T unit :=
  p ← vars;
  w ← lift (workers p !! i);
  if (operation <? target w) && negb (stop (flags_of p)) then worker_issue i operation
  else worker_exit i.

(** The wait at the start gate. *)
Definition worker_gate (i : nat) : T unit :=
  p ← vars;
  if negb (go (flags_of p)) && negb (stop (flags_of p))
  then update_worker i (set_thread at_gate)
  else worker_loop i 0.

(** A step of worker [i]: from where it waits to where it waits next. *)
Definition run_worker (i : nat) : T unit :=
  p ← vars;
  match workers p !! i with
  | None => mret tt
  | Some w =>
      match thread w with
      | not_created | returned => mret tt
      | before_lock =>
          ret ← sys_call phase_mutex_lock;
          if negb (ret =? 0) then update_worker i (set_thread returned)
          else
            update (fun p =>
              let c := counts p in
              set_counts (Counters (completed c) (u32 (started c + 1)) (ready c)
                            (submitting c) (in_flight c)) p);;
            update_worker i (set_state WORKER_IDLE);;
            worker_gate i
      | at_gate => worker_gate i
      | at_completion operation =>
          let f := flags_of p in
          if negb (bool_decide (state w = WORKER_COMPLETE)) && negb (stop f) then mret tt
          else
            (if negb (stop f) then update_worker i (set_state WORKER_IDLE) else mret tt);;
            worker_loop i (u32 (operation + 1))
      end
  end.

(** Where workers may run: the next entry of the schedule. *)
Definition yield : T unit := fun s =>
  st_iter run_worker (schedule (turn s)) (World (client_of s) (phase_of s) (S (turn s))).

(** [pthread_mutex_lock(&phase->lock)] in the dispatcher, which does not look at the
    result. *)
Definition lock_phase : T unit := yield;; sys_call phase_mutex_lock;; mret tt.

(** ** The dispatcher *)

(** The loop over the reaped messages. *)
Fixpoint complete_reaped (indices : list nat) (messages : list slot) (echo_data_bytes : Z)
    (now : timespec) : T Z :=
  match indices with
  | [] => mret 0
  | index :: indices =>
      p ← vars;
      m ← lift (messages !! index);
      match find_in_flight_worker (sequence m) p with
      | None => fail_phase_locked (- EPROTO);; mret (- EPROTO)
      | Some i =>
          w ← lift (workers p !! i);
          valid ← lift (validate_response m echo_data_bytes (seed w));
          if negb (valid =? 0) then fail_phase_locked (- EPROTO);; mret (- EPROTO)
          else
            ns ← lift (elapsed_nanoseconds (start w) now);
            (match latency p with
             | None => mret tt
             | Some l =>
                 l ← lift (array_store l (completed (counts p)) ns);
                 update (set_latency (Some l) (u64 (latency_sum p + ns)))
             end);;
            update_worker i (set_state WORKER_COMPLETE);;
            update (fun p =>
              let c := counts p in
              set_counts (Counters (u32 (completed c + 1)) (started c) (ready c)
                            (submitting c) (u32 (in_flight c - 1))) p);;
            complete_reaped indices messages echo_data_bytes now
      end
  end.

(** The results: [ret] and [*progressed]. *)
Definition reap_ready_responses (echo_data_bytes : Z) (progressed : bool) : T (Z * bool) :=
  lock_phase;;
  p ← vars;
  let requested := u16 (in_flight (counts p)) in
  if requested =? 0 then mret (0, progressed)
  else
    update_stats count_reap_call;;
    '(ret, messages, reaped) ← lib (sg2002_rtos_message_reap_batch fuel (Some stack)
                                      requested (Some 0) 0);
    messages ← lift messages; reaped ← lift reaped;
    if ret =? - EAGAIN then update_stats count_receive_eagain;; mret (0, progressed)
    else if negb (ret =? 0) then mret (ret, progressed)
    else if (reaped =? 0) || (requested <? reaped) then mret (- EPROTO, progressed)
    else
      now ← sys_call clock_gettime;
      match now with
      | Err e => mret (- e, progressed)
      | Ok now =>
          update_stats (count_reaped reaped);;
          lock_phase;;
          ret ← complete_reaped (seq 0 (Z.to_nat reaped)) messages echo_data_bytes now;
          if negb (ret =? 0) then mret (ret, progressed)
          else update update_depth_stats;; mret (0, true)
      end.

(** The counters when a worker leaves [WORKER_SUBMITTING] for [WORKER_READY], and the
    worker. *)
Definition return_ready (i : nat) : T unit :=
  update_worker i (set_state WORKER_READY);;
  update (fun p =>
    let c := counts p in
    set_counts (Counters (completed c) (started c) (u32 (ready c + 1))
                  (u32 (submitting c - 1)) (in_flight c)) p).

(** The loop that selects: [messages], and the indices [selected], [count] of them. *)
Fixpoint select_ready (indices : list nat) (messages : list slot) (selected : list nat) :
    T (list slot * list nat) :=
  match indices with
  | [] => mret (messages, selected)
  | i :: indices =>
      p ← vars;
      w ← lift (workers p !! i);
      if negb (bool_decide (state w = WORKER_READY))
      then select_ready indices messages selected
      else
        messages ← lift (array_store messages (Z.of_nat (length selected)) (request w));
        update_worker i (set_state WORKER_SUBMITTING);;
        update (fun p =>
          let c := counts p in
          set_counts (Counters (completed c) (started c) (u32 (ready c - 1))
                        (u32 (submitting c + 1)) (in_flight c)) p);;
        select_ready indices messages (selected ++ [i])
  end.

(** The loop over the submitted messages. *)
Fixpoint mark_in_flight (indices : list nat) (messages : list slot) (selected : list nat) : T Z :=
  match indices with
  | [] => mret 0
  | index :: indices =>
      p ← vars;
      m ← lift (messages !! index);
      if (sequence m =? 0) || bool_decide (find_in_flight_worker (sequence m) p <> None)
      then fail_phase_locked (- EPROTO);; mret (- EPROTO)
      else
        i ← lift (selected !! index);
        update_worker i (fun w => set_state WORKER_IN_FLIGHT (set_worker_sequence (sequence m) w));;
        update (fun p =>
          let c := counts p in
          set_counts (Counters (completed c) (started c) (ready c) (u32 (submitting c - 1))
                        (u32 (in_flight c + 1))) p);;
        mark_in_flight indices messages selected
  end.

Definition submit_ready_workers (progressed : bool) : T (Z * bool) :=
  lock_phase;;
  p ← vars;
  '(messages, selected) ← select_ready (seq 0 (Z.to_nat (worker_count p))) stack [];
  update update_depth_stats;;
  let count := Z.of_nat (length selected) in
  if count =? 0 then mret (0, progressed)
  else
    update_stats count_submit_call;;
    '(ret, messages, submitted) ← lib (sg2002_rtos_message_submit_batch fuel (Some messages)
                                         count (Some 0) 0);
    messages ← lift messages; submitted ← lift submitted;
    lock_phase;;
    if negb (ret =? 0) && negb (ret =? - EAGAIN) then
      st_iter return_ready selected;;
      fail_phase_locked ret;;
      mret (ret, progressed)
    else
      (if ret =? - EAGAIN then update_stats count_send_eagain else mret tt);;
      if (ret =? 0) && ((submitted =? 0) || (count <? submitted)) then
        fail_phase_locked (- EPROTO);; mret (- EPROTO, progressed)
      else
        marked ← mark_in_flight (seq 0 (Z.to_nat submitted)) messages selected;
        if negb (marked =? 0) then mret (marked, progressed)
        else
          st_iter return_ready (drop (Z.to_nat submitted) selected);;
          update update_depth_stats;;
          if 0 <? submitted then update_stats (count_submitted submitted);; mret (0, true)
          else mret (0, progressed).

Definition poll_transport_or_worker (transport_fd events timeout_ms : Z) : T Z :=
  p ← vars;
  if negb (events =? 0) && (transport_fd <? 0) then mret (- EBADF)
  else
    let descriptors := (wake_fd p, POLLIN) ::
      (if negb (events =? 0) then [(transport_fd, events)] else []) in
    update_stats count_poll;;
    yield;;
    polled ← sys_call (os_poll descriptors timeout_ms);
    match polled with
    | PollError e => mret (if e =? EINTR then 0 else - e)
    | PollTimeout => mret (- ETIMEDOUT)
    | PollReady revents =>
        update_stats count_wakeup;;
        wake ← lift (revents !! 0%nat);
        if negb (Z.land wake POLLNVAL =? 0) then mret (- EBADF)
        else if negb (Z.land wake (Z.lor POLLERR POLLHUP) =? 0) then mret (- ENOTCONN)
        else
          ret ← (if negb (Z.land wake POLLIN =? 0) then
                   yield;;
                   '(ret, notifications) ← consume_dispatcher_signal 0;
                   if negb (ret =? 0) then mret ret
                   else update_stats (count_notifications notifications);; mret 0
                 else mret 0);
          if negb (ret =? 0) then mret ret
          else if (length descriptors =? 2)%nat then
            transport ← lift (revents !! 1%nat);
            mret (if negb (Z.land transport POLLNVAL =? 0) then - EBADF
                  else if negb (Z.land transport (Z.lor POLLERR POLLHUP) =? 0) then - ENOTCONN
                  else 0)
          else mret 0
    end.

(** [phase->error != 0 || phase->completed == phase->total] *)
Definition finished (p : thread_phase) : bool :=
  negb (error (flags_of p) =? 0) || (completed (counts p) =? total p).

Definition wait_for_transport_or_worker : T Z :=
  lock_phase;;
  p ← vars;
  if finished p then mret (error (flags_of p))
  else
    let events := Z.lor (if 0 <? in_flight (counts p) then POLLIN else 0)
                    (if 0 <? ready (counts p) then POLLOUT else 0) in
    if negb (events =? 0) then
      transport_fd ← lib sg2002_rtos_poll_fd;
      if transport_fd <? 0 then mret transport_fd
      else poll_transport_or_worker transport_fd events SG2002_RTOS_DEFAULT_TIMEOUT_MS
    else poll_transport_or_worker (-1) events SG2002_RTOS_DEFAULT_TIMEOUT_MS.

Fixpoint dispatch_phase (n : nat) (echo_data_bytes : Z) : T Z :=
  match n with
  | O => undefined
  | S n =>
      lock_phase;;
      p ← vars;
      if finished p then mret (error (flags_of p))
      else
        '(ret, progressed) ← reap_ready_responses echo_data_bytes false;
        if negb (ret =? 0) then mret ret
        else
          '(ret, progressed) ← submit_ready_workers progressed;
          if negb (ret =? 0) then mret ret
          else if negb progressed then
            ret ← wait_for_transport_or_worker;
            if negb (ret =? 0) then mret ret else dispatch_phase n echo_data_bytes
          else dispatch_phase n echo_data_bytes
  end.

(** ** A phase *)

Definition zero_worker : worker :=
  Worker not_created zero_slot (Timespec 0 0) WORKER_STARTING 0 0 0 0 0.

Definition zero_phase_stats : phase_stats :=
  PhaseStats (DepthStats 0 0 0) (SubmitStats 0 0 0 0 0) (ReapStats 0 0 0 0 0) (PollStats 0 0 0).

Definition initial_phase (workers total echo_data_bytes seed_base : Z)
    (latency : option (list Z)) : thread_phase :=
  ThreadPhase (replicate (Z.to_nat MAX_WORKERS) zero_worker) zero_phase_stats latency 0 workers
    total (Counters 0 0 0 0 0) seed_base echo_data_bytes (-1) (Flags false false 0).

(** The body of the loop that creates. *)
Definition create_worker (total workers : Z) (i : nat) : T Z :=
  yield;;
  update_worker i (fun w =>
    Worker (thread w) (request w) (start w) WORKER_STARTING (Z.of_nat i)
      (worker_target total workers (Z.of_nat i)) (issued w) (seed w) (worker_sequence w));;
  ret ← sys_call phase_cond_init;
  if negb (ret =? 0) then mret (- ret)
  else
    ret ← sys_call pthread_create;
    if negb (ret =? 0) then sys_call phase_cond_destroy;; mret (- ret)
    else update_worker i (set_thread before_lock);; mret 0.

(** [ret], and [created]. *)
Fixpoint create_workers (indices : list nat) (total workers : Z) (created : nat) : T (Z * nat) :=
  match indices with
  | [] => mret (0, created)
  | i :: indices =>
      ret ← create_worker total workers i;
      if negb (ret =? 0) then mret (ret, created)
      else create_workers indices total workers (S created)
  end.

Fixpoint wait_started (n : nat) (workers : Z) : T unit :=
  p ← vars;
  if (started (counts p) <? workers) && (error (flags_of p) =? 0) then
    match n with O => undefined | S n => yield;; wait_started n workers end
  else mret tt.

(** The phase once its workers are created: [ret], and [*duration_ns]. *)
Definition run_started (workers echo_data_bytes : Z) : T (Z * Z) :=
  lock_phase;;
  wait_started fuel workers;;
  begin ← sys_call clock_gettime;
  match begin with
  | Err e => fail_phase_locked (- e);; mret (- e, 0)
  | Ok begin =>
      update (fun p => set_flags (Flags true (stop (flags_of p)) (error (flags_of p))) p);;
      ret ← dispatch_phase fuel echo_data_bytes;
      finish ← sys_call clock_gettime;
      '(ret, duration) ←
        (match finish with
         | Err e => mret (if ret =? 0 then - e else ret, 0)
         | Ok finish => ns ← lift (elapsed_nanoseconds begin finish); mret (ret, ns)
         end);
      (if negb (ret =? 0) then lock_phase;; fail_phase_locked ret else mret tt);;
      mret (ret, duration)
  end.

(** [pthread_join]: the workers run until this one has returned. *)
Fixpoint join_worker (n : nat) (i : nat) : T unit :=
  p ← vars;
  w ← lift (workers p !! i);
  if bool_decide (thread w = returned) then sys_call pthread_join
  else match n with O => undefined | S n => yield;; join_worker n i end.

(** [ret], [*duration_ns] and [created], up to the label [out_destroy]. *)
Definition run_workers (workers total echo_data_bytes : Z) : T (Z * Z * nat) :=
  '(ret, created) ← create_workers (seq 0 (Z.to_nat workers)) total workers 0;
  '(ret, duration) ←
    (if negb (ret =? 0) then
       update (set_worker_count (Z.of_nat created));;
       lock_phase;;
       fail_phase_locked ret;;
       mret (ret, 0)
     else run_started workers echo_data_bytes);
  st_iter (join_worker fuel) (seq 0 created);;
  mret (ret, duration, created).

(** [ret] and [*duration_ns]; the other results are read from the phase. *)
Definition run_phase (workers total echo_data_bytes seed_base : Z)
    (latency : option (list Z)) : T (Z * Z) :=
  update (fun _ => initial_phase workers total echo_data_bytes seed_base latency);;
  ret ← sys_call phase_mutex_init;
  if negb (ret =? 0) then mret (- ret, 0)
  else
    ret ← sys_call phase_cond_init;
    if negb (ret =? 0) then sys_call phase_mutex_destroy;; mret (- ret, 0)
    else
      ret ← sys_call phase_cond_init;
      if negb (ret =? 0) then
        sys_call phase_cond_destroy;; sys_call phase_mutex_destroy;; mret (- ret, 0)
      else
        opened ← sys_call eventfd;
        match opened with
        | Err e =>
            sys_call phase_cond_destroy;; sys_call phase_cond_destroy;;
            sys_call phase_mutex_destroy;; mret (- e, 0)
        | Ok d =>
            update (set_wake_fd d);;
            '(ret, duration, created) ← run_workers workers total echo_data_bytes;
            st_iter (fun _ => sys_call phase_cond_destroy) (seq 0 created);;
            sys_call phase_cond_destroy;;
            sys_call phase_cond_destroy;;
            sys_call phase_mutex_destroy;;
            sys_call (os_close d);;
            p ← vars;
            mret (if (ret =? 0) && negb (completed (counts p) =? total) then - EIO else ret,
                  duration)
        end.

(** ** The self-test *)

(** An operation's number: [Some None] is [return 1]. *)
Definition assign (total workers worker : Z) (seen : list Z) (operation : nat) :
    option (option (list Z)) :=
  let assigned := u32 (u32 (Z.of_nat operation * workers) + worker) in
  if total <=? assigned then Some None
  else
    x ← seen !! Z.to_nat assigned;
    if negb (x =? 0) then Some None
    else seen ← array_store seen assigned 1; Some (Some seen).

Fixpoint assign_all (operations : list nat) (total workers worker : Z) (seen : list Z) :
    option (option (list Z)) :=
  match operations with
  | [] => Some (Some seen)
  | operation :: operations =>
      r ← assign total workers worker seen operation;
      match r with
      | None => Some None
      | Some seen => assign_all operations total workers worker seen
      end
  end.

(** The loop over the workers: [seen] and [index]. *)
Fixpoint assign_workers (each : list nat) (total workers : Z) (seen : list Z) (index : Z) :
    option (option (list Z * Z)) :=
  match each with
  | [] => Some (Some (seen, index))
  | worker :: each =>
      let target := worker_target total workers (Z.of_nat worker) in
      r ← assign_all (seq 0 (Z.to_nat target)) total workers (Z.of_nat worker) seen;
      match r with
      | None => Some None
      | Some seen => assign_workers each total workers seen (u32 (index + target))
      end
  end.

(** One turn of the two outer loops: [Some true] goes on. *)
Definition test_partition (workers total : Z) : option bool :=
  r ← assign_workers (seq 0 (Z.to_nat workers)) total workers (replicate 66 0) 0;
  match r with
  | None => Some false
  | Some (seen, index) =>
      if negb (index =? total) then Some false
      else
        numbered ← (if total <=? Z.of_nat (length seen)
                    then Some (take (Z.to_nat total) seen) else None);
        Some (forallb (fun x => x =? 1) numbered)
  end.

Fixpoint test_partitions (cases : list (nat * nat)) : option bool :=
  match cases with
  | [] => Some true
  | (workers, total) :: cases =>
      r ← test_partition (Z.of_nat workers) (Z.of_nat total);
      if negb r then Some false else test_partitions cases
  end.

Definition partition_cases : list (nat * nat) :=
  workers ← seq 1 (Z.to_nat MAX_WORKERS); (fun total => (workers, total)) <$> seq 0 66.

Definition test_responses : option bool :=
  '(bytes, n) ← build_request zero_payload DEFAULT_ECHO_DATA_BYTES 0x12345678;
  good ← validate_response (Slot 7 n bytes) DEFAULT_ECHO_DATA_BYTES 0x12345678;
  if negb (good =? 0) then Some false
  else
    last ← bytes !! Z.to_nat DEFAULT_ECHO_DATA_BYTES;
    bytes ← array_store bytes DEFAULT_ECHO_DATA_BYTES (Z.lxor last 1);
    bad ← validate_response (Slot 7 n bytes) DEFAULT_ECHO_DATA_BYTES 0x12345678;
    Some (bad =? - EPROTO).

Definition test_find : bool :=
  let in_flight_as q := set_state WORKER_IN_FLIGHT (set_worker_sequence q zero_worker) in
  let p := set_workers (in_flight_as 17 :: in_flight_as 19 ::
             replicate (Z.to_nat MAX_WORKERS - 2) zero_worker) (initial_phase 2 0 0 0 None) in
  bool_decide (find_in_flight_worker 17 p = Some 0%nat) &&
  bool_decide (find_in_flight_worker 19 p = Some 1%nat) &&
  bool_decide (find_in_flight_worker 23 p = None).

Definition test_percentiles : option bool :=
  let samples := qsort 5 [5; 1; 4; 2; 3] in
  p50 ← percentile samples 5 50;
  p95 ← percentile samples 5 95;
  Some ((p50 =? 3) && (p95 =? 5)).

(** A notification that comes after the dispatcher looked. *)
Definition test_wake : T Z :=
  update (fun _ => initial_phase 0 0 0 0 None);;
  opened ← sys_call eventfd;
  match opened with
  | Err _ => mret 1
  | Ok wake =>
      update (set_wake_fd wake);;
      opened ← sys_call eventfd;
      match opened with
      | Err _ => sys_call (os_close wake);; mret 1
      | Ok transport =>
          ret ← signal_dispatcher;
          if negb (ret =? 0) then
            sys_call (os_close transport);; sys_call (os_close wake);; mret 1
          else
            ret ← poll_transport_or_worker transport POLLIN 0;
            sys_call (os_close transport);;
            sys_call (os_close wake);;
            p ← vars;
            let q := polls (stats p) in
            mret (if (ret =? 0) && (poll_calls q =? 1) && (poll_wakeups q =? 1) &&
                     (dispatcher_notifications_consumed q =? 1) then 0 else 1)
      end
  end.

(** The handle is [NULL]. *)
Definition run_self_test : T Z :=
  modify (fun s => World (Client None (os (client_of s))) (phase_of s) (turn s));;
  partitions ← lift (test_partitions partition_cases);
  if negb partitions then mret 1
  else
    responses ← lift test_responses;
    if negb responses then mret 1
    else if negb test_find then mret 1
    else
      percentiles ← lift test_percentiles;
      if negb percentiles then mret 1
      else
        '(ret, _) ← run_phase MAX_WORKERS 0 DEFAULT_ECHO_DATA_BYTES 0x2468ace0 None;
        p ← vars;
        if negb (ret =? 0) || negb (completed (counts p) =? 0) then mret 1
        else test_wake.

(** ** The command line *)

(** [workers], [samples], [warmup] and [echo_data_bytes]; [None] is exit status 2. *)
Definition parse_arguments (argv : list string) : option (Z * Z * Z * Z) :=
  if 5 <? Z.of_nat (length argv) then None
  else
    workers ← argument argv 1 DEFAULT_WORKERS (fun text => parse_range text 1 MAX_WORKERS);
    samples ← argument argv 2 DEFAULT_SAMPLES (fun text => parse_range text 1 MAX_SAMPLES);
    warmup ← argument argv 3 DEFAULT_WARMUP (fun text => parse_range text 0 MAX_SAMPLES);
    echo ← argument argv 4 DEFAULT_ECHO_DATA_BYTES
             (fun text => parse_range text 0 MAX_ECHO_DATA_BYTES);
    Some (workers, samples, warmup, echo).

(** What is printed, without the rates and means, which are floating point, and the
    lines that are the same for every run or repeat another. *)
Record thread_report := ThreadReport {
  report_path : string;
  report_batch_backend : string;
  report_workers : Z;
  report_stats : phase_stats;
  report_message_bytes : Z;
  report_application_bytes : Z;
  report_echo_data_bytes : Z;
  report_warmup : Z;
  report_samples : Z;
  report_completed : Z;
  report_failures : Z;
  report_error : Z;
  report_elapsed : Z;
  report_latency_sum : Z;
  report_latencies : option latency_report;
}.

Definition path_name (native : Z) : string :=
  String.append "userspace_bounded_workers_"
    (String.append
      (if native =? 1 then "batch_native"%string
       else if native =? 0 then "batch_compat"%string else "batch_unknown"%string)
      "_freertos_round_trip").

Definition backend_name (native : Z) : string :=
  if native =? 1 then "native_ioctl"%string
  else if native =? 0 then "single_ioctl_fallback"%string else "unknown"%string.

Definition close_and_free : T unit := lib sg2002_rtos_close;; sys_call free.

(** The measured phase and the report. *)
Definition run_samples (workers samples warmup echo : Z) (buffer : list Z) :
    T (Z * option thread_report) :=
  '(ret, duration) ← run_phase workers samples echo 0x2468ace0 (Some buffer);
  p ← vars;
  '(ret, native) ←
    (if ret =? 0 then
       native ← lib sg2002_rtos_native_batch_available;
       mret (if native <? 0 then native else ret, native)
     else mret (ret, - EAGAIN));
  let done := completed (counts p) in
  let failures := if negb (ret =? 0) || negb (done =? samples) then 1 else 0 in
  measured ← lift (latency p);
  let sorted := if 0 <? done then qsort done measured else measured in
  latencies ← lift (report_latency sorted done);
  close_and_free;;
  mret (if (ret =? 0) && (done =? samples) then 0 else 1,
        Some (ThreadReport (path_name native) (backend_name native) workers (stats p)
          (if 0 <? echo then (echo + 1) * 2 else SG2002_RTOS_VALUE_MESSAGE_SIZE * 2)
          (if 0 <? echo then echo * 2 else VALUE_BYTES_PER_ROUND_TRIP)
          echo warmup samples done failures ret duration (latency_sum p) latencies)).

Definition main (argv : list string) : T (Z * option thread_report) :=
  if (length argv =? 2)%nat && bool_decide (argv !! 1%nat = Some "--self-test"%string) then
    ret ← run_self_test; mret (ret, None)
  else
    match parse_arguments argv with
    | None => mret (2, None)
    | Some (workers, samples, warmup, echo) =>
        modify (fun s => World (set_rtos (Handle (-1) None) (client_of s)) (phase_of s) (turn s));;
        allocated ← sys_call (calloc samples 8);
        if negb allocated then mret (1, None)
        else
          ret ← lib (sg2002_rtos_open None);
          if negb (ret =? 0) then sys_call free;; mret (1, None)
          else
            available ← lib sg2002_rtos_shared_memory_available;
            if available =? 0 then close_and_free;; mret (1, None)
            else
              '(ret, _) ← run_phase workers warmup echo 0x13579bdf None;
              p ← vars;
              if negb (ret =? 0) || negb (completed (counts p) =? warmup)
              then close_and_free;; mret (1, None)
              else run_samples workers samples warmup echo (replicate (Z.to_nat samples) 0)
    end.

End Threads.
