(* ===== verification/ThreadSim.v ===== *)
(** * A concrete system with threads

    The system of LinuxSim.v with event descriptors that count, on which a phase of the
    thread benchmark and its self-test can be evaluated, and what the thread benchmark
    relies on of such a descriptor. *)

From S2P Require Import Prelude Shm Cmdqu LinuxOs LinuxSim LinuxRtos LinuxRtosSpec.
From S2P Require Import Bench BenchWindow ThreadBench.
Local Open Scope Z_scope.

(** Event descriptors that count: a write of 1 adds to the counter, unless it is
    interrupted or the counter is full. Reading the clock and taking the phase's lock
    leave the counters alone. *)
Class WakeLaws (O : Type) `{ThreadSystem O} := {
  wakes : O -> gmap Z Z;
  wakes_clock o : wakes (clock_gettime o).2 = wakes o;
  wakes_lock o : wakes (phase_mutex_lock o).2 = wakes o;
  wakes_write o d n :
    wakes o !! d = Some n ->
    let o' := (os_write d 1 o).2 in
    ((os_write d 1 o).1 = Ok 8 /\ wakes o' !! d = Some (n + 1)) \/
    ((os_write d 1 o).1 = Err EINTR /\ wakes o' !! d = Some n) \/
    ((os_write d 1 o).1 = Err EAGAIN /\ 0 < n /\ wakes o' !! d = Some n);
}.

Module SimThreads.

Record t := SimThreads { base : Sim.t; counting : gmap Z Z }.

Definition set_counting (c : gmap Z Z) (o : t) : t := SimThreads (base o) c.
Definition on_base {A} (f : Sim.t -> A * Sim.t) (o : t) : A * t :=
  let '(a, b) := f (base o) in (a, SimThreads b (counting o)).

Definition read (d : Z) (o : t) : sys (Z * Z) * t :=
  match counting o !! d with
  | Some n => if n =? 0 then (Err EAGAIN, o) else (Ok (8, n), set_counting (<[d := 0]> (counting o)) o)
  | None => on_base (os_read d) o
  end.

Definition write (d v : Z) (o : t) : sys Z * t :=
  match counting o !! d with
  | Some n => (Ok 8, set_counting (<[d := n + v]> (counting o)) o)
  | None => on_base (os_write d v) o
  end.

Definition close (d : Z) (o : t) : unit * t :=
  on_base (os_close d) (set_counting (delete d (counting o)) o).

(** Everything in flight has arrived by the time of a [poll]. *)
Definition arrive (b : Sim.t) : Sim.t :=
  let v := Sim.sim_view b in
  Sim.set_view (set_in_flight [] (set_responses (v_responses v ++ v_in_flight v) v)) b.

Definition revents (o : t) (descriptor : Z * Z) : Z :=
  let '(d, events) := descriptor in
  match counting o !! d with
  | Some n => if 0 <? n then Z.land events POLLIN else 0
  | None =>
      let v := Sim.sim_view (base o) in
      Z.lor (match v_responses v with [] => 0 | _ => Z.land events POLLIN end)
        (if v_can_send (v_peer v) then Z.land events POLLOUT else 0)
  end.

Definition poll (descriptors : list (Z * Z)) (timeout : Z) (o : t) : poll_result * t :=
  if existsb (fun d => bool_decide (counting o !! d.1 <> None)) descriptors then
    let o := SimThreads (arrive (base o)) (counting o) in
    let r := revents o <$> descriptors in
    if forallb (fun x => x =? 0) r then (PollTimeout, o) else (PollReady r, o)
  else on_base (os_poll descriptors timeout) o.

#[global] Instance linux : Linux t := {|
  os_open := fun path => on_base (os_open path);
  os_close := close;
  os_calloc := on_base os_calloc;
  os_free := on_base os_free;
  os_eventfd := on_base os_eventfd;
  os_read := read;
  os_write := write;
  os_poll := poll;
  os_clock := on_base os_clock;
  pthread_mutex_init := fun l => on_base (pthread_mutex_init l);
  pthread_mutex_destroy := fun l => on_base (pthread_mutex_destroy l);
  pthread_mutex_lock := fun l => on_base (pthread_mutex_lock l);
  pthread_mutex_unlock := fun l => on_base (pthread_mutex_unlock l);
  ioctl_acquire := fun d => on_base (ioctl_acquire d);
  ioctl_send := fun d tr => on_base (ioctl_send d tr);
  ioctl_receive := fun d tr => on_base (ioctl_receive d tr);
  ioctl_submit_batch := fun d b l => on_base (ioctl_submit_batch d b l);
  ioctl_reap_batch := fun d b l => on_base (ioctl_reap_batch d b l);
  ioctl_send_wait := fun d c => on_base (ioctl_send_wait d c);
|}.

#[global] Instance bench : BenchSystem t := {|
  clock_gettime := on_base clock_gettime;
  calloc := fun n m => on_base (calloc n m);
  free := on_base free;
|}.

#[global] Instance threads : ThreadSystem t := {|
  phase_mutex_init := fun o => (0, o);
  phase_mutex_destroy := fun o => (tt, o);
  phase_mutex_lock := fun o => (0, o);
  phase_cond_init := fun o => (0, o);
  phase_cond_destroy := fun o => (tt, o);
  pthread_create := fun o => (0, o);
  pthread_join := fun o => (tt, o);
  eventfd := fun o =>
    let '(d, b) := Sim.new_fd (base o) in (Ok d, SimThreads b (<[d := 0]> (counting o)));
|}.

#[global] Instance wake_laws : WakeLaws t.
Proof.
  refine {| wakes := counting |}; [done|done|]. intros o d n E. left. cbn. unfold write.
  rewrite E. split; [done|]. apply lookup_insert_eq.
Defined.

End SimThreads.

(** An open handle of a firmware that answers PING, and no phase yet. *)
Definition demo_world : world SimThreads.t :=
  World (Client (rtos (demo_client [] []))
           (SimThreads.SimThreads (os (demo_client [] [])) ∅))
    (initial_phase 0 0 0 0 None) 0.

(** All the workers take a step whenever they may. *)
Definition demo_schedule (_ : nat) : list nat := seq 0 8.
Definition demo_stack : list slot := replicate 8 zero_slot.
