(* ===== verification/ThreadPhase.v ===== *)
(** * A phase of the thread benchmark

    Whatever the system does and in whatever order the threads run, a phase of
    [tools/rtos-thread-bench.c] keeps its accounts: the counters say how many workers
    are in each state, no two requests in flight have the same number, no more is
    outstanding than there are workers, and a phase that ends well has completed the
    work of every worker. *)

From S2P Require Import Prelude Protocol Shm LinuxOs LinuxRtos Bench ThreadBench ThreadSim.
Local Open Scope Z_scope.

(** ** The work of the workers *)

Lemma worker_target_small total workers i :
  0 <= total < 2 ^ 32 -> 1 <= workers -> 0 <= i ->
  worker_target total workers i = total / workers + (if i <? total mod workers then 1 else 0) /\
  0 <= worker_target total workers i <= total.
Proof.
  intros Ht Hw Hi. unfold worker_target.
  pose proof (Z.div_pos total workers ltac:(lia) ltac:(lia)).
  pose proof (Z.div_mod total workers ltac:(lia)) as E.
  pose proof (Z.mod_pos_bound total workers ltac:(lia)).
  set (q := total / workers) in *. set (r := total mod workers) in *. clearbody q r.
  assert (q <= workers * q) by nia.
  assert (q + (if i <? r then 1 else 0) <= total) by (destruct (i <? r) eqn:Ei; lia).
  rewrite wrap_small by (destruct (_ <? _); word_lia). destruct (_ <? _); lia.
Qed.

(** C36: the workers share a phase's operations out among them. Each number below
    [total] is that of one operation of one worker, operation [k / workers] of worker
    [k mod workers], and no operation of a worker has another number: the seeds
    [seed_base + operation * worker_count + id] of a phase are [total] consecutive
    ones. *)
Theorem worker_operations_partition total workers :
  0 <= total < 2 ^ 32 -> 1 <= workers ->
  forall operation i,
    0 <= i < workers -> 0 <= operation ->
    (operation < worker_target total workers i <->
     operation * workers + i < total) /\
    forall k, operation * workers + i = k <->
      0 <= k /\ operation = k / workers /\ i = k mod workers.
Proof.
  intros Ht Hw operation i Hi Ho.
  destruct (worker_target_small total workers i Ht Hw ltac:(lia)) as [-> _].
  pose proof (Z.div_mod total workers ltac:(lia)) as E.
  pose proof (Z.mod_pos_bound total workers ltac:(lia)) as Hm.
  set (q := total / workers) in *. set (r := total mod workers) in *. clearbody q r.
  split.
  - destruct (i <? r) eqn:Ei; split; intros; nia.
  - intros k. split.
    + intros <-. split; [nia|]. rewrite Z.add_comm, Z.div_add, Z.mod_add by lia.
      rewrite Z.div_small, Z.mod_small by lia. lia.
    + intros (Hk & -> & ->). pose proof (Z.div_mod k workers ltac:(lia)). lia.
Qed.

Lemma worker_operations_partition_witness :
  0 <= 10 < 2 ^ 32 /\ 1 <= 4 /\ 0 <= 1 < 4 /\ 0 <= 2 /\
  ((2 < worker_target 10 4 1 <-> 2 * 4 + 1 < 10) /\
   forall k, 2 * 4 + 1 = k <-> 0 <= k /\ 2 = k / 4 /\ 1 = k mod 4).
Proof.
  split; [lia|]. split; [lia|]. split; [lia|]. split; [lia|].
  exact (worker_operations_partition 10 4 ltac:(lia) ltac:(lia) 2 1 ltac:(lia) ltac:(lia)).
Defined.

(** What the targets of the first [k] workers add up to. *)
Lemma targets_sum total workers k :
  0 <= total < 2 ^ 32 -> 1 <= workers ->
  foldr Z.add 0 ((fun i => worker_target total workers (Z.of_nat i)) <$> seq 0 k) =
    Z.of_nat k * (total / workers) + Z.min (Z.of_nat k) (total mod workers).
Proof.
  intros Ht Hw. induction k as [|k IH].
  { pose proof (Z.mod_pos_bound total workers ltac:(lia)). cbn. lia. }
  rewrite seq_S, fmap_app, foldr_app. cbn [fmap list_fmap foldr].
  assert (Hf : forall l z, foldr Z.add z l = foldr Z.add 0 l + z).
  { intros l z. induction l as [|x l IHl]; cbn; [lia|]. rewrite IHl. lia. }
  rewrite Hf, IH. cbn [Nat.add].
  destruct (worker_target_small total workers (Z.of_nat k) Ht Hw ltac:(lia)) as [-> _].
  destruct (_ <? _) eqn:E; lia.
Qed.

(** ** Counting *)

(** How many workers are in state [t]. *)
Definition nof (t : worker_state) (g : list worker_state) : Z :=
  Z.of_nat (length (filter (fun s => s = t) g)).

Definition same (t s : worker_state) : Z := if decide (s = t) then 1 else 0.

Lemma nof_cons t s g : nof t (s :: g) = same t s + nof t g.
Proof. unfold nof, same. rewrite filter_cons. destruct (decide (s = t)); cbn [length]; lia. Qed.

Lemma nof_update t g i s s' :
  g !! i = Some s -> nof t (<[i := s']> g) = nof t g + same t s' - same t s.
Proof.
  revert i. induction g as [|x g IH]; intros [|i] Hi; try done; cbn in Hi.
  - injection Hi as ->. cbn [insert list_insert]. rewrite !nof_cons. lia.
  - change (<[S i := s']> (x :: g)) with (x :: <[i := s']> g).
    rewrite !nof_cons, (IH i Hi). lia.
Qed.

Lemma nof_nonneg t g : 0 <= nof t g.
Proof. unfold nof. lia. Qed.

Lemma same_range t s : 0 <= same t s <= 1.
Proof. unfold same. destruct (decide _); lia. Qed.

Lemma nof_lookup t g i s : g !! i = Some s -> same t s <= nof t g.
Proof.
  revert i. induction g as [|x g IH]; intros [|i] Hi; try done; cbn in Hi; rewrite nof_cons.
  - injection Hi as ->. pose proof (nof_nonneg t g). lia.
  - pose proof (IH i Hi). pose proof (same_range t x). lia.
Qed.

(** [same] of two constructors. *)
Ltac sames :=
  repeat match goal with
  | |- context [same ?a ?b] =>
      let v := eval vm_compute in (same a b) in
      lazymatch v with Z0 => idtac | Zpos _ => idtac end; change (same a b) with v
  end.

(** The requests the phase has not completed. *)
Definition outstanding (g : list worker_state) : Z :=
  nof WORKER_READY g + nof WORKER_SUBMITTING g + nof WORKER_IN_FLIGHT g.

Definition pending (s : worker_state) : Z :=
  same WORKER_READY s + same WORKER_SUBMITTING s + same WORKER_IN_FLIGHT s.

Lemma outstanding_bound g : 0 <= outstanding g <= Z.of_nat (length g).
Proof.
  unfold outstanding. induction g as [|s g IH]; [by vm_compute|].
  rewrite !nof_cons. cbn [length].
  assert (Hp : 0 <= pending s <= 1) by (by destruct s; vm_compute). unfold pending in Hp. lia.
Qed.

Definition total_issued (l : list worker) : Z := foldr Z.add 0 (issued <$> l).

Lemma total_issued_update l i w w' :
  l !! i = Some w -> total_issued (<[i := w']> l) = total_issued l + issued w' - issued w.
Proof.
  unfold total_issued. revert i. induction l as [|x l IH]; intros [|i] Hi; try done; cbn in Hi.
  - injection Hi as ->. cbn. lia.
  - change (<[S i := w']> (x :: l)) with (x :: <[i := w']> l).
    cbn [fmap list_fmap foldr]. rewrite (IH i Hi). lia.
Qed.

(** What the workers have issued, against what each should. *)
Lemma issued_bound (f : nat -> Z) l : forall k,
  (forall i w, l !! i = Some w -> issued w <= f (k + i)%nat) ->
  total_issued l <= foldr Z.add 0 (f <$> seq k (length l)) /\
  (total_issued l = foldr Z.add 0 (f <$> seq k (length l)) ->
   forall i w, l !! i = Some w -> issued w = f (k + i)%nat).
Proof.
  unfold total_issued. induction l as [|x l IH]; intros k Hl; [done|].
  pose proof (Hl 0%nat x eq_refl) as Hx. rewrite Nat.add_0_r in Hx.
  destruct (IH (S k)) as [Hle Heq].
  { intros i w Hi. specialize (Hl (S i) w Hi). by rewrite Nat.add_succ_r in Hl. }
  cbn [fmap list_fmap foldr length seq] in *. split; [lia|]. intros E [|i] w Hi; cbn in Hi.
  - injection Hi as <-. rewrite Nat.add_0_r. lia.
  - rewrite Nat.add_succ_r. apply (Heq ltac:(lia) i w Hi).
Qed.

(** ** The invariant *)

Section Invariant.
Context (n total wc : Z) (n_bounds : 1 <= n <= MAX_WORKERS) (total_u32 : 0 <= total < 2 ^ 32).

(** What worker [i] has done, in state [s]. A worker that stops leaves its request
    behind: [s] is the state it was in, and its own is [WORKER_EXITED]. *)
Record worker_ok (i : nat) (w : worker) (s : worker_state) : Prop := {
  worker_state_is : state w = s \/ (thread w = returned /\ state w = WORKER_EXITED);
  worker_issued : thread w <> not_created ->
    target w = worker_target total n (Z.of_nat i) /\ id w = Z.of_nat i /\
    0 <= issued w <= target w;
  worker_position :
    match thread w with
    | not_created => issued w = 0 /\ s = WORKER_STARTING
    | before_lock => issued w = 0 /\ (s = WORKER_STARTING \/ s = WORKER_IDLE)
    | at_gate => issued w = 0 /\ s = WORKER_IDLE
    | at_completion operation => issued w = operation + 1 /\ 0 <= operation
    | returned => True
    end;
}.

(** [selected] are the workers the dispatcher is submitting for, [g] the states. *)
Record phase_ok (selected : list nat) (g : list worker_state) (p : thread_phase) : Prop := {
  ok_size : length (workers p) = 8%nat;
  ok_states : length g = Z.to_nat n;
  ok_workers : forall i w s, workers p !! i = Some w -> g !! i = Some s -> worker_ok i w s;
  ok_absent : forall i w, (Z.to_nat n <= i)%nat -> workers p !! i = Some w ->
    thread w = not_created /\ state w = WORKER_STARTING /\ issued w = 0;
  ok_ready : ready (counts p) = nof WORKER_READY g;
  ok_submitting : submitting (counts p) = nof WORKER_SUBMITTING g;
  ok_in_flight : in_flight (counts p) = nof WORKER_IN_FLIGHT g;
  ok_issued : completed (counts p) + outstanding g = total_issued (workers p);
  ok_completed : 0 <= completed (counts p);
  ok_total : ThreadBench.total p = total;
  ok_count : worker_count p = wc;
  ok_selected : NoDup selected /\ forall i, i ∈ selected <-> g !! i = Some WORKER_SUBMITTING;
  ok_sequences : forall i j wi wj,
    workers p !! i = Some wi -> state wi = WORKER_IN_FLIGHT ->
    workers p !! j = Some wj -> state wj = WORKER_IN_FLIGHT ->
    worker_sequence wi = worker_sequence wj -> i = j;
  ok_depths :
    let d := depths (stats p) in
    max_ready d <= n /\ max_in_flight d <= n /\ max_outstanding d <= n;
}.

(** Phases with the same accounts. *)
Definition alike (p p' : thread_phase) : Prop :=
  workers p' = workers p /\ counts p' = counts p /\
  ThreadBench.total p' = ThreadBench.total p /\ worker_count p' = worker_count p /\
  depths (stats p') = depths (stats p).

Lemma alike_ok selected g p p' : alike p p' -> phase_ok selected g p -> phase_ok selected g p'.
Proof.
  intros (E1 & E2 & E3 & E4 & E5) [A B C D E F G H I J K M N O].
  split; rewrite ?E1, ?E2, ?E3, ?E4, ?E5; done.
Qed.

Lemma ok_bounds selected g p :
  phase_ok selected g p ->
  0 <= ready (counts p) /\ 0 <= submitting (counts p) /\ 0 <= in_flight (counts p) /\
  ready (counts p) + submitting (counts p) + in_flight (counts p) <= n /\ n <= 8.
Proof using n_bounds.
  clear total_u32. intros [_ Hg _ _ -> -> -> _ _ _ _ _ _ _]. pose proof (outstanding_bound g) as Hb.
  unfold outstanding, MAX_WORKERS in *. rewrite Hg in Hb.
  pose proof (nof_nonneg WORKER_READY g). pose proof (nof_nonneg WORKER_SUBMITTING g).
  pose proof (nof_nonneg WORKER_IN_FLIGHT g). lia.
Qed.

(** The share of worker [i]. *)
Definition share (i : nat) : Z :=
  if (i <? Z.to_nat n)%nat then worker_target total n (Z.of_nat i) else 0.

Lemma shares_sum : foldr Z.add 0 (share <$> seq 0 8) = total.
Proof.
  assert (Hn8 : (Z.to_nat n <= 8)%nat) by (unfold MAX_WORKERS in n_bounds; lia).
  assert (H8 : seq 0 8 = seq 0 (Z.to_nat n) ++ seq (Z.to_nat n) (8 - Z.to_nat n)).
  { etransitivity; [|exact (seq_app (Z.to_nat n) (8 - Z.to_nat n) 0)].
    by replace (Z.to_nat n + (8 - Z.to_nat n))%nat with 8%nat by lia. }
  rewrite H8, fmap_app, foldr_app.
  assert (H0 : foldr Z.add 0 (share <$> seq (Z.to_nat n) (8 - Z.to_nat n)) = 0).
  { assert (Hge : Forall (fun i => share i = 0) (seq (Z.to_nat n) (8 - Z.to_nat n))).
    { apply Forall_forall. intros i Hi%elem_of_seq. unfold share.
      by replace (i <? Z.to_nat n)%nat with false by lia. }
    clear H8. induction Hge as [|i l Hi _ IHl]; [done|]. cbn [fmap list_fmap foldr]. rewrite Hi. lia. }
  rewrite H0.
  assert (Hf : share <$> seq 0 (Z.to_nat n) =
    (fun i => worker_target total n (Z.of_nat i)) <$> seq 0 (Z.to_nat n)).
  { apply list_fmap_ext. intros k i Hi%lookup_seq. unfold share.
    by replace (i <? Z.to_nat n)%nat with true by lia. }
  rewrite Hf, targets_sum by lia. rewrite Z2Nat.id by lia.
  pose proof (Z.div_mod total n ltac:(lia)). pose proof (Z.mod_pos_bound total n ltac:(lia)). lia.
Qed.

Lemma ok_shares selected g p :
  phase_ok selected g p ->
  total_issued (workers p) <= total /\
  (total_issued (workers p) = total ->
   forall i w, workers p !! i = Some w -> issued w = share i).
Proof.
  intros Hp. destruct (issued_bound share (workers p) 0) as [Hle Heq].
  - intros i w Hi. cbn [Nat.add]. unfold share. destruct (i <? Z.to_nat n)%nat eqn:El.
    + destruct (worker_target_small total n (Z.of_nat i) total_u32) as [_ Ht]; [lia|lia|].
      destruct (g !! i) as [st|] eqn:Hg.
      * destruct (ok_workers _ _ _ Hp i w st Hi Hg) as [_ I P].
        destruct (decide (thread w = not_created)) as [E|E]; [rewrite E in P|specialize (I E)]; lia.
      * apply lookup_ge_None in Hg. rewrite (ok_states _ _ _ Hp) in Hg. lia.
    + destruct (ok_absent _ _ _ Hp i w ltac:(lia) Hi) as (_ & _ & ->). lia.
  - rewrite (ok_size _ _ _ Hp), shares_sum in *. by split.
Qed.

(** One worker moves from state [s] to [s'], and the counters with it. *)
Lemma phase_step selected selected' g p p' i w s w' s' :
  phase_ok selected g p -> workers p !! i = Some w -> g !! i = Some s ->
  worker_ok i w' s' ->
  workers p' = <[i := w']> (workers p) ->
  ThreadBench.total p' = ThreadBench.total p -> worker_count p' = worker_count p ->
  depths (stats p') = depths (stats p) ->
  ready (counts p') = ready (counts p) + same WORKER_READY s' - same WORKER_READY s ->
  submitting (counts p') =
    submitting (counts p) + same WORKER_SUBMITTING s' - same WORKER_SUBMITTING s ->
  in_flight (counts p') =
    in_flight (counts p) + same WORKER_IN_FLIGHT s' - same WORKER_IN_FLIGHT s ->
  completed (counts p') =
    completed (counts p) + issued w' - issued w - pending s' + pending s ->
  0 <= completed (counts p') ->
  NoDup selected' ->
  (forall j, j ∈ selected' <-> (if decide (j = i) then s' = WORKER_SUBMITTING else j ∈ selected)) ->
  (state w' = WORKER_IN_FLIGHT ->
   (state w = WORKER_IN_FLIGHT /\ worker_sequence w' = worker_sequence w) \/
   (forall j wj, workers p !! j = Some wj -> state wj = WORKER_IN_FLIGHT ->
      worker_sequence wj <> worker_sequence w')) ->
  phase_ok selected' (<[i := s']> g) p'.
Proof.
  intros [A B C D E F G Hs I J Kc [K K'] M N] Hi Hg Hw Ew Et Ewc Ed Er Esu Ei Ec H0 Hnd Hsel Hseq.
  assert (Hlt : (i < Z.to_nat n)%nat) by (rewrite <- B; by eapply lookup_lt_Some).
  assert (Hl8 : (i < length (workers p))%nat) by by eapply lookup_lt_Some.
  split; rewrite ?Ew, ?Et, ?Ewc, ?Ed; try done.
  - by rewrite length_insert.
  - by rewrite length_insert.
  - intros j x y Hx Hy. destruct (decide (j = i)) as [->|Hne].
    + rewrite list_lookup_insert_eq in Hx by done.
      rewrite list_lookup_insert_eq in Hy by (rewrite B; lia).
      by injection Hx as <-; injection Hy as <-.
    + rewrite list_lookup_insert_ne in Hx by done; rewrite list_lookup_insert_ne in Hy by done. by apply C.
  - intros j x Hj Hx. rewrite list_lookup_insert_ne in Hx by lia. by eapply D.
  - by rewrite (nof_update _ _ _ s), Er, E.
  - by rewrite (nof_update _ _ _ s), Esu, F.
  - by rewrite (nof_update _ _ _ s), Ei, G.
  - rewrite (total_issued_update _ _ w) by done. unfold outstanding, pending in *.
    rewrite !(nof_update _ _ _ s) by done. lia.
  - split; [done|]. intros j. rewrite Hsel. destruct (decide (j = i)) as [->|Hne].
    + rewrite list_lookup_insert_eq by (rewrite B; lia). split; [by intros ->|by intros [= ->]].
    + rewrite list_lookup_insert_ne by done. apply K'.
  - assert (Hother : forall j wj, j <> i -> workers p !! j = Some wj ->
      state wj = WORKER_IN_FLIGHT -> state w' = WORKER_IN_FLIGHT ->
      worker_sequence wj <> worker_sequence w').
    { intros j wj Hne Hj Hsj Hsw. destruct (Hseq Hsw) as [[Hsw0 ->]|Hnew]; [|by eapply Hnew].
      intros Eq. apply Hne. by eapply (M j i wj w). }
    intros j k x y Hx Hsx Hy Hsy Eq.
    destruct (decide (j = i)) as [->|Hj], (decide (k = i)) as [->|Hk]; [done| | |].
    + rewrite list_lookup_insert_eq in Hx by done. rewrite list_lookup_insert_ne in Hy by done.
      injection Hx as <-. exfalso. by apply (Hother k y).
    + rewrite list_lookup_insert_ne in Hx by done. rewrite list_lookup_insert_eq in Hy by done.
      injection Hy as <-. exfalso. by apply (Hother j x).
    + rewrite list_lookup_insert_ne in Hx by done; rewrite list_lookup_insert_ne in Hy by done. by eapply M.
Qed.

Lemma depth_ok selected g p :
  phase_ok selected g p -> phase_ok selected g (update_depth_stats p).
Proof using n_bounds.
  clear total_u32. intros Hp. pose proof (ok_bounds _ _ _ Hp) as Hb.
  destruct Hp as [A B C D E F G I J K Kc M N O].
  split; try done. cbn [update_depth_stats set_stats stats depths max_ready
    max_in_flight max_outstanding]. cbn in O.
  rewrite !(wrap_small 32) by word_lia.
  repeat (destruct (_ <? _)); lia.
Qed.

End Invariant.

Arguments worker_state_is {n total i w s}.
Arguments ok_size {n total wc selected g p}.
Arguments ok_states {n total wc selected g p}.
Arguments ok_workers {n total wc selected g p}.
Arguments ok_absent {n total wc selected g p}.
Arguments ok_in_flight {n total wc selected g p}.
Arguments ok_submitting {n total wc selected g p}.
Arguments ok_ready {n total wc selected g p}.
Arguments ok_issued {n total wc selected g p}.
Arguments ok_completed {n total wc selected g p}.
Arguments ok_selected {n total wc selected g p}.
Arguments ok_sequences {n total wc selected g p}.
Arguments ok_depths {n total wc selected g p}.
Arguments ok_total {n total wc selected g p}.
Arguments ok_count {n total wc selected g p}.

(** ** Computations that leave the phase alone *)

Section Steps.
Context {L : Type} `{ThreadSystem L}.
Context (fuel : nat) (schedule : nat -> list nat) (stack : list slot).
Context (n total wc : Z) (n_bounds : 1 <= n <= MAX_WORKERS) (total_u32 : 0 <= total < 2 ^ 32).
Implicit Types (s : world L).

Local Abbreviation phase_ok := (phase_ok n total wc).
Local Abbreviation worker_ok := (worker_ok n total).

Definition still {A} (m : ST (world L) A) : Prop :=
  forall s a s', m s = Some (a, s') -> phase_of s' = phase_of s.

Lemma still_ret {A} (a : A) : still (mret a).
Proof. by intros s b s' [= _ <-]. Qed.

Lemma still_lift {A} (o : option A) : still (lift o).
Proof. destruct o; [apply still_ret|done]. Qed.

Lemma still_lib {A} (m : ST (client L) A) : still (lib m).
Proof.
  intros s a s' E. unfold lib in E. destruct (m (client_of s)) as [[a' c']|]; [|done].
  by injection E as _ <-.
Qed.

Lemma still_vars : still vars.
Proof. by intros s a s' [= _ <-]. Qed.

Lemma still_bind {A B} (m : ST _ A) (f : A -> ST _ B) :
  still m -> (forall a, still (f a)) -> still (x ← m; f x).
Proof. intros Hm Hf s b s' E. step_to E a s1 F. by rewrite (Hf _ _ _ _ E), (Hm _ _ _ F). Qed.

Ltac still_tac :=
  repeat first
    [ apply still_ret | apply still_lift | apply still_lib | apply still_vars | done
    | match goal with
      | |- still (mbind _ _) => apply still_bind; [|intros ?]
      | |- still (match ?x with _ => _ end) => destruct x
      end ].

Lemma still_write_wake k : still (write_wake k).
Proof. induction k as [|k IH]; cbn [write_wake]; still_tac. Qed.

Lemma still_read_wake k : still (read_wake k).
Proof. induction k as [|k IH]; cbn [read_wake]; still_tac. Qed.

Lemma still_signal : still (signal_dispatcher fuel).
Proof. unfold signal_dispatcher. apply still_bind; [apply still_write_wake|intros ?; still_tac]. Qed.

Lemma still_consume k : still (consume_dispatcher_signal fuel k).
Proof. unfold consume_dispatcher_signal. apply still_bind; [apply still_read_wake|intros ?; still_tac]. Qed.

(** *** Computations with a known effect on it *)

(** A failure only sets the flags. *)
Lemma fail_spec e s a s' :
  fail_phase_locked fuel e s = Some (a, s') ->
  workers (phase_of s') = workers (phase_of s) /\ alike (phase_of s) (phase_of s') /\
  stop (flags_of (phase_of s')) = true /\
  error (flags_of (phase_of s')) <> 0.
Proof.
  unfold fail_phase_locked. intros E. step_to E u s1 F. injection F as _ <-.
  step_to E p s2 F. injection F as _ <-.
  assert (Hp : phase_of s' = phase_of (World (client_of s) (let p := phase_of s in
    let f := flags_of p in
    set_flags (Flags (go f) true (if error f =? 0 then if negb (e =? 0) then e else - EIO
       else error f)) p) (turn s))).
  { revert E. destruct (0 <=? _); intros E.
    - step_to E r s3 F3. injection E as _ <-. by apply still_signal in F3.
    - by injection E as _ <-. }
  rewrite Hp. cbn. split_and!; try done.
  destruct (error _ =? 0) eqn:E0; [|lia]. destruct (e =? 0) eqn:E1; cbn [negb]; [done|lia].
Qed.

Lemma update_worker_spec i f s a s' :
  update_worker i f s = Some (a, s') ->
  exists w, workers (phase_of s) !! i = Some w /\
    s' = World (client_of s) (set_workers (<[i := f w]> (workers (phase_of s))) (phase_of s))
           (turn s).
Proof.
  unfold update_worker. intros E. step_to E p s1 F. injection F as <- <-. step_to E w s1 F.
  destruct (workers (phase_of s) !! i) as [w'|]; [|done]. injection F as <- <-.
  injection E as _ <-. by exists w'.
Qed.

(** *** A worker's step *)

Lemma selected_same selected g p i st :
  phase_ok selected g p -> g !! i = Some st ->
  forall j, j ∈ selected <-> (if decide (j = i) then st = WORKER_SUBMITTING else j ∈ selected).
Proof.
  intros Hp Hg j. destruct (ok_selected Hp) as [_ Hsel].
  destruct (decide (j = i)) as [->|]; [|done]. rewrite Hsel, Hg.
  split; [by intros [= ->]|by intros ->].
Qed.

Lemma selected_other selected g p i st st' :
  phase_ok selected g p -> g !! i = Some st ->
  st <> WORKER_SUBMITTING -> st' <> WORKER_SUBMITTING ->
  forall j, j ∈ selected <-> (if decide (j = i) then st' = WORKER_SUBMITTING else j ∈ selected).
Proof.
  intros Hp Hg Hst Hst' j. destruct (ok_selected Hp) as [_ Hsel].
  destruct (decide (j = i)) as [->|]; [|done]. rewrite Hsel, Hg.
  split; [by intros [= ->]|done].
Qed.

(** A worker changes what is not in the accounts, and perhaps where it waits. *)
Lemma relabel_ok selected g p i w st w' :
  phase_ok selected g p -> workers p !! i = Some w -> g !! i = Some st ->
  worker_ok i w' st -> issued w' = issued w -> worker_sequence w' = worker_sequence w ->
  (state w' = WORKER_IN_FLIGHT -> state w = WORKER_IN_FLIGHT) ->
  phase_ok selected g (set_workers (<[i := w']> (workers p)) p).
Proof.
  intros Hp Hw Hg Hok Hi Hq Hst. rewrite <- (list_insert_id g i st Hg).
  eapply (phase_step n total wc n_bounds total_u32 selected selected g p _ i w st w' st Hp Hw Hg);
    cbn [workers set_workers counts ThreadBench.total worker_count stats]; try done; try lia.
  - apply Hp.
  - apply (ok_selected Hp).
  - eapply selected_same; [exact Hp|exact Hg].
  - auto.
Qed.

Lemma exit_ok i s a s' selected g w st :
  worker_exit i s = Some (a, s') -> phase_ok selected g (phase_of s) ->
  workers (phase_of s) !! i = Some w -> g !! i = Some st -> thread w <> not_created ->
  phase_ok selected g (phase_of s').
Proof.
  intros E Hp Hw Hg Ht. apply update_worker_spec in E as (w' & Hw' & ->).
  rewrite Hw in Hw'. injection Hw' as <-. cbn [phase_of].
  pose proof (ok_workers Hp i w st Hw Hg) as [S I P].
  eapply relabel_ok; [done..| |done|done|done].
  split; cbn [thread state set_thread set_state]; [by right|by intros _; apply I|done].
Qed.

(** Failing and returning. *)
Lemma fail_exit_ok i e s a s' selected g w st :
  (fail_phase_locked fuel e;; worker_exit i) s = Some (a, s') ->
  phase_ok selected g (phase_of s) -> workers (phase_of s) !! i = Some w -> g !! i = Some st ->
  thread w <> not_created -> phase_ok selected g (phase_of s').
Proof.
  intros E Hp Hw Hg Ht. step_to E u s1 F. apply fail_spec in F as (Ew & Ea & _).
  eapply exit_ok; [exact E|by eapply alike_ok|by rewrite Ew|done|done].
Qed.

(** A worker that is between two operations makes its next request. *)
Lemma issue_ok i operation s a s' selected g w :
  worker_issue fuel i operation s = Some (a, s') -> phase_ok selected g (phase_of s) ->
  workers (phase_of s) !! i = Some w -> g !! i = Some WORKER_IDLE ->
  thread w <> not_created -> state w = WORKER_IDLE -> issued w = operation ->
  operation < target w ->
  exists g', phase_ok selected g' (phase_of s').
Proof.
  intros E Hp Hw Hg Ht Hst Hi Hlt. unfold worker_issue in E.
  step_to E p s1 F. injection F as <- <-. step_to E w0 s1 F. rewrite Hw in F.
  injection F as <- <-. step_to E b s1 F. apply still_lift in F as F1. destruct b as [bytes len].
  step_to E u s2 F2. apply update_worker_spec in F2 as (w0 & Hw0 & ->). rewrite F1, Hw in *.
  injection Hw0 as <-. set (q := u32 (u32 _ + id w)) in *.
  set (w1 := Worker (thread w) (Slot 0 len bytes) (start w) (state w) (id w) (target w)
    (issued w) q (worker_sequence w)) in *.
  pose proof (ok_workers Hp i w _ Hw Hg) as [S I P].
  destruct (I Ht) as (It & Ii & Ib).
  assert (Hw1ok : worker_ok i w1 WORKER_IDLE) by (split; [by left|by intros _|exact P]).
  pose proof (relabel_ok _ _ _ _ _ _ w1 Hp Hw Hg Hw1ok eq_refl eq_refl (fun e => e)) as Hp1.
  set (p1 := set_workers (<[i:=w1]> (workers (phase_of s))) (phase_of s)) in *.
  assert (Hw1 : workers p1 !! i = Some w1).
  { apply list_lookup_insert_eq. by eapply lookup_lt_Some. }
  step_to E now s3 F3. apply still_lib in F3 as E3. cbn [phase_of] in E3.
  destruct now as [now|e]; cycle 1.
  { exists g. rewrite <- E3 in *. by eapply fail_exit_ok. }
  step_to E u4 s4 F4. apply update_worker_spec in F4 as (w0 & Hw0 & ->). rewrite E3, Hw1 in *.
  injection Hw0 as <-. step_to E u5 s5 F5. injection F5 as _ <-.
  set (w2 := Worker (at_completion operation) (request w1) now WORKER_READY (id w1) (target w1)
    (u32 (issued w1 + 1)) (ThreadBench.seed w1) (worker_sequence w1)) in *.
  destruct (worker_target_small total n (Z.of_nat i) total_u32 ltac:(lia) ltac:(lia)) as [_ Htt].
  assert (Hi2 : issued w2 = issued w + 1).
  { cbn [issued w2 w1]. apply wrap_small. word_lia. }
  assert (Hw2ok : worker_ok i w2 WORKER_READY).
  { split; [by left| |].
    - intros _. cbn [target id w2 w1]. rewrite Hi2. lia.
    - cbn [thread w2]. rewrite Hi2. lia. }
  set (c := counts p1).
  pose (p2 := set_counts (Counters (completed c) (started c) (u32 (ready c + 1)) (submitting c)
    (in_flight c)) (set_workers (<[i:=w2]> (workers p1)) p1)).
  assert (Hp2 : phase_ok selected (<[i:=WORKER_READY]> g) p2).
  { pose proof (ok_bounds n total wc n_bounds _ _ _ Hp1) as Hb. fold c in Hb.
    eapply (phase_step n total wc n_bounds total_u32 selected selected g p1 p2 i w1 _ w2 _ Hp1 Hw1
      Hg Hw2ok); try done; unfold p2; cbn [counts set_counts set_workers ready submitting
      in_flight completed]; fold c; unfold pending; sames; rewrite ?wrap_small by word_lia;
      try rewrite Hi2; cbn [issued w1]; try lia.
    - apply (ok_completed Hp1).
    - apply (ok_selected Hp1).
    - by eapply selected_other. }
  apply (depth_ok n total wc n_bounds) in Hp2.
  assert (Hw2 : workers (update_depth_stats p2) !! i = Some w2).
  { apply list_lookup_insert_eq. by eapply lookup_lt_Some. }
  step_to E ret s6 F6. apply still_signal in F6. exists (<[i:=WORKER_READY]> g).
  change (phase_of s6 = update_depth_stats p2) in F6. rewrite <- F6 in Hp2, Hw2.
  destruct (negb (ret =? 0)); [|by injection E as _ <-].
  eapply fail_exit_ok; [exact E|done|exact Hw2| |done].
  apply list_lookup_insert_eq. by eapply lookup_lt_Some.
Qed.

(** The head of the loop, and the start gate. *)
Lemma loop_ok i operation s a s' selected g w st :
  worker_loop fuel i operation s = Some (a, s') -> phase_ok selected g (phase_of s) ->
  workers (phase_of s) !! i = Some w -> g !! i = Some st -> thread w <> not_created ->
  (stop (flags_of (phase_of s)) = false ->
   st = WORKER_IDLE /\ state w = WORKER_IDLE /\ issued w = operation) ->
  exists g', phase_ok selected g' (phase_of s').
Proof.
  intros E Hp Hw Hg Ht Hs. unfold worker_loop in E. step_to E p s1 F. injection F as <- <-.
  step_to E w0 s1 F. rewrite Hw in F. injection F as <- <-.
  destruct (stop _); cbn [negb] in E; rewrite ?andb_false_r, ?andb_true_r in E.
  - exists g. by eapply exit_ok.
  - destruct (Hs eq_refl) as (-> & Hst & Hi). destruct (operation <? target w) eqn:El.
    + eapply issue_ok; [exact E|done..|lia].
    + exists g. by eapply exit_ok.
Qed.

Lemma gate_ok i s a s' selected g w :
  worker_gate fuel i s = Some (a, s') -> phase_ok selected g (phase_of s) ->
  workers (phase_of s) !! i = Some w -> g !! i = Some WORKER_IDLE ->
  (thread w = before_lock \/ thread w = at_gate) -> state w = WORKER_IDLE -> issued w = 0 ->
  exists g', phase_ok selected g' (phase_of s').
Proof.
  intros E Hp Hw Hg Ht Hst Hi. unfold worker_gate in E. step_to E p s1 F. injection F as <- <-.
  destruct (_ && _).
  - exists g. apply update_worker_spec in E as (w0 & Hw0 & ->). rewrite Hw in Hw0.
    injection Hw0 as <-. pose proof (ok_workers Hp i w _ Hw Hg) as [S I P].
    eapply relabel_ok; [done..| |done|done|done].
    split; cbn [thread state issued set_thread]; [by left|intros _; apply I|done].
    by destruct Ht as [->| ->].
  - eapply loop_ok; [exact E|done|done|done| |done]. by destruct Ht as [->| ->].
Qed.

(** What a worker does in a step keeps the accounts. *)
Lemma run_worker_ok i s a s' selected g :
  run_worker fuel i s = Some (a, s') -> phase_ok selected g (phase_of s) ->
  exists g', phase_ok selected g' (phase_of s').
Proof.
  intros E Hp. unfold run_worker in E. step_to E p s1 F. injection F as <- <-.
  destruct (workers (phase_of s) !! i) as [w|] eqn:Hw; [|injection E as _ <-; by exists g].
  destruct (g !! i) as [st|] eqn:Hg; cycle 1.
  { apply lookup_ge_None in Hg. rewrite (ok_states Hp) in Hg.
    destruct (ok_absent Hp i w Hg Hw) as [Ht _]. rewrite Ht in E.
    injection E as _ <-. by exists g. }
  pose proof (ok_workers Hp i w st Hw Hg) as [S I P].
  destruct (thread w) as [| | |operation|] eqn:Ht.
  - injection E as _ <-. by exists g.
  - step_to E ret s1 F. apply still_lib in F. destruct S as [S|[? _]]; [|done].
    destruct P as [P0 Pst]. destruct (negb (ret =? 0)).
    + exists g. apply update_worker_spec in E as (w0 & Hw0 & ->). rewrite F, Hw in *.
      injection Hw0 as <-. eapply relabel_ok; [done..| |done|done|done].
      split; cbn [thread state set_thread]; [by left|by intros _; apply I|done].
    + step_to E u s2 F2. injection F2 as _ <-. step_to E u2 s3 F3.
      apply update_worker_spec in F3 as (w0 & Hw0 & ->). rewrite F in *.
      cbn [phase_of workers set_counts] in *. rewrite Hw in Hw0. injection Hw0 as <-.
      set (w1 := set_state WORKER_IDLE w) in *.
      assert (Hw1ok : worker_ok i w1 WORKER_IDLE).
      { split; cbn [thread state issued w1 set_state]; [by left|by intros _; apply I|rewrite Ht].
        split; [exact P0|by right]. }
      eapply (gate_ok i _ _ _ selected (<[i:=WORKER_IDLE]> g) w1); [exact E| | | | | |].
      * cbn [phase_of].
        eapply (phase_step n total wc n_bounds total_u32 selected selected g (phase_of s) _ i w st
          w1 _ Hp Hw Hg Hw1ok);
          cbn [counts set_workers set_counts ready submitting in_flight completed workers stats
               ThreadBench.total worker_count issued w1 set_state]; try done.
        -- unfold pending; destruct Pst as [-> | ->]; sames; lia.
        -- destruct Pst as [-> | ->]; sames; lia.
        -- destruct Pst as [-> | ->]; sames; lia.
        -- destruct Pst as [-> | ->]; unfold pending; sames; lia.
        -- apply (ok_completed Hp).
        -- apply (ok_selected Hp).
        -- eapply selected_other; [exact Hp|exact Hg| |done]. by destruct Pst as [-> | ->].
      * apply list_lookup_insert_eq. by eapply lookup_lt_Some.
      * apply list_lookup_insert_eq. by eapply lookup_lt_Some.
      * by left.
      * done.
      * exact P0.
  - destruct S as [S|[? _]]; [|done]. destruct P as [P0 ->].
    eapply gate_ok; [exact E|done..|by right|done|done].
  - destruct S as [S|[? _]]; [|done]. destruct P as [P0 Pop].
    destruct (I ltac:(congruence)) as (It & _ & Ib).
    destruct (worker_target_small total n (Z.of_nat i) total_u32 ltac:(lia) ltac:(lia)) as [_ Htt].
    assert (Eop : u32 (operation + 1) = issued w) by (rewrite wrap_small by word_lia; lia).
    destruct (stop (flags_of (phase_of s))) eqn:Estop; cbn [negb] in E.
    { rewrite andb_false_r in E. step_to E u s1 F. injection F as _ <-.
      eapply loop_ok; [exact E|done..|congruence|by rewrite Estop]. }
    rewrite andb_true_r in E.
    destruct (bool_decide (state w = WORKER_COMPLETE)) eqn:Ec; cbn [negb] in E;
      [|injection E as _ <-; by exists g].
    apply bool_decide_eq_true in Ec. rewrite S in Ec. subst st.
    step_to E u s1 F. apply update_worker_spec in F as (w0 & Hw0 & ->). rewrite Hw in Hw0.
    injection Hw0 as <-. set (w1 := set_state WORKER_IDLE w) in *.
    assert (Hw1ok : worker_ok i w1 WORKER_IDLE).
    { split; cbn [thread state issued w1 set_state]; [by left|by intros _; apply I|by rewrite Ht]. }
    eapply (loop_ok i _ _ _ _ selected (<[i:=WORKER_IDLE]> g) w1); [exact E| | | | |].
    + cbn [phase_of].
      eapply (phase_step n total wc n_bounds total_u32 selected selected g (phase_of s) _ i w
        WORKER_COMPLETE w1 _ Hp Hw Hg Hw1ok);
        cbn [counts set_workers ready submitting in_flight completed workers stats
             ThreadBench.total worker_count issued w1 set_state]; try done;
        unfold pending; sames; try lia.
      * apply (ok_completed Hp).
      * apply (ok_selected Hp).
      * by eapply selected_other.
    + apply list_lookup_insert_eq. by eapply lookup_lt_Some.
    + apply list_lookup_insert_eq. by eapply lookup_lt_Some.
    + cbn [thread w1 set_state]. congruence.
    + intros _. split; [done|]. split; [done|]. by cbn [issued w1 set_state].
  - injection E as _ <-. by exists g.
Qed.

(** So does letting the workers run. *)
Definition good (selected : list nat) (p : thread_phase) : Prop :=
  exists g, phase_ok selected g p.

Local Abbreviation keeps selected := (preserves (fun s : world L => good selected (phase_of s))).

Lemma still_keeps {A} selected (m : ST (world L) A) : still m -> keeps selected m.
Proof. intros Hm s a s' E. by rewrite (Hm _ _ _ E). Qed.

Lemma yield_keeps selected : keeps selected (yield fuel schedule).
Proof.
  intros s a s' E. unfold yield in E.
  set (s0 := World _ _ (S (turn s))) in E. change (phase_of s) with (phase_of s0).
  clearbody s0. revert s0 a E. induction (schedule (turn s)) as [|i l IH]; intros s0 a E Hs.
  - by injection E as _ <-.
  - cbn [st_iter] in E. step_to E u s1 F. destruct Hs as [g Hg].
    destruct (run_worker_ok _ _ _ _ _ _ F Hg) as [g' Hg']. eapply IH; [exact E|by exists g'].
Qed.

Lemma lock_keeps selected : keeps selected (lock_phase fuel schedule).
Proof.
  unfold lock_phase. apply preserves_bind; [apply yield_keeps|intros _].
  apply preserves_bind; [apply still_keeps, still_lib|intros _]. apply still_keeps, still_ret.
Qed.

Lemma fail_keeps selected e : keeps selected (fail_phase_locked fuel e).
Proof.
  intros s a s' E [g Hg]. apply fail_spec in E as (_ & Ea & _). exists g. by eapply alike_ok.
Qed.

(** *** What the dispatcher does with the responses *)

Lemma find_spec q p i :
  find_in_flight_worker q p = Some i ->
  exists w, workers p !! i = Some w /\ state w = WORKER_IN_FLIGHT /\ worker_sequence w = q.
Proof.
  unfold find_in_flight_worker. destruct (list_find _ _) as [[j w]|] eqn:E; [|done].
  intros [= ->]. apply list_find_Some in E as (Hi & [Hs Hq] & _).
  apply lookup_take_Some in Hi as [Hi _]. by exists w.
Qed.

Lemma in_flight_state selected g p i w :
  phase_ok selected g p -> workers p !! i = Some w -> state w = WORKER_IN_FLIGHT ->
  g !! i = Some WORKER_IN_FLIGHT.
Proof.
  intros Hp Hw Hs. destruct (g !! i) as [st|] eqn:Hg.
  - destruct (ok_workers Hp i w st Hw Hg) as [[S|[_ S]] _ _]; congruence.
  - apply lookup_ge_None in Hg. rewrite (ok_states Hp) in Hg.
    destruct (ok_absent Hp i w Hg Hw) as (_ & ? & _). congruence.
Qed.

(** A worker with another state that the dispatcher gives it. *)
Lemma set_state_ok i w st st' q :
  worker_ok i w st -> st <> WORKER_STARTING -> st <> WORKER_IDLE ->
  worker_ok i (set_state st' (set_worker_sequence q w)) st'.
Proof.
  intros [S I P] H1' H2'. split; cbn [thread state issued set_state set_worker_sequence].
  - by left.
  - exact I.
  - destruct (thread w); try done; destruct P as [? P]; [done|by destruct P|done].
Qed.

Lemma set_own_sequence w : set_worker_sequence (worker_sequence w) w = w.
Proof. by destruct w. Qed.

Lemma complete_ok selected g p i w :
  phase_ok selected g p -> workers p !! i = Some w -> state w = WORKER_IN_FLIGHT ->
  let c := counts p in
  phase_ok selected (<[i := WORKER_COMPLETE]> g)
    (set_counts (Counters (u32 (completed c + 1)) (started c) (ready c) (submitting c)
                   (u32 (in_flight c - 1)))
       (set_workers (<[i := set_state WORKER_COMPLETE w]> (workers p)) p)).
Proof.
  intros Hp Hw Hs c. pose proof (in_flight_state _ _ _ _ _ Hp Hw Hs) as Hg.
  pose proof (ok_workers Hp i w _ Hw Hg) as Hok.
  apply (set_state_ok _ _ _ WORKER_COMPLETE (worker_sequence w)) in Hok as Hok'; [|done..].
  rewrite set_own_sequence in Hok'.
  pose proof (ok_bounds n total wc n_bounds _ _ _ Hp) as Hb. fold c in Hb.
  destruct (ok_shares n total wc n_bounds total_u32 _ _ _ Hp) as [Hle _].
  pose proof (ok_issued Hp) as Hi. pose proof (ok_completed Hp) as H0'.
  pose proof (ok_in_flight Hp) as Hf. fold c in Hi, H0', Hf.
  pose proof (nof_lookup WORKER_IN_FLIGHT g i _ Hg) as Hn. revert Hn. sames. intros Hn.
  unfold outstanding in Hi. pose proof (nof_nonneg WORKER_READY g).
  pose proof (nof_nonneg WORKER_SUBMITTING g).
  eapply (phase_step n total wc n_bounds total_u32 selected selected g p _ i w _ _ _ Hp Hw Hg Hok');
    cbn [counts set_counts set_workers ready submitting in_flight completed workers stats
         ThreadBench.total worker_count issued state set_state]; fold c; try done;
    unfold pending; sames; rewrite ?wrap_small by word_lia; try lia.
  - apply (ok_selected Hp).
  - by eapply selected_other.
Qed.

Lemma complete_reaped_keeps selected indices messages echo now :
  keeps selected (complete_reaped fuel indices messages echo now).
Proof.
  induction indices as [|index indices IH]; cbn [complete_reaped];
    [by apply still_keeps, still_ret|].
  intros s a s' E Hs. step_to E p s1 F. injection F as <- <-. step_to E m s1 F.
  apply still_lift in F. rewrite <- F in E, Hs. clear F s.
  assert (Hfail : forall s a s',
    (fail_phase_locked fuel (- EPROTO);; mret (- EPROTO)) s = Some (a, s') ->
    good selected (phase_of s) -> good selected (phase_of s')).
  { intros s b s2 E2 Hs2. step_to E2 u s3 F. injection E2 as _ <-. by eapply fail_keeps. }
  destruct (find_in_flight_worker _ _) as [i|] eqn:Ef; [|by eapply Hfail].
  apply find_spec in Ef as (w & Hw & Hst & _). step_to E w0 s2 F. rewrite Hw in F.
  injection F as <- <-. step_to E v s2 F. apply still_lift in F.
  destruct (negb (v =? 0)); [eapply Hfail; [exact E|by rewrite F]|].
  step_to E ns s3 F3. apply still_lift in F3. step_to E u s4 F4.
  assert (Ha : alike (phase_of s1) (phase_of s4)).
  { rewrite <- F, <- F3. destruct (latency (phase_of s1)) as [l|].
    - step_to F4 l' s5 F5. apply still_lift in F5. injection F4 as _ <-. cbn [phase_of].
      by rewrite F5.
    - by injection F4 as _ <-. }
  destruct Hs as [g Hg]. pose proof (alike_ok _ _ _ _ _ _ _ Ha Hg) as Hg4.
  step_to E u5 s5 F5. apply update_worker_spec in F5 as (w0 & Hw0 & ->).
  rewrite (proj1 Ha), Hw in Hw0. injection Hw0 as <-. step_to E u6 s6 F6.
  injection F6 as _ <-. eapply IH; [exact E|]. cbn [phase_of].
  eexists. apply (complete_ok _ g (phase_of s4) i w Hg4); [by rewrite (proj1 Ha)|done].
Qed.

(** *** What it does with the ready workers *)

Lemma select_one selected g p i w :
  phase_ok selected g p -> workers p !! i = Some w -> state w = WORKER_READY ->
  let c := counts p in
  good (selected ++ [i])
    (set_counts (Counters (completed c) (started c) (u32 (ready c - 1)) (u32 (submitting c + 1))
                   (in_flight c))
       (set_workers (<[i := set_state WORKER_SUBMITTING w]> (workers p)) p)).
Proof.
  intros Hp Hw Hs c.
  assert (Hg : g !! i = Some WORKER_READY).
  { destruct (g !! i) as [st|] eqn:Hg.
    - destruct (ok_workers Hp i w st Hw Hg) as [[S|[_ S]] _ _]; congruence.
    - apply lookup_ge_None in Hg. rewrite (ok_states Hp) in Hg.
      destruct (ok_absent Hp i w Hg Hw) as (_ & ? & _). congruence. }
  exists (<[i := WORKER_SUBMITTING]> g). pose proof (ok_workers Hp i w _ Hw Hg) as Hok.
  apply (set_state_ok _ _ _ WORKER_SUBMITTING (worker_sequence w)) in Hok as Hok'; [|done..].
  rewrite set_own_sequence in Hok'.
  pose proof (ok_bounds n total wc n_bounds _ _ _ Hp) as Hb. fold c in Hb.
  pose proof (ok_ready Hp) as Hf. fold c in Hf.
  pose proof (nof_lookup WORKER_READY g i _ Hg) as Hn. revert Hn. sames. intros Hn.
  destruct (ok_selected Hp) as [Hnd Hsel].
  assert (Hni : i ∉ selected) by (rewrite Hsel, Hg; by intros [=]).
  eapply (phase_step n total wc n_bounds total_u32 selected (selected ++ [i]) g p _ i w _ _ _ Hp
    Hw Hg Hok');
    cbn [counts set_counts set_workers ready submitting in_flight completed workers stats
         ThreadBench.total worker_count issued state set_state]; fold c; try done;
    unfold pending; sames; rewrite ?wrap_small by word_lia; try lia.
  - apply (ok_completed Hp).
  - apply list.NoDup_app. split; [done|]. split; [|apply NoDup_singleton].
    intros x Hx ->%list_elem_of_singleton. done.
  - intros j. rewrite elem_of_app, list_elem_of_singleton.
    destruct (decide (j = i)) as [->|Hne]; [by split; [|right]|]. split; [|by left].
    by intros [?|?].
Qed.

Lemma select_keeps indices : forall messages selected s messages' selected' s',
  select_ready indices messages selected s = Some ((messages', selected'), s') ->
  good selected (phase_of s) -> good selected' (phase_of s').
Proof.
  induction indices as [|i indices IH]; intros messages selected s messages' selected' s' E Hs;
    cbn [select_ready] in E.
  { by injection E as _ <- <-. }
  step_to E p s1 F. injection F as <- <-. step_to E w s1 F.
  destruct (workers (phase_of s) !! i) as [w'|] eqn:Hw; [|done]. injection F as <- <-.
  destruct (bool_decide (state w' = WORKER_READY)) eqn:Eb; cbn [negb] in E; [|by eapply IH].
  apply bool_decide_eq_true in Eb. step_to E l s1 F. apply still_lift in F.
  step_to E u s2 F2. apply update_worker_spec in F2 as (w0 & Hw0 & ->).
  rewrite F, Hw in Hw0. injection Hw0 as <-. step_to E u3 s3 F3. injection F3 as _ <-.
  eapply IH; [exact E|]. cbn [phase_of]. rewrite F. destruct Hs as [g Hg].
  exact (select_one _ _ _ _ _ Hg Hw Eb).
Qed.

(** The head of [selected] leaves it, ready again or in flight. *)
Lemma leave_ok i rest g p w st' q c' p' :
  phase_ok (i :: rest) g p -> workers p !! i = Some w ->
  st' = WORKER_READY \/ st' = WORKER_IN_FLIGHT ->
  workers p' = <[i := set_state st' (set_worker_sequence q w)]> (workers p) ->
  ThreadBench.total p' = ThreadBench.total p -> worker_count p' = worker_count p ->
  depths (stats p') = depths (stats p) -> counts p' = c' ->
  ready c' = ready (counts p) + same WORKER_READY st' ->
  submitting c' = submitting (counts p) - 1 ->
  in_flight c' = in_flight (counts p) + same WORKER_IN_FLIGHT st' ->
  completed c' = completed (counts p) ->
  (st' = WORKER_IN_FLIGHT -> forall j wj, workers p !! j = Some wj ->
     state wj = WORKER_IN_FLIGHT -> worker_sequence wj <> q) ->
  good rest p'.
Proof.
  intros Hp Hw Hst Ew Et Ewc Ed Ec Er Es Ei Eco Hq. destruct (ok_selected Hp) as [Hnd Hsel].
  assert (Hg : g !! i = Some WORKER_SUBMITTING) by (apply Hsel; left).
  apply list.NoDup_cons in Hnd as [Hni Hnd].
  pose proof (ok_workers Hp i w _ Hw Hg) as Hok.
  apply (set_state_ok _ _ _ st' q) in Hok as Hok'; [|done..].
  exists (<[i := st']> g).
  eapply (phase_step n total wc n_bounds total_u32 (i :: rest) rest g p p' i w _ _ _ Hp Hw Hg
    Hok' Ew Et Ewc Ed); rewrite ?Ec; try done.
  - rewrite Er. sames. lia.
  - rewrite Es. destruct Hst as [-> | ->]; sames; lia.
  - rewrite Ei. sames. lia.
  - rewrite Eco. cbn [issued set_state set_worker_sequence].
    destruct Hst as [-> | ->]; unfold pending; sames; lia.
  - rewrite Eco. apply (ok_completed Hp).
  - intros j. destruct (decide (j = i)) as [->|Hne].
    + split; [done|]. by destruct Hst as [-> | ->].
    + rewrite list.elem_of_cons. split; [by right|]. by intros [?|?].
  - cbn [state worker_sequence set_state set_worker_sequence]. intros ->. right. by apply Hq.
Qed.

Lemma submitting_positive i rest g p :
  phase_ok (i :: rest) g p ->
  1 <= submitting (counts p) /\ ready (counts p) <= 8 /\ in_flight (counts p) <= 8 /\
  0 <= ready (counts p) /\ 0 <= in_flight (counts p) /\ submitting (counts p) <= 8.
Proof.
  intros Hp. destruct (ok_selected Hp) as [_ Hsel].
  assert (Hg : g !! i = Some WORKER_SUBMITTING) by (apply Hsel; left).
  pose proof (nof_lookup WORKER_SUBMITTING g i _ Hg) as Hn. revert Hn. sames. intros Hn.
  pose proof (ok_bounds n total wc n_bounds _ _ _ Hp). rewrite <- (ok_submitting Hp) in Hn. lia.
Qed.

Lemma return_keeps i rest s a s' :
  return_ready i s = Some (a, s') -> good (i :: rest) (phase_of s) -> good rest (phase_of s').
Proof.
  intros E [g Hg]. unfold return_ready in E. step_to E u s1 F.
  apply update_worker_spec in F as (w & Hw & ->). injection E as _ <-. cbn [phase_of].
  pose proof (submitting_positive _ _ _ _ Hg).
  eapply (leave_ok i rest g (phase_of s) w WORKER_READY (worker_sequence w) _ _ Hg Hw);
    [by left|by rewrite set_own_sequence|done|done|done|reflexivity|..];
    cbn [ready submitting in_flight completed counts set_workers set_counts phase_of]; sames;
    rewrite ?wrap_small by word_lia; done || lia.
Qed.

Lemma return_all_keeps l : forall s a s',
  st_iter return_ready l s = Some (a, s') -> good l (phase_of s) -> good [] (phase_of s').
Proof.
  induction l as [|i l IH]; intros s a s' E Hs; cbn [st_iter] in E; [by injection E as _ <-|].
  step_to E u s1 F. eapply IH; [exact E|]. by eapply return_keeps.
Qed.

Lemma find_none selected g p q :
  phase_ok selected g p -> wc = n -> find_in_flight_worker q p = None ->
  forall j wj, workers p !! j = Some wj -> state wj = WORKER_IN_FLIGHT -> worker_sequence wj <> q.
Proof.
  intros Hp Hwc Hf j wj Hj Hs Hq. pose proof (in_flight_state _ _ _ _ _ Hp Hj Hs) as Hg.
  apply lookup_lt_Some in Hg. rewrite (ok_states Hp) in Hg.
  unfold find_in_flight_worker in Hf. rewrite (ok_count Hp), Hwc in Hf.
  destruct (list_find _ _) as [[]|] eqn:E; [done|]. apply list_find_None in E.
  rewrite Forall_forall in E. apply (E wj); [|done].
  apply list_elem_of_lookup_2 with j. by rewrite lookup_take_lt.
Qed.

Lemma mark_keeps messages selected m : forall k s r s',
  mark_in_flight fuel (seq k m) messages selected s = Some (r, s') -> wc = n ->
  good (drop k selected) (phase_of s) ->
  exists selected', good selected' (phase_of s') /\
    (r = 0 -> selected' = drop (k + m) selected).
Proof.
  induction m as [|m IH]; intros k s r s' E Hwc Hs; cbn [seq mark_in_flight] in E.
  { injection E as _ <-. exists (drop k selected). by rewrite Nat.add_0_r. }
  step_to E p s1 F. injection F as <- <-. step_to E x s1 F. apply still_lift in F.
  rewrite <- F in E, Hs. clear F s.
  destruct (_ || _) eqn:Eb.
  { step_to E u s2 F. injection E as <- <-. exists (drop k selected).
    split; [by eapply fail_keeps|done]. }
  apply orb_false_iff in Eb as [_ Eb]. apply bool_decide_eq_false in Eb.
  assert (Hnone : find_in_flight_worker (sequence x) (phase_of s1) = None).
  { destruct (find_in_flight_worker _ _); [|done]. by exfalso; apply Eb. }
  step_to E i s2 F. apply still_lift in F as F'. destruct (selected !! k) as [i'|] eqn:Ei; [|done].
  injection F as <- <-. clear F'. rewrite (drop_S selected i' k Ei) in Hs. destruct Hs as [g Hg].
  step_to E u s2 F2. apply update_worker_spec in F2 as (w & Hw & ->).
  step_to E u3 s3 F3. injection F3 as _ <-.
  pose proof (submitting_positive _ _ _ _ Hg).
  eapply (IH (S k)) in E; [|done|].
  - by rewrite Nat.add_succ_r.
  - cbn [phase_of].
    eapply (leave_ok i' _ g (phase_of s1) w WORKER_IN_FLIGHT (sequence x) _ _ Hg Hw);
      [by right|done|done|done|done|reflexivity|..];
      cbn [ready submitting in_flight completed counts set_workers set_counts phase_of]; sames;
      rewrite ?wrap_small by word_lia; try done; try lia.
    intros _. by eapply find_none.
Qed.

(** *** The dispatcher's functions *)

Lemma update_keeps selected f : (forall p, alike p (f p)) -> keeps selected (update f).
Proof. intros Hf s a s' [= _ <-] [g Hg]. exists g. by eapply alike_ok; [apply Hf|]. Qed.

Lemma stats_keeps selected f :
  (forall st, depths (f st) = depths st) -> keeps selected (update_stats f).
Proof. intros Hf. apply update_keeps. intros p. unfold alike. cbn. by rewrite Hf. Qed.

Lemma depth_keeps selected : keeps selected (update update_depth_stats).
Proof. intros s a s' [= _ <-] [g Hg]. exists g. by apply depth_ok. Qed.

Create HintDb keeps.
#[local] Hint Resolve yield_keeps lock_keeps fail_keeps depth_keeps complete_reaped_keeps : keeps.

Ltac keeps_tac :=
  repeat first
    [ apply still_keeps; solve [still_tac | apply still_consume] | solve [auto with keeps nocore]
    | by apply stats_keeps | by apply update_keeps
    | match goal with
      | |- keeps _ (mbind _ _) => apply preserves_bind; [|intros ?]
      | |- keeps _ (match ?x with _ => _ end) => destruct x
      end ].

Lemma reap_keeps selected echo progressed :
  keeps selected (reap_ready_responses fuel schedule stack echo progressed).
Proof. unfold reap_ready_responses. keeps_tac. Qed.

Lemma poll_keeps selected d events timeout :
  keeps selected (poll_transport_or_worker fuel schedule d events timeout).
Proof. unfold poll_transport_or_worker. keeps_tac. Qed.

#[local] Hint Resolve reap_keeps poll_keeps : keeps.

Lemma wait_keeps selected : keeps selected (wait_for_transport_or_worker fuel schedule).
Proof. unfold wait_for_transport_or_worker. keeps_tac. Qed.

#[local] Hint Resolve wait_keeps : keeps.

Definition fair (p : thread_phase) : Prop := exists selected, good selected p.

Lemma submit_keeps progressed s r b s' :
  submit_ready_workers fuel schedule stack progressed s = Some ((r, b), s') -> wc = n ->
  good [] (phase_of s) -> fair (phase_of s') /\ (r = 0 -> good [] (phase_of s')).
Proof.
  intros E Hwc Hs. unfold submit_ready_workers in E. step_to E u s1 F.
  apply (lock_keeps _ _ _ _ F) in Hs as Hs1. step_to E p s2 F2. injection F2 as <- <-.
  step_to E x s3 F3. destruct x as [messages selected]. apply select_keeps in F3; [|done].
  step_to E u4 s4 F4. apply (depth_keeps _ _ _ _ F4) in F3.
  destruct (_ =? 0) eqn:El.
  { injection E as <- _ <-. assert (selected = []) as -> by (destruct selected; [done|cbn in El; lia]).
    split; [by exists []|done]. }
  step_to E u5 s5 F5.
  apply (stats_keeps selected count_submit_call (fun _ => eq_refl) _ _ _ F5) in F3 as H5.
  step_to E y s6 F6. apply still_lib in F6. destruct y as [[ret l] now].
  step_to E l' s7 F7. apply still_lift in F7. step_to E now' s8 F8. apply still_lift in F8.
  rewrite <- F6, <- F7, <- F8 in H5. step_to E u9 s9 F9.
  apply (lock_keeps selected _ _ _ F9) in H5.
  destruct (negb (ret =? 0) && _) eqn:Eret.
  { step_to E u10 s10 F10. apply return_all_keeps in F10; [|exact H5].
    step_to E u11 s11 F11. apply (fail_keeps [] _ _ _ _ F11) in F10. injection E as <- _ <-.
    split; [by exists []|lia]. }
  step_to E u10 s10 F10.
  assert (Hs10 : good selected (phase_of s10)).
  { destruct (ret =? - EAGAIN); [|by injection F10 as _ <-].
    by apply (stats_keeps selected count_send_eagain (fun _ => eq_refl) _ _ _ F10). }
  destruct ((ret =? 0) && _).
  { step_to E u11 s11 F11. apply (fail_keeps selected _ _ _ _ F11) in Hs10. injection E as <- _ <-.
    split; [by exists selected|done]. }
  step_to E marked s11 F11. apply mark_keeps in F11 as (rest & Hrest & Heq); [|done|done].
  destruct (marked =? 0) eqn:Em; cbn [negb] in E.
  - assert (marked = 0) as -> by lia. rewrite (Heq eq_refl) in Hrest.
    step_to E u12 s12 F12. apply return_all_keeps in F12; [|exact Hrest].
    step_to E u13 s13 F13. apply (depth_keeps _ _ _ _ F13) in F12.
    assert (Hend : good [] (phase_of s')); [|by split; [exists []|]].
    destruct (0 <? now').
    + step_to E u14 s14 F14. injection E as _ _ <-.
      by apply (stats_keeps [] (count_submitted now') (fun _ => eq_refl) _ _ _ F14).
    + by injection E as _ _ <-.
  - injection E as <- _ <-. split; [by exists rest|lia].
Qed.

Lemma dispatch_keeps echo k : forall s r s',
  dispatch_phase fuel schedule stack k echo s = Some (r, s') -> wc = n ->
  good [] (phase_of s) ->
  fair (phase_of s') /\ (r = 0 -> completed (counts (phase_of s')) = total).
Proof.
  induction k as [|k IH]; intros s r s' E Hwc Hs; [done|]. cbn [dispatch_phase] in E.
  step_to E u s1 F. apply (lock_keeps [] _ _ _ F) in Hs. step_to E p s2 F2.
  injection F2 as <- <-. destruct (finished (phase_of s1)) eqn:Ef.
  { injection E as <- <-. split; [by exists []|]. intros He. destruct Hs as [g Hg].
    rewrite <- (ok_total Hg). unfold finished in Ef. lia. }
  step_to E x s3 F3. destruct x as [ret progressed].
  apply (reap_keeps [] _ _ _ _ _ F3) in Hs. destruct (ret =? 0) eqn:Er; cbn [negb] in E; cycle 1.
  { injection E as <- <-. split; [by exists []|lia]. }
  step_to E y s4 F4. destruct y as [ret2 progressed2]. apply submit_keeps in F4 as [Hf Hs4]; [|done|done].
  destruct (ret2 =? 0) eqn:Er2; cbn [negb] in E; cycle 1.
  { injection E as <- <-. split; [done|lia]. }
  specialize (Hs4 ltac:(lia)). destruct progressed2; cbn [negb] in E; [by eapply IH|].
  step_to E ret3 s5 F5. apply (wait_keeps [] _ _ _ F5) in Hs4.
  destruct (ret3 =? 0) eqn:Er3; cbn [negb] in E; [by eapply IH|].
  injection E as <- <-. split; [by exists []|lia].
Qed.

(** *** Threads *)

(** Only the creating thread creates, and a worker that has returned has returned. *)
Definition runs (p p' : thread_phase) : Prop :=
  forall j w', workers p' !! j = Some w' ->
  exists w, workers p !! j = Some w /\
    (thread w = not_created <-> thread w' = not_created) /\
    (thread w = returned -> thread w' = returned).

Lemma runs_refl p : runs p p.
Proof. intros j w Hj. by exists w. Qed.

Lemma runs_trans p1 p2 p3 : runs p1 p2 -> runs p2 p3 -> runs p1 p3.
Proof.
  intros H12 H23 j w3 Hj. destruct (H23 j w3 Hj) as (w2 & H2' & E2 & R2).
  destruct (H12 j w2 H2') as (w1 & H1' & E1 & R1). exists w1. split; [done|].
  split; [by rewrite E1|auto].
Qed.

Definition running {A} (m : ST (world L) A) : Prop :=
  forall s a s', m s = Some (a, s') -> runs (phase_of s) (phase_of s').

Lemma still_running {A} (m : ST (world L) A) : still m -> running m.
Proof. intros Hm s a s' E. rewrite (Hm _ _ _ E). apply runs_refl. Qed.

Lemma running_bind {A B} (m : ST (world L) A) (f : A -> ST (world L) B) :
  running m -> (forall a, running (f a)) -> running (x ← m; f x).
Proof.
  intros Hm Hf s b s' E. step_to E a s1 F. eapply runs_trans; [by eapply Hm|by eapply Hf].
Qed.

Lemma running_update f : (forall p, workers (f p) = workers p) -> running (update f).
Proof.
  intros Hf s a s' [= _ <-]. cbn [phase_of]. intros j w Hj. rewrite Hf in Hj. by exists w.
Qed.

Lemma running_update_worker i f :
  (forall w, thread (f w) = thread w) -> running (update_worker i f).
Proof.
  intros Hf s a s' E. apply update_worker_spec in E as (w & Hw & ->). cbn [phase_of].
  intros j x Hj. cbn [workers set_workers] in Hj. destruct (decide (j = i)) as [->|Hne].
  - rewrite list_lookup_insert_eq in Hj by by eapply lookup_lt_Some. injection Hj as <-.
    exists w. by rewrite Hf.
  - rewrite list_lookup_insert_ne in Hj by done. by exists x.
Qed.

Lemma running_fail e : running (fail_phase_locked fuel e).
Proof.
  intros s a s' E. apply fail_spec in E as (Ew & _). intros j w Hj. rewrite Ew in Hj. by exists w.
Qed.

(** The code of worker [i], once created, only moves itself. *)
Definition own {A} (i : nat) (m : ST (world L) A) : Prop :=
  forall s a s', m s = Some (a, s') ->
  forall j w', workers (phase_of s') !! j = Some w' ->
  exists w, workers (phase_of s) !! j = Some w /\
    (j <> i -> w' = w) /\ (thread w <> not_created -> thread w' <> not_created).

Lemma own_still {A} i (m : ST (world L) A) : still m -> own i m.
Proof. intros Hm s a s' E j w Hj. rewrite (Hm _ _ _ E) in Hj. by exists w. Qed.

Lemma own_bind {A B} i (m : ST (world L) A) (f : A -> ST (world L) B) :
  own i m -> (forall a, own i (f a)) -> own i (x ← m; f x).
Proof.
  intros Hm Hf s b s' E j w Hj. step_to E a s1 F.
  destruct (Hf a _ _ _ E j w Hj) as (w1 & Hw1 & E1 & T1).
  destruct (Hm _ _ _ F j w1 Hw1) as (w0 & Hw0 & E0 & T0). exists w0. split; [done|].
  split; [intros Hne; by rewrite (E1 Hne), (E0 Hne)|auto].
Qed.

Lemma own_update i f : (forall p, workers (f p) = workers p) -> own i (update f).
Proof.
  intros Hf s a s' [= _ <-] j w Hj. cbn [phase_of] in Hj. rewrite Hf in Hj. by exists w.
Qed.

Lemma own_update_worker i f :
  (forall w, thread w <> not_created -> thread (f w) <> not_created) -> own i (update_worker i f).
Proof.
  intros Hf s a s' E j x Hj. apply update_worker_spec in E as (w & Hw & ->).
  cbn [phase_of workers set_workers] in Hj. destruct (decide (j = i)) as [->|Hne].
  - rewrite list_lookup_insert_eq in Hj by by eapply lookup_lt_Some. injection Hj as <-.
    exists w. split; [done|]. split; [done|apply Hf].
  - rewrite list_lookup_insert_ne in Hj by done. by exists x.
Qed.

Lemma own_fail i e : own i (fail_phase_locked fuel e).
Proof.
  intros s a s' E j w Hj. apply fail_spec in E as (Ew & _). rewrite Ew in Hj. by exists w.
Qed.

Ltac own_tac :=
  repeat first
    [ apply own_still; solve [still_tac | apply still_signal] | apply own_fail
    | by apply own_update | apply own_update_worker; by intros []
    | match goal with
      | |- own _ (mbind _ _) => apply own_bind; [|intros ?]
      | |- own _ (match ?x with _ => _ end) => destruct x
      end ].

Lemma own_loop i operation : own i (worker_loop fuel i operation).
Proof. unfold worker_loop, worker_issue, worker_exit. own_tac. Qed.

Lemma own_gate i : own i (worker_gate fuel i).
Proof.
  unfold worker_gate. apply own_bind; [own_tac|intros p].
  destruct (_ && _); [own_tac|apply own_loop].
Qed.

Lemma own_runs {A} i (m : ST (world L) A) s a s' w :
  own i m -> m s = Some (a, s') -> workers (phase_of s) !! i = Some w ->
  thread w <> not_created -> thread w <> returned -> runs (phase_of s) (phase_of s').
Proof.
  intros Hm E Hw Ht Hr j x Hj. destruct (Hm _ _ _ E j x Hj) as (y & Hy & Ey & Ty).
  exists y. split; [done|]. destruct (decide (j = i)) as [->|Hne].
  - rewrite Hw in Hy. injection Hy as <-. split; [|done]. split; [done|]. intros Hx.
    by destruct (Ty Ht).
  - by rewrite (Ey Hne).
Qed.

Lemma running_worker i : running (run_worker fuel i).
Proof.
  intros s a s' E. unfold run_worker in E. step_to E p s1 F. injection F as <- <-.
  destruct (workers (phase_of s) !! i) as [w|] eqn:Hw; [|injection E as _ <-; apply runs_refl].
  destruct (thread w) as [| | |operation|] eqn:Ht;
    [injection E as _ <-; apply runs_refl| | | |injection E as _ <-; apply runs_refl];
    (eapply (own_runs i); [|exact E|exact Hw|congruence|congruence]).
  - apply own_bind; [own_tac|intros ret]. destruct (negb _); [own_tac|].
    apply own_bind; [own_tac|intros _]. apply own_bind; [own_tac|intros _]. apply own_gate.
  - apply own_gate.
  - destruct (_ && _); [own_tac|]. apply own_bind; [own_tac|intros _]. apply own_loop.
Qed.

Lemma running_iter {A} (f : A -> ST (world L) unit) l :
  (forall x, running (f x)) -> running (st_iter f l).
Proof.
  intros Hf. induction l as [|x l IH]; cbn [st_iter]; [by apply still_running, still_ret|].
  apply running_bind; [apply Hf|by intros _].
Qed.

Lemma running_yield : running (yield fuel schedule).
Proof.
  intros s a s' E. unfold yield in E.
  apply (running_iter (run_worker fuel) (schedule (turn s)) running_worker) in E. exact E.
Qed.

Ltac running_tac :=
  repeat first
    [ apply still_running; solve [still_tac | apply still_consume]
    | apply running_fail | apply running_yield | by apply running_update
    | apply running_update_worker; by intros [] | solve [auto with running nocore]
    | match goal with
      | |- running (mbind _ _) => apply running_bind; [|intros ?]
      | |- running (match ?x with _ => _ end) => destruct x
      end ].

Create HintDb running.

Lemma running_lock : running (lock_phase fuel schedule).
Proof. unfold lock_phase. running_tac. Qed.

#[local] Hint Resolve running_lock : running.

Lemma running_complete indices messages echo now :
  running (complete_reaped fuel indices messages echo now).
Proof. induction indices as [|i l IH]; cbn [complete_reaped]; running_tac; apply IH. Qed.

#[local] Hint Resolve running_complete : running.

Lemma running_select indices : forall messages selected,
  running (select_ready indices messages selected).
Proof.
  induction indices as [|i l IH]; intros messages selected; cbn [select_ready]; running_tac;
    apply IH.
Qed.

Lemma running_mark indices messages selected :
  running (mark_in_flight fuel indices messages selected).
Proof. induction indices as [|i l IH]; cbn [mark_in_flight]; running_tac; apply IH. Qed.

Lemma running_return l : running (st_iter return_ready l).
Proof. apply running_iter. intros i. unfold return_ready. running_tac. Qed.

#[local] Hint Resolve running_select running_mark running_return : running.

Lemma running_dispatch k echo : running (dispatch_phase fuel schedule stack k echo).
Proof.
  induction k as [|k IH]; cbn [dispatch_phase];
    unfold reap_ready_responses, submit_ready_workers, wait_for_transport_or_worker,
      poll_transport_or_worker; running_tac; apply IH.
Qed.

#[local] Hint Resolve running_dispatch : running.

Lemma running_wait_started k workers : running (wait_started fuel schedule k workers).
Proof. induction k as [|k IH]; cbn [wait_started]; running_tac; apply IH. Qed.

Lemma running_join k i : running (join_worker fuel schedule k i).
Proof. induction k as [|k IH]; cbn [join_worker]; running_tac; apply IH. Qed.

#[local] Hint Resolve running_wait_started running_join : running.

Lemma running_started workers echo : running (run_started fuel schedule stack workers echo).
Proof. unfold run_started. running_tac. Qed.

(** The first [k] workers are created. *)
Definition built (k : nat) (p : thread_phase) : Prop :=
  forall i w, workers p !! i = Some w -> (thread w = not_created <-> (k <= i)%nat).

Lemma runs_built k p p' : runs p p' -> built k p -> built k p'.
Proof.
  intros Hr Hb i w' Hi. destruct (Hr i w' Hi) as (w & Hw & E & _). rewrite <- E. by apply Hb.
Qed.

Lemma create_spec k s r s' :
  create_worker fuel schedule total n k s = Some (r, s') ->
  (Z.of_nat k < n) -> good [] (phase_of s) -> built k (phase_of s) ->
  good [] (phase_of s') /\ built (if r =? 0 then S k else k) (phase_of s').
Proof.
  intros E Hk Hs Hb. unfold create_worker in E. step_to E u s1 F.
  apply running_yield in F as Hr. apply (yield_keeps [] _ _ _ F) in Hs.
  apply (runs_built _ _ _ Hr) in Hb. step_to E u2 s2 F2.
  apply update_worker_spec in F2 as (w & Hw & ->).
  pose proof (proj2 (Hb k w Hw) ltac:(lia)) as Ht.
  set (w1 := Worker (thread w) (request w) (start w) WORKER_STARTING (Z.of_nat k)
    (worker_target total n (Z.of_nat k)) (issued w) (seed w) (worker_sequence w)) in *.
  destruct Hs as [g Hg].
  assert (Hst : g !! k = Some WORKER_STARTING /\ issued w = 0).
  { assert (Hl : (k < length g)%nat) by (rewrite (ok_states Hg); lia).
    destruct (lookup_lt_is_Some_2 g k Hl) as [st Hst]. rewrite Hst.
    destruct (ok_workers Hg k w st Hw Hst) as [_ _ P]. rewrite Ht in P.
    by destruct P as [-> ->]. }
  destruct Hst as [Hst Hi0].
  assert (Hg1 : phase_ok [] g (set_workers (<[k:=w1]> (workers (phase_of s1))) (phase_of s1))).
  { eapply relabel_ok; [done..| |done|done|done].
    split; cbn [thread state issued w1]; [by left|congruence|by rewrite Ht]. }
  set (p1 := set_workers _ (phase_of s1)) in *.
  assert (Hw1 : workers p1 !! k = Some w1).
  { apply list_lookup_insert_eq. by eapply lookup_lt_Some. }
  assert (Hb1 : built k p1).
  { intros i x Hi. cbn [workers p1 set_workers] in Hi. destruct (decide (i = k)) as [->|Hne].
    - change (workers p1 !! k = Some x) in Hi. rewrite Hw1 in Hi. injection Hi as <-. exact (Hb k w Hw).
    - rewrite list_lookup_insert_ne in Hi by done. by apply Hb. }
  step_to E c s3 F3. apply still_lib in F3. cbn [phase_of] in F3.
  destruct (c =? 0) eqn:Ec; cbn [negb] in E; cycle 1.
  { injection E as <- <-. rewrite F3. replace (- c =? 0) with false by lia.
    split; [by exists g|done]. }
  step_to E t s4 F4. apply still_lib in F4. rewrite F3 in F4.
  destruct (t =? 0) eqn:Et; cbn [negb] in E; cycle 1.
  { step_to E u5 s5 F5. apply still_lib in F5. injection E as <- <-. rewrite F5, F4.
    replace (- t =? 0) with false by lia. split; [by exists g|done]. }
  step_to E u5 s5 F5. apply update_worker_spec in F5 as (x & Hx & ->). rewrite F4, Hw1 in Hx.
  injection Hx as <-. injection E as <- <-. cbn [phase_of]. rewrite F4. split.
  - exists g. eapply relabel_ok; [done..| |done|done|done].
    split; cbn [thread state issued id target w1 set_thread]; [by left| |by split; [exact Hi0|left]].
    intros _. rewrite Hi0.
    destruct (worker_target_small total n (Z.of_nat k) total_u32 ltac:(lia) ltac:(lia)) as [_ Htt].
    lia.
  - change (0 =? 0) with true. cbn beta iota. intros i x Hi. cbn [workers set_workers] in Hi.
    destruct (decide (i = k)) as [->|Hne].
    + rewrite list_lookup_insert_eq in Hi by by eapply lookup_lt_Some. injection Hi as <-.
      split; [done|lia].
    + rewrite list_lookup_insert_ne in Hi by done. rewrite (Hb1 i x Hi). lia.
Qed.

Lemma create_all m : forall k s r created s',
  create_workers fuel schedule (seq k m) total n k s = Some ((r, created), s') ->
  Z.of_nat (k + m) = n -> good [] (phase_of s) -> built k (phase_of s) ->
  good [] (phase_of s') /\ built created (phase_of s') /\
  (r = 0 -> Z.of_nat created = n) /\ (created <= k + m)%nat.
Proof.
  induction m as [|m IH]; intros k s r created s' E Hn Hs Hb; cbn [seq create_workers] in E.
  { injection E as <- <- <-. split_and!; [done|done|lia|lia]. }
  step_to E c s1 F. apply create_spec in F as [Hs1 Hb1]; [|lia|done|done].
  destruct (c =? 0) eqn:Ec; cbn [negb] in E.
  - apply IH in E; [|lia|done|done]. by rewrite Nat.add_succ_r.
  - injection E as <- <- <-. split_and!; [done|done|lia|lia].
Qed.

Lemma join_spec k i s a s' :
  join_worker fuel schedule k i s = Some (a, s') ->
  forall w, workers (phase_of s') !! i = Some w -> thread w = returned.
Proof.
  revert s. induction k as [|k IH]; intros s E; cbn [join_worker] in E;
    step_to E p s1 F; injection F as <- <-; step_to E w s1 F;
    (destruct (workers (phase_of s) !! i) as [w0|] eqn:Hw; [|done]); injection F as <- <-;
    (destruct (bool_decide (thread w0 = returned)) eqn:Et;
     [apply bool_decide_eq_true in Et; apply still_lib in E; rewrite E, Hw; by intros ? [= <-]|]).
  - done.
  - step_to E u s2 F2. by eapply IH.
Qed.

Lemma join_all k l : forall s a s',
  st_iter (join_worker fuel schedule k) l s = Some (a, s') ->
  runs (phase_of s) (phase_of s') /\
  forall i w, i ∈ l -> workers (phase_of s') !! i = Some w -> thread w = returned.
Proof.
  induction l as [|x l IH]; intros s a s' E; cbn [st_iter] in E.
  { injection E as _ <-. split; [apply runs_refl|]. by intros i w Hi%elem_of_nil. }
  step_to E u s1 F. apply running_join in F as Hr. pose proof (join_spec _ _ _ _ _ F) as Ht.
  apply IH in E as [Hr1 Hl]. split; [by eapply runs_trans|].
  intros i w [->|Hi]%list.elem_of_cons Hw; [|by eapply Hl].
  destruct (Hr1 x w Hw) as (w1 & Hw1 & _ & R). by apply R, Ht.
Qed.

Lemma wait_started_keeps selected k workers : keeps selected (wait_started fuel schedule k workers).
Proof. induction k as [|k IH]; cbn [wait_started]; keeps_tac; done. Qed.

Lemma join_keeps selected k i : keeps selected (join_worker fuel schedule k i).
Proof. induction k as [|k IH]; cbn [join_worker]; keeps_tac; done. Qed.

Lemma join_all_keeps selected k l : keeps selected (st_iter (join_worker fuel schedule k) l).
Proof.
  induction l as [|i l IH]; cbn [st_iter]; [by apply still_keeps, still_ret|].
  apply preserves_bind; [apply join_keeps|by intros _].
Qed.

Lemma fair_fail e s a s' :
  fail_phase_locked fuel e s = Some (a, s') -> fair (phase_of s) -> fair (phase_of s').
Proof. intros E [selected Hs]. exists selected. by eapply fail_keeps. Qed.

(** The phase from the start to the end of the dispatcher. *)
Lemma started_keeps workers echo s r s' :
  run_started fuel schedule stack workers echo s = Some (r, s') -> wc = n ->
  good [] (phase_of s) -> fair (phase_of s').
Proof.
  intros E Hwc Hs. unfold run_started in E. step_to E u s1 F.
  apply (lock_keeps [] _ _ _ F) in Hs. step_to E u2 s2 F2.
  apply (wait_started_keeps [] _ _ _ _ _ F2) in Hs. step_to E t s3 F3. apply still_lib in F3.
  rewrite <- F3 in Hs. destruct t as [begin|e]; cycle 1.
  { step_to E u4 s4 F4. injection E as _ <-. eapply fair_fail; [exact F4|by exists []]. }
  step_to E u4 s4 F4.
  assert (Hs4 : good [] (phase_of s4)) by (by eapply (update_keeps []); [|exact F4|exact Hs]).
  step_to E ret s5 F5. apply dispatch_keeps in F5 as [Hf _]; [|done|exact Hs4].
  step_to E t2 s6 F6. apply still_lib in F6. rewrite <- F6 in Hf.
  step_to E x s7 F7. destruct x as [ret2 d].
  assert (F7' : phase_of s7 = phase_of s6).
  { destruct t2 as [fin|e]; [|by injection F7 as _ _ <-].
    step_to F7 ns s8 F8. apply still_lift in F8. injection F7 as _ _ <-. done. }
  rewrite <- F7' in Hf. step_to E v8 s8 F8. injection E as _ <-.
  destruct (negb _); [|by injection F8 as _ <-].
  step_to F8 u9 s9 F9. eapply fair_fail; [exact F8|]. destruct Hf as [selected Hf].
  exists selected. by eapply lock_keeps.
Qed.

(** What fair accounts come to. *)
Lemma fair_accounts p :
  fair p ->
  0 <= completed (counts p) <= total /\
  (let d := depths (stats p) in
   max_ready d <= n /\ max_in_flight d <= n /\ max_outstanding d <= n) /\
  (completed (counts p) = total ->
   forall i w, workers p !! i = Some w -> issued w = share n total i).
Proof.
  intros (selected & g & Hg). destruct (ok_shares n total wc n_bounds total_u32 _ _ _ Hg) as [Hle Heq].
  pose proof (ok_issued Hg) as Hi. pose proof (outstanding_bound g).
  pose proof (ok_completed Hg). split; [lia|]. split; [apply (ok_depths Hg)|].
  intros Hc. apply Heq. lia.
Qed.

End Steps.

(** ** The phase *)

Section Whole.
Context {L : Type} `{ThreadSystem L}.
Context (fuel : nat) (schedule : nat -> list nat) (stack : list slot).
Context (n total : Z) (n_bounds : 1 <= n <= MAX_WORKERS) (total_u32 : 0 <= total < 2 ^ 32).
Implicit Types (s : world L).

(** Fair whatever [worker_count] became, and every thread has returned. *)
Definition over (p : thread_phase) : Prop :=
  (exists wc, fair n total wc p) /\
  forall i w, workers p !! i = Some w -> thread w = not_created \/ thread w = returned.

Lemma initial_ok echo seed_base samples :
  phase_ok n total n [] (replicate (Z.to_nat n) WORKER_STARTING)
    (initial_phase n total echo seed_base samples) /\
  built 0 (initial_phase n total echo seed_base samples).
Proof.
  assert (H0' : forall t, t <> WORKER_STARTING ->
    nof t (replicate (Z.to_nat n) WORKER_STARTING) = 0).
  { intros t Ht. induction (Z.to_nat n) as [|k IH]; [done|].
    cbn [replicate]. rewrite nof_cons, IH. unfold same. by rewrite decide_False. }
  assert (Hw : forall i w, workers (initial_phase n total echo seed_base samples) !! i = Some w ->
    w = zero_worker) by (by intros i w [-> _]%lookup_replicate_1).
  split; [split|].
  - done.
  - by rewrite length_replicate.
  - intros i w st Hi%Hw Hg. apply lookup_replicate_1 in Hg as [-> _]. subst w.
    split; [by left|done|done].
  - by intros i w _ ->%Hw.
  - by rewrite H0'.
  - by rewrite H0'.
  - by rewrite H0'.
  - unfold outstanding. by rewrite !H0'.
  - done.
  - done.
  - done.
  - split; [constructor|]. intros i. split; [by intros ?%elem_of_nil|].
    by intros [? _]%lookup_replicate_1.
  - by intros i j wi wj ->%Hw.
  - cbn. lia.
  - intros i w ->%Hw. cbn. split; [lia|done].
Qed.

Lemma run_workers_over echo s ret duration created s' :
  run_workers fuel schedule stack n total echo s = Some ((ret, duration, created), s') ->
  good n total n [] (phase_of s) -> built 0 (phase_of s) -> over (phase_of s').
Proof.
  intros E Hs Hb. unfold run_workers in E. step_to E x s1 F1. destruct x as [r k].
  apply (create_all fuel schedule n total n n_bounds total_u32) in F1
    as (Hs1 & Hb1 & Hk & _); [|lia|exact Hs|exact Hb].
  step_to E y s2 F2. destruct y as [ret2 d2]. step_to E u s3 F3. injection E as _ _ _ <-.
  assert (H2 : (exists wc, fair n total wc (phase_of s2)) /\ built k (phase_of s2)).
  { destruct (r =? 0) eqn:Er; cbn [negb] in F2.
    - split; [exists n; by eapply started_keeps|].
      by eapply runs_built; [eapply running_started|]; [exact total_u32|exact F2|].
    - step_to F2 u4 s4 F4. injection F4 as _ <-. step_to F2 u5 s5 F5. step_to F2 u6 s6 F6.
      injection F2 as _ _ <-. set (s4 := World _ _ _) in *.
      assert (Hs4 : good n total (Z.of_nat k) [] (phase_of s4)).
      { destruct Hs1 as [g [A B C D E F G I J K M N O P]]. exists g. by split. }
      split.
      + exists (Z.of_nat k). eapply (fair_fail fuel schedule); [exact total_u32|exact F6|].
        exists []. by eapply (lock_keeps fuel schedule).
      + eapply runs_built; [eapply (running_fail fuel schedule total total_u32); exact F6|].
        eapply runs_built; [by eapply (running_lock fuel schedule total total_u32)|]. exact Hb1. }
  destruct H2 as [[wc [selected Hf]] Hb2].
  pose proof (join_all_keeps fuel schedule n total wc n_bounds total_u32 selected fuel _ _ _ _ F3 Hf) as Hf3.
  apply (join_all fuel schedule total total_u32) in F3 as [Hr Hj].
  apply (runs_built _ _ _ Hr) in Hb2. split; [by exists wc, selected|].
  intros i w Hw. destruct (decide (k <= i)%nat) as [Hi|Hi].
  - left. by apply (Hb2 i w Hw).
  - right. eapply Hj; [|exact Hw]. apply elem_of_seq. lia.
Qed.

Lemma over_same p p' : workers p' = workers p -> alike p p' -> over p -> over p'.
Proof.
  intros Ew Ha [[wc [selected [g Hg]]] Hr]. split; [|by rewrite Ew].
  exists wc, selected, g. by eapply alike_ok.
Qed.

(** [errno] is positive. *)
Context (eventfd_errno : forall o e, (eventfd o).1 = Err e -> 0 < e).

Lemma run_phase_over echo seed_base samples s ret duration s' :
  run_phase fuel schedule stack n total echo seed_base samples s = Some ((ret, duration), s') ->
  over (phase_of s') /\ (ret = 0 -> completed (counts (phase_of s')) = total).
Proof.
  intros E. unfold run_phase in E. step_to E u s0 F0. injection F0 as _ <-.
  destruct (initial_ok echo seed_base samples) as [Hs Hb].
  set (p0 := initial_phase n total echo seed_base samples) in *.
  assert (Hover : over p0).
  { split; [exists n, []; by eexists|]. intros i w Hw. left. apply (Hb i w Hw). lia. }
  step_to E r1 s1 F1. apply still_lib in F1. cbn [phase_of] in F1.
  assert (Hout : forall e s2 s', phase_of s2 = p0 -> e <> 0 -> forall (m : ST (world L) (Z * Z)),
    (forall s a s', m s = Some (a, s') -> phase_of s' = phase_of s /\ a = (- e, 0)) ->
    m s2 = Some ((ret, duration), s') ->
    over (phase_of s') /\ (ret = 0 -> completed (counts (phase_of s')) = total)).
  { intros e s2 s2' Hp He m Hm Em. destruct (Hm _ _ _ Em) as [-> [= -> _]]. rewrite Hp.
    split; [done|lia]. }
  destruct (r1 =? 0) eqn:E1; cbn [negb] in E.
  2: { eapply (Hout r1); [exact F1|lia| |exact E]. by intros s2 a s2' [= <- <-]. }
  step_to E r2 s2 F2. apply still_lib in F2. rewrite F1 in F2.
  destruct (r2 =? 0) eqn:E2; cbn [negb] in E.
  2: { eapply (Hout r2); [exact F2|lia| |exact E]. intros s3 a s3' E3. step_to E3 u4 s4 F4.
       apply still_lib in F4. by injection E3 as <- <-. }
  step_to E r3 s3 F3. apply still_lib in F3. rewrite F2 in F3.
  destruct (r3 =? 0) eqn:E3; cbn [negb] in E.
  2: { eapply (Hout r3); [exact F3|lia| |exact E]. intros s4 a s4' E4. step_to E4 u5 s5 F5.
       step_to E4 u6 s6 F6. apply still_lib in F5, F6. injection E4 as <- <-. by rewrite F6, F5. }
  step_to E ev s4 F4. assert (He : forall e, ev = Err e -> 0 < e).
  { intros e ->. unfold sys_call, lib, call, zoom in F4.
    pose proof (eventfd_errno (os (client_of s3)) e) as Hx.
    destruct (eventfd (os (client_of s3))) as [r o]. injection F4 as -> _. by apply Hx. }
  apply still_lib in F4. rewrite F3 in F4. destruct ev as [d|e].
  2: { specialize (He e eq_refl). eapply (Hout e); [exact F4|lia| |exact E].
       intros s5 a s5' E5. step_to E5 u6 s6 F6. step_to E5 u7 s7 F7. step_to E5 v8 s8 F8.
       apply still_lib in F6, F7, F8. injection E5 as <- <-. by rewrite F8, F7, F6. }
  step_to E u5 s5 F5. injection F5 as _ <-. step_to E x s6 F6. destruct x as [[r6 d6] created].
  apply run_workers_over in F6; cbn [phase_of]; rewrite ?F4; [| |exact Hb].
  2: { eexists. by eapply (alike_ok _ _ _ _ _ p0); [|exact Hs]. }
  assert (Hdestroy : forall l, still (st_iter (fun _ : nat => sys_call phase_cond_destroy) l)).
  { intros l. induction l as [|y l IH]; cbn [st_iter]; [apply still_ret|].
    apply still_bind; [apply still_lib|by intros _]. }
  step_to E u7 s7 F7. apply Hdestroy in F7. step_to E v8 s8 F8. step_to E v9 s9 F9.
  step_to E v10 s10 F10. step_to E v11 s11 F11. apply still_lib in F8, F9, F10, F11.
  assert (Ep : phase_of s11 = phase_of s6) by congruence.
  step_to E p s12 F12. injection F12 as <- <-. injection E as E _ <-. rewrite Ep in *.
  split; [done|]. intros ->.
  destruct (r6 =? 0) eqn:E6; cbn [andb] in E; [|lia].
  destruct (completed (counts (phase_of s6)) =? _) eqn:Ec; cbn [negb] in E; [lia|done].
Qed.

(** C5: a phase of the thread benchmark keeps its accounts. Whatever the kernel and
    the firmware answer and in whatever order up to 8 workers and the dispatcher run:
    when [run_phase] returns, between 0 and [total] requests are completed, and never
    were more workers ready, in flight or both than there are. If it returns 0, all
    [total] requests are completed, and each worker has issued exactly its share. *)
Theorem thread_phase_accounts echo seed_base samples s ret duration s' :
  run_phase fuel schedule stack n total echo seed_base samples s = Some ((ret, duration), s') ->
  let p := phase_of s' in
  let d := depths (stats p) in
  0 <= completed (counts p) <= total /\
  max_ready d <= n /\ max_in_flight d <= n /\ max_outstanding d <= n /\
  (ret = 0 -> completed (counts p) = total /\
     forall i w, 0 <= i < n -> workers p !! Z.to_nat i = Some w ->
       issued w = worker_target total n i).
Proof.
  intros E. apply run_phase_over in E as [[[wc Hf] _] Hc].
  destruct (fair_accounts fuel schedule n total wc n_bounds total_u32 _ Hf) as (Hb & Hd & Hi).
  cbn zeta. split; [exact Hb|]. split_and!; [apply Hd..|]. intros Hr. split; [by apply Hc|].
  intros i w Hin Hw. rewrite (Hi (Hc Hr) _ _ Hw). unfold share.
  replace (Z.to_nat i <? Z.to_nat n)%nat with true by lia. by rewrite Z2Nat.id by lia.
Qed.

(** C28: no thread outlives its phase. [run_phase] keeps the phase the workers run on
    in its own frame; on whichever path it returns, every worker it created has
    returned, whatever failed and whichever order the threads ran in. *)
Theorem threads_end_with_phase echo seed_base samples s ret duration s' :
  run_phase fuel schedule stack n total echo seed_base samples s = Some ((ret, duration), s') ->
  forall i w, workers (phase_of s') !! i = Some w ->
    thread w = not_created \/ thread w = returned.
Proof. intros E. apply run_phase_over in E as [[_ Hr] _]. exact Hr. Qed.

End Whole.

(** ** On the concrete system *)

Lemma demo_eventfd_errno (o : SimThreads.t) e : (eventfd o).1 = Err e -> 0 < e.
Proof. done. Qed.

Lemma thread_phase_accounts_witness :
  1 <= 3 <= MAX_WORKERS /\ 0 <= 7 < 2 ^ 32 /\
  exists duration s',
    run_phase 30 demo_schedule demo_stack 3 7 0 5 (Some (replicate 7 0)) demo_world =
      Some ((0, duration), s') /\
    completed (counts (phase_of s')) = 7 /\ max_outstanding (depths (stats (phase_of s'))) <= 3.
Proof.
  assert (Hn : 1 <= 3 <= MAX_WORKERS) by done. assert (Ht : 0 <= 7 < 2 ^ 32) by done.
  split; [exact Hn|]. split; [exact Ht|].
  assert (Hr : (fun r => r.1.1) <$>
    run_phase 30 demo_schedule demo_stack 3 7 0 5 (Some (replicate 7 0)) demo_world = Some 0)
    by (vm_compute; reflexivity).
  destruct (run_phase _ _ _ _ _ _ _ _ _) as [[[ret d] s']|] eqn:E; [|done].
  injection Hr as ->. exists d, s'. split; [done|].
  destruct (thread_phase_accounts 30 demo_schedule demo_stack 3 7 Hn Ht demo_eventfd_errno
    0 5 _ demo_world 0 d s' E) as (_ & _ & _ & Hd & Hc).
  destruct (Hc eq_refl) as [Hcount _]. split; [exact Hcount|exact Hd].
Defined.

Lemma threads_end_with_phase_witness :
  1 <= 2 <= MAX_WORKERS /\ 0 <= 3 < 2 ^ 32 /\
  exists ret duration s',
    run_phase 30 demo_schedule demo_stack 2 3 0 5 None demo_world = Some ((ret, duration), s') /\
    forall i w, workers (phase_of s') !! i = Some w ->
      thread w = not_created \/ thread w = returned.
Proof.
  assert (Hn : 1 <= 2 <= MAX_WORKERS) by done. assert (Ht : 0 <= 3 < 2 ^ 32) by done.
  split; [exact Hn|]. split; [exact Ht|].
  assert (Hr : is_Some (run_phase 30 demo_schedule demo_stack 2 3 0 5 None demo_world))
    by (vm_compute; by eexists).
  destruct (run_phase _ _ _ _ _ _ _ _ _) as [[[ret d] s']|] eqn:E; [|by destruct Hr].
  exists ret, d, s'. split; [done|].
  exact (threads_end_with_phase 30 demo_schedule demo_stack 2 3 Hn Ht
    demo_eventfd_errno 0 5 None demo_world ret d s' E).
Defined.
