(* ===== verification/ThreadWake.v ===== *)
(** * Waking the dispatcher

    The dispatcher of [tools/rtos-thread-bench.c] decides under the lock what to wait
    for, and waits without it. A worker that becomes ready in between is not lost: it
    has made the descriptor the dispatcher waits for readable. The tool's self-test,
    which includes this case, passes on the concrete system. *)

From S2P Require Import Prelude Protocol Shm LinuxOs LinuxRtos Bench ThreadBench ThreadSim.
From S2P Require Import ThreadPhase.
Local Open Scope Z_scope.

Section Wake.
Context {L : Type} `{WakeLaws L}.
Context (fuel : nat) (schedule : nat -> list nat).
Implicit Types (s : world L).

(** The counter of the phase's event descriptor. *)
Definition counter s : option Z := wakes (os (client_of s)) !! wake_fd (phase_of s).

(** What the dispatcher looks at is as it was, or its descriptor is readable. *)
Definition noted s s' : Prop :=
  wake_fd (phase_of s') = wake_fd (phase_of s) /\
  forall n, counter s = Some n -> 0 <= n ->
  exists n', counter s' = Some n' /\ n <= n' /\
    (0 < n' \/
     (ready (counts (phase_of s')) = ready (counts (phase_of s)) /\
      error (flags_of (phase_of s')) = error (flags_of (phase_of s)))).

Lemma noted_refl s : noted s s.
Proof. split; [done|]. intros n Hn Hz. exists n. split_and!; [done|lia|by right]. Qed.

Lemma noted_trans s1 s2 s3 : noted s1 s2 -> noted s2 s3 -> noted s1 s3.
Proof.
  intros [W1 N1] [W2 N2]. split; [congruence|]. intros n Hn Hz.
  destruct (N1 n Hn Hz) as (n2 & Hn2 & Hle2 & D2).
  destruct (N2 n2 Hn2 ltac:(lia)) as (n3 & Hn3 & Hle3 & D3).
  exists n3. split_and!; [done|lia|].
  destruct D2 as [?|[E1 E2]]; [left; lia|]. destruct D3 as [?|[E3 E4]]; [by left|right].
  by rewrite E3, E4.
Qed.

(** A computation after which the dispatcher's descriptor is readable. *)
Definition woken s s' : Prop :=
  wake_fd (phase_of s') = wake_fd (phase_of s) /\
  forall n, counter s = Some n -> 0 <= n -> exists n', counter s' = Some n' /\ n <= n' /\ 0 < n'.

Lemma woken_noted s s' : woken s s' -> noted s s'.
Proof.
  intros [W N]. split; [done|]. intros n Hn Hz. destruct (N n Hn Hz) as (n' & Hn' & Hle & Hp).
  exists n'. split_and!; [done|lia|by left].
Qed.

(** Anything before or after it does not matter. *)
Lemma noted_woken s1 s2 s3 :
  (wake_fd (phase_of s2) = wake_fd (phase_of s1) /\
   wakes (os (client_of s2)) = wakes (os (client_of s1))) -> woken s2 s3 -> woken s1 s3.
Proof.
  intros [W1 C1] [W2 N2]. split; [congruence|]. intros n Hn. apply N2. unfold counter in *.
  by rewrite W1, C1.
Qed.

Lemma woken_still s1 s2 s3 : woken s1 s2 -> noted s2 s3 -> woken s1 s3.
Proof.
  intros [W1 N1] [W2 N2]. split; [congruence|]. intros n Hn Hz.
  destruct (N1 n Hn Hz) as (n2 & Hn2 & Hle2 & Hp2).
  destruct (N2 n2 Hn2 ltac:(lia)) as (n3 & Hn3 & Hle3 & _). exists n3. split_and!; [done|lia|lia].
Qed.

(** The write that wakes. *)
Lemma write_wake_spec k : forall s r s',
  write_wake k s = Some (r, s') ->
  phase_of s' = phase_of s /\
  forall n, counter s = Some n -> 0 <= n ->
    exists n', counter s' = Some n' /\ n <= n' /\ 0 < n' /\ (r = Ok 8 \/ r = Err EAGAIN).
Proof.
  induction k as [|k IH]; intros s r s' E; [done|]. cbn [write_wake] in E.
  step_to E p s1 F. injection F as <- <-. step_to E x s1 F.
  pose proof (still_lib _ _ _ _ F) as Hp.
  assert (Hw : forall n, counter s = Some n ->
    (x = Ok 8 /\ counter s1 = Some (n + 1)) \/ (x = Err EINTR /\ counter s1 = Some n) \/
    (x = Err EAGAIN /\ 0 < n /\ counter s1 = Some n)).
  { intros n Hn. unfold sys_call, lib, call, zoom in F. unfold counter in *. rewrite Hp.
    pose proof (wakes_write _ _ _ Hn) as Hx. destruct (os_write _ _ _) as [x' o'].
    cbn [fst snd] in *. injection F as <- <-. exact Hx. }
  destruct x as [m|e].
  - injection E as <- <-. split; [done|]. intros n Hn Hz.
    destruct (Hw n Hn) as [[[= ->] Hc]|[[? _]|[? _]]]; [|done|done].
    exists (n + 1). split_and!; [done|lia|lia|by left].
  - destruct (e =? EINTR) eqn:Ee.
    + apply IH in E as [Hp2 IHn]. split; [congruence|]. intros n Hn Hz. apply IHn; [|done].
      destruct (Hw n Hn) as [[? _]|[[_ Hc]|[[= ->] _]]]; [done|done|done].
    + injection E as <- <-. split; [done|]. intros n Hn Hz.
      destruct (Hw n Hn) as [[? _]|[[[= ->] _]|([= ->] & Hpos & Hc)]]; [done|done|].
      exists n. split_and!; [done|lia|done|by right].
Qed.

Lemma signal_spec s r s' :
  signal_dispatcher fuel s = Some (r, s') ->
  phase_of s' = phase_of s /\
  forall n, counter s = Some n -> 0 <= n ->
    r = 0 /\ exists n', counter s' = Some n' /\ n <= n' /\ 0 < n'.
Proof.
  intros E. unfold signal_dispatcher in E. step_to E x s1 F. apply write_wake_spec in F as [Hp Hn].
  injection E as <- <-. split; [done|]. intros n Hc Hz.
  destruct (Hn n Hc Hz) as (n' & Hc' & Hle & Hpos & [-> | ->]);
    (split; [done|by exists n']).
Qed.

Lemma signal_woken s r s' : signal_dispatcher fuel s = Some (r, s') -> woken s s'.
Proof.
  intros E. apply signal_spec in E as [Hp Hn]. split; [by rewrite Hp|].
  intros n Hc Hz. by apply Hn.
Qed.

Lemma fail_woken e s a s' :
  fail_phase_locked fuel e s = Some (a, s') -> 0 <= wake_fd (phase_of s) -> woken s s'.
Proof.
  intros E Hd. unfold fail_phase_locked in E. step_to E v1 s1 F. injection F as _ <-.
  step_to E p s2 F. injection F as <- <-. cbn [wake_fd set_flags phase_of] in E.
  replace (0 <=? wake_fd (phase_of s)) with true in E by lia.
  step_to E r s3 F3. injection E as _ <-. apply signal_woken in F3.
  eapply noted_woken; [|exact F3]. done.
Qed.

(** A computation that touches none of it. *)
Definition quiet {A} (m : ST (world L) A) : Prop := forall s a s', m s = Some (a, s') ->
  wake_fd (phase_of s') = wake_fd (phase_of s) /\
  wakes (os (client_of s')) = wakes (os (client_of s)) /\
  ready (counts (phase_of s')) = ready (counts (phase_of s)) /\
  error (flags_of (phase_of s')) = error (flags_of (phase_of s)).

Lemma quiet_noted {A} (m : ST (world L) A) s a s' : quiet m -> m s = Some (a, s') -> noted s s'.
Proof.
  intros Hm E. destruct (Hm _ _ _ E) as (W & C & R & Er). split; [done|]. intros n Hn Hz.
  exists n. unfold counter in *. rewrite W, C. split_and!; [done|lia|by right].
Qed.

Lemma quiet_ret {A} (a : A) : quiet (mret a).
Proof. by intros s b s' [= _ <-]. Qed.

Lemma quiet_lift {A} (o : option A) : quiet (lift o).
Proof. destruct o; [apply quiet_ret|done]. Qed.

Lemma quiet_vars : quiet vars.
Proof. by intros s a s' [= _ <-]. Qed.

Lemma quiet_update_worker i f : quiet (update_worker i f).
Proof. intros s a s' E. by apply update_worker_spec in E as (w & _ & ->). Qed.

Lemma quiet_clock : quiet (sys_call clock_gettime).
Proof.
  intros s a s' E. unfold sys_call, lib, call, zoom in E.
  pose proof (wakes_clock (os (client_of s))) as Hw.
  destruct (clock_gettime _) as [r o]. by injection E as _ <-.
Qed.

Lemma quiet_lock : quiet (sys_call phase_mutex_lock).
Proof.
  intros s a s' E. unfold sys_call, lib, call, zoom in E.
  pose proof (wakes_lock (os (client_of s))) as Hw.
  destruct (phase_mutex_lock _) as [r o]. by injection E as _ <-.
Qed.

(** A computation of a worker is noted, and keeps the descriptor. *)
Definition notes {A} (m : ST (world L) A) : Prop :=
  forall s a s', m s = Some (a, s') -> 0 <= wake_fd (phase_of s) -> noted s s'.

Lemma quiet_notes {A} (m : ST (world L) A) : quiet m -> notes m.
Proof. intros Hm s a s' E _. by eapply quiet_noted. Qed.

Lemma notes_bind {A B} (m : ST (world L) A) (f : A -> ST (world L) B) :
  notes m -> (forall a, notes (f a)) -> notes (x ← m; f x).
Proof.
  intros Hm Hf s b s' E Hd. step_to E a s1 F. pose proof (Hm _ _ _ F Hd) as N1.
  eapply noted_trans; [exact N1|]. eapply Hf; [exact E|]. by rewrite (proj1 N1).
Qed.

Lemma notes_signal : notes (signal_dispatcher fuel).
Proof. intros s a s' E _. by apply woken_noted, (signal_woken _ a). Qed.

Lemma notes_fail e : notes (fail_phase_locked fuel e).
Proof. intros s a s' E Hd. by eapply woken_noted, fail_woken. Qed.

(** Becoming ready and then signalling. *)
Lemma notes_ready {A} f (g : Z -> ST (world L) A) :
  (forall p, wake_fd (f p) = wake_fd p) -> (forall r, notes (g r)) ->
  notes (update f;; ret ← signal_dispatcher fuel; g ret).
Proof.
  intros Hf Hg s a s' E Hd. step_to E v1 s1 F. injection F as _ <-. step_to E r s2 F2.
  apply signal_woken in F2.
  assert (Hw : woken s s2) by (eapply noted_woken; [|exact F2]; split; [apply Hf|done]).
  apply woken_noted. eapply woken_still; [exact Hw|]. eapply Hg; [exact E|].
  by rewrite (proj1 Hw).
Qed.

Ltac notes_tac :=
  repeat first
    [ apply quiet_notes; first
        [ apply quiet_ret | apply quiet_lift | apply quiet_vars | apply quiet_update_worker
        | apply quiet_clock | apply quiet_lock ]
    | apply notes_fail
    | apply notes_ready; [by intros p|intros ?]
    | match goal with
      | |- notes (mbind _ _) => apply notes_bind; [|intros ?]
      | |- notes (match ?x with _ => _ end) => destruct x
      end ].

Lemma notes_loop i operation : notes (worker_loop fuel i operation).
Proof. unfold worker_loop, worker_issue, worker_exit. notes_tac. Qed.

Lemma notes_gate i : notes (worker_gate fuel i).
Proof.
  unfold worker_gate. apply notes_bind; [notes_tac|intros p].
  destruct (_ && _); [notes_tac|apply notes_loop].
Qed.

Lemma notes_worker i : notes (run_worker fuel i).
Proof.
  unfold run_worker. apply notes_bind; [notes_tac|intros p].
  destruct (workers p !! i) as [w|]; [|notes_tac].
  destruct (thread w) as [| | |operation|]; [notes_tac| | | |notes_tac].
  - apply notes_bind; [notes_tac|intros ret]. destruct (negb _); [notes_tac|].
    apply notes_bind; [|intros _; apply notes_bind; [notes_tac|intros _; apply notes_gate]].
    apply quiet_notes. by intros s a s' [= _ <-].
  - apply notes_gate.
  - destruct (_ && _); [notes_tac|]. apply notes_bind; [notes_tac|intros _]. apply notes_loop.
Qed.

(** C16: no wake-up is lost. Whatever workers run while the dispatcher does not hold
    the lock, and however often: if one of them became ready, or failed the phase,
    since the dispatcher looked, the descriptor [wake_fd] it polls is readable, and
    what was to be read from it before is not gone. *)
Theorem no_lost_wakeup s a s' count :
  yield fuel schedule s = Some (a, s') -> 0 <= wake_fd (phase_of s) ->
  wakes (os (client_of s)) !! wake_fd (phase_of s) = Some count -> 0 <= count ->
  wake_fd (phase_of s') = wake_fd (phase_of s) /\
  exists count', wakes (os (client_of s')) !! wake_fd (phase_of s') = Some count' /\
    count <= count' /\
    (0 < count' \/
     (ready (counts (phase_of s')) = ready (counts (phase_of s)) /\
      error (flags_of (phase_of s')) = error (flags_of (phase_of s)))).
Proof.
  intros E Hd Hc Hz. unfold yield in E.
  set (s0 := World _ _ (S (turn s))) in E.
  assert (Hn : notes (st_iter (run_worker fuel) (schedule (turn s)))).
  { clear E. induction (schedule (turn s)) as [|i l IH]; cbn [st_iter]; [by apply quiet_notes, quiet_ret|].
    apply notes_bind; [apply notes_worker|by intros _]. }
  destruct (Hn _ _ _ E Hd) as [W N]. split; [exact W|].
  destruct (N count Hc Hz) as (n' & Hn' & Hle & D). exists n'. by split_and!.
Qed.

End Wake.

(** A phase of two workers, whose threads wait at the open start gate. *)
Definition demo_gate : world SimThreads.t :=
  let w i := Worker at_gate zero_slot (Timespec 0 0) WORKER_IDLE i 2 0 0 0 in
  World (Client (rtos (client_of demo_world))
           (SimThreads.set_counting {[ 9 := 0 ]} (os (client_of demo_world))))
    (set_flags (Flags true false 0) (set_wake_fd 9
      (set_workers (w 0 :: w 1 :: replicate 6 zero_worker) (initial_phase 2 4 0 5 None)))) 0.

Lemma no_lost_wakeup_witness :
  exists s', yield 3 demo_schedule demo_gate = Some (tt, s') /\
    ready (counts (phase_of s')) = 2 /\
    exists count', wakes (os (client_of s')) !! 9 = Some count' /\ 0 < count'.
Proof.
  assert (Hr : (fun r => ready (counts (phase_of r.2))) <$> yield 3 demo_schedule demo_gate =
    Some 2) by (vm_compute; reflexivity).
  destruct (yield 3 demo_schedule demo_gate) as [[[] s']|] eqn:E; [|done].
  injection Hr as Hr. exists s'. split; [done|]. split; [exact Hr|].
  destruct (no_lost_wakeup 3 demo_schedule demo_gate tt s' 0 E) as (W & n & Hn & _ & Hp);
    [done|by vm_compute|done|].
  rewrite W in Hn. exists n. split; [exact Hn|]. destruct Hp as [Hp|[Hp _]]; [exact Hp|].
  rewrite Hr in Hp. by vm_compute in Hp.
Defined.

(** The self-test of the tool passes on the concrete system: the shares of 1 to
    8 workers cover 0 to 65 operations once each, a corrupted answer is refused, a
    phase of 8 threads without work comes to its end, and a notification that comes
    after the dispatcher has looked ends its wait. *)
Example self_test_passes :
  exists s', run_self_test 30 demo_schedule demo_stack demo_world = Some (0, s').
Proof.
  assert (Hr : fst <$> run_self_test 30 demo_schedule demo_stack demo_world = Some 0)
    by (vm_compute; reflexivity).
  destruct (run_self_test _ _ _ _) as [[r s']|]; [|done]. injection Hr as ->. by exists s'.
Qed.
